(** * The JVMTI assembly capture agent (jvmtiasmgent.c), embedded in Rocq

    The agent is modelled function by function.  Its global state (the
    output file, the file lock), the standard streams and a few logs that
    make its effects observable (metadata queries, storage handed out and
    given back) form a [World]; everything the agent asks of its
    surroundings (the clock, the JVMTI environment, the C library, the
    memory holding generated code) is answered by a [Host].  A function of
    the agent is a computation [M A]: it maps a world to an [outcome]. *)

From Stdlib Require Import ZArith List String Ascii Bool Lia Permutation.
From Stdlib Require Import DecimalString.
Import ListNotations.
Local Open Scope Z_scope.

(** ** Machine data *)

(** A byte is a number in [0, 256); a C string is the bytes before its
    terminating NUL. *)
Definition byte := Z.
Definition cstring := list byte.

Definition INT_MAX : Z := 2147483647.

(** Conversion to [uint32_t] and to [jint] (two's complement). *)
Definition to_uint32 (v : Z) : Z := v mod 2 ^ 32.
Definition to_jint (v : Z) : Z := (v + 2 ^ 31) mod 2 ^ 32 - 2 ^ 31.

Definition strlen (s : cstring) : Z := Z.of_nat (List.length s).

Definition char (c : ascii) : byte := Z.of_nat (nat_of_ascii c).

Definition bytes_of_string (s : string) : cstring :=
  map char (list_ascii_of_string s).

(** The object representation of an [n]-byte integer, least significant
    byte first and most significant byte first. *)
Fixpoint le_bytes (n : nat) (v : Z) : list byte :=
  match n with
  | O => []
  | S n' => v mod 256 :: le_bytes n' (v / 256)
  end.

Definition be_bytes (n : nat) (v : Z) : list byte := rev (le_bytes n v).

(** The unsigned integer whose least-significant-first bytes are [bs]. *)
Fixpoint le_value (bs : list byte) : Z :=
  match bs with
  | [] => 0
  | b :: bs' => b + 256 * le_value bs'
  end.

Definition be_value (bs : list byte) : Z := le_value (rev bs).

(** ** JVMTI types *)

Definition jmethodID := Z.
Definition jclass := Z.

(** The error codes the agent tells apart; every other code is
    [JVMTI_ERROR_other]. *)
Inductive jvmtiError : Type :=
| JVMTI_ERROR_NONE
| JVMTI_ERROR_ABSENT_INFORMATION
| JVMTI_ERROR_NATIVE_METHOD
| JVMTI_ERROR_WRONG_PHASE
| JVMTI_ERROR_other (code : Z).

Definition jvmtiError_eqb (a b : jvmtiError) : bool :=
  match a, b with
  | JVMTI_ERROR_NONE, JVMTI_ERROR_NONE => true
  | JVMTI_ERROR_ABSENT_INFORMATION, JVMTI_ERROR_ABSENT_INFORMATION => true
  | JVMTI_ERROR_NATIVE_METHOD, JVMTI_ERROR_NATIVE_METHOD => true
  | JVMTI_ERROR_WRONG_PHASE, JVMTI_ERROR_WRONG_PHASE => true
  | JVMTI_ERROR_other x, JVMTI_ERROR_other y => x =? y
  | _, _ => false
  end.

Inductive jvmtiCMLRKind : Type :=
| JVMTI_CMLR_DUMMY
| JVMTI_CMLR_INLINE_INFO
| JVMTI_CMLR_other (code : Z).

Definition is_inline_info (k : jvmtiCMLRKind) : bool :=
  match k with
  | JVMTI_CMLR_INLINE_INFO => true
  | _ => false
  end.

Record jvmtiLineNumberEntry : Type := mkLine {
  start_location : Z;
  line_number : Z
}.

Record PCStackInfo : Type := mkPCStackInfo {
  pc : Z;
  numstackframes : Z;
  info_methods : list jmethodID;
  info_bcis : list Z
}.

Record jvmtiCompiledMethodLoadInlineRecord : Type := mkInlineRecord {
  numpcs : Z;
  pcinfo : list PCStackInfo
}.

(** A record of the [compile_info] chain: its header's [kind], and the
    record seen as an inline record, which is what the agent's cast reads
    when the kind is [JVMTI_CMLR_INLINE_INFO].  The chain itself ([next])
    is a list. *)
Record jvmtiCompiledMethodLoadRecordHeader : Type := mkHeader {
  kind : jvmtiCMLRKind;
  as_inline_record : jvmtiCompiledMethodLoadInlineRecord
}.

Record timespec : Type := mkTimespec {
  tv_sec : Z;
  tv_nsec : Z
}.

(** ** Storage *)

(** Every block of storage handed out (by [calloc] or by JVMTI) has a
    number; a pointer to JVMTI-allocated data is the block with what it
    holds, and [None] is the NULL pointer. *)
Record owned (A : Type) : Type := mkOwned {
  block : nat;
  value : A
}.
Arguments mkOwned {A} _ _.
Arguments block {A} _.
Arguments value {A} _.

(** [struct MethodData]; the [next] field is the order of the list the
    records are kept in, [md_block] is the record's own storage. *)
Record MethodData : Type := mkMethodData {
  md_block : nat;
  id : Z;
  method : jmethodID;
  source_file : option (owned cstring);
  method_name : option (owned cstring);
  method_signature : option (owned cstring);
  class_signature : option (owned cstring);
  line_number_table_count : Z;
  line_number_table : option (owned (list jvmtiLineNumberEntry))
}.

(** ** The world *)

(** An open stream: the name it was opened under, the bytes written to it
    and how many of them a call of [fflush] that was complete has pushed
    to the file.  The library may push more of them on its own, when its
    buffer fills, so [f_flushed] is what is known to have reached the
    file, not all that has. *)
Record FILE : Type := mkFILE {
  f_name : string;
  f_data : list byte;
  f_flushed : nat
}.

Inductive metadata_query : Type :=
| QGetMethodName (m : jmethodID)
| QGetMethodDeclaringClass (m : jmethodID)
| QGetClassSignature (c : jclass)
| QGetSourceFileName (c : jclass)
| QGetLineNumberTable (m : jmethodID).

(** A metadata query as it was issued: what was asked, what the runtime
    answered, and whether [file_lock] was held at that moment. *)
Record query_event : Type := mkQuery {
  q_query : metadata_query;
  q_result : jvmtiError;
  q_locked : bool
}.

Record World : Type := mkWorld {
  output_file : option FILE;      (* static FILE* output_file; None is NULL *)
  file_lock : bool;               (* static pthread_mutex_t file_lock; true is held *)
  acquired : nat;                 (* how many times file_lock was taken *)
  stderr : list string;           (* lines printed on the standard error stream *)
  stdout : list string;           (* lines printed on the standard output stream *)
  now : nat;                      (* calls made to the host so far *)
  next_block : nat;               (* blocks of storage handed out so far *)
  released : list nat;            (* blocks given back, oldest first *)
  queries : list query_event;     (* metadata queries issued, oldest first *)
  closed_files : list FILE        (* streams closed with fclose *)
}.

Definition set_output_file (f : option FILE) (w : World) : World :=
  mkWorld f (file_lock w) (acquired w) (stderr w) (stdout w) (now w) (next_block w)
          (released w) (queries w) (closed_files w).

Definition set_file_lock (b : bool) (w : World) : World :=
  mkWorld (output_file w) b (acquired w) (stderr w) (stdout w) (now w) (next_block w)
          (released w) (queries w) (closed_files w).

Definition add_stderr (s : string) (w : World) : World :=
  mkWorld (output_file w) (file_lock w) (acquired w) (stderr w ++ [s]) (stdout w) (now w)
          (next_block w) (released w) (queries w) (closed_files w).

Definition add_stdout (s : string) (w : World) : World :=
  mkWorld (output_file w) (file_lock w) (acquired w) (stderr w) (stdout w ++ [s]) (now w)
          (next_block w) (released w) (queries w) (closed_files w).

Definition advance (w : World) : World :=
  mkWorld (output_file w) (file_lock w) (acquired w) (stderr w) (stdout w) (S (now w))
          (next_block w) (released w) (queries w) (closed_files w).

Definition take_block (w : World) : World :=
  mkWorld (output_file w) (file_lock w) (acquired w) (stderr w) (stdout w) (now w)
          (S (next_block w)) (released w) (queries w) (closed_files w).

Definition add_released (p : nat) (w : World) : World :=
  mkWorld (output_file w) (file_lock w) (acquired w) (stderr w) (stdout w) (now w)
          (next_block w) (released w ++ [p]) (queries w) (closed_files w).

Definition add_query (q : query_event) (w : World) : World :=
  mkWorld (output_file w) (file_lock w) (acquired w) (stderr w) (stdout w) (now w)
          (next_block w) (released w) (queries w ++ [q]) (closed_files w).

Definition add_closed_file (f : FILE) (w : World) : World :=
  mkWorld (output_file w) (file_lock w) (acquired w) (stderr w) (stdout w) (now w)
          (next_block w) (released w) (queries w) (closed_files w ++ [f]).

Definition count_acquired (w : World) : World :=
  mkWorld (output_file w) (file_lock w) (S (acquired w)) (stderr w) (stdout w)
          (now w) (next_block w) (released w) (queries w) (closed_files w).

(** ** Computations *)

(** How a computation ends when it does not return: [abort()], [exit],
    undefined behaviour (a NULL or out-of-bounds access), or a wait on
    [file_lock] that no other thread of the model ends. *)
Inductive stop : Type :=
| Abort
| Exit (status : Z)
| Undefined
| Deadlock.

Inductive outcome (A : Type) : Type :=
| Ok (a : A) (w : World)
| Stop (why : stop) (w : World).
Arguments Ok {A} _ _.
Arguments Stop {A} _ _.

Definition world_of {A} (o : outcome A) : World :=
  match o with
  | Ok _ w => w
  | Stop _ w => w
  end.

Definition M (A : Type) : Type := World -> outcome A.

Definition ret {A} (a : A) : M A := fun w => Ok a w.

Definition bind {A B} (m : M A) (k : A -> M B) : M B :=
  fun w =>
    match m w with
    | Ok a w' => k a w'
    | Stop why w' => Stop why w'
    end.

Notation "x <- m ;; k" := (bind m (fun x => k))
  (at level 61, m at next level, right associativity).
Notation "m ;; k" := (bind m (fun _ => k))
  (at level 61, right associativity).

Definition stop_with {A} (why : stop) : M A := fun w => Stop why w.

Definition modify (f : World -> World) : M unit := fun w => Ok tt (f w).

Definition get {A} (f : World -> A) : M A := fun w => Ok (f w) w.

(** One call to the host: the number of calls made before it. *)
Definition tick : M nat := fun w => Ok (now w) (advance w).

(** [for (int i = 0; i < count; i++) body], where the body may leave the
    loop early: it returns [inl s] to go on with state [s] and [inr r] to
    leave with [r]. *)
Fixpoint for_from {S R : Type} (n : nat) (i : Z)
    (body : Z -> S -> M (S + R)) (s : S) : M (S + R) :=
  match n with
  | O => ret (inl s)
  | Datatypes.S n' =>
      r <- body i s ;;
      match r with
      | inl s' => for_from n' (i + 1) body s'
      | inr e => ret (inr e)
      end
  end.

Definition for_ {S R : Type} (count : Z)
    (body : Z -> S -> M (S + R)) (s : S) : M (S + R) :=
  for_from (Z.to_nat count) 0 body s.

(** [array[i]]; an index outside the array is undefined behaviour. *)
Definition index {A} (array : list A) (i : Z) : M A :=
  match nth_error array (Z.to_nat i) with
  | Some a => if 0 <=? i then ret a else stop_with Undefined
  | None => stop_with Undefined
  end.

(** [for (int i = 0; i < count; i++) body] with no early exit. *)
Fixpoint loop_from {S : Type} (n : nat) (i : Z)
    (body : Z -> S -> M S) (s : S) : M S :=
  match n with
  | O => ret s
  | Datatypes.S n' => s' <- body i s ;; loop_from n' (i + 1) body s'
  end.

Definition loop_ {S : Type} (count : Z) (body : Z -> S -> M S) (s : S) : M S :=
  loop_from (Z.to_nat count) 0 body s.

(** ** The host *)

(** What the surroundings answer.  An answer may depend on the moment of
    the call, given as the number of host calls made before it ([now]), so
    that the runtime may, for instance, enter its shutdown phase between
    two queries about one method. *)
Record Host : Type := mkHost {
  little_endian : bool;           (* the host stores integers least significant byte first *)
  arch : cstring;                 (* JVMTI_ASM_ARCH, fixed by the build *)
  strerror : string;              (* the text strerror gives for the last failure *)
  clock_gettime : nat -> option timespec;
  fwrite_ok : nat -> bool;        (* the write at this moment is complete *)
  fwrite_overrun : nat -> list byte; (* what a write that runs past its object leaves in the stream *)
  fflush_ok : nat -> bool;        (* the flush at this moment is complete *)
  fopen_ok : nat -> string -> bool;
  memory : Z -> byte;             (* the bytes at an address *)
  getpid : Z;
  GetErrorName : jvmtiError -> string;
  GetMethodName : nat -> jmethodID -> jvmtiError * (cstring * cstring);
  GetMethodDeclaringClass : nat -> jmethodID -> jvmtiError * jclass;
  GetClassSignature : nat -> jclass -> jvmtiError * cstring;
  GetSourceFileName : nat -> jclass -> jvmtiError * cstring;
  GetLineNumberTable : nat -> jmethodID -> jvmtiError * list jvmtiLineNumberEntry;
  GetTime : nat -> jvmtiError * Z;
  AddCapabilities : nat -> jvmtiError;
  SetEventCallbacks : nat -> jvmtiError;
  SetEventNotificationMode : nat -> jvmtiError
}.

(** ** File header and section tags *)

Definition filetag : string := "JVMTIASM".
Definition MajorVersion : Z := 1.
Definition MinorVersion : Z := 0.

Definition TAG_VALUE (t : Z) (shift : Z) : Z := Z.shiftl (Z.land t 255) shift.

Definition BUILD_TAG (a b c d : ascii) : Z :=
  Z.lor (Z.lor (Z.lor (TAG_VALUE (char a) 24) (TAG_VALUE (char b) 16))
               (TAG_VALUE (char c) 8))
        (TAG_VALUE (char d) 0).

Definition DynamicCodeTag : Z := BUILD_TAG "D" "Y" "N" "C".
Definition CompiledMethodLoadTag : Z := BUILD_TAG "C" "M" "L" "T".
Definition MethodsTag : Z := BUILD_TAG "M" "T" "H" "T".
Definition DebugInfoTag : Z := BUILD_TAG "D" "E" "B" "I".
Definition CompiledMethodUnloadTag : Z := BUILD_TAG "C" "M" "U" "T".

Definition dquote : string := String (ascii_of_nat 34) EmptyString.

Definition set_id (v : Z) (m : MethodData) : MethodData :=
  mkMethodData (md_block m) v (method m) (source_file m) (method_name m)
    (method_signature m) (class_signature m) (line_number_table_count m)
    (line_number_table m).

Definition set_names (name signature : option (owned cstring))
    (m : MethodData) : MethodData :=
  mkMethodData (md_block m) (id m) (method m) (source_file m) name signature
    (class_signature m) (line_number_table_count m) (line_number_table m).

Definition set_class_signature (s : option (owned cstring))
    (m : MethodData) : MethodData :=
  mkMethodData (md_block m) (id m) (method m) (source_file m) (method_name m)
    (method_signature m) s (line_number_table_count m) (line_number_table m).

Definition set_source_file (s : option (owned cstring))
    (m : MethodData) : MethodData :=
  mkMethodData (md_block m) (id m) (method m) s (method_name m)
    (method_signature m) (class_signature m) (line_number_table_count m)
    (line_number_table m).

Definition set_line_number_table (count : Z)
    (table : option (owned (list jvmtiLineNumberEntry)))
    (m : MethodData) : MethodData :=
  mkMethodData (md_block m) (id m) (method m) (source_file m) (method_name m)
    (method_signature m) (class_signature m) count table.

(** The linear search of [lookup_method]: the record found for the handle,
    if any, and the last record passed ([last]). *)
Fixpoint lookup_method_scan (method' : jmethodID) (current : list MethodData)
    (last : option MethodData) : option MethodData * option MethodData :=
  match current with
  | [] => (None, last)
  | c :: next =>
      if method c =? method' then (Some c, last)
      else lookup_method_scan method' next (Some c)
  end.

(** [strstr]: the offset of the first occurrence of [needle]. *)
Fixpoint strstr (haystack needle : string) : option nat :=
  if String.prefix needle haystack then Some O
  else match haystack with
       | EmptyString => None
       | String _ rest => option_map Datatypes.S (strstr rest needle)
       end.

(** The string a pointer [n] characters into [s] leads to. *)
Fixpoint string_skip (n : nat) (s : string) : string :=
  match n, s with
  | O, _ => s
  | Datatypes.S n', String _ rest => string_skip n' rest
  | Datatypes.S _, EmptyString => EmptyString
  end.

Definition strcat (dest src : string) : string := (dest ++ src)%string.

Definition strncat (dest src : string) (n : nat) : string :=
  (dest ++ String.substring 0 n src)%string.

(** [snprintf(buffer, size, "%d", v)]. *)
Definition snprintf_d (size : nat) (v : Z) : string :=
  String.substring 0 (size - 1) (NilZero.string_of_int (Z.to_int v)).

Notation "' pat <- m ;; k" :=
  (bind m (fun x => match x with pat => k end))
  (at level 61, pat pattern, m at next level, right associativity).

(** ** The agent *)

Section Agent.

Variable host : Host.

(** [report_error]: the diagnostic on the standard error stream, then
    [abort()]. *)
Definition report_error {A : Type} (message : string) : M A :=
  modify (add_stderr ("Error: " ++ message)%string) ;;
  stop_with Abort.

Definition jvmti_report_error {A : Type} (message : string)
    (result : jvmtiError) : M A :=
  report_error (message ++ ": " ++ GetErrorName host result)%string.

(** Storage: [calloc] and JVMTI's allocator hand out the next block;
    [free] and [Deallocate] give a block back. *)
Definition calloc : M nat := fun w => Ok (next_block w) (take_block w).

Definition Allocate {A : Type} (a : A) : M (option (owned A)) :=
  fun w => Ok (Some (mkOwned (next_block w) a)) (take_block w).

Definition free (p : nat) : M unit := modify (add_released p).

Definition Deallocate {A : Type} (p : owned A) : M unit :=
  modify (add_released (block p)).

Definition Deallocate_if {A : Type} (p : option (owned A)) : M unit :=
  match p with
  | Some o => Deallocate o
  | None => ret tt
  end.

Definition free_method (method' : MethodData) : M unit :=
  Deallocate_if (source_file method') ;;
  Deallocate_if (method_name method') ;;
  Deallocate_if (method_signature method') ;;
  Deallocate_if (class_signature method') ;;
  Deallocate_if (line_number_table method') ;;
  free (md_block method').

Definition check_method_error (message : string) (result : jvmtiError)
    (method' : MethodData) : M bool :=
  if negb (jvmtiError_eqb result JVMTI_ERROR_NONE)
     && negb (jvmtiError_eqb result JVMTI_ERROR_NATIVE_METHOD)
     && negb (jvmtiError_eqb result JVMTI_ERROR_ABSENT_INFORMATION)
  then
    if jvmtiError_eqb result JVMTI_ERROR_WRONG_PHASE then
      free_method method' ;;
      ret true
    else
      jvmti_report_error (A := unit) message result ;;
      ret true
  else ret false.

(** The metadata queries.  Each is one call to the host, entered in the
    log with the state of the lock; what it hands back on success is
    storage of the runtime's allocator, and on any other result the
    caller's fields keep the NULL and 0 that [calloc] gave them. *)
Definition log_query (q : metadata_query) (result : jvmtiError) : M unit :=
  fun w => Ok tt (add_query (mkQuery q result (file_lock w)) w).

Definition jvmti_GetMethodName (method' : jmethodID)
    : M (jvmtiError * option (owned cstring) * option (owned cstring)) :=
  t <- tick ;;
  let '(result, (name, signature)) := GetMethodName host t method' in
  log_query (QGetMethodName method') result ;;
  match result with
  | JVMTI_ERROR_NONE =>
      name <- Allocate name ;;
      signature <- Allocate signature ;;
      ret (result, name, signature)
  | _ => ret (result, None, None)
  end.

Definition jvmti_GetMethodDeclaringClass (method' : jmethodID)
    : M (jvmtiError * jclass) :=
  t <- tick ;;
  let '(result, class) := GetMethodDeclaringClass host t method' in
  log_query (QGetMethodDeclaringClass method') result ;;
  ret (result, class).

Definition jvmti_GetClassSignature (class : jclass)
    : M (jvmtiError * option (owned cstring)) :=
  t <- tick ;;
  let '(result, signature) := GetClassSignature host t class in
  log_query (QGetClassSignature class) result ;;
  match result with
  | JVMTI_ERROR_NONE =>
      signature <- Allocate signature ;;
      ret (result, signature)
  | _ => ret (result, None)
  end.

Definition jvmti_GetSourceFileName (class : jclass)
    : M (jvmtiError * option (owned cstring)) :=
  t <- tick ;;
  let '(result, name) := GetSourceFileName host t class in
  log_query (QGetSourceFileName class) result ;;
  match result with
  | JVMTI_ERROR_NONE =>
      name <- Allocate name ;;
      ret (result, name)
  | _ => ret (result, None)
  end.

Definition jvmti_GetLineNumberTable (method' : jmethodID)
    : M (jvmtiError * Z * option (owned (list jvmtiLineNumberEntry))) :=
  t <- tick ;;
  let '(result, table) := GetLineNumberTable host t method' in
  log_query (QGetLineNumberTable method') result ;;
  match result with
  | JVMTI_ERROR_NONE =>
      table' <- Allocate table ;;
      ret (result, Z.of_nat (List.length table), table')
  | _ => ret (result, 0, None)
  end.

(** [lookup_method]: the record for the handle (None is NULL), and the
    list and count as the call leaves them behind [methods] and
    [methods_count].  The [int] arithmetic on ids and counts is that of
    the integers: it overflows, which is undefined in C, only past 2^31
    methods in one event. *)
Definition lookup_method (method' : jmethodID) (methods : list MethodData)
    (methods_count : Z) : M (option MethodData * list MethodData * Z) :=
  match lookup_method_scan method' methods None with
  | (Some current, _) => ret (Some current, methods, methods_count)
  | (None, last) =>
      b <- calloc ;;
      let current := mkMethodData b 0 method' None None None None 0 None in
      '(result, name, signature) <- jvmti_GetMethodName method' ;;
      let current := set_names name signature current in
      stop <- check_method_error "GetMethodName" result current ;;
      if stop : bool then ret (None, methods, methods_count) else
      '(result, class) <- jvmti_GetMethodDeclaringClass method' ;;
      stop <- check_method_error "GetMethodDeclaringClass" result current ;;
      if stop : bool then ret (None, methods, methods_count) else
      '(result, signature) <- jvmti_GetClassSignature class ;;
      let current := set_class_signature signature current in
      stop <- check_method_error "GetClassSignature" result current ;;
      if stop : bool then ret (None, methods, methods_count) else
      '(result, name) <- jvmti_GetSourceFileName class ;;
      let current := set_source_file name current in
      stop <- check_method_error "GetSourceFileName" result current ;;
      if stop : bool then ret (None, methods, methods_count) else
      '(result, count, table) <- jvmti_GetLineNumberTable method' ;;
      let current := set_line_number_table count table current in
      stop <- check_method_error "GetLineNumberTable" result current ;;
      if stop : bool then ret (None, methods, methods_count) else
      match methods, last with
      | [], _ =>
          (* Set the head of the list *)
          ret (Some current, [current], methods_count + 1)
      | _ :: _, Some last =>
          (* Add the current entry onto the end of the list *)
          let current := set_id (id last + 1) current in
          ret (Some current, methods ++ [current], methods_count + 1)
      | _ :: _, None => stop_with Undefined
      end
  end.

(** The mutex: locking a free lock takes it; a held lock is waited for.
    Unlocking a lock that is not held is undefined. *)
Definition pthread_mutex_lock : M Z :=
  fun w => if file_lock w then Stop Deadlock w
           else Ok 0 (count_acquired (set_file_lock true w)).

Definition pthread_mutex_unlock : M Z :=
  fun w => if file_lock w then Ok 0 (set_file_lock false w)
           else Stop Undefined w.

Definition lock_output_file : M unit :=
  err <- pthread_mutex_lock ;;
  if negb (err =? 0) then
    report_error ("Error locking file: " ++ strerror host)%string
  else ret tt.

Definition unlock_output_file : M unit :=
  err <- pthread_mutex_unlock ;;
  if negb (err =? 0) then
    report_error ("Error unlocking file: " ++ strerror host)%string
  else ret tt.

Definition usage_message : string :=
  "JVMTI assembly capture agent
Usage: java -agentpath=libjvmtiasmagent.so=<filename>
    The filename argument is non-optional and may contain '%p'
    which will be replaced by the pid of the current process.".

Definition usage {A : Type} (message : option string) : M A :=
  match message with
  | Some m => modify (add_stdout ("Error: " ++ m)%string)
  | None => ret tt
  end ;;
  modify (add_stdout usage_message) ;;
  stop_with (Exit 1).

(** *** Writing to the output file *)

(** [fwrite(data, size, 1, output_file)], where [data] is the [size] bytes
    the pointer leads to and [size] is the [int] the caller passes: 1 when
    the bytes were written, 0 when they were not (nothing is written
    then) or when [size] is 0.  A negative [size] is a request for nearly
    [SIZE_MAX] bytes: the write runs past the object, leaves in the
    stream what it got hold of before it failed, and gives 0.  A NULL
    stream is undefined behaviour. *)
Definition fwrite (data : list byte) (size : Z) : M Z :=
  fun w =>
    match output_file w with
    | None => Stop Undefined w
    | Some f =>
        if size <? 0 then
          Ok 0 (advance (set_output_file
                  (Some (mkFILE (f_name f)
                           (f_data f ++ fwrite_overrun host (now w))
                           (f_flushed f))) w))
        else if (0 <? size) && fwrite_ok host (now w) then
          Ok 1 (advance (set_output_file
                  (Some (mkFILE (f_name f) (f_data f ++ data) (f_flushed f))) w))
        else Ok 0 (advance w)
    end.

(** [fflush(output_file)].  The flush may fail: what the stream holds is
    then not known to have reached the file, and [f_flushed] stays where
    it was.  The function gives 0 or EOF; every caller drops the result,
    so it is not returned here. *)
Definition fflush : M unit :=
  fun w =>
    match output_file w with
    | None => Ok tt w
    | Some f =>
        if fflush_ok host (now w) then
          Ok tt (advance (set_output_file
                   (Some (mkFILE (f_name f) (f_data f)
                            (List.length (f_data f)))) w))
        else Ok tt (advance w)
    end.

Definition write_or_fail (data : list byte) (bytes : Z) : M unit :=
  n <- fwrite data bytes ;;
  if negb (n =? 1) then
    report_error ("failed to write bytes: " ++ strerror host)%string
  else ret tt.

(** [htonl]: the number whose representation on the host is [x], most
    significant byte first. *)
Definition htonl (x : Z) : Z :=
  if little_endian host then le_value (be_bytes 4 x) else x.

(** The bytes of an [n]-byte integer object in the host's memory. *)
Definition object_bytes (n : nat) (v : Z) : list byte :=
  if little_endian host then le_bytes n v else be_bytes n v.

Definition write_jint (value : Z) : M unit :=
  let value := to_jint (htonl (to_uint32 value)) in
  write_or_fail (object_bytes 4 value) 4.

Definition write_unsigned_jlong (value : Z) : M unit :=
  if negb (1 =? htonl 1) then
    (* There's no platform independent htonll so swap it manually *)
    let lo := to_jint value in
    let hi := to_jint (Z.shiftr value 32) in
    write_jint hi ;;
    write_jint lo
  else
    (* native order is same as network order *)
    write_or_fail (object_bytes 8 value) 8.

Definition write_string (str : option cstring) (message : option string)
    : M unit :=
  str <- match str with
         | None =>
             report_error ("Unexpected NULL string for " ++ dquote ++
                           match message with Some m => m | None => "(null)" end
                           ++ dquote)%string
         | Some s => ret s
         end ;;
  let full_len := strlen str in
  (* We could support full 64 bit length strings but that seems kind of pointless. *)
  (if INT_MAX <? full_len then
     report_error "String length is longer than an int"
   else ret tt) ;;
  let len := to_jint full_len in
  write_jint len ;;
  if 0 <? len then write_or_fail str len else ret tt.

Definition write_string_or_null (str : option cstring) : M unit :=
  match str with
  | None =>
      (* 0 length means the empty string so use -1 for an actual NULL *)
      write_jint (-1)
  | Some _ => write_string str None
  end.

Definition get_timestamp : M timespec :=
  t <- tick ;;
  match clock_gettime host t with
  | Some ts => ret ts
  | None =>
      report_error
        ("Error while writing timestamp: clock_gettime " ++ strerror host)%string
  end.

Definition write_timestamp (ts : timespec) : M unit :=
  write_unsigned_jlong (tv_sec ts) ;;
  write_unsigned_jlong (tv_nsec ts).

Definition pointee {A : Type} (p : option (owned A)) : option A :=
  option_map value p.

(** The [bytes] bytes of memory at [addr]. *)
Definition load (addr : Z) (bytes : Z) : list byte :=
  map (fun k => memory host (addr + Z.of_nat k)) (seq 0 (Z.to_nat bytes)).

Definition write_file_header : M unit :=
  write_or_fail (bytes_of_string filetag) 8 ;;
  write_jint MajorVersion ;;
  write_jint MinorVersion ;;
  write_string (Some (arch host)) (Some "architecture"%string) ;;
  t <- tick ;;
  let '(error, nanos) := GetTime host t in
  (if negb (jvmtiError_eqb error JVMTI_ERROR_NONE) then
     jvmti_report_error "GetTime" error
   else ret tt) ;;
  (* Record the relationship between the Java times and our timestamp. *)
  timestamp <- get_timestamp ;;
  write_timestamp timestamp ;;
  write_unsigned_jlong nanos.

Definition compiledMethodUnload (method' : jmethodID) (code_addr : Z) : M unit :=
  timestamp <- get_timestamp ;;
  lock_output_file ;;
  f <- get output_file ;;
  match f with
  | Some _ =>
      write_jint CompiledMethodUnloadTag ;;
      write_timestamp timestamp ;;
      write_unsigned_jlong code_addr ;;
      fflush
  | None => ret tt
  end ;;
  unlock_output_file.

(** The entries of one method's line number table (the inner loop of the
    method table). *)
Definition write_line_number_table (current : MethodData) : M unit :=
  loop_ (line_number_table_count current)
    (fun i _ =>
       entry <- index (match line_number_table current with
                       | Some t => value t
                       | None => []
                       end) i ;;
       write_unsigned_jlong (start_location entry) ;;
       write_jint (line_number entry))
    tt.

(** One method of the method table. *)
Definition write_method (current : MethodData) : M unit :=
  write_string (pointee (class_signature current)) (Some "class_signature"%string) ;;
  write_string (pointee (method_name current)) (Some "method_name"%string) ;;
  write_string (pointee (method_signature current)) (Some "method_signature"%string) ;;
  write_string_or_null (pointee (source_file current)) ;;
  write_jint (line_number_table_count current) ;;
  write_line_number_table current.

(** [for (current = methods; current != NULL; current = current->next)]. *)
Fixpoint write_methods (current : list MethodData) : M unit :=
  match current with
  | [] => ret tt
  | c :: next => write_method c ;; write_methods next
  end.

(** One stack frame of the debug information: the method is looked up
    again, in the function's own [methods] and [methods_count]. *)
Definition write_frame (info : PCStackInfo) (j : Z)
    (st : list MethodData * Z) : M (list MethodData * Z) :=
  let '(methods, methods_count) := st in
  handle <- index (info_methods info) j ;;
  '(method', methods, methods_count) <-
     lookup_method handle methods methods_count ;;
  match method' with
  | None => stop_with Undefined
  | Some method' =>
      write_jint (id method') ;;
      bci <- index (info_bcis info) j ;;
      write_jint bci ;;
      ret (methods, methods_count)
  end.

Definition write_pc (inline_records : jvmtiCompiledMethodLoadInlineRecord)
    (i : Z) (st : list MethodData * Z) : M (list MethodData * Z) :=
  info <- index (pcinfo inline_records) i ;;
  write_unsigned_jlong (pc info) ;;
  write_jint (numstackframes info) ;;
  loop_ (numstackframes info) (write_frame info) st.

(** [write_method_load_event].  The function works on its own copies of
    [methods] and [methods_count]; it returns the list its copy ends as,
    because a record appended to a list that is not empty is linked into
    the caller's list too. *)
Definition write_method_load_event (timestamp : timespec) (code_size : Z)
    (code_addr : Z) (methods_count : Z) (methods : list MethodData)
    (inline_records : option jvmtiCompiledMethodLoadInlineRecord)
    : M (list MethodData) :=
  lock_output_file ;;
  f <- get output_file ;;
  methods <-
    match f with
    | Some _ =>
        write_jint CompiledMethodLoadTag ;;
        write_timestamp timestamp ;;
        write_unsigned_jlong code_addr ;;
        write_jint code_size ;;
        write_or_fail (load code_addr code_size) code_size ;;
        (* Emit all the methods seen *)
        write_jint MethodsTag ;;
        write_jint methods_count ;;
        write_methods methods ;;
        (* Record the debug information with reference back to the
           previously recorded methods *)
        write_jint DebugInfoTag ;;
        methods <-
          match inline_records with
          | Some inline_records =>
              write_jint (numpcs inline_records) ;;
              st <- loop_ (numpcs inline_records) (write_pc inline_records)
                      (methods, methods_count) ;;
              ret (fst st)
          | None =>
              write_jint 0 ;;
              ret methods
          end ;;
        fflush ;;
        ret methods
    | None => ret methods
    end ;;
  unlock_output_file ;;
  ret methods.

(** The two loops of [compiledMethodLoad] over an inline record.  The
    state is [methods] and [methods_count]; [inr methods] is the jump to
    [cleanup]. *)
Definition collect_frame (info : PCStackInfo) (j : Z)
    (st : list MethodData * Z)
    : M (list MethodData * Z + list MethodData) :=
  let '(methods, methods_count) := st in
  handle <- index (info_methods info) j ;;
  '(found, methods, methods_count) <-
     lookup_method handle methods methods_count ;;
  match found with
  | None =>
      (* A JVMTI_ERROR_WRONG_PHASE occurred during lookup so just skip
         this operation *)
      ret (inr methods)
  | Some _ => ret (inl (methods, methods_count))
  end.

Definition collect_pc (inline_records : jvmtiCompiledMethodLoadInlineRecord)
    (i : Z) (st : list MethodData * Z)
    : M (list MethodData * Z + list MethodData) :=
  info <- index (pcinfo inline_records) i ;;
  for_ (numstackframes info) (collect_frame info) st.

(** [while (header)]: the chain of [compile_info], NULL being the empty
    chain.  [inl] carries [inline_records] (None is NULL), [methods] and
    [methods_count] to the call of [write_method_load_event]. *)
Fixpoint scan_compile_info
    (header : list jvmtiCompiledMethodLoadRecordHeader)
    (methods : list MethodData) (methods_count : Z)
    : M (option jvmtiCompiledMethodLoadInlineRecord * list MethodData * Z
         + list MethodData) :=
  match header with
  | [] => ret (inl (None, methods, methods_count))
  | h :: next =>
      if is_inline_info (kind h) then
        let inline_records := as_inline_record h in
        r <- for_ (numpcs inline_records) (collect_pc inline_records)
               (methods, methods_count) ;;
        match r with
        | inl (methods, methods_count) =>
            (* break *)
            ret (inl (Some inline_records, methods, methods_count))
        | inr methods => ret (inr methods)
        end
      else scan_compile_info next methods methods_count
  end.

(** The [cleanup] loop. *)
Fixpoint release_methods (methods : list MethodData) : M unit :=
  match methods with
  | [] => ret tt
  | m :: next => free_method m ;; release_methods next
  end.

(** [compiledMethodLoad]; the address location map ([map_length], [map])
    is not used by the function and is left out. *)
Definition compiledMethodLoad (method' : jmethodID) (code_size : Z)
    (code_addr : Z)
    (compile_info : list jvmtiCompiledMethodLoadRecordHeader) : M unit :=
  (* Capture the timestamp early so that the timestamp is close to the
     actual time. *)
  timestamp <- get_timestamp ;;
  '(found, methods, methods_count) <- lookup_method method' [] 0 ;;
  methods <-
    match found with
    | None => ret methods
    | Some _ =>
        r <- scan_compile_info compile_info methods methods_count ;;
        match r with
        | inr methods => ret methods
        | inl (inline_records, methods, methods_count) =>
            written <- write_method_load_event timestamp code_size code_addr
                         methods_count methods inline_records ;;
            ret (match methods with
                 | [] => []
                 | _ :: _ => written
                 end)
        end
    end ;;
  (* Release the method information that was collected *)
  release_methods methods.

Definition dynamicCodeGenerated (name : option cstring) (code_addr : Z)
    (code_size : Z) : M unit :=
  timestamp <- get_timestamp ;;
  lock_output_file ;;
  f <- get output_file ;;
  match f with
  | Some _ =>
      write_jint DynamicCodeTag ;;
      write_timestamp timestamp ;;
      write_string name (Some "dynamic code name"%string) ;;
      write_unsigned_jlong code_addr ;;
      write_jint code_size ;;
      write_or_fail (load code_addr code_size) code_size ;;
      fflush
  | None => ret tt
  end ;;
  unlock_output_file.

(** *** Attach and detach *)

Definition fopen (filename : string) : M (option FILE) :=
  t <- tick ;;
  if fopen_ok host t filename then ret (Some (mkFILE filename [] 0))
  else ret None.

Definition jvmti_call (answer : nat -> jvmtiError) (message : string)
    : M unit :=
  t <- tick ;;
  let error := answer t in
  if negb (jvmtiError_eqb error JVMTI_ERROR_NONE) then
    jvmti_report_error message error
  else ret tt.

(** The name of the file [Agent_OnLoad] opens, and the storage it took for
    it, if any (lines 512 to 524). *)
Definition malloc : M nat := calloc.

Definition output_filename (options : string) : M (string * option nat) :=
  let filename := options in
  match strstr options "%p" with
  | Some pid_location =>
      let pid := getpid host in
      let buffer := snprintf_d 32 pid in
      name_block <- malloc ;;
      let name := EmptyString in
      let name := strncat name options pid_location in
      let name := strcat name buffer in
      let name := strcat name (string_skip (pid_location + 2) options) in
      ret (name, Some name_block)
  | None => ret (filename, None)
  end.

(** [Agent_OnLoad] with the JVMTI environment at hand: the call of
    [GetEnv] at line 471, whose result the function does not look at, is
    taken to have set [jvmti]; were it to fail, [jvmti] would stay NULL
    and the call through it in line 480 would be undefined.  Filling in
    the capabilities and the callbacks is left to the host. *)
Definition Agent_OnLoad (options : option string) : M Z :=
  options <- match options with
             | None => usage (Some "Must specify an output file name"%string)
             | Some o => ret o
             end ;;
  (if String.eqb options "-h" || String.eqb options "--help" then usage None
   else ret tt) ;;
  (* Configure the required capabilities *)
  jvmti_call (AddCapabilities host) "AddCapabilities" ;;
  (* Acquire the file lock early *)
  lock_output_file ;;
  jvmti_call (SetEventCallbacks host) "SetEventCallbacks" ;;
  jvmti_call (SetEventNotificationMode host)
    "SetEventNotificationMode JVMTI_EVENT_COMPILED_METHOD_UNLOAD" ;;
  jvmti_call (SetEventNotificationMode host)
    "SetEventNotificationMode JVMTI_EVENT_COMPILED_METHOD_LOAD" ;;
  jvmti_call (SetEventNotificationMode host)
    "SetEventNotificationMode JVMTI_EVENT_DYNAMIC_CODE_GENERATED" ;;
  '(filename, name_block) <- output_filename options ;;
  f <- fopen filename ;;
  modify (set_output_file f) ;;
  match f with
  | None => report_error ("Error opening output file: " ++ strerror host)%string
  | Some _ => ret tt
  end ;;
  match name_block with
  | Some b => free b
  | None => ret tt
  end ;;
  write_file_header ;;
  fflush ;;
  (* Everything is setup so release the lock *)
  unlock_output_file ;;
  ret 0.

Definition fclose : M unit :=
  fun w =>
    match output_file w with
    | None => Stop Undefined w
    | Some f => Ok tt (add_closed_file f w)
    end.

Definition Agent_OnUnload : M unit :=
  lock_output_file ;;
  fclose ;;
  modify (set_output_file None) ;;
  unlock_output_file.

End Agent.

(** ** The layout of the capture file

    The sections of a record as sequences of bytes, all integers most
    significant byte first, written after the description of the capture
    file format in the specification (External interfaces): what the
    agent writes is compared with these. *)

Definition len_str (s : cstring) : list byte := be_bytes 4 (strlen s) ++ s.

Definition nullable_str (s : option cstring) : list byte :=
  match s with
  | None => be_bytes 4 (-1)
  | Some s => len_str s
  end.

Definition line_bytes (e : jvmtiLineNumberEntry) : list byte :=
  be_bytes 8 (start_location e) ++ be_bytes 4 (line_number e).

Definition string_of (s : option (owned cstring)) : cstring :=
  match s with
  | Some o => value o
  | None => []
  end.

Definition table_of (m : MethodData) : list jvmtiLineNumberEntry :=
  match line_number_table m with
  | Some t => value t
  | None => []
  end.

(** One entry of the method table. *)
Definition method_bytes (m : MethodData) : list byte :=
  len_str (string_of (class_signature m)) ++
  len_str (string_of (method_name m)) ++
  len_str (string_of (method_signature m)) ++
  nullable_str (pointee (source_file m)) ++
  be_bytes 4 (line_number_table_count m) ++
  flat_map line_bytes
    (firstn (Z.to_nat (line_number_table_count m)) (table_of m)).

(** One stack frame of the debug information: a method id and a bytecode
    index. *)
Record frame : Type := mkFrame {
  frame_id : Z;
  frame_bci : Z
}.

(** The frames recorded for one program counter. *)
Record frame_group : Type := mkGroup {
  group_pc : Z;
  group_count : Z;
  group_frames : list frame
}.

Definition frame_bytes (f : frame) : list byte :=
  be_bytes 4 (frame_id f) ++ be_bytes 4 (frame_bci f).

Definition group_bytes (g : frame_group) : list byte :=
  be_bytes 8 (group_pc g) ++ be_bytes 4 (group_count g) ++
  flat_map frame_bytes (group_frames g).

(** A CMLT record: the code, the method table (MTHT) with its count, and
    the debug information (DEBI) with its count. *)
Definition cmlt_bytes (timestamp : timespec) (code_addr code_size : Z)
    (code : list byte) (method_count : Z) (table : list MethodData)
    (group_count : Z) (groups : list frame_group) : list byte :=
  be_bytes 4 CompiledMethodLoadTag ++
  be_bytes 8 (tv_sec timestamp) ++ be_bytes 8 (tv_nsec timestamp) ++
  be_bytes 8 code_addr ++ be_bytes 4 code_size ++ code ++
  be_bytes 4 MethodsTag ++ be_bytes 4 method_count ++
  flat_map method_bytes table ++
  be_bytes 4 DebugInfoTag ++ be_bytes 4 group_count ++
  flat_map group_bytes groups.

(** A DYNC record. *)
Definition dync_bytes (timestamp : timespec) (name : cstring)
    (code_addr code_size : Z) (code : list byte) : list byte :=
  be_bytes 4 DynamicCodeTag ++
  be_bytes 8 (tv_sec timestamp) ++ be_bytes 8 (tv_nsec timestamp) ++
  len_str name ++
  be_bytes 8 code_addr ++ be_bytes 4 code_size ++ code.

(** ** Relations between worlds *)

Definition is_byte (b : Z) : Prop := 0 <= b < 256.

(** Every write to the output file is complete. *)
Definition io_ok (host : Host) : Prop := forall t, fwrite_ok host t = true.

(** Every flush of the output file is complete. *)
Definition flush_ok (host : Host) : Prop := forall t, fflush_ok host t = true.

(** The outcome [o] satisfies [Q] when it returns and [E] when it stops. *)
Definition outcome_sat {A : Type} (o : outcome A)
    (Q : A -> World -> Prop) (E : World -> Prop) : Prop :=
  match o with
  | Ok a w => Q a w
  | Stop _ w => E w
  end.

(** [w'] is [w] after the bytes [bs] were added to the open output file
    and nothing else was done. *)
Record wrote (bs : list byte) (w w' : World) : Prop := mkWrote {
  wrote_file : exists f f',
      output_file w = Some f /\ output_file w' = Some f' /\
      f_name f' = f_name f /\ f_data f' = f_data f ++ bs;
  wrote_lock : file_lock w' = file_lock w;
  wrote_acquired : acquired w' = acquired w;
  wrote_stderr : stderr w' = stderr w;
  wrote_stdout : stdout w' = stdout w;
  wrote_blocks : next_block w' = next_block w;
  wrote_released : released w' = released w;
  wrote_queries : queries w' = queries w;
  wrote_closed : closed_files w' = closed_files w
}.

(** Between [w] and [w'] the output file kept its name, and the lock, the
    storage and the query log were left alone. *)
Record quiet (w w' : World) : Prop := mkQuiet {
  quiet_name : option_map f_name (output_file w') = option_map f_name (output_file w);
  quiet_lock : file_lock w' = file_lock w;
  quiet_acquired : acquired w' = acquired w;
  quiet_stdout : stdout w' = stdout w;
  quiet_blocks : next_block w' = next_block w;
  quiet_released : released w' = released w;
  quiet_queries : queries w' = queries w;
  quiet_closed : closed_files w' = closed_files w
}.

(** The blocks of storage a method record holds, in the order
    [free_method] gives them back. *)
Definition block_of {A : Type} (p : option (owned A)) : list nat :=
  match p with
  | Some o => [block o]
  | None => []
  end.

Definition method_blocks (m : MethodData) : list nat :=
  block_of (source_file m) ++ block_of (method_name m) ++
  block_of (method_signature m) ++ block_of (class_signature m) ++
  block_of (line_number_table m) ++ [md_block m].

Definition blocks_of (ms : list MethodData) : list nat :=
  flat_map method_blocks ms.

(** The world after the blocks [bs] were given back, in this order. *)
Definition release_all (bs : list nat) (w : World) : World :=
  fold_left (fun w p => add_released p w) bs w.

(** The blocks handed out between [w] and [w']. *)
Definition blocks_between (w w' : World) : list nat :=
  seq (next_block w) (next_block w' - next_block w).

Definition unlocked_query (w : World) (q : query_event) : Prop :=
  q_locked q = file_lock w.

Definition shutdown_query (q : query_event) : Prop :=
  q_result q = JVMTI_ERROR_WRONG_PHASE.

(** Between [w] and [w'] metadata queries were made and nothing else: the
    output file, the lock and the streams are as they were, nothing was
    given back, every query was made with the lock as [w] has it, and
    none met the shutdown of the runtime. *)
Record progressed (w w' : World) : Prop := mkProgressed {
  pr_file : output_file w' = output_file w;
  pr_lock : file_lock w' = file_lock w;
  pr_acquired : acquired w' = acquired w;
  pr_stderr : stderr w' = stderr w;
  pr_stdout : stdout w' = stdout w;
  pr_closed : closed_files w' = closed_files w;
  pr_released : released w' = released w;
  pr_queries : exists qs,
      queries w' = queries w ++ qs /\
      Forall (unlocked_query w) qs /\
      Forall (fun q => ~ shutdown_query q) qs;
  pr_grow : (next_block w <= next_block w')%nat
}.

(** Metadata was resolved between [w] and [w']: the list of records grew
    from [ms] to [ms'], and the storage taken is the storage of the new
    records. *)
Definition collected (ms : list MethodData) (w : World)
    (ms' : list MethodData) (w' : World) : Prop :=
  progressed w w' /\
  exists extra,
    ms' = ms ++ extra /\
    Permutation (blocks_of extra) (blocks_between w w').

(** Between [w] and [w'] a query met the shutdown of the runtime: as
    [collected], but the storage taken is the storage of the new records
    together with what was given back. *)
Record abandoned (ms : list MethodData) (w : World)
    (ms' : list MethodData) (w' : World) : Prop := mkAbandoned {
  ab_file : output_file w' = output_file w;
  ab_lock : file_lock w' = file_lock w;
  ab_acquired : acquired w' = acquired w;
  ab_stderr : stderr w' = stderr w;
  ab_stdout : stdout w' = stdout w;
  ab_closed : closed_files w' = closed_files w;
  ab_queries : exists qs,
      queries w' = queries w ++ qs /\
      Forall (unlocked_query w) qs /\
      Exists shutdown_query qs;
  ab_grow : (next_block w <= next_block w')%nat;
  ab_methods : exists extra given_back,
      ms' = ms ++ extra /\
      released w' = released w ++ given_back /\
      Permutation (blocks_of extra ++ given_back) (blocks_between w w')
}.

(** Resolution stopped between [w] and [w'] (a fatal error, undefined
    behaviour): no query met the shutdown of the runtime. *)
Record broke_off (w w' : World) : Prop := mkBrokeOff {
  bo_file : output_file w' = output_file w;
  bo_lock : file_lock w' = file_lock w;
  bo_acquired : acquired w' = acquired w;
  bo_closed : closed_files w' = closed_files w;
  bo_queries : exists qs,
      queries w' = queries w ++ qs /\
      Forall (unlocked_query w) qs /\
      Forall (fun q => ~ shutdown_query q) qs
}.

(** Record [i] of the list has id [i]. *)
Definition ids_in_order (ms : list MethodData) : Prop :=
  forall i r, nth_error ms i = Some r -> id r = Z.of_nat i.

(** Every method of every stack frame the loops over [inline_records]
    visit has a record in [ms]. *)
Definition resolved (ms : list MethodData)
    (inline_records : jvmtiCompiledMethodLoadInlineRecord) : Prop :=
  forall i info j handle,
    0 <= i < numpcs inline_records ->
    nth_error (pcinfo inline_records) (Z.to_nat i) = Some info ->
    0 <= j < numstackframes info ->
    nth_error (info_methods info) (Z.to_nat j) = Some handle ->
    In handle (map method ms).

(** The computation [m] returns from [w], and what it returns satisfies [Q]. *)
Definition runs {A : Type} (m : M A) (w : World) (Q : A -> World -> Prop) : Prop :=
  exists a w', m w = Ok a w' /\ Q a w'.

(** One metadata query took the world from [w] to [w']: it is the last
    entry of the log, with [result] and the lock as [w] has it; the
    storage it handed out is [bs], and nothing else changed. *)
Definition stage (w w' : World) (result : jvmtiError) (bs : list nat) : Prop :=
  output_file w' = output_file w /\
  file_lock w' = file_lock w /\
  acquired w' = acquired w /\
  stderr w' = stderr w /\
  stdout w' = stdout w /\
  closed_files w' = closed_files w /\
  released w' = released w /\
  (exists q, queries w' = queries w ++ [mkQuery q result (file_lock w)]) /\
  next_block w' = (next_block w + List.length bs)%nat /\
  bs = seq (next_block w) (List.length bs).

(** The methods of the frames of [info] before frame [j] have records in
    [ms]; the frames of the program counters of [inline_records] before
    program counter [i] have. *)
Definition frames_resolved (ms : list MethodData) (info : PCStackInfo)
    (j : Z) : Prop :=
  forall j' handle,
    0 <= j' < j ->
    nth_error (info_methods info) (Z.to_nat j') = Some handle ->
    In handle (map method ms).

Definition pcs_resolved (ms : list MethodData)
    (inline_records : jvmtiCompiledMethodLoadInlineRecord) (i : Z) : Prop :=
  forall i' info,
    0 <= i' < i ->
    nth_error (pcinfo inline_records) (Z.to_nat i') = Some info ->
    frames_resolved ms info (numstackframes info).

(** The list and count [st] at [w'] come from the list [ms] and count
    [count] at [w] by resolving metadata: ids stay in order, and the count
    grew as the list did. *)
Definition tracked (ms : list MethodData) (count : Z) (w : World)
    (st : list MethodData * Z) (w' : World) : Prop :=
  collected ms w (fst st) w' /\
  (ids_in_order ms -> ids_in_order (fst st)) /\
  snd st - count = Z.of_nat (List.length (fst st)) - Z.of_nat (List.length ms).

(** The method id of a frame is the id of a record of [ms]. *)
Definition frame_of (ms : list MethodData) (f : frame) : Prop :=
  exists r, In r ms /\ frame_id f = id r.

Definition group_of (ms : list MethodData) (g : frame_group) : Prop :=
  Forall (frame_of ms) (group_frames g).

(** ** What a compiled method load event leaves behind *)

(** What the log of queries gained between [w] and [w']. *)
Definition new_queries (w w' : World) (qs : list query_event) : Prop :=
  queries w' = queries w ++ qs.

(** The event was abandoned: a query met the shutdown of the runtime, and
    neither the output file nor the lock was touched. *)
Definition event_abandoned (w w' : World) (qs : list query_event) : Prop :=
  Exists shutdown_query qs /\
  output_file w' = output_file w /\
  acquired w' = acquired w.

(** The event was written: no query met the shutdown of the runtime, the
    lock was taken once, and an open output file gained one CMLT record
    whose method table is the list of records [ms], in the order of their
    ids and beginning with the method that was compiled, and whose frames
    refer to records of [ms]. *)
Definition event_written (host : Host) (method' : jmethodID)
    (code_size code_addr : Z) (w w' : World) (qs : list query_event) : Prop :=
  Forall (fun q => ~ shutdown_query q) qs /\
  acquired w' = S (acquired w) /\
  exists timestamp ms,
    clock_gettime host (now w) = Some timestamp /\
    ids_in_order ms /\
    (exists r, nth_error ms 0 = Some r /\ method r = method') /\
    match output_file w with
    | None => output_file w' = None
    | Some f =>
        exists f' n gs,
          output_file w' = Some f' /\ f_name f' = f_name f /\
          Forall (group_of ms) gs /\
          f_data f' = f_data f ++
            cmlt_bytes timestamp code_addr code_size
              (load host code_addr code_size)
              (Z.of_nat (List.length ms)) ms n gs
    end.

(** The handler returned: the lock is free, nothing was printed, every
    query was made without the lock, and the storage taken since [w] is
    the storage given back since. *)
Definition event_done (host : Host) (method' : jmethodID)
    (code_size code_addr : Z) (w w' : World) : Prop :=
  file_lock w' = false /\
  closed_files w' = closed_files w /\
  stderr w' = stderr w /\
  exists qs given_back,
    new_queries w w' qs /\
    Forall (fun q => q_locked q = false) qs /\
    released w' = released w ++ given_back /\
    Permutation given_back (blocks_between w w') /\
    (event_abandoned w w' qs \/
     event_written host method' code_size code_addr w w' qs).

(** The handler stopped: every query was made without the lock and none
    met the shutdown of the runtime; the lock was not taken, or it was
    and the output file was open. *)
Definition event_stopped (w w' : World) : Prop :=
  (exists qs,
     new_queries w w' qs /\
     Forall (fun q => q_locked q = false) qs /\
     Forall (fun q => ~ shutdown_query q) qs) /\
  (acquired w' = acquired w \/
   acquired w' = S (acquired w) /\ output_file w <> None).

(** The handler took the lock on a closed output file and gave it back:
    there is still no output file, nothing was printed, and no closed
    stream was touched. *)
Definition idle (w w' : World) : Prop :=
  output_file w' = None /\
  file_lock w' = false /\
  acquired w' = S (acquired w) /\
  stderr w' = stderr w /\
  closed_files w' = closed_files w.

(** [needle] occurs in [s]. *)
Definition occurs_in (needle s : string) : Prop :=
  exists a b, s = (a ++ needle ++ b)%string.

(** The decimal text of an integer, as [printf] gives it for [%d]. *)
Definition decimal (v : Z) : string := NilZero.string_of_int (Z.to_int v).

(** ** A host and worlds to run the agent on *)

(** A runtime that knows every method but 99, for which it reports that it
    is shutting down; source files and line numbers are absent. *)
Definition sample_host (le : bool) : Host :=
  mkHost le (bytes_of_string "amd64") "Input/output error"
    (fun _ => Some (mkTimespec 5 7)) (fun _ => true) (fun _ => [])
    (fun _ => true) (fun _ _ => true)
    (fun a => a mod 256) 4242 (fun _ => "JVMTI_ERROR_INTERNAL"%string)
    (fun _ m => (if m =? 99 then JVMTI_ERROR_WRONG_PHASE else JVMTI_ERROR_NONE,
                 (bytes_of_string "run", bytes_of_string "()V")))
    (fun _ m => (JVMTI_ERROR_NONE, m + 1000))
    (fun _ _ => (JVMTI_ERROR_NONE, bytes_of_string "LFoo;"))
    (fun _ _ => (JVMTI_ERROR_ABSENT_INFORMATION, []))
    (fun _ _ => (JVMTI_ERROR_NATIVE_METHOD, []))
    (fun _ => (JVMTI_ERROR_NONE, 123456789))
    (fun _ => JVMTI_ERROR_NONE) (fun _ => JVMTI_ERROR_NONE)
    (fun _ => JVMTI_ERROR_NONE).

Definition sample_file : FILE := mkFILE "trace-4242.bin" [] 0.

Definition sample_open : World :=
  mkWorld (Some sample_file) false 0 [] [] 0 0 [] [] [].

Definition sample_closed : World :=
  mkWorld None false 0 [] [] 0 0 [] [] [].

(** A chain of two records: a dummy record, then an inline record with one
    program counter and two frames. *)
Definition sample_chain (inlined : jmethodID)
    : list jvmtiCompiledMethodLoadRecordHeader :=
  [mkHeader JVMTI_CMLR_DUMMY (mkInlineRecord 5 []);
   mkHeader JVMTI_CMLR_INLINE_INFO
     (mkInlineRecord 1 [mkPCStackInfo 4100 2 [2; inlined] [10; 11]])].

Definition sample_method : MethodData :=
  mkMethodData 0 0 1 None
    (Some (mkOwned 1 (bytes_of_string "run")))
    (Some (mkOwned 2 (bytes_of_string "()V")))
    (Some (mkOwned 3 (bytes_of_string "LFoo;")))
    0 None.

(** The list of records after the compiled method 1 was looked up, the
    world then, and the scan of the sample chain from there. *)
Definition sample_resolved : list MethodData := [sample_method].

Definition sample_resolving : World :=
  mkWorld (Some sample_file) false 0 [] [] 6 4 []
    [mkQuery (QGetMethodName 1) JVMTI_ERROR_NONE false;
     mkQuery (QGetMethodDeclaringClass 1) JVMTI_ERROR_NONE false;
     mkQuery (QGetClassSignature 1001) JVMTI_ERROR_NONE false;
     mkQuery (QGetSourceFileName 1001) JVMTI_ERROR_ABSENT_INFORMATION false;
     mkQuery (QGetLineNumberTable 1) JVMTI_ERROR_NATIVE_METHOD false]
    [].

Definition sample_scanned :=
  scan_compile_info (sample_host true) (sample_chain 1) sample_resolved 1
    sample_resolving.

(** The output file, if there is one, has at [w'] the name it has at [w];
    a computation keeps names when it does from every world, however it
    ends. *)
Definition keeps_name (w w' : World) : Prop :=
  option_map f_name (output_file w') = option_map f_name (output_file w).

Definition names_kept {A : Type} (m : M A) : Prop :=
  forall w, outcome_sat (m w) (fun _ w' => keeps_name w w') (keeps_name w).

(** What [Agent_OnLoad] does once the name of the file is known (from line
    526 on). *)
Definition open_and_write_header (host : Host) (filename : string)
    (name_block : option nat) : M Z :=
  f <- fopen host filename ;;
  modify (set_output_file f) ;;
  match f with
  | None => report_error ("Error opening output file: " ++ strerror host)%string
  | Some _ => ret tt
  end ;;
  match name_block with
  | Some b => free b
  | None => ret tt
  end ;;
  write_file_header host ;;
  fflush host ;;
  unlock_output_file host ;;
  ret 0.

(** ** More of the layout of the capture file *)

(** The header of the file: the magic tag, the two version numbers, the
    architecture, the timestamp of the capture clock and the time of the
    runtime. *)
Definition header_bytes (architecture : cstring) (timestamp : timespec)
    (nanos : Z) : list byte :=
  bytes_of_string "JVMTIASM" ++
  be_bytes 4 1 ++ be_bytes 4 0 ++
  len_str architecture ++
  be_bytes 8 (tv_sec timestamp) ++ be_bytes 8 (tv_nsec timestamp) ++
  be_bytes 8 nanos.

(** A CMUT record. *)
Definition cmut_bytes (timestamp : timespec) (code_addr : Z) : list byte :=
  bytes_of_string "CMUT" ++
  be_bytes 8 (tv_sec timestamp) ++ be_bytes 8 (tv_nsec timestamp) ++
  be_bytes 8 code_addr.

(** ** More relations between worlds *)

(** The stream [f] holds [data].  No caller looks at what fflush returns
    (lines 331, 383, 454 and 535), so that all of [data] has reached the
    file is known only of a runtime whose every flush is complete. *)
Definition holds (host : Host) (f : FILE) (data : list byte) : Prop :=
  f_data f = data /\
  (flush_ok host -> f_flushed f = List.length data).

(** Everything written to the output file, if there is one, is known to
    have reached the file. *)
Definition flushed (w : World) : Prop :=
  match output_file w with
  | Some f => f_flushed f = List.length (f_data f)
  | None => True
  end.

(** The process was ended by [report_error] between [w] and [w']: one
    diagnostic was printed, and apart from what was written to the output
    file before, nothing else was done. *)
Definition aborted (w w' : World) : Prop :=
  quiet w w' /\ exists line, stderr w' = stderr w ++ [line].

(** A computation that writes to the open output file: it returns having
    printed nothing and with the file still open, or it stops by
    [report_error]. *)
Definition writes_or_aborts {A : Type} (m : M A) : Prop :=
  forall w,
    output_file w <> None ->
    match m w with
    | Ok _ w' => quiet w w' /\ stderr w' = stderr w /\ output_file w' <> None
    | Stop why w' => why = Abort /\ aborted w w'
    end.

(** The computation [m] stops from [w], in a way and a world that satisfy
    [E]. *)
Definition stops {A : Type} (m : M A) (w : World)
    (E : stop -> World -> Prop) : Prop :=
  exists why w', m w = Stop why w' /\ E why w'.

(** The answers the agent takes for missing information. *)
Definition tolerated (result : jvmtiError) : bool :=
  match result with
  | JVMTI_ERROR_NONE | JVMTI_ERROR_ABSENT_INFORMATION
  | JVMTI_ERROR_NATIVE_METHOD => true
  | _ => false
  end.

(** The answers that end the process. *)
Definition fatal (result : jvmtiError) : bool :=
  match result with
  | JVMTI_ERROR_other _ => true
  | _ => false
  end.

(** A host on which attaching succeeds: the runtime accepts the
    capabilities, the callbacks and the notification modes and tells the
    time, the file can be opened, and the clock works. *)
Record attach_ok (host : Host) : Prop := mkAttachOk {
  ok_capabilities : forall t, AddCapabilities host t = JVMTI_ERROR_NONE;
  ok_callbacks : forall t, SetEventCallbacks host t = JVMTI_ERROR_NONE;
  ok_modes : forall t, SetEventNotificationMode host t = JVMTI_ERROR_NONE;
  ok_fopen : forall t name, fopen_ok host t name = true;
  ok_time : forall t, fst (GetTime host t) = JVMTI_ERROR_NONE;
  ok_clock : forall t, clock_gettime host t <> None;
  ok_arch : strlen (arch host) <= INT_MAX
}.

(** What is left behind when a record is broken off after [bs]: one
    diagnostic, the lock still held, and [bs] at the end of the file. *)
Definition torn (line : string) (bs : list byte) (w : World)
    (why : stop) (w' : World) : Prop :=
  why = Abort /\ stderr w' = stderr w ++ [line] /\ file_lock w' = file_lock w /\
  exists f f', output_file w = Some f /\ output_file w' = Some f' /\
               f_data f' = f_data f ++ bs.

(** The list of records and its count as [compiledMethodLoad] keeps them:
    no handle has two records, and the count is the length of the list. *)
Definition table_kept (ms : list MethodData) (count : Z) : Prop :=
  NoDup (map method ms) /\ count = Z.of_nat (List.length ms).

(** ** The runtime's side of a session

    The runtime loads the agent, delivers events to the three callbacks
    [Agent_OnLoad] registers, one at a time, and unloads the agent. *)
Inductive event : Type :=
| CompiledMethodLoad (method' : jmethodID) (code_size code_addr : Z)
    (compile_info : list jvmtiCompiledMethodLoadRecordHeader)
| CompiledMethodUnload (method' : jmethodID) (code_addr : Z)
| DynamicCodeGenerated (name : option cstring) (code_addr code_size : Z).

Definition deliver (host : Host) (e : event) : M unit :=
  match e with
  | CompiledMethodLoad method' code_size code_addr compile_info =>
      compiledMethodLoad host method' code_size code_addr compile_info
  | CompiledMethodUnload method' code_addr =>
      compiledMethodUnload host method' code_addr
  | DynamicCodeGenerated name code_addr code_size =>
      dynamicCodeGenerated host name code_addr code_size
  end.

Fixpoint deliver_all (host : Host) (es : list event) : M unit :=
  match es with
  | [] => ret tt
  | e :: rest => deliver host e ;; deliver_all host rest
  end.

Definition session (host : Host) (options : option string) (es : list event)
    : M unit :=
  Agent_OnLoad host options ;;
  deliver_all host es ;;
  Agent_OnUnload host.

(** An event without metadata: the unloading of a method, or dynamic code
    with a name that fits a [jint] and a positive size. *)
Definition plain (e : event) : Prop :=
  match e with
  | CompiledMethodLoad _ _ _ _ => False
  | CompiledMethodUnload _ _ => True
  | DynamicCodeGenerated name _ code_size =>
      (exists s, name = Some s /\ strlen s <= INT_MAX) /\ 0 < code_size
  end.

(** [bs] is the record of the plain event [e] at [timestamp]. *)
Definition plain_record (host : Host) (timestamp : timespec) (e : event)
    (bs : list byte) : Prop :=
  match e with
  | CompiledMethodLoad _ _ _ _ => False
  | CompiledMethodUnload _ code_addr => bs = cmut_bytes timestamp code_addr
  | DynamicCodeGenerated name code_addr code_size =>
      exists s, name = Some s /\
                bs = dync_bytes timestamp s code_addr code_size
                       (load host code_addr code_size)
  end.

(** [bs] is the record of [e] at some time of the wall clock. *)
Definition record_of (host : Host) (e : event) (bs : list byte) : Prop :=
  exists t timestamp,
    clock_gettime host t = Some timestamp /\ plain_record host timestamp e bs.

(** Between [w] and [w'] the output file, if there is one, kept its name
    and what it held, and may have gained bytes at its end; there is an
    output file at [w'] exactly when there is one at [w]. *)
Definition kept_file (w w' : World) : Prop :=
  match output_file w, output_file w' with
  | Some f, Some f' =>
      f_name f' = f_name f /\ exists bs, f_data f' = f_data f ++ bs
  | None, None => True
  | _, _ => False
  end.

(** Whenever [m] returns, it has at most added to the output file. *)
Definition appends {A : Type} (m : M A) : Prop :=
  forall w, outcome_sat (m w) (fun _ w' => kept_file w w') (fun _ => True).

(** ** Events the runtime can describe *)

(** The runtime knows the method [m]: it gives its name and signature, its
    declaring class and the signature of the class, in strings whose
    lengths fit a [jint]; the source file and the line number table may be
    missing, as absent information or for a native method, but they are
    not refused. *)
Definition known (host : Host) (m : jmethodID) : Prop :=
  forall t,
    fst (GetMethodName host t m) = JVMTI_ERROR_NONE /\
    strlen (fst (snd (GetMethodName host t m))) <= INT_MAX /\
    strlen (snd (snd (GetMethodName host t m))) <= INT_MAX /\
    fst (GetMethodDeclaringClass host t m) = JVMTI_ERROR_NONE /\
    tolerated (fst (GetLineNumberTable host t m)) = true /\
    forall t',
      let class := snd (GetMethodDeclaringClass host t m) in
      fst (GetClassSignature host t' class) = JVMTI_ERROR_NONE /\
      strlen (snd (GetClassSignature host t' class)) <= INT_MAX /\
      tolerated (fst (GetSourceFileName host t' class)) = true /\
      strlen (snd (GetSourceFileName host t' class)) <= INT_MAX.

(** A record that [write_method] can write: the three strings it requires
    are there, every string fits a [jint], and the count of line numbers
    is that of a table that is there. *)
Definition writable (m : MethodData) : Prop :=
  (exists s, pointee (class_signature m) = Some s /\ strlen s <= INT_MAX) /\
  (exists s, pointee (method_name m) = Some s /\ strlen s <= INT_MAX) /\
  (exists s, pointee (method_signature m) = Some s /\ strlen s <= INT_MAX) /\
  (forall s, pointee (source_file m) = Some s -> strlen s <= INT_MAX) /\
  0 <= line_number_table_count m <= Z.of_nat (List.length (table_of m)).

(** Debug information the loops can walk: the arrays are as long as the
    counts say, and the runtime knows the method of every frame. *)
Definition frames_ok (host : Host) (info : PCStackInfo) : Prop :=
  (Z.to_nat (numstackframes info) <= List.length (info_methods info))%nat /\
  (Z.to_nat (numstackframes info) <= List.length (info_bcis info))%nat /\
  Forall (known host) (info_methods info).

Definition debug_ok (host : Host)
    (inline_records : jvmtiCompiledMethodLoadInlineRecord) : Prop :=
  (Z.to_nat (numpcs inline_records) <= List.length (pcinfo inline_records))%nat /\
  Forall (frames_ok host) (pcinfo inline_records).

(** The output file is open at [w'] and the lock is as it was at [w]. *)
Definition steady (w w' : World) : Prop :=
  output_file w' <> None /\ file_lock w' = file_lock w.

(** ** The answers of the runtime and the outcome of a lookup *)

(** The name under which [lookup_method] reports a query to
    [check_method_error] (lines 161 to 179). *)
Definition query_name (q : metadata_query) : string :=
  match q with
  | QGetMethodName _ => "GetMethodName"
  | QGetMethodDeclaringClass _ => "GetMethodDeclaringClass"
  | QGetClassSignature _ => "GetClassSignature"
  | QGetSourceFileName _ => "GetSourceFileName"
  | QGetLineNumberTable _ => "GetLineNumberTable"
  end.

(** What a query hands back: the answer of the runtime when the result is
    success; on any other result the pointer keeps its NULL. *)
Definition granted {A : Type} (result : jvmtiError) (a : A) : option A :=
  match result with
  | JVMTI_ERROR_NONE => Some a
  | _ => None
  end.

(** The one query [q] took the world from [w] to [w']: it was answered
    with [result] at the moment [now w], it is the last entry of the log,
    and nothing else that shows was done. *)
Definition query_step (w w' : World) (q : metadata_query)
    (result : jvmtiError) : Prop :=
  now w' = S (now w) /\
  output_file w' = output_file w /\ file_lock w' = file_lock w /\
  acquired w' = acquired w /\ stderr w' = stderr w /\
  released w' = released w /\
  queries w' = queries w ++ [mkQuery q result (file_lock w)].

(** The log of the five queries [lookup_method] makes for the handle [h]
    from the moment [t] when every one of them is let through by
    [check_method_error]: what is asked, in the order of lines 159 to
    178, and what the runtime answers; the class asked about is the one
    the second query hands back. *)
Definition lookup_log (host : Host) (t : nat) (h : jmethodID)
    (locked : bool) : list query_event :=
  let class := snd (GetMethodDeclaringClass host (t + 1)%nat h) in
  [mkQuery (QGetMethodName h) (fst (GetMethodName host t h)) locked;
   mkQuery (QGetMethodDeclaringClass h)
     (fst (GetMethodDeclaringClass host (t + 1)%nat h)) locked;
   mkQuery (QGetClassSignature class)
     (fst (GetClassSignature host (t + 2)%nat class)) locked;
   mkQuery (QGetSourceFileName class)
     (fst (GetSourceFileName host (t + 3)%nat class)) locked;
   mkQuery (QGetLineNumberTable h)
     (fst (GetLineNumberTable host (t + 4)%nat h)) locked].

(** Between [w] and [w'] the first [n] queries of a lookup of [h] were
    made, and no other. *)
Definition made (host : Host) (h : jmethodID) (n : nat) (w w' : World)
    : Prop :=
  queries w' = queries w ++ firstn n (lookup_log host (now w) h (file_lock w)).

(** The record [m] holds what the runtime answered when the five queries
    of [lookup_method] were made for the handle of [m], one after the
    other from the moment [t]: the name and the signature of the method,
    the signature and the source file of its declaring class, and its
    line number table with its length; what a query did not hand out is
    NULL, and the count of a table that was not handed out is 0. *)
Definition describes_at (host : Host) (t : nat) (m : MethodData) : Prop :=
  let names := GetMethodName host t (method m) in
  let class := snd (GetMethodDeclaringClass host (t + 1)%nat (method m)) in
  let signature := GetClassSignature host (t + 2)%nat class in
  let source := GetSourceFileName host (t + 3)%nat class in
  let lines := GetLineNumberTable host (t + 4)%nat (method m) in
  pointee (method_name m) = granted (fst names) (fst (snd names)) /\
  pointee (method_signature m) = granted (fst names) (snd (snd names)) /\
  pointee (class_signature m) = granted (fst signature) (snd signature) /\
  pointee (source_file m) = granted (fst source) (snd source) /\
  pointee (line_number_table m) = granted (fst lines) (snd lines) /\
  line_number_table_count m =
    match fst lines with
    | JVMTI_ERROR_NONE => Z.of_nat (List.length (snd lines))
    | _ => 0
    end.

Definition describes (host : Host) (m : MethodData) : Prop :=
  exists t, describes_at host t m.

(** An outcome with what holds when it is a return and what holds when it
    is a stop, the way of stopping included. *)
Definition outcome_is {A : Type} (o : outcome A)
    (Q : A -> World -> Prop) (E : stop -> World -> Prop) : Prop :=
  match o with
  | Ok a w => Q a w
  | Stop why w => E why w
  end.

(** Since [w] the queries [qs] were made and nothing else was done that
    shows: the output file, the lock, the diagnostics and the storage
    given back are as they were. *)
Definition asked (w : World) (qs : list query_event) (w' : World) : Prop :=
  output_file w' = output_file w /\ file_lock w' = file_lock w /\
  acquired w' = acquired w /\ stderr w' = stderr w /\
  released w' = released w /\ queries w' = queries w ++ qs.

(** What the queries made since [w] were answered when a lookup returned
    [found]: with a record, every answer was one the agent tolerates;
    with NULL, the last query met the shutdown of the runtime and those
    before it were tolerated. *)
Definition answered (w : World) (found : option MethodData) (w' : World)
    : Prop :=
  stderr w' = stderr w /\
  exists qs,
    queries w' = queries w ++ qs /\
    match found with
    | Some _ => Forall (fun q => tolerated (q_result q) = true) qs
    | None =>
        exists qs0 q,
          qs = qs0 ++ [q] /\
          Forall (fun q => tolerated (q_result q) = true) qs0 /\
          q_result q = JVMTI_ERROR_WRONG_PHASE
    end.

(** The process was ended because the runtime refused a query: the
    queries before it were tolerated, the last one was answered with an
    error that ends the process, and the one diagnostic names that very
    query and the error it was answered with.  The lock and the output
    file are as they were, and nothing was given back. *)
Definition refused (host : Host) (w : World) (why : stop) (w' : World)
    : Prop :=
  why = Abort /\
  output_file w' = output_file w /\ file_lock w' = file_lock w /\
  acquired w' = acquired w /\ released w' = released w /\
  exists qs q,
    queries w' = queries w ++ qs ++ [q] /\
    Forall (fun q => tolerated (q_result q) = true) qs /\
    fatal (q_result q) = true /\
    stderr w' =
      stderr w ++
      [("Error: " ++ query_name (q_query q) ++ ": " ++
        GetErrorName host (q_result q))%string].

(** A host whose wall clock cannot be read. *)
Definition clockless_host : Host :=
  mkHost true (bytes_of_string "amd64") "Invalid argument"
    (fun _ => None) (fun _ => true) (fun _ => []) (fun _ => true)
    (fun _ _ => true)
    (fun a => a mod 256) 4242 (fun _ => "JVMTI_ERROR_INTERNAL"%string)
    (fun _ _ => (JVMTI_ERROR_NONE, ([], [])))
    (fun _ m => (JVMTI_ERROR_NONE, m))
    (fun _ _ => (JVMTI_ERROR_NONE, []))
    (fun _ _ => (JVMTI_ERROR_NONE, []))
    (fun _ _ => (JVMTI_ERROR_NONE, []))
    (fun _ => (JVMTI_ERROR_NONE, 0))
    (fun _ => JVMTI_ERROR_NONE) (fun _ => JVMTI_ERROR_NONE)
    (fun _ => JVMTI_ERROR_NONE).

(** A host whose flushes fail, whose class signatures the runtime refuses,
    and where a write that runs past its object leaves two bytes in the
    stream. *)
Definition faulty_host : Host :=
  mkHost true (bytes_of_string "amd64") "Input/output error"
    (fun _ => Some (mkTimespec 5 7)) (fun _ => true) (fun _ => [170; 187])
    (fun _ => false) (fun _ _ => true)
    (fun a => a mod 256) 4242 (fun _ => "JVMTI_ERROR_INTERNAL"%string)
    (fun _ _ => (JVMTI_ERROR_NONE, (bytes_of_string "run", bytes_of_string "()V")))
    (fun _ m => (JVMTI_ERROR_NONE, m + 1000))
    (fun _ _ => (JVMTI_ERROR_other 113, []))
    (fun _ _ => (JVMTI_ERROR_NONE, []))
    (fun _ _ => (JVMTI_ERROR_NONE, []))
    (fun _ => (JVMTI_ERROR_NONE, 0))
    (fun _ => JVMTI_ERROR_NONE) (fun _ => JVMTI_ERROR_NONE)
    (fun _ => JVMTI_ERROR_NONE).

(** ** What a CMLT record says about the debug information

    The method table lists the methods in the order in which the event
    first meets them, the compiled method first; a frame refers to its
    method by the place of the method in the table. *)

(** The place of the handle [h] in [hs], counted from 0. *)
Fixpoint position (h : jmethodID) (hs : list jmethodID) : Z :=
  match hs with
  | [] => 0
  | x :: rest => if x =? h then 0 else 1 + position h rest
  end.

(** The handles met so far, with [h] added when it is met for the first
    time. *)
Definition remember (hs : list jmethodID) (h : jmethodID) : list jmethodID :=
  if existsb (Z.eqb h) hs then hs else hs ++ [h].

(** The frames and the program counters the loops visit. *)
Definition frame_handles (info : PCStackInfo) : list jmethodID :=
  firstn (Z.to_nat (numstackframes info)) (info_methods info).

Definition frame_bcis (info : PCStackInfo) : list Z :=
  firstn (Z.to_nat (numstackframes info)) (info_bcis info).

Definition visited_pcs (inline_records : jvmtiCompiledMethodLoadInlineRecord)
    : list PCStackInfo :=
  firstn (Z.to_nat (numpcs inline_records)) (pcinfo inline_records).

(** The first record of kind JVMTI_CMLR_INLINE_INFO of a chain. *)
Definition first_inline
    (compile_info : list jvmtiCompiledMethodLoadRecordHeader)
    : option jvmtiCompiledMethodLoadInlineRecord :=
  option_map as_inline_record
    (find (fun h => is_inline_info (kind h)) compile_info).

(** A chain whose first inline record, if it has one, the loops can
    walk. *)
Definition chain_ok (host : Host)
    (compile_info : list jvmtiCompiledMethodLoadRecordHeader) : Prop :=
  forall r, first_inline compile_info = Some r -> debug_ok host r.

Definition debug_handles
    (inline_records : option jvmtiCompiledMethodLoadInlineRecord)
    : list jmethodID :=
  match inline_records with
  | Some r => flat_map frame_handles (visited_pcs r)
  | None => []
  end.

(** The handles of the method table of an event. *)
Definition table_handles (method' : jmethodID)
    (compile_info : list jvmtiCompiledMethodLoadRecordHeader)
    : list jmethodID :=
  fold_left remember (debug_handles (first_inline compile_info)) [method'].

(** The method id [i] refers to the entry of [table] for the handle [h]:
    it is the index of an entry of the table, and that entry is the one
    of [h] and has [i] for its id. *)
Definition refers (table : list MethodData) (i : Z) (h : jmethodID) : Prop :=
  0 <= i < Z.of_nat (List.length table) /\
  exists r,
    nth_error table (Z.to_nat i) = Some r /\ method r = h /\ id r = i.

(** The debug information as the record gives it, for a table with the
    handles [hs]. *)
Definition debug_frames (hs : list jmethodID) (info : PCStackInfo)
    : list frame :=
  map (fun p => mkFrame (position (fst p) hs) (snd p))
    (combine (frame_handles info) (frame_bcis info)).

Definition debug_group (hs : list jmethodID) (info : PCStackInfo)
    : frame_group :=
  mkGroup (pc info) (numstackframes info) (debug_frames hs info).

Definition debug_count
    (inline_records : option jvmtiCompiledMethodLoadInlineRecord) : Z :=
  match inline_records with
  | Some r => numpcs r
  | None => 0
  end.

Definition debug_groups (hs : list jmethodID)
    (inline_records : option jvmtiCompiledMethodLoadInlineRecord)
    : list frame_group :=
  match inline_records with
  | Some r => map (debug_group hs) (visited_pcs r)
  | None => []
  end.

(** * Properties *)

Lemma le_bytes_length n v : List.length (le_bytes n v) = n.
Proof. revert v; induction n; intros; simpl; auto. Qed.

Lemma le_bytes_range n v : Forall is_byte (le_bytes n v).
Proof.
  revert v; induction n; intros; simpl; constructor; auto.
  unfold is_byte. apply Z.mod_pos_bound. lia.
Qed.

Lemma le_bytes_le_value l :
  Forall is_byte l -> le_bytes (List.length l) (le_value l) = l.
Proof.
  induction 1 as [|b l Hb Hl IH]; [reflexivity|].
  cbn [le_bytes le_value List.length].
  unfold is_byte in Hb.
  replace ((b + 256 * le_value l) mod 256) with b.
  2:{ rewrite (Z.mul_comm 256), Z.mod_add by lia. symmetry. apply Z.mod_small. lia. }
  replace ((b + 256 * le_value l) / 256) with (le_value l).
  2:{ rewrite (Z.mul_comm 256), Z.div_add by lia. rewrite Z.div_small; lia. }
  now rewrite IH.
Qed.

Lemma pow256_succ n : 256 ^ Z.of_nat (S n) = 256 * 256 ^ Z.of_nat n.
Proof. rewrite Nat2Z.inj_succ, Z.pow_succ_r by lia. reflexivity. Qed.

Lemma pow256_pos n : 0 < 256 ^ Z.of_nat n.
Proof. apply Z.pow_pos_nonneg; lia. Qed.

Lemma le_bytes_mod n v : le_bytes n (v mod 256 ^ Z.of_nat n) = le_bytes n v.
Proof.
  revert v; induction n; intros v; [reflexivity|].
  cbn [le_bytes]. rewrite pow256_succ.
  pose proof (pow256_pos n) as Hp.
  rewrite Z.rem_mul_r by lia.
  f_equal.
  - rewrite (Z.mul_comm 256), Z.mod_add by lia. apply Z.mod_mod. lia.
  - rewrite (Z.mul_comm 256), Z.div_add by lia.
    rewrite (Z.div_small (v mod 256)) by (apply Z.mod_pos_bound; lia).
    rewrite Z.add_0_l. apply IHn.
Qed.

Lemma le_bytes_congr n v v' :
  v mod 256 ^ Z.of_nat n = v' mod 256 ^ Z.of_nat n -> le_bytes n v = le_bytes n v'.
Proof. intros H. rewrite <- (le_bytes_mod n v), H. apply le_bytes_mod. Qed.

Lemma le_bytes_app n m v :
  le_bytes (n + m) v = le_bytes n v ++ le_bytes m (v / 256 ^ Z.of_nat n).
Proof.
  revert v; induction n; intros v.
  - simpl. now rewrite Z.div_1_r.
  - cbn [le_bytes Nat.add app]. f_equal. rewrite IHn. f_equal. f_equal.
    rewrite pow256_succ. pose proof (pow256_pos n). rewrite Z.div_div; lia.
Qed.

Lemma to_jint_mod v : to_jint v mod 2 ^ 32 = v mod 2 ^ 32.
Proof.
  unfold to_jint. rewrite Zminus_mod_idemp_l. f_equal. lia.
Qed.

Lemma to_uint32_mod v : to_uint32 v mod 2 ^ 32 = v mod 2 ^ 32.
Proof. unfold to_uint32. apply Z.mod_mod. lia. Qed.

Lemma le_bytes4_to_jint v : le_bytes 4 (to_jint v) = le_bytes 4 v.
Proof. apply le_bytes_congr. apply to_jint_mod. Qed.

Lemma le_bytes4_to_uint32 v : le_bytes 4 (to_uint32 v) = le_bytes 4 v.
Proof. apply le_bytes_congr. apply to_uint32_mod. Qed.

Lemma be_bytes4_to_jint v : be_bytes 4 (to_jint v) = be_bytes 4 v.
Proof. unfold be_bytes. now rewrite le_bytes4_to_jint. Qed.

Lemma be_bytes_length n v : List.length (be_bytes n v) = n.
Proof. unfold be_bytes. rewrite length_rev. apply le_bytes_length. Qed.

Lemma be_bytes_range n v : Forall is_byte (be_bytes n v).
Proof. unfold be_bytes. apply Forall_rev. apply le_bytes_range. Qed.

Lemma jint_object_bytes host v :
  object_bytes host 4 (to_jint (htonl host (to_uint32 v))) = be_bytes 4 v.
Proof.
  unfold object_bytes, htonl. destruct (little_endian host).
  - rewrite le_bytes4_to_jint.
    rewrite <- (be_bytes_length 4 (to_uint32 v)) at 1.
    rewrite le_bytes_le_value by apply be_bytes_range.
    unfold be_bytes. now rewrite le_bytes4_to_uint32.
  - rewrite be_bytes4_to_jint. unfold be_bytes. now rewrite le_bytes4_to_uint32.
Qed.

Lemma be_bytes8_split v :
  be_bytes 8 v = be_bytes 4 (to_jint (Z.shiftr v 32)) ++ be_bytes 4 (to_jint v).
Proof.
  rewrite !be_bytes4_to_jint. unfold be_bytes.
  change 8%nat with (4 + 4)%nat. rewrite le_bytes_app, rev_app_distr.
  rewrite Z.shiftr_div_pow2 by lia. reflexivity.
Qed.

Lemma le_value_le_bytes n v : le_value (le_bytes n v) = v mod 256 ^ Z.of_nat n.
Proof.
  revert v; induction n; intros v.
  - simpl. now rewrite Z.mod_1_r.
  - cbn [le_bytes le_value]. rewrite IHn, pow256_succ.
    pose proof (pow256_pos n). rewrite Z.rem_mul_r by lia. reflexivity.
Qed.

Lemma be_value_be_bytes n v : be_value (be_bytes n v) = v mod 256 ^ Z.of_nat n.
Proof. unfold be_value, be_bytes. rewrite rev_involutive. apply le_value_le_bytes. Qed.

(** ** Reasoning about computations *)

Lemma sat_bind {A B : Type} (m : M A) (k : A -> M B) (w : World)
    (P : A -> World -> Prop) (E1 : World -> Prop)
    (Q : B -> World -> Prop) (E : World -> Prop) :
  outcome_sat (m w) P E1 ->
  (forall a w1, P a w1 -> outcome_sat (k a w1) Q E) ->
  (forall w1, E1 w1 -> E w1) ->
  outcome_sat (bind m k w) Q E.
Proof.
  unfold bind. destruct (m w) as [a w1|why w1]; simpl; intros H HQ HE; auto.
Qed.

Lemma sat_weaken {A : Type} (o : outcome A) (Q Q' : A -> World -> Prop)
    (E E' : World -> Prop) :
  outcome_sat o Q E ->
  (forall a w, Q a w -> Q' a w) -> (forall w, E w -> E' w) ->
  outcome_sat o Q' E'.
Proof. destruct o; simpl; auto. Qed.

Lemma runs_bind {A B : Type} (m : M A) (k : A -> M B) (w : World)
    (P : A -> World -> Prop) (Q : B -> World -> Prop) :
  runs m w P ->
  (forall a w1, P a w1 -> runs (k a) w1 Q) ->
  runs (bind m k) w Q.
Proof.
  intros (a & w1 & Hm & HP) Hk. unfold runs, bind. rewrite Hm. now apply Hk.
Qed.

Lemma runs_weaken {A : Type} (m : M A) (w : World) (Q Q' : A -> World -> Prop) :
  runs m w Q -> (forall a w', Q a w' -> Q' a w') -> runs m w Q'.
Proof. intros (a & w' & H & HQ) HI. exists a, w'. auto. Qed.

Lemma runs_sat {A : Type} (m : M A) (w : World) (P Q : A -> World -> Prop)
    (E : World -> Prop) :
  runs m w P -> outcome_sat (m w) Q E -> runs m w (fun a w' => P a w' /\ Q a w').
Proof. intros (a & w' & H & HP). rewrite H. simpl. intros HQ. exists a, w'. auto. Qed.

Lemma bind_Ok {A B : Type} (m : M A) (k : A -> M B) (w w' : World) (b : B) :
  bind m k w = Ok b w' ->
  exists a w1, m w = Ok a w1 /\ k a w1 = Ok b w'.
Proof.
  unfold bind. destruct (m w) as [a w1|]; [|discriminate]. eauto.
Qed.

(** ** The relations between worlds compose *)

Lemma quiet_refl w : quiet w w.
Proof. constructor; reflexivity. Qed.

Lemma quiet_trans w1 w2 w3 : quiet w1 w2 -> quiet w2 w3 -> quiet w1 w3.
Proof.
  intros [] []. constructor; etransitivity; eassumption.
Qed.

Lemma wrote_quiet bs w w' : wrote bs w w' -> quiet w w'.
Proof.
  intros [(f & f' & H1 & H2 & H3 & H4)]. constructor; auto.
  now rewrite H1, H2; simpl; rewrite H3.
Qed.

Lemma wrote_trans b1 b2 w1 w2 w3 :
  wrote b1 w1 w2 -> wrote b2 w2 w3 -> wrote (b1 ++ b2) w1 w3.
Proof.
  intros [(f & f' & H1 & H2 & H3 & H4)] [(g & g' & G1 & G2 & G3 & G4)].
  constructor; try (etransitivity; eassumption).
  rewrite H2 in G1. injection G1 as <-.
  exists f, g'. repeat split; auto; try congruence.
  now rewrite G4, H4, app_assoc.
Qed.

Lemma wrote_open bs w w' : wrote bs w w' -> output_file w' <> None.
Proof. intros [(f & f' & H1 & H2 & _)]. congruence. Qed.

Lemma wrote_was_open bs w w' : wrote bs w w' -> output_file w <> None.
Proof. intros [(f & f' & H1 & H2 & _)]. congruence. Qed.

Lemma wrote_nil w : output_file w <> None -> wrote [] w w.
Proof.
  intros H. constructor; auto. destruct (output_file w) as [f|]; [|easy].
  exists f, f. now rewrite app_nil_r.
Qed.

Lemma wrote_eq bs bs' w w' : bs = bs' -> wrote bs w w' -> wrote bs' w w'.
Proof. now intros ->. Qed.

Section Encoder.

Variable host : Host.

(** *** Every outcome of the encoder *)

Lemma report_error_sat {A : Type} (msg : string) (w : World)
    (Q : A -> World -> Prop) :
  outcome_sat (report_error (A := A) msg w) Q
    (fun w' => w' = add_stderr ("Error: " ++ msg)%string w).
Proof. reflexivity. Qed.

Lemma add_stderr_quiet s w : quiet w (add_stderr s w).
Proof. constructor; reflexivity. Qed.

Lemma wrote_fwrite data f w :
  output_file w = Some f ->
  wrote data w
    (advance (set_output_file
                (Some (mkFILE (f_name f) (f_data f ++ data) (f_flushed f))) w)).
Proof.
  intros Hf. constructor; simpl; auto. exists f. eexists. simpl.
  repeat split; eauto.
Qed.

Lemma write_or_fail_sat data bytes w :
  outcome_sat (write_or_fail host data bytes w)
    (fun _ w' => wrote data w w') (quiet w).
Proof.
  unfold write_or_fail, bind, fwrite.
  destruct (output_file w) as [f|] eqn:Hf; simpl; [|apply quiet_refl].
  destruct (bytes <? 0); simpl.
  { constructor; simpl; auto. now rewrite Hf. }
  destruct ((0 <? bytes) && fwrite_ok host (now w)); simpl.
  - now apply wrote_fwrite.
  - constructor; simpl; auto.
Qed.

Lemma write_jint_sat value w :
  outcome_sat (write_jint host value w)
    (fun _ w' => wrote (be_bytes 4 value) w w') (quiet w).
Proof.
  unfold write_jint. rewrite jint_object_bytes. apply write_or_fail_sat.
Qed.

Lemma object_bytes8 value :
  little_endian host = false -> object_bytes host 8 value = be_bytes 8 value.
Proof. unfold object_bytes. now intros ->. Qed.

Lemma htonl_1 : (1 =? htonl host 1) = negb (little_endian host).
Proof. unfold htonl. destruct (little_endian host); reflexivity. Qed.

Lemma write_unsigned_jlong_sat value w :
  outcome_sat (write_unsigned_jlong host value w)
    (fun _ w' => wrote (be_bytes 8 value) w w') (quiet w).
Proof.
  unfold write_unsigned_jlong. rewrite htonl_1, negb_involutive.
  destruct (little_endian host) eqn:Hle.
  - rewrite be_bytes8_split.
    eapply sat_bind; [apply write_jint_sat| |auto].
    intros ? w1 H1. cbv beta in *.
    eapply sat_weaken; [apply write_jint_sat| |].
    + intros ? w2 H2. eapply wrote_trans; eassumption.
    + intros w2 H2. eapply quiet_trans; [eapply wrote_quiet|]; eassumption.
  - rewrite object_bytes8 by assumption. apply write_or_fail_sat.
Qed.

Lemma to_jint_small v : 0 <= v <= INT_MAX -> to_jint v = v.
Proof.
  unfold to_jint, INT_MAX. intros H. rewrite Z.mod_small; lia.
Qed.

Lemma strlen_nonneg s : 0 <= strlen s.
Proof. unfold strlen. lia. Qed.

Lemma strlen_0 s : strlen s <= 0 -> s = [].
Proof. unfold strlen. destruct s; simpl; [auto|lia]. Qed.

Lemma write_string_sat str message w :
  outcome_sat (write_string host str message w)
    (fun _ w' => exists s, str = Some s /\ strlen s <= INT_MAX /\
                           wrote (len_str s) w w')
    (quiet w).
Proof.
  unfold write_string.
  destruct str as [s|].
  2:{ eapply sat_bind; [apply report_error_sat| |].
      - intros a w1 H; exact H.
      - intros w1 ->. apply add_stderr_quiet. }
  eapply sat_bind with (P := fun a w1 => a = s /\ w1 = w) (E1 := fun _ => False);
    [simpl; auto| |easy].
  intros a w1 [-> ->].
  pose proof (strlen_nonneg s) as Hs.
  destruct (INT_MAX <? strlen s) eqn:Hlen.
  { eapply sat_bind; [apply report_error_sat| |].
    - intros x w1 H; exact H.
    - intros w1 ->. apply add_stderr_quiet. }
  apply Z.ltb_ge in Hlen.
  eapply sat_bind with (P := fun _ w1 => w1 = w) (E1 := fun _ => False);
    [simpl; auto| |easy].
  intros ? w1 ->. rewrite to_jint_small by lia.
  eapply sat_bind; [apply write_jint_sat| |auto].
  intros ? w1 H1. cbv beta in *.
  destruct (0 <? strlen s) eqn:Hpos.
  - eapply sat_weaken; [apply write_or_fail_sat| |].
    + intros ? w2 H2. cbv beta in H2. exists s.
      split; [reflexivity|]. split; [assumption|].
      unfold len_str. eapply wrote_trans; eassumption.
    + intros w2 H2. eapply quiet_trans; [eapply wrote_quiet|]; eassumption.
  - simpl. exists s. split; [reflexivity|]. split; [assumption|].
    apply Z.ltb_ge in Hpos.
    rewrite (strlen_0 s Hpos) in *. unfold len_str. now rewrite app_nil_r.
Qed.

Lemma write_string_or_null_sat str w :
  outcome_sat (write_string_or_null host str w)
    (fun _ w' => wrote (nullable_str str) w w' /\
                 forall s, str = Some s -> strlen s <= INT_MAX)
    (quiet w).
Proof.
  unfold write_string_or_null. destruct str as [s|].
  - eapply sat_weaken; [apply write_string_sat| |auto].
    intros ? w' (s' & E & Hl & Hw). injection E as <-. split; auto.
    intros s0 E0. now injection E0 as <-.
  - eapply sat_weaken; [apply write_jint_sat| |auto].
    intros ? w' H. split; auto. discriminate.
Qed.

Lemma fflush_sat w :
  outcome_sat (fflush host w)
    (fun _ w' => quiet w w' /\ stderr w' = stderr w /\
                 (output_file w <> None -> wrote [] w w'))
    (fun _ => False).
Proof.
  unfold fflush. destruct (output_file w) as [f|] eqn:Hf; simpl.
  - destruct (fflush_ok host (now w)); simpl; (split; [|split]).
    + constructor; simpl; auto. now rewrite Hf.
    + reflexivity.
    + intros _. constructor; simpl; auto. exists f. eexists. simpl.
      repeat split; eauto. now rewrite app_nil_r.
    + constructor; simpl; auto.
    + reflexivity.
    + intros _. constructor; simpl; auto. exists f, f. simpl.
      repeat split; eauto. now rewrite app_nil_r.
  - split; [apply quiet_refl|]. split; [reflexivity|congruence].
Qed.

Lemma fflush_runs w :
  output_file w <> None -> runs (fflush host) w (fun _ w' => wrote [] w w').
Proof.
  intros Hf. pose proof (fflush_sat w) as H. unfold runs.
  destruct (fflush host w) as [[] w'|]; simpl in H; [|easy].
  exists tt, w'. split; [reflexivity|]. now apply H.
Qed.

Lemma write_timestamp_sat ts w :
  outcome_sat (write_timestamp host ts w)
    (fun _ w' => wrote (be_bytes 8 (tv_sec ts) ++ be_bytes 8 (tv_nsec ts)) w w')
    (quiet w).
Proof.
  unfold write_timestamp.
  eapply sat_bind; [apply write_unsigned_jlong_sat| |auto].
  intros ? w1 H1. cbv beta in *.
  eapply sat_weaken; [apply write_unsigned_jlong_sat| |].
  - intros ? w2 H2. eapply wrote_trans; eassumption.
  - intros w2 H2. eapply quiet_trans; [eapply wrote_quiet|]; eassumption.
Qed.

Lemma index_sat {A : Type} (array : list A) (i : Z) (w : World) :
  outcome_sat (index array i w)
    (fun a w' => w' = w /\ 0 <= i /\ nth_error array (Z.to_nat i) = Some a)
    (fun w' => w' = w).
Proof.
  unfold index. destruct (nth_error array (Z.to_nat i)); simpl; auto.
  destruct (0 <=? i) eqn:H; simpl; auto. apply Z.leb_le in H. auto.
Qed.

(** *** The encoder returns when the file is open and every write is complete *)

Hypothesis Hio : io_ok host.

Lemma write_or_fail_runs data bytes w :
  0 < bytes -> output_file w <> None ->
  runs (write_or_fail host data bytes) w (fun _ w' => wrote data w w').
Proof.
  intros Hb Hf. unfold runs, write_or_fail, bind, fwrite.
  destruct (output_file w) as [f|] eqn:Hf'; [|easy].
  assert (Hn : (bytes <? 0) = false) by (apply Z.ltb_ge; lia).
  rewrite Hn, Hio. apply Z.ltb_lt in Hb. rewrite Hb. simpl.
  eexists _, _. split; [reflexivity|]. now apply wrote_fwrite.
Qed.

Lemma write_jint_runs value w :
  output_file w <> None ->
  runs (write_jint host value) w (fun _ w' => wrote (be_bytes 4 value) w w').
Proof.
  intros Hf. unfold write_jint. rewrite jint_object_bytes.
  apply write_or_fail_runs; [lia|assumption].
Qed.

Lemma write_unsigned_jlong_runs value w :
  output_file w <> None ->
  runs (write_unsigned_jlong host value) w
    (fun _ w' => wrote (be_bytes 8 value) w w').
Proof.
  intros Hf. unfold write_unsigned_jlong. rewrite htonl_1, negb_involutive.
  destruct (little_endian host) eqn:Hle.
  - rewrite be_bytes8_split.
    eapply runs_bind; [apply write_jint_runs; assumption|].
    intros ? w1 H1. cbv beta in *.
    eapply runs_weaken; [apply write_jint_runs; eapply wrote_open; eassumption|].
    intros ? w2 H2. eapply wrote_trans; eassumption.
  - rewrite object_bytes8 by assumption. apply write_or_fail_runs; [lia|assumption].
Qed.

Lemma write_timestamp_runs ts w :
  output_file w <> None ->
  runs (write_timestamp host ts) w
    (fun _ w' => wrote (be_bytes 8 (tv_sec ts) ++ be_bytes 8 (tv_nsec ts)) w w').
Proof.
  intros Hf. unfold write_timestamp.
  eapply runs_bind; [apply write_unsigned_jlong_runs; assumption|].
  intros ? w1 H1. cbv beta in *.
  eapply runs_weaken;
    [apply write_unsigned_jlong_runs; eapply wrote_open; eassumption|].
  intros ? w2 H2. eapply wrote_trans; eassumption.
Qed.

Lemma write_string_runs s message w :
  strlen s <= INT_MAX -> output_file w <> None ->
  runs (write_string host (Some s) message) w
    (fun _ w' => wrote (len_str s) w w').
Proof.
  intros Hl Hf. unfold write_string.
  pose proof (strlen_nonneg s) as Hs.
  eapply runs_bind with (P := fun a w1 => a = s /\ w1 = w);
    [exists s, w; split; [reflexivity|split; reflexivity]|].
  intros a w1 [-> ->].
  apply Z.ltb_ge in Hl. rewrite Hl. apply Z.ltb_ge in Hl.
  eapply runs_bind with (P := fun _ w1 => w1 = w);
    [exists tt, w; split; reflexivity|].
  intros ? w1 ->. rewrite to_jint_small by lia.
  eapply runs_bind; [apply write_jint_runs; assumption|].
  intros ? w1 H1. cbv beta in *. unfold len_str.
  destruct (0 <? strlen s) eqn:Hpos.
  - apply Z.ltb_lt in Hpos.
    eapply runs_weaken;
      [apply write_or_fail_runs; [assumption|eapply wrote_open; eassumption]|].
    intros ? w2 H2. eapply wrote_trans; eassumption.
  - apply Z.ltb_ge in Hpos. rewrite (strlen_0 s Hpos) in *.
    exists tt, w1. split; [reflexivity|]. now rewrite app_nil_r.
Qed.

Lemma write_string_or_null_runs str w :
  (forall s, str = Some s -> strlen s <= INT_MAX) -> output_file w <> None ->
  runs (write_string_or_null host str) w
    (fun _ w' => wrote (nullable_str str) w w').
Proof.
  intros Hl Hf. unfold write_string_or_null. destruct str as [s|].
  - apply write_string_runs; auto.
  - apply write_jint_runs; auto.
Qed.

End Encoder.

Section Handlers.

Variable host : Host.

Lemma lock_output_file_eq w :
  lock_output_file host w =
  if file_lock w then Stop Deadlock w
  else Ok tt (count_acquired (set_file_lock true w)).
Proof.
  unfold lock_output_file, bind, pthread_mutex_lock.
  destruct (file_lock w); reflexivity.
Qed.

Lemma unlock_output_file_eq w :
  unlock_output_file host w =
  if file_lock w then Ok tt (set_file_lock false w) else Stop Undefined w.
Proof.
  unfold unlock_output_file, bind, pthread_mutex_unlock.
  destruct (file_lock w); reflexivity.
Qed.

Lemma get_timestamp_eq w :
  get_timestamp host w =
  match clock_gettime host (now w) with
  | Some ts => Ok ts (advance w)
  | None =>
      Stop Abort
        (add_stderr ("Error: Error while writing timestamp: clock_gettime "
                     ++ strerror host)%string (advance w))
  end.
Proof.
  unfold get_timestamp, bind, tick. simpl.
  destruct (clock_gettime host (now w)); reflexivity.
Qed.

(** The line number table of a method, entry by entry. *)
Lemma write_line_number_table_from_runs (Hio : io_ok host) current n :
  forall i w,
    (i + n <= List.length (table_of current))%nat ->
    output_file w <> None ->
    runs (loop_from n (Z.of_nat i)
            (fun i _ =>
               entry <- index (table_of current) i ;;
               write_unsigned_jlong host (start_location entry) ;;
               write_jint host (line_number entry)) tt) w
      (fun _ w' =>
         wrote (flat_map line_bytes (firstn n (skipn i (table_of current)))) w w').
Proof.
  induction n as [|n IH]; intros i w Hlen Hf.
  - exists tt, w. split; [reflexivity|]. simpl. now apply wrote_nil.
  - cbn [loop_from].
    destruct (nth_error (table_of current) i) as [e|] eqn:He.
    2:{ apply nth_error_None in He. lia. }
    assert (Hskip : skipn i (table_of current) = e :: skipn (S i) (table_of current)).
    { clear - He. revert i He. induction (table_of current) as [|x l IHl];
        intros [|i] He; simpl in *; try discriminate.
      - now injection He as ->.
      - now apply IHl. }
    rewrite Hskip. cbn [firstn flat_map].
    eapply runs_bind.
    + eapply runs_bind with (P := fun a w1 => a = e /\ w1 = w).
      * unfold index. rewrite Nat2Z.id, He.
        destruct (0 <=? Z.of_nat i) eqn:Hi; [|apply Z.leb_gt in Hi; lia].
        exists e, w. split; [reflexivity|split; reflexivity].
      * intros a w1 [-> ->].
        eapply runs_bind; [apply write_unsigned_jlong_runs; assumption|].
        intros ? w1 H1. cbv beta in *.
        eapply runs_weaken;
          [apply write_jint_runs; [assumption|eapply wrote_open; eassumption]|].
        intros ? w2 H2. cbv beta in *.
        exact (wrote_trans _ _ _ _ _ H1 H2).
    + intros [] w1 H1. cbv beta in *.
      replace (Z.of_nat i + 1) with (Z.of_nat (S i)) by lia.
      eapply runs_weaken; [apply IH; [lia|eapply wrote_open; eassumption]|].
      intros ? w2 H2. cbv beta in *. unfold line_bytes at 1.
      exact (wrote_trans _ _ _ _ _ H1 H2).
Qed.

Lemma write_line_number_table_runs (Hio : io_ok host) current w :
  0 <= line_number_table_count current <= Z.of_nat (List.length (table_of current)) ->
  output_file w <> None ->
  runs (write_line_number_table host current) w
    (fun _ w' =>
       wrote (flat_map line_bytes
                (firstn (Z.to_nat (line_number_table_count current))
                        (table_of current))) w w').
Proof.
  intros Hc Hf. unfold write_line_number_table, loop_.
  apply (write_line_number_table_from_runs Hio current _ 0%nat w); [lia|assumption].
Qed.

Lemma write_method_runs (Hio : io_ok host) current w :
  (exists s, pointee (class_signature current) = Some s /\ strlen s <= INT_MAX) ->
  (exists s, pointee (method_name current) = Some s /\ strlen s <= INT_MAX) ->
  (exists s, pointee (method_signature current) = Some s /\ strlen s <= INT_MAX) ->
  (forall s, pointee (source_file current) = Some s -> strlen s <= INT_MAX) ->
  0 <= line_number_table_count current <= Z.of_nat (List.length (table_of current)) ->
  output_file w <> None ->
  runs (write_method host current) w
    (fun _ w' => wrote (method_bytes current) w w').
Proof.
  intros (cs & Hcs & Lcs) (mn & Hmn & Lmn) (ms & Hms & Lms) Hsrc Htab Hf.
  unfold write_method, method_bytes. rewrite Hcs, Hmn, Hms.
  replace (string_of (class_signature current)) with cs
    by (destruct (class_signature current); simpl in *; congruence).
  replace (string_of (method_name current)) with mn
    by (destruct (method_name current); simpl in *; congruence).
  replace (string_of (method_signature current)) with ms
    by (destruct (method_signature current); simpl in *; congruence).
  eapply runs_bind; [apply write_string_runs; assumption|].
  intros ? w1 H1. cbv beta in *.
  eapply runs_bind;
    [apply write_string_runs; [assumption..|eapply wrote_open; eassumption]|].
  intros ? w2 H2. cbv beta in *.
  eapply runs_bind;
    [apply write_string_runs; [assumption..|eapply wrote_open; eassumption]|].
  intros ? w3 H3. cbv beta in *.
  eapply runs_bind;
    [apply write_string_or_null_runs; [assumption..|eapply wrote_open; eassumption]|].
  intros ? w4 H4. cbv beta in *.
  eapply runs_bind;
    [apply write_jint_runs; [assumption|eapply wrote_open; eassumption]|].
  intros ? w5 H5. cbv beta in *.
  eapply runs_weaken;
    [apply write_line_number_table_runs; [assumption..|eapply wrote_open; eassumption]|].
  intros ? w6 H6. cbv beta in *.
  exact (wrote_trans _ _ _ _ _ H1 (wrote_trans _ _ _ _ _ H2
          (wrote_trans _ _ _ _ _ H3 (wrote_trans _ _ _ _ _ H4
            (wrote_trans _ _ _ _ _ H5 H6))))).
Qed.

(** What [dynamicCodeGenerated] does on an open file. *)
Lemma dynamicCodeGenerated_runs (Hio : io_ok host) name code_addr code_size w ts :
  strlen name <= INT_MAX -> 0 < code_size ->
  output_file w <> None -> file_lock w = false ->
  clock_gettime host (now w) = Some ts ->
  runs (dynamicCodeGenerated host (Some name) code_addr code_size) w
    (fun _ w' =>
       file_lock w' = false /\ stderr w' = stderr w /\
       exists f f',
         output_file w = Some f /\ output_file w' = Some f' /\
         f_name f' = f_name f /\
         f_data f' = f_data f ++
           dync_bytes ts name code_addr code_size (load host code_addr code_size)).
Proof.
  intros Hname Hsize Hf Hlock Hclock.
  unfold dynamicCodeGenerated. unfold runs, bind at 1.
  rewrite get_timestamp_eq, Hclock.
  unfold bind at 1. rewrite lock_output_file_eq. simpl file_lock. rewrite Hlock.
  unfold bind at 1, get at 1. simpl output_file.
  set (w1 := count_acquired (set_file_lock true (advance w))).
  assert (Hf1 : output_file w1 <> None) by exact Hf.
  destruct (output_file w) as [f|] eqn:Ef; [|easy].
  assert (Hbody : runs
    (write_jint host DynamicCodeTag ;;
     write_timestamp host ts ;;
     write_string host (Some name) (Some "dynamic code name"%string) ;;
     write_unsigned_jlong host code_addr ;;
     write_jint host code_size ;;
     write_or_fail host (load host code_addr code_size) code_size ;;
     fflush host) w1
    (fun _ w' => wrote (dync_bytes ts name code_addr code_size
                          (load host code_addr code_size)) w1 w')).
  { unfold dync_bytes.
    eapply runs_bind; [apply write_jint_runs; assumption|].
    intros ? w2 H2. cbv beta in *.
    eapply runs_bind;
      [apply write_timestamp_runs; [assumption|eapply wrote_open; eassumption]|].
    intros ? w3 H3. cbv beta in *.
    eapply runs_bind;
      [apply write_string_runs; [assumption..|eapply wrote_open; eassumption]|].
    intros ? w4 H4. cbv beta in *.
    eapply runs_bind;
      [apply write_unsigned_jlong_runs; [assumption|eapply wrote_open; eassumption]|].
    intros ? w5 H5. cbv beta in *.
    eapply runs_bind;
      [apply write_jint_runs; [assumption|eapply wrote_open; eassumption]|].
    intros ? w6 H6. cbv beta in *.
    eapply runs_bind;
      [apply write_or_fail_runs; [assumption..|eapply wrote_open; eassumption]|].
    intros ? w7 H7. cbv beta in *.
    eapply runs_weaken; [apply fflush_runs; eapply wrote_open; eassumption|].
    intros ? w8 H8. cbv beta in *.
    pose proof (wrote_trans _ _ _ _ _ H2 (wrote_trans _ _ _ _ _ H3
      (wrote_trans _ _ _ _ _ H4 (wrote_trans _ _ _ _ _ H5
        (wrote_trans _ _ _ _ _ H6 (wrote_trans _ _ _ _ _ H7 H8)))))) as Hw.
    rewrite <- ?app_assoc in Hw. rewrite app_nil_r in Hw. rewrite <- ?app_assoc.
    exact Hw. }
  destruct Hbody as (u & w' & Hrun & Hw).
  unfold bind at 1. rewrite Hrun.
  rewrite unlock_output_file_eq.
  destruct Hw as [(g & g' & G1 & G2 & G3 & G4) Hl _ Herr _ _ _ _ _].
  rewrite Hl. simpl.
  eexists _, _. split; [reflexivity|]. simpl.
  split; [reflexivity|]. split; [exact Herr|].
  exists f, g'. unfold w1 in G1. simpl in G1. rewrite Ef in G1.
  injection G1 as <-. auto.
Qed.

End Handlers.

(** ** Storage *)

Ltac perm_solve :=
  apply (proj2 (Permutation_count_occ Nat.eq_dec _ _)); intros ?x;
  rewrite ?count_occ_app; simpl;
  repeat match goal with
         | |- context [Nat.eq_dec ?a ?b] => destruct (Nat.eq_dec a b)
         end; rewrite ?count_occ_app; simpl; lia.

Lemma release_all_app bs1 bs2 w :
  release_all (bs1 ++ bs2) w = release_all bs2 (release_all bs1 w).
Proof. unfold release_all. apply fold_left_app. Qed.

Lemma release_all_fields bs : forall w,
  output_file (release_all bs w) = output_file w /\
  file_lock (release_all bs w) = file_lock w /\
  acquired (release_all bs w) = acquired w /\
  stderr (release_all bs w) = stderr w /\
  stdout (release_all bs w) = stdout w /\
  next_block (release_all bs w) = next_block w /\
  queries (release_all bs w) = queries w /\
  closed_files (release_all bs w) = closed_files w /\
  released (release_all bs w) = released w ++ bs.
Proof.
  induction bs as [|b bs IH]; intros w; simpl.
  - now rewrite app_nil_r.
  - destruct (IH (add_released b w)) as (H1 & H2 & H3 & H4 & H5 & H6 & H7 & H8 & H9).
    unfold release_all in *. rewrite H1, H2, H3, H4, H5, H6, H7, H8, H9. simpl.
    now rewrite <- app_assoc.
Qed.

Lemma blocks_between_refl w : blocks_between w w = [].
Proof. unfold blocks_between. now rewrite Nat.sub_diag. Qed.

Lemma blocks_between_app w1 w2 w3 :
  (next_block w1 <= next_block w2)%nat -> (next_block w2 <= next_block w3)%nat ->
  blocks_between w1 w3 = blocks_between w1 w2 ++ blocks_between w2 w3.
Proof.
  intros H12 H23. unfold blocks_between.
  replace (next_block w3 - next_block w1)%nat
    with ((next_block w2 - next_block w1) + (next_block w3 - next_block w2))%nat by lia.
  rewrite seq_app. do 2 f_equal. lia.
Qed.

Lemma blocks_of_app ms1 ms2 : blocks_of (ms1 ++ ms2) = blocks_of ms1 ++ blocks_of ms2.
Proof. apply flat_map_app. Qed.

(** ** The relations of metadata resolution compose *)

Lemma progressed_refl w : progressed w w.
Proof.
  constructor; auto. exists []. rewrite app_nil_r. auto.
Qed.

Lemma progressed_trans w1 w2 w3 :
  progressed w1 w2 -> progressed w2 w3 -> progressed w1 w3.
Proof.
  intros [? L ? ? ? ? ? (q1 & Q1 & U1 & S1) ?] [? ? ? ? ? ? ? (q2 & Q2 & U2 & S2) ?].
  constructor; try (etransitivity; eassumption).
  exists (q1 ++ q2). rewrite Q2, Q1, app_assoc. split; [reflexivity|].
  split; apply Forall_app; split; auto.
  unfold unlocked_query in *. rewrite L in U2. exact U2.
Qed.

Lemma collected_refl ms w : collected ms w ms w.
Proof.
  split; [apply progressed_refl|]. exists []. rewrite app_nil_r, blocks_between_refl.
  split; [reflexivity|constructor].
Qed.

Lemma collected_trans ms1 w1 ms2 w2 ms3 w3 :
  collected ms1 w1 ms2 w2 -> collected ms2 w2 ms3 w3 -> collected ms1 w1 ms3 w3.
Proof.
  intros [P1 (e1 & E1 & B1)] [P2 (e2 & E2 & B2)].
  split; [eapply progressed_trans; eassumption|].
  exists (e1 ++ e2). subst. rewrite app_assoc. split; [reflexivity|].
  rewrite blocks_of_app, (blocks_between_app w1 w2 w3) by (apply pr_grow; assumption).
  now apply Permutation_app.
Qed.

Lemma collected_abandoned ms1 w1 ms2 w2 ms3 w3 :
  collected ms1 w1 ms2 w2 -> abandoned ms2 w2 ms3 w3 -> abandoned ms1 w1 ms3 w3.
Proof.
  intros [[? L ? ? ? ? R (q1 & Q1 & U1 & S1) G1] (e1 & E1 & B1)]
         [? ? ? ? ? ? (q2 & Q2 & U2 & S2) G2 (e2 & g & E2 & R2 & B2)].
  constructor; try (etransitivity; eassumption).
  - exists (q1 ++ q2). rewrite Q2, Q1, app_assoc. split; [reflexivity|].
    split; [apply Forall_app; split; auto|apply Exists_app; auto].
    unfold unlocked_query in *. rewrite L in U2. exact U2.
  - exists (e1 ++ e2), g. subst. rewrite app_assoc. split; [reflexivity|].
    split; [congruence|].
    rewrite blocks_of_app, (blocks_between_app w1 w2 w3) by assumption.
    rewrite <- app_assoc. now apply Permutation_app.
Qed.

Lemma progressed_broke_off w1 w2 w3 :
  progressed w1 w2 -> broke_off w2 w3 -> broke_off w1 w3.
Proof.
  intros [? L ? ? ? ? ? (q1 & Q1 & U1 & S1) ?] [? ? ? ? (q2 & Q2 & U2 & S2)].
  constructor; try (etransitivity; eassumption).
  exists (q1 ++ q2). rewrite Q2, Q1, app_assoc. split; [reflexivity|].
  split; apply Forall_app; split; auto.
  unfold unlocked_query in *. rewrite L in U2. exact U2.
Qed.

Lemma progressed_is_broke_off w w' : progressed w w' -> broke_off w w'.
Proof. intros []. constructor; auto. Qed.

Lemma shutdown_query_dec result q lock :
  result <> JVMTI_ERROR_WRONG_PHASE -> ~ shutdown_query (mkQuery q result lock).
Proof. unfold shutdown_query. simpl. auto. Qed.

Lemma progressed_stage w0 w w1 result bs :
  progressed w0 w -> stage w w1 result bs ->
  result <> JVMTI_ERROR_WRONG_PHASE -> progressed w0 w1.
Proof.
  intros HP (S1 & S2 & S3 & S4 & S5 & S6 & S7 & (q & S8) & S9 & S10) Hr.
  eapply progressed_trans; [exact HP|].
  constructor; auto; [|lia].
  eexists. split; [exact S8|]. split; repeat constructor.
  now apply shutdown_query_dec.
Qed.

Lemma blocks_stage w0 w w1 result bs X Y :
  progressed w0 w -> stage w w1 result bs ->
  Permutation X (blocks_between w0 w) ->
  Permutation Y (X ++ bs) ->
  Permutation Y (blocks_between w0 w1).
Proof.
  intros HP (S1 & S2 & S3 & S4 & S5 & S6 & S7 & S8 & S9 & S10) HX HY.
  rewrite HY, HX. rewrite (blocks_between_app w0 w w1);
    [|apply pr_grow; assumption|lia].
  apply Permutation_app_head. unfold blocks_between.
  rewrite S10 at 1. replace (next_block w1 - next_block w)%nat with (List.length bs) by lia.
  reflexivity.
Qed.

Lemma abandoned_stage ms w0 w w1 bs given :
  progressed w0 w -> stage w w1 JVMTI_ERROR_WRONG_PHASE bs ->
  Permutation given (blocks_between w0 w1) ->
  abandoned ms w0 ms (release_all given w1).
Proof.
  intros [? L ? ? ? ? R (q1 & Q1 & U1 & N1) G1]
         (S1 & S2 & S3 & S4 & S5 & S6 & S7 & (q & S8) & S9 & S10) HB.
  destruct (release_all_fields given w1) as (H1 & H2 & H3 & H4 & H5 & H6 & H7 & H8 & H9).
  constructor; try congruence.
  - rewrite H7, S8, Q1, <- app_assoc. eexists. split; [reflexivity|].
    split.
    + apply Forall_app; split; [exact U1|]. constructor; [|constructor].
      unfold unlocked_query. simpl. congruence.
    + apply Exists_app; right. constructor. reflexivity.
  - rewrite H6. lia.
  - exists [], given. rewrite app_nil_r. split; [reflexivity|].
    split; [congruence|]. unfold blocks_between in *. now rewrite H6.
Qed.

Lemma broke_off_stage w0 w w1 result bs s :
  progressed w0 w -> stage w w1 result bs ->
  result <> JVMTI_ERROR_WRONG_PHASE -> broke_off w0 (add_stderr s w1).
Proof.
  intros HP HS Hr. pose proof (progressed_stage _ _ _ _ _ HP HS Hr) as [].
  constructor; auto.
Qed.

Section Queries.

Variable host : Host.

Lemma free_method_eq current w :
  free_method current w = Ok tt (release_all (method_blocks current) w).
Proof.
  unfold free_method, method_blocks, Deallocate_if, Deallocate, free, modify, bind.
  destruct (source_file current), (method_name current),
    (method_signature current), (class_signature current),
    (line_number_table current); reflexivity.
Qed.

Lemma release_methods_eq ms : forall w,
  release_methods ms w = Ok tt (release_all (blocks_of ms) w).
Proof.
  induction ms as [|m ms IH]; intros w; [reflexivity|].
  cbn [release_methods]. unfold bind. rewrite free_method_eq, IH.
  unfold blocks_of. cbn [flat_map]. now rewrite release_all_app.
Qed.

Lemma check_method_error_eq message result current w :
  check_method_error host message result current w =
  match result with
  | JVMTI_ERROR_NONE | JVMTI_ERROR_ABSENT_INFORMATION
  | JVMTI_ERROR_NATIVE_METHOD => Ok false w
  | JVMTI_ERROR_WRONG_PHASE =>
      Ok true (release_all (method_blocks current) w)
  | JVMTI_ERROR_other _ =>
      Stop Abort
        (add_stderr ("Error: " ++ message ++ ": " ++ GetErrorName host result)%string w)
  end.
Proof.
  unfold check_method_error. destruct result; simpl; try reflexivity.
  unfold bind. now rewrite free_method_eq.
Qed.

(** A query followed by its check. *)
Lemma checked_stage ms w0 w w1 message result bs current :
  progressed w0 w -> stage w w1 result bs ->
  Permutation (method_blocks current) (blocks_between w0 w1) ->
  outcome_sat (check_method_error host message result current w1)
    (fun stop w' =>
       if stop : bool then abandoned ms w0 ms w'
       else w' = w1 /\ progressed w0 w1)
    (broke_off w0).
Proof.
  intros HP HS HB. rewrite check_method_error_eq.
  destruct result; simpl.
  - split; [reflexivity|]. eapply progressed_stage; eauto. discriminate.
  - split; [reflexivity|]. eapply progressed_stage; eauto. discriminate.
  - split; [reflexivity|]. eapply progressed_stage; eauto. discriminate.
  - eapply abandoned_stage; eauto.
  - eapply broke_off_stage; eauto. discriminate.
Qed.

Ltac stage_solve :=
  unfold stage; simpl; repeat split; eauto; try lia; f_equal; lia.

Lemma jvmti_GetMethodName_sat method' w :
  outcome_sat (jvmti_GetMethodName host method' w)
    (fun '(result, name, signature) w' =>
       stage w w' result (block_of name ++ block_of signature))
    (fun _ => False).
Proof.
  unfold jvmti_GetMethodName, bind, tick, log_query, Allocate. simpl.
  destruct (GetMethodName host (now w) method') as [result [name signature]].
  destruct result; simpl; stage_solve.
Qed.

Lemma jvmti_GetMethodDeclaringClass_sat method' w :
  outcome_sat (jvmti_GetMethodDeclaringClass host method' w)
    (fun '(result, class) w' => stage w w' result [])
    (fun _ => False).
Proof.
  unfold jvmti_GetMethodDeclaringClass, bind, tick, log_query. simpl.
  destruct (GetMethodDeclaringClass host (now w) method') as [result class].
  simpl; stage_solve.
Qed.

Lemma jvmti_GetClassSignature_sat class w :
  outcome_sat (jvmti_GetClassSignature host class w)
    (fun '(result, signature) w' => stage w w' result (block_of signature))
    (fun _ => False).
Proof.
  unfold jvmti_GetClassSignature, bind, tick, log_query, Allocate. simpl.
  destruct (GetClassSignature host (now w) class) as [result signature].
  destruct result; simpl; stage_solve.
Qed.

Lemma jvmti_GetSourceFileName_sat class w :
  outcome_sat (jvmti_GetSourceFileName host class w)
    (fun '(result, name) w' => stage w w' result (block_of name))
    (fun _ => False).
Proof.
  unfold jvmti_GetSourceFileName, bind, tick, log_query, Allocate. simpl.
  destruct (GetSourceFileName host (now w) class) as [result name].
  destruct result; simpl; stage_solve.
Qed.

Lemma jvmti_GetLineNumberTable_sat method' w :
  outcome_sat (jvmti_GetLineNumberTable host method' w)
    (fun '(result, count, table) w' =>
       stage w w' result (block_of table) /\
       count = Z.of_nat (List.length (match table with
                                      | Some t => value t
                                      | None => []
                                      end)))
    (fun _ => False).
Proof.
  unfold jvmti_GetLineNumberTable, bind, tick, log_query, Allocate. simpl.
  destruct (GetLineNumberTable host (now w) method') as [result table].
  destruct result; simpl; split; try reflexivity; stage_solve.
Qed.

End Queries.

(** ** The search of [lookup_method] *)

Lemma lookup_method_scan_hit method' ms : forall last r l,
  lookup_method_scan method' ms last = (Some r, l) ->
  In r ms /\ method r = method'.
Proof.
  induction ms as [|c ms IH]; intros last r l H; simpl in H; [discriminate|].
  destruct (method c =? method') eqn:E.
  - injection H as <- _. apply Z.eqb_eq in E. simpl. auto.
  - apply IH in H. simpl. tauto.
Qed.

Lemma lookup_method_scan_miss method' ms : forall last l,
  lookup_method_scan method' ms last = (None, l) ->
  ~ In method' (map method ms) /\
  l = match rev ms with
      | [] => last
      | x :: _ => Some x
      end.
Proof.
  induction ms as [|c ms IH]; intros last l H; simpl in H.
  - injection H as <-. simpl. auto.
  - destruct (method c =? method') eqn:E; [discriminate|].
    apply Z.eqb_neq in E. apply IH in H. destruct H as [Hn ->].
    split; [simpl; tauto|].
    simpl. destruct (rev ms) as [|x xs] eqn:Er; reflexivity.
Qed.

Lemma lookup_method_scan_found method' ms : forall last,
  In method' (map method ms) ->
  exists r l, lookup_method_scan method' ms last = (Some r, l).
Proof.
  induction ms as [|c ms IH]; intros last H; simpl in *; [easy|].
  destruct (method c =? method') eqn:E; [eauto|].
  apply Z.eqb_neq in E. destruct H as [H|H]; [contradiction|]. now apply IH.
Qed.

Lemma ids_in_order_snoc ms current :
  ids_in_order ms ->
  (match rev ms with [] => True | x :: _ => id current = id x + 1 end) ->
  (ms = [] -> id current = 0) ->
  ids_in_order (ms ++ [current]).
Proof.
  intros Hids Hlast Hnil i r Hi.
  destruct (Nat.lt_ge_cases i (List.length ms)) as [Hlt|Hge].
  - rewrite nth_error_app1 in Hi by assumption. now apply Hids.
  - rewrite nth_error_app2 in Hi by assumption.
    destruct (i - List.length ms)%nat as [|k] eqn:Ek; simpl in Hi.
    2:{ destruct k; discriminate. }
    injection Hi as <-. assert (i = List.length ms) by lia. subst i.
    destruct ms as [|m0 ms'] using rev_ind; [now rewrite Hnil|].
    rewrite rev_app_distr in Hlast. simpl in Hlast. rewrite Hlast.
    rewrite (Hids (List.length ms') m0).
    + rewrite length_app. simpl. lia.
    + rewrite nth_error_app2 by lia. now rewrite Nat.sub_diag.
Qed.

Section Lookup.

Variable host : Host.

(** A handle that has a record is found, and nothing is done. *)
Lemma lookup_method_hit method' ms count :
  In method' (map method ms) ->
  exists r, In r ms /\ method r = method' /\
            forall w, lookup_method host method' ms count w = Ok (Some r, ms, count) w.
Proof.
  intros H. destruct (lookup_method_scan_found method' ms None H) as (r & l & E).
  exists r. destruct (lookup_method_scan_hit _ _ _ _ _ E) as [Hin Hm].
  repeat split; auto. intros w. unfold lookup_method. now rewrite E.
Qed.

(** Every outcome of [lookup_method]. *)
Lemma lookup_method_sat method' ms count w :
  outcome_sat (lookup_method host method' ms count w)
    (fun '(found, ms', count') w' =>
       match found with
       | Some r =>
           collected ms w ms' w' /\ In r ms' /\ method r = method' /\
           (ms' = ms \/ ms' = ms ++ [r]) /\
           (ids_in_order ms -> ids_in_order ms') /\
           count' - count = Z.of_nat (List.length ms') - Z.of_nat (List.length ms)
       | None => abandoned ms w ms' w' /\ ms' = ms /\ count' = count
       end)
    (broke_off w).
Proof.
  unfold lookup_method.
  destruct (lookup_method_scan method' ms None) as [[r|] last] eqn:Escan.
  { simpl. destruct (lookup_method_scan_hit _ _ _ _ _ Escan) as [Hin Hm].
    split; [apply collected_refl|]. split; [exact Hin|]. split; [exact Hm|].
    split; [auto|]. split; [auto|lia]. }
  destruct (lookup_method_scan_miss _ _ _ _ Escan) as [Hmiss Hlast].
  unfold bind at 1, calloc at 1.
  set (b := next_block w). set (wa := take_block w).
  assert (Hpa : progressed w wa).
  { constructor; simpl; auto. exists []. rewrite app_nil_r. auto. }
  assert (Hba : blocks_between w wa = [b]).
  { unfold blocks_between, wa, b, take_block. cbn [next_block].
    replace (S (next_block w) - next_block w)%nat with 1%nat by lia. reflexivity. }
  (* GetMethodName *)
  eapply sat_bind; [apply jvmti_GetMethodName_sat| |easy].
  intros [[result name] signature] w1 H1. cbv beta iota in H1.
  assert (B1 : Permutation
            (method_blocks (set_names name signature
               (mkMethodData b 0 method' None None None None 0 None)))
            (blocks_between w w1)).
  { eapply blocks_stage; [exact Hpa|exact H1|rewrite Hba; reflexivity|].
    unfold method_blocks; simpl. perm_solve. }
  eapply sat_bind; [eapply (checked_stage host ms); eassumption| |auto].
  intros [|] w1' Hc; [simpl; auto|]. destruct Hc as [-> P1].
  (* GetMethodDeclaringClass *)
  eapply sat_bind; [apply jvmti_GetMethodDeclaringClass_sat| |easy].
  intros [result2 class] w2 H2. cbv beta iota in H2.
  assert (B2 : Permutation
            (method_blocks (set_names name signature
               (mkMethodData b 0 method' None None None None 0 None)))
            (blocks_between w w2)).
  { eapply blocks_stage; [exact P1|exact H2|exact B1|]. now rewrite app_nil_r. }
  eapply sat_bind; [eapply (checked_stage host ms); eassumption| |auto].
  intros [|] w2' Hc; [simpl; auto|]. destruct Hc as [-> P2].
  (* GetClassSignature *)
  eapply sat_bind; [apply jvmti_GetClassSignature_sat| |easy].
  intros [result3 csig] w3 H3. cbv beta iota in H3.
  assert (B3 : Permutation
            (method_blocks (set_class_signature csig (set_names name signature
               (mkMethodData b 0 method' None None None None 0 None))))
            (blocks_between w w3)).
  { eapply blocks_stage; [exact P2|exact H3|exact B2|].
    unfold method_blocks; simpl. perm_solve. }
  eapply sat_bind; [eapply (checked_stage host ms); eassumption| |auto].
  intros [|] w3' Hc; [simpl; auto|]. destruct Hc as [-> P3].
  (* GetSourceFileName *)
  eapply sat_bind; [apply jvmti_GetSourceFileName_sat| |easy].
  intros [result4 src] w4 H4. cbv beta iota in H4.
  assert (B4 : Permutation
            (method_blocks (set_source_file src (set_class_signature csig
               (set_names name signature
                 (mkMethodData b 0 method' None None None None 0 None)))))
            (blocks_between w w4)).
  { eapply blocks_stage; [exact P3|exact H4|exact B3|].
    unfold method_blocks; simpl. perm_solve. }
  eapply sat_bind; [eapply (checked_stage host ms); eassumption| |auto].
  intros [|] w4' Hc; [simpl; auto|]. destruct Hc as [-> P4].
  (* GetLineNumberTable *)
  eapply sat_bind; [apply jvmti_GetLineNumberTable_sat| |easy].
  intros [[result5 cnt] table] w5 H5. cbv beta iota in H5. destruct H5 as [H5 Hcnt].
  assert (B5 : Permutation
            (method_blocks (set_line_number_table cnt table
               (set_source_file src (set_class_signature csig
                 (set_names name signature
                   (mkMethodData b 0 method' None None None None 0 None))))))
            (blocks_between w w5)).
  { eapply blocks_stage; [exact P4|exact H5|exact B4|].
    unfold method_blocks; simpl. perm_solve. }
  eapply sat_bind; [eapply (checked_stage host ms); eassumption| |auto].
  intros [|] w5' Hc; [simpl; auto|]. destruct Hc as [-> P5].
  (* the record joins the list *)
  set (current := set_line_number_table cnt table _) in *.
  destruct ms as [|m0 ms0].
  - simpl. split; [split; [exact P5|]|].
    + exists [current]. split; [reflexivity|].
      unfold blocks_of. simpl. now rewrite app_nil_r.
    + split; [left; reflexivity|]. split; [reflexivity|]. split; [right; reflexivity|].
      split; [|lia].
      intros _ [|[|i]] r Hi; simpl in Hi; try discriminate.
      now injection Hi as <-.
  - destruct last as [last|].
    2:{ exfalso. destruct (rev (m0 :: ms0)) eqn:Er; [|discriminate].
        apply (f_equal (@List.length _)) in Er. rewrite length_rev in Er. discriminate. }
    unfold ret, outcome_sat. split; [split; [exact P5|]|].
    + eexists [_]. split; [reflexivity|].
      unfold blocks_of. simpl. rewrite app_nil_r. exact B5.
    + split; [apply in_or_app; right; simpl; auto|].
      split; [reflexivity|]. split; [right; reflexivity|]. split.
      * intros Hids. apply (ids_in_order_snoc (m0 :: ms0)); auto.
        -- destruct (rev (m0 :: ms0)); [discriminate|].
           injection Hlast as <-. reflexivity.
        -- discriminate.
      * rewrite length_app. cbn [List.length]. lia.
Qed.

End Lookup.

(** ** Loops *)

Lemma for_from_sat {S R : Type} (body : Z -> S -> M (S + R))
    (Inv : Z -> S -> World -> Prop) (Exit : R -> World -> Prop)
    (Err : World -> Prop) :
  forall n i0,
    (forall k s w, (k < n)%nat -> Inv (i0 + Z.of_nat k) s w ->
       outcome_sat (body (i0 + Z.of_nat k) s w)
         (fun r w' => match r with
                      | inl s' => Inv (i0 + Z.of_nat (Datatypes.S k)) s' w'
                      | inr e => Exit e w'
                      end) Err) ->
    forall s w, Inv i0 s w ->
      outcome_sat (for_from n i0 body s w)
        (fun r w' => match r with
                     | inl s' => Inv (i0 + Z.of_nat n) s' w'
                     | inr e => Exit e w'
                     end) Err.
Proof.
  induction n as [|n IH]; intros i0 Hbody s w Hinv.
  - simpl. now rewrite Z.add_0_r.
  - cbn [for_from]. eapply sat_bind; [| |intros w1 H; exact H].
    + replace i0 with (i0 + Z.of_nat 0) at 1 by (simpl; lia).
      apply Hbody; [lia|]. now replace (i0 + Z.of_nat 0) with i0 by (simpl; lia).
    + intros [s'|e] w1 H1; cbv beta iota in H1; [|exact H1].
      replace (i0 + Z.of_nat (Datatypes.S n)) with (i0 + 1 + Z.of_nat n) by lia.
      apply IH.
      * intros k s0 w0 Hk Hi.
        replace (i0 + 1 + Z.of_nat k) with (i0 + Z.of_nat (Datatypes.S k)) in * by lia.
        replace (i0 + 1 + Z.of_nat (Datatypes.S k))
          with (i0 + Z.of_nat (Datatypes.S (Datatypes.S k))) by lia.
        apply Hbody; [lia|assumption].
      * now replace (i0 + 1) with (i0 + Z.of_nat 1) by (simpl; lia).
Qed.

Lemma loop_from_sat {S : Type} (body : Z -> S -> M S)
    (Inv : Z -> S -> World -> Prop) (Err : World -> Prop) :
  forall n i0,
    (forall k s w, (k < n)%nat -> Inv (i0 + Z.of_nat k) s w ->
       outcome_sat (body (i0 + Z.of_nat k) s w)
         (fun s' w' => Inv (i0 + Z.of_nat (Datatypes.S k)) s' w') Err) ->
    forall s w, Inv i0 s w ->
      outcome_sat (loop_from n i0 body s w)
        (fun s' w' => Inv (i0 + Z.of_nat n) s' w') Err.
Proof.
  induction n as [|n IH]; intros i0 Hbody s w Hinv.
  - simpl. now rewrite Z.add_0_r.
  - cbn [loop_from]. eapply sat_bind; [| |intros w1 H; exact H].
    + replace i0 with (i0 + Z.of_nat 0) at 1 by (simpl; lia).
      apply Hbody; [lia|]. now replace (i0 + Z.of_nat 0) with i0 by (simpl; lia).
    + intros s' w1 H1. cbv beta in H1.
      replace (i0 + Z.of_nat (Datatypes.S n)) with (i0 + 1 + Z.of_nat n) by lia.
      apply IH.
      * intros k s0 w0 Hk Hi.
        replace (i0 + 1 + Z.of_nat k) with (i0 + Z.of_nat (Datatypes.S k)) in * by lia.
        replace (i0 + 1 + Z.of_nat (Datatypes.S k))
          with (i0 + Z.of_nat (Datatypes.S (Datatypes.S k))) by lia.
        apply Hbody; [lia|assumption].
      * now replace (i0 + 1) with (i0 + Z.of_nat 1) by (simpl; lia).
Qed.

(** ** Resolution before the lock is taken *)

Lemma tracked_refl ms count w : tracked ms count w (ms, count) w.
Proof.
  split; [apply collected_refl|]. simpl. split; [auto|lia].
Qed.

Lemma tracked_trans ms1 c1 w1 st2 w2 st3 w3 :
  tracked ms1 c1 w1 st2 w2 -> tracked (fst st2) (snd st2) w2 st3 w3 ->
  tracked ms1 c1 w1 st3 w3.
Proof.
  intros (C1 & I1 & L1) (C2 & I2 & L2).
  split; [eapply collected_trans; eassumption|]. split; [auto|lia].
Qed.

Lemma tracked_abandoned ms1 c1 w1 st2 w2 ms3 w3 :
  tracked ms1 c1 w1 st2 w2 -> abandoned (fst st2) w2 ms3 w3 ->
  abandoned ms1 w1 ms3 w3.
Proof. intros (C1 & _) A. eapply collected_abandoned; eassumption. Qed.

Lemma tracked_broke_off ms1 c1 w1 st2 w2 w3 :
  tracked ms1 c1 w1 st2 w2 -> broke_off w2 w3 -> broke_off w1 w3.
Proof. intros ([P _] & _) B. eapply progressed_broke_off; eassumption. Qed.

Lemma tracked_incl ms c w st w' handle :
  tracked ms c w st w' -> In handle (map method ms) ->
  In handle (map method (fst st)).
Proof.
  intros ([_ (extra & -> & _)] & _) H. rewrite map_app. apply in_or_app. auto.
Qed.

Lemma frames_resolved_mono ms c w st w' info j :
  tracked ms c w st w' -> frames_resolved ms info j ->
  frames_resolved (fst st) info j.
Proof. intros T H j' h Hj Hn. eapply tracked_incl; eauto. Qed.

Lemma pcs_resolved_mono ms c w st w' inline_records i :
  tracked ms c w st w' -> pcs_resolved ms inline_records i ->
  pcs_resolved (fst st) inline_records i.
Proof. intros T H i' info Hi Hn. eapply frames_resolved_mono; eauto. Qed.

Section Collect.

Variable host : Host.

Lemma collect_frame_sat info j st w :
  outcome_sat (collect_frame host info j st w)
    (fun r w' =>
       match r with
       | inl st' =>
           tracked (fst st) (snd st) w st' w' /\
           forall handle,
             nth_error (info_methods info) (Z.to_nat j) = Some handle ->
             In handle (map method (fst st'))
       | inr ms' => abandoned (fst st) w ms' w'
       end)
    (broke_off w).
Proof.
  destruct st as [ms count]. unfold collect_frame.
  eapply sat_bind; [apply index_sat| |].
  2:{ intros w1 ->. apply progressed_is_broke_off, progressed_refl. }
  intros handle w1 (-> & Hj & Hn). cbv beta.
  eapply sat_bind; [apply lookup_method_sat| |auto].
  intros [[found ms'] count'] w1 H1. cbv beta iota in H1.
  destruct found as [r|]; simpl.
  - destruct H1 as (C & Hin & Hm & _ & Hids & Hc). split; [split; auto|].
    intros h E. rewrite Hn in E. injection E as <-. rewrite <- Hm. now apply in_map.
  - now destruct H1 as (A & -> & ->).
Qed.

Lemma collect_pc_sat inline_records i st w :
  outcome_sat (collect_pc host inline_records i st w)
    (fun r w' =>
       match r with
       | inl st' =>
           tracked (fst st) (snd st) w st' w' /\
           forall info,
             nth_error (pcinfo inline_records) (Z.to_nat i) = Some info ->
             frames_resolved (fst st') info (numstackframes info)
       | inr ms' => abandoned (fst st) w ms' w'
       end)
    (broke_off w).
Proof.
  unfold collect_pc.
  eapply sat_bind; [apply index_sat| |].
  2:{ intros w1 ->. apply progressed_is_broke_off, progressed_refl. }
  intros info w1 (-> & Hi & Hn). cbv beta. unfold for_.
  pose proof (for_from_sat (collect_frame host info)
    (fun j st' w' => tracked (fst st) (snd st) w st' w' /\
                     frames_resolved (fst st') info j)
    (fun ms' w' => abandoned (fst st) w ms' w')
    (broke_off w) (Z.to_nat (numstackframes info)) 0) as Hloop.
  eapply sat_weaken; [apply Hloop| |auto].
  - intros k s0 w0 Hk [T F]. rewrite Z.add_0_l in *.
    eapply sat_weaken; [apply collect_frame_sat| |].
    + intros [st'|ms'] w' H; cbv beta iota in *.
      * destruct H as [T' Hh]. split; [eapply tracked_trans; eassumption|].
        intros j' h Hj' Hn'.
        destruct (Z.eq_dec j' (Z.of_nat k)) as [->|Hne].
        -- apply Hh. exact Hn'.
        -- eapply tracked_incl; [exact T'|]. apply (F j' h); [lia|exact Hn'].
      * eapply tracked_abandoned; eassumption.
    + intros w' B. eapply tracked_broke_off; eassumption.
  - split; [destruct st; apply tracked_refl|]. intros j' h Hj'. lia.
  - intros [st'|ms'] w' H; cbv beta iota in *; [|exact H].
    destruct H as [T F]. split; [exact T|].
    intros info' E. rewrite Hn in E. injection E as <-.
    intros j' h Hj' Hn'. apply (F j' h); [lia|exact Hn'].
Qed.

Lemma collect_pcs_sat inline_records st w :
  outcome_sat
    (for_ (numpcs inline_records) (collect_pc host inline_records) st w)
    (fun r w' =>
       match r with
       | inl st' =>
           tracked (fst st) (snd st) w st' w' /\
           resolved (fst st') inline_records
       | inr ms' => abandoned (fst st) w ms' w'
       end)
    (broke_off w).
Proof.
  unfold for_.
  pose proof (for_from_sat (collect_pc host inline_records)
    (fun i st' w' => tracked (fst st) (snd st) w st' w' /\
                     pcs_resolved (fst st') inline_records i)
    (fun ms' w' => abandoned (fst st) w ms' w')
    (broke_off w) (Z.to_nat (numpcs inline_records)) 0) as Hloop.
  eapply sat_weaken; [apply Hloop| |auto].
  - intros k s0 w0 Hk [T F]. rewrite Z.add_0_l in *.
    eapply sat_weaken; [apply collect_pc_sat| |].
    + intros [st'|ms'] w' H; cbv beta iota in *.
      * destruct H as [T' Hh]. split; [eapply tracked_trans; eassumption|].
        intros i' info Hi' Hn'.
        destruct (Z.eq_dec i' (Z.of_nat k)) as [->|Hne].
        -- apply Hh. exact Hn'.
        -- eapply frames_resolved_mono; [exact T'|]. apply (F i' info); [lia|exact Hn'].
      * eapply tracked_abandoned; eassumption.
    + intros w' B. eapply tracked_broke_off; eassumption.
  - split; [destruct st; apply tracked_refl|]. intros i' info Hi'. lia.
  - intros [st'|ms'] w' H; cbv beta iota in *; [|exact H].
    destruct H as [T F]. split; [exact T|].
    intros i info j h Hi Hn Hj Hh. exact (F i info ltac:(lia) Hn j h Hj Hh).
Qed.

Lemma scan_compile_info_sat header : forall ms count w,
  outcome_sat (scan_compile_info host header ms count w)
    (fun r w' =>
       match r with
       | inl (inline_records, ms', count') =>
           tracked ms count w (ms', count') w' /\
           forall r, inline_records = Some r -> resolved ms' r
       | inr ms' => abandoned ms w ms' w'
       end)
    (broke_off w).
Proof.
  induction header as [|h next IH]; intros ms count w.
  - simpl. split; [apply tracked_refl|discriminate].
  - cbn [scan_compile_info]. destruct (is_inline_info (kind h)); [|apply IH].
    eapply sat_bind; [apply (collect_pcs_sat _ (ms, count))| |auto].
    intros [[ms' count']|ms'] w' H; simpl in *; [|exact H].
    destruct H as [T R]. split; [exact T|].
    intros r E. now injection E as <-.
Qed.

End Collect.

(** ** Writing a record under the lock *)

(** One more step of a sequence of writes: [Hacc] holds what was written
    since the sequence began. *)
Ltac wstep L Hacc :=
  eapply sat_bind;
  [ apply L
  | let a := fresh "a" in
    let w' := fresh "w" in
    let H := fresh "H" in
    intros a w' H; cbv beta in H;
    generalize (wrote_trans _ _ _ _ _ Hacc H); clear Hacc H; intro Hacc
  | let w' := fresh "w" in
    let H := fresh "H" in
    intros w' H; exact (quiet_trans _ _ _ (wrote_quiet _ _ _ Hacc) H) ].

Ltac wlast L Hacc :=
  eapply sat_weaken;
  [ apply L
  | let a := fresh "a" in
    let w' := fresh "w" in
    let H := fresh "H" in
    intros a w' H; cbv beta in H;
    generalize (wrote_trans _ _ _ _ _ Hacc H); clear Hacc H; intro Hacc
  | let w' := fresh "w" in
    let H := fresh "H" in
    intros w' H; exact (quiet_trans _ _ _ (wrote_quiet _ _ _ Hacc) H) ].

Lemma firstn_snoc {A : Type} (l : list A) : forall k e,
  nth_error l k = Some e -> firstn (S k) l = firstn k l ++ [e].
Proof.
  induction l as [|x l IH]; intros [|k] e H; simpl in *; try discriminate.
  - now injection H as ->.
  - f_equal. now apply IH.
Qed.

Section Record.

Variable host : Host.

Lemma write_required_sat p message w :
  outcome_sat (write_string host (pointee p) message w)
    (fun _ w' => wrote (len_str (string_of p)) w w') (quiet w).
Proof.
  eapply sat_weaken; [apply write_string_sat| |auto].
  intros _ w' (s & E & _ & H). destruct p as [o|]; simpl in *; [|discriminate].
  now injection E as ->.
Qed.

Lemma write_nullable_sat str w :
  outcome_sat (write_string_or_null host str w)
    (fun _ w' => wrote (nullable_str str) w w') (quiet w).
Proof.
  eapply sat_weaken; [apply write_string_or_null_sat| |auto].
  now intros _ w' [H _].
Qed.

Lemma write_line_number_table_sat current w :
  output_file w <> None ->
  outcome_sat (write_line_number_table host current w)
    (fun _ w' =>
       wrote (flat_map line_bytes
                (firstn (Z.to_nat (line_number_table_count current))
                        (table_of current))) w w')
    (quiet w).
Proof.
  intros Hf. unfold write_line_number_table, loop_.
  fold (table_of current).
  eapply sat_weaken;
    [apply (loop_from_sat _
              (fun k (_ : unit) w' =>
                 wrote (flat_map line_bytes
                          (firstn (Z.to_nat k) (table_of current))) w w')
              (quiet w))| |auto].
  - intros k [] w0 Hk Hacc. rewrite ?Z.add_0_l, ?Nat2Z.id in *.
    eapply sat_bind; [apply index_sat| |].
    2:{ intros w1 ->. eapply wrote_quiet; eassumption. }
    intros e w1 (-> & _ & Hn). cbv beta. rewrite Nat2Z.id in Hn.
    rewrite (firstn_snoc _ _ _ Hn), flat_map_app. cbn [flat_map].
    rewrite app_nil_r. unfold line_bytes at 2.
    wstep write_unsigned_jlong_sat Hacc.
    wlast write_jint_sat Hacc.
    now rewrite <- !app_assoc in Hacc.
  - simpl. now apply wrote_nil.
  - intros [] w' H. cbv beta in H. now rewrite Z.add_0_l, Nat2Z.id in H.
Qed.

Lemma write_method_sat current w :
  outcome_sat (write_method host current w)
    (fun _ w' => wrote (method_bytes current) w w') (quiet w).
Proof.
  unfold write_method, method_bytes.
  eapply sat_bind; [apply write_required_sat| |auto].
  intros a w1 Hacc. cbv beta in Hacc.
  wstep write_required_sat Hacc.
  wstep write_required_sat Hacc.
  wstep write_nullable_sat Hacc.
  wstep write_jint_sat Hacc.
  eapply sat_weaken;
    [apply write_line_number_table_sat; eapply wrote_open; eassumption| |].
  - intros a4 w5 H. cbv beta in H.
    pose proof (wrote_trans _ _ _ _ _ Hacc H) as Hw.
    now rewrite <- !app_assoc in Hw.
  - intros w5 H. exact (quiet_trans _ _ _ (wrote_quiet _ _ _ Hacc) H).
Qed.

Lemma write_methods_sat ms : forall w,
  output_file w <> None ->
  outcome_sat (write_methods host ms w)
    (fun _ w' => wrote (flat_map method_bytes ms) w w') (quiet w).
Proof.
  induction ms as [|m ms IH]; intros w Hf.
  - simpl. now apply wrote_nil.
  - cbn [write_methods flat_map].
    eapply sat_bind; [apply write_method_sat| |auto].
    intros a w1 Hacc. cbv beta in Hacc.
    eapply sat_weaken; [apply IH; eapply wrote_open; eassumption| |].
    + intros a1 w2 H. exact (wrote_trans _ _ _ _ _ Hacc H).
    + intros w2 H. exact (quiet_trans _ _ _ (wrote_quiet _ _ _ Hacc) H).
Qed.

(** A frame whose method has a record: the lookup finds it, no query is
    made, and the list and the count stay as they are. *)
Lemma write_frame_sat info j ms count w :
  (forall handle,
     nth_error (info_methods info) (Z.to_nat j) = Some handle ->
     In handle (map method ms)) ->
  outcome_sat (write_frame host info j (ms, count) w)
    (fun st w' =>
       st = (ms, count) /\
       exists f, frame_of ms f /\ wrote (frame_bytes f) w w')
    (quiet w).
Proof.
  intros Hres. unfold write_frame.
  eapply sat_bind; [apply index_sat| |].
  2:{ intros w1 ->. apply quiet_refl. }
  intros handle w1 (-> & Hj & Hn). cbv beta.
  destruct (lookup_method_hit host handle ms count (Hres _ Hn)) as (r & Hin & Hm & Hhit).
  unfold bind at 1. rewrite Hhit.
  eapply sat_bind; [apply write_jint_sat| |auto].
  intros a w1 Hacc. cbv beta in Hacc.
  eapply sat_bind; [apply index_sat| |].
  2:{ intros w2 ->. eapply wrote_quiet; eassumption. }
  intros bci w2 (-> & _ & _). cbv beta.
  eapply sat_bind; [apply write_jint_sat| |].
  - intros a1 w2 H. cbv beta in H. simpl. split; [reflexivity|].
    exists (mkFrame (id r) bci). split; [exists r; auto|].
    exact (wrote_trans _ _ _ _ _ Hacc H).
  - intros w2 H. exact (quiet_trans _ _ _ (wrote_quiet _ _ _ Hacc) H).
Qed.

Lemma write_pc_sat inline_records i ms count w :
  (forall info,
     nth_error (pcinfo inline_records) (Z.to_nat i) = Some info ->
     frames_resolved ms info (numstackframes info)) ->
  outcome_sat (write_pc host inline_records i (ms, count) w)
    (fun st w' =>
       st = (ms, count) /\
       exists g, group_of ms g /\ wrote (group_bytes g) w w')
    (quiet w).
Proof.
  intros Hres. unfold write_pc.
  eapply sat_bind; [apply index_sat| |].
  2:{ intros w1 ->. apply quiet_refl. }
  intros info w1 (-> & Hi & Hn). cbv beta.
  specialize (Hres info Hn).
  eapply sat_bind; [apply write_unsigned_jlong_sat| |auto].
  intros a w1 Hacc. cbv beta in Hacc.
  wstep write_jint_sat Hacc.
  unfold loop_.
  eapply sat_weaken;
    [apply (loop_from_sat (write_frame host info)
              (fun (k : Z) st w' =>
                 st = (ms, count) /\
                 exists fs, Forall (frame_of ms) fs /\
                            wrote (flat_map frame_bytes fs) w0 w')
              (quiet w0))| |].
  - intros k st w2 Hk (-> & fs & Hfs & Hw). rewrite Z.add_0_l in *.
    eapply sat_weaken; [apply write_frame_sat| |].
    + intros h Hh. apply (Hres (Z.of_nat k)); [lia|exact Hh].
    + intros st' w3 (-> & f & Hf & H). split; [reflexivity|].
      exists (fs ++ [f]). split; [apply Forall_app; auto|].
      rewrite flat_map_app. cbn [flat_map]. rewrite app_nil_r.
      exact (wrote_trans _ _ _ _ _ Hw H).
    + intros w3 H. exact (quiet_trans _ _ _ (wrote_quiet _ _ _ Hw) H).
  - split; [reflexivity|]. exists []. split; [constructor|].
    apply wrote_nil. eapply wrote_open; eassumption.
  - intros st w2 (-> & fs & Hfs & Hw). split; [reflexivity|].
    exists (mkGroup (pc info) (numstackframes info) fs). split; [exact Hfs|].
    pose proof (wrote_trans _ _ _ _ _ Hacc Hw) as H.
    unfold group_bytes. simpl. now rewrite <- app_assoc in H.
  - intros w2 H. exact (quiet_trans _ _ _ (wrote_quiet _ _ _ Hacc) H).
Qed.

Lemma write_pcs_sat inline_records ms count w :
  resolved ms inline_records -> output_file w <> None ->
  outcome_sat
    (loop_ (numpcs inline_records) (write_pc host inline_records) (ms, count) w)
    (fun st w' =>
       st = (ms, count) /\
       exists gs, Forall (group_of ms) gs /\ wrote (flat_map group_bytes gs) w w')
    (quiet w).
Proof.
  intros Hres Hf. unfold loop_.
  eapply sat_weaken;
    [apply (loop_from_sat (write_pc host inline_records)
              (fun (k : Z) st w' =>
                 st = (ms, count) /\
                 exists gs, Forall (group_of ms) gs /\
                            wrote (flat_map group_bytes gs) w w')
              (quiet w))| |auto].
  - intros k st w2 Hk (-> & gs & Hgs & Hw). rewrite Z.add_0_l in *.
    eapply sat_weaken; [apply write_pc_sat| |].
    + intros info Hn j h Hj Hh.
      apply (Hres (Z.of_nat k) info j h); [lia|exact Hn|exact Hj|exact Hh].
    + intros st' w3 (-> & g & Hg & H). split; [reflexivity|].
      exists (gs ++ [g]). split; [apply Forall_app; auto|].
      rewrite flat_map_app. cbn [flat_map]. rewrite app_nil_r.
      exact (wrote_trans _ _ _ _ _ Hw H).
    + intros w3 H. exact (quiet_trans _ _ _ (wrote_quiet _ _ _ Hw) H).
  - split; [reflexivity|]. exists []. split; [constructor|]. now apply wrote_nil.
  - intros st w2 H. exact H.
Qed.

End Record.

Section Event.

Variable host : Host.

(** The part of [write_method_load_event] between taking the lock and
    giving it back, on an open file. *)
Lemma write_record_sat timestamp code_size code_addr count ms inline_records w :
  (forall r, inline_records = Some r -> resolved ms r) ->
  output_file w <> None ->
  outcome_sat
    ((write_jint host CompiledMethodLoadTag ;;
      write_timestamp host timestamp ;;
      write_unsigned_jlong host code_addr ;;
      write_jint host code_size ;;
      write_or_fail host (load host code_addr code_size) code_size ;;
      write_jint host MethodsTag ;;
      write_jint host count ;;
      write_methods host ms ;;
      write_jint host DebugInfoTag ;;
      methods <-
        match inline_records with
        | Some inline_records =>
            write_jint host (numpcs inline_records) ;;
            st <- loop_ (numpcs inline_records) (write_pc host inline_records)
                    (ms, count) ;;
            ret (fst st)
        | None =>
            write_jint host 0 ;;
            ret ms
        end ;;
      fflush host ;;
      ret methods) w)
    (fun ms' w' =>
       ms' = ms /\
       exists n gs,
         Forall (group_of ms) gs /\
         wrote (cmlt_bytes timestamp code_addr code_size
                  (load host code_addr code_size) count ms n gs) w w')
    (quiet w).
Proof.
  intros Hres Hf. unfold cmlt_bytes.
  eapply sat_bind; [apply write_jint_sat| |auto].
  intros a w1 Hacc. cbv beta in Hacc.
  wstep write_timestamp_sat Hacc.
  wstep write_unsigned_jlong_sat Hacc.
  wstep write_jint_sat Hacc.
  wstep write_or_fail_sat Hacc.
  wstep write_jint_sat Hacc.
  wstep write_jint_sat Hacc.
  eapply sat_bind;
    [apply write_methods_sat; eapply wrote_open; eassumption| |
     intros w' H; exact (quiet_trans _ _ _ (wrote_quiet _ _ _ Hacc) H)].
  intros a6 w7 H. cbv beta in H.
  generalize (wrote_trans _ _ _ _ _ Hacc H); clear Hacc H; intro Hacc.
  wstep write_jint_sat Hacc.
  eapply sat_bind with
    (P := fun ms' w' => ms' = ms /\
            exists n gs, Forall (group_of ms) gs /\
              wrote (be_bytes 4 n ++ flat_map group_bytes gs) w8 w')
    (E1 := quiet w8).
  - destruct inline_records as [r|].
    + eapply sat_bind; [apply write_jint_sat| |auto].
      intros a8 w9 H9. cbv beta in H9.
      eapply sat_bind;
        [apply write_pcs_sat; [now apply Hres|eapply wrote_open; eassumption]| |
         intros w' H; exact (quiet_trans _ _ _ (wrote_quiet _ _ _ H9) H)].
      intros st w10 (-> & gs & Hgs & Hw). simpl. split; [reflexivity|].
      exists (numpcs r), gs. split; [exact Hgs|].
      exact (wrote_trans _ _ _ _ _ H9 Hw).
    + eapply sat_bind; [apply write_jint_sat| |auto].
      intros a8 w9 H9. cbv beta in H9. unfold ret, outcome_sat.
      split; [reflexivity|].
      exists 0, []. split; [constructor|]. cbn [flat_map]. now rewrite app_nil_r.
  - intros ms' w9 (-> & n & gs & Hgs & H9).
    generalize (wrote_trans _ _ _ _ _ Hacc H9); clear Hacc H9; intro Hacc.
    eapply sat_bind; [apply fflush_sat| |easy].
    intros a9 w10 (_ & _ & H10). simpl. split; [reflexivity|].
    exists n, gs. split; [exact Hgs|].
    specialize (H10 (wrote_open _ _ _ Hacc)).
    pose proof (wrote_trans _ _ _ _ _ Hacc H10) as Hw.
    rewrite app_nil_r in Hw. now rewrite <- !app_assoc in Hw.
  - intros w9 H. exact (quiet_trans _ _ _ (wrote_quiet _ _ _ Hacc) H).
Qed.

(** Every outcome of [write_method_load_event] when the lock is free and
    the methods of the frames have their records: no query is made, the
    list stays as it is, and the lock is given back. *)
Lemma write_method_load_event_sat timestamp code_size code_addr count ms
    inline_records w :
  (forall r, inline_records = Some r -> resolved ms r) ->
  file_lock w = false ->
  outcome_sat
    (write_method_load_event host timestamp code_size code_addr count ms
       inline_records w)
    (fun ms' w' =>
       ms' = ms /\
       file_lock w' = false /\ acquired w' = S (acquired w) /\
       stderr w' = stderr w /\ stdout w' = stdout w /\
       next_block w' = next_block w /\ released w' = released w /\
       queries w' = queries w /\ closed_files w' = closed_files w /\
       match output_file w with
       | None => output_file w' = None
       | Some f =>
           exists f' n gs,
             output_file w' = Some f' /\ f_name f' = f_name f /\
             Forall (group_of ms) gs /\
             f_data f' = f_data f ++
               cmlt_bytes timestamp code_addr code_size
                 (load host code_addr code_size) count ms n gs
       end)
    (fun w' =>
       queries w' = queries w /\ acquired w' = S (acquired w) /\
       released w' = released w /\ next_block w' = next_block w /\
       closed_files w' = closed_files w /\
       output_file w <> None /\
       option_map f_name (output_file w') = option_map f_name (output_file w)).
Proof.
  intros Hres Hlock. unfold write_method_load_event.
  unfold bind at 1. rewrite lock_output_file_eq, Hlock.
  set (w1 := count_acquired (set_file_lock true w)).
  unfold bind at 1, get at 1.
  change (output_file w1) with (output_file w).
  destruct (output_file w) as [f|] eqn:Ef.
  - eapply sat_bind;
      [apply (write_record_sat timestamp code_size code_addr count ms
                inline_records w1 Hres); unfold w1; simpl; congruence| |].
    + intros ms' w2 (-> & n & gs & Hgs & Hw).
      destruct Hw as [(g & g' & G1 & G2 & G3 & G4) L A Er O B R Q C].
      cbv beta. unfold bind. rewrite unlock_output_file_eq, L. simpl.
      unfold w1 in G1. simpl in G1. rewrite Ef in G1. injection G1 as <-.
      repeat split; auto. exists g', n, gs. auto.
    + intros w2 [N L A O B R Q C]. simpl in *. rewrite Ef in *.
      repeat split; auto. discriminate.
  - unfold bind, ret. rewrite unlock_output_file_eq. simpl.
    repeat split; auto.
Qed.

(** ** The handler of compiled method load events *)

Lemma broke_off_stopped w w' :
  file_lock w = false -> broke_off (advance w) w' -> event_stopped w w'.
Proof.
  intros Hlock [F L A C (qs & Q & U & N)]. simpl in *.
  split; [|left; exact A].
  exists qs. split; [exact Q|]. split; [|exact N].
  eapply Forall_impl; [|exact U]. unfold unlocked_query. simpl. congruence.
Qed.

Lemma abandoned_done method' code_size code_addr w ms w1 :
  file_lock w = false -> abandoned [] (advance w) ms w1 ->
  event_done host method' code_size code_addr w
    (release_all (blocks_of ms) w1).
Proof.
  intros Hlock [F L A Er O C (qs & Q & U & X) G (extra & gb & E & R & B)].
  simpl in *. subst ms.
  destruct (release_all_fields (blocks_of extra) w1)
    as (H1 & H2 & H3 & H4 & H5 & H6 & H7 & H8 & H9).
  split; [congruence|]. split; [congruence|]. split; [congruence|].
  exists qs, (gb ++ blocks_of extra).
  split; [unfold new_queries; congruence|].
  split; [eapply Forall_impl; [|exact U]; unfold unlocked_query; simpl; congruence|].
  split; [rewrite H9, R; now rewrite app_assoc|].
  split.
  - unfold blocks_between in *. rewrite H6. simpl in B.
    rewrite <- B. apply Permutation_app_comm.
  - left. split; [exact X|]. split; congruence.
Qed.

Lemma compiledMethodLoad_sat method' code_size code_addr compile_info w :
  file_lock w = false ->
  outcome_sat (compiledMethodLoad host method' code_size code_addr compile_info w)
    (fun _ w' => event_done host method' code_size code_addr w w')
    (event_stopped w).
Proof.
  intros Hlock. unfold compiledMethodLoad.
  unfold bind at 1. rewrite get_timestamp_eq.
  destruct (clock_gettime host (now w)) as [timestamp|] eqn:Hclock.
  2:{ simpl. split; [|left; reflexivity].
      exists []. unfold new_queries. simpl. rewrite app_nil_r. auto. }
  eapply sat_bind;
    [apply lookup_method_sat| |intros w1 B; now apply broke_off_stopped].
  intros [[found ms] count] w1 H1. cbv beta iota in H1.
  destruct found as [r|].
  2:{ destruct H1 as (Hab & -> & ->).
      unfold bind, ret. rewrite release_methods_eq. simpl.
      now apply (abandoned_done method' code_size code_addr w [] w1). }
  destruct H1 as (C1 & Hin & Hm & Hshape & Hids & Hcount).
  assert (Hms : ms = [r]).
  { destruct Hshape as [->| ->]; [destruct Hin|reflexivity]. }
  assert (T1 : tracked [] 0 (advance w) (ms, count) w1).
  { split; [exact C1|]. cbn [fst snd]. split; [exact Hids|exact Hcount]. }
  eapply sat_bind with
    (P := fun ms' w' => event_done host method' code_size code_addr w
                          (release_all (blocks_of ms') w'))
    (E1 := event_stopped w).
  2:{ intros ms' w' H. rewrite release_methods_eq. exact H. }
  2:{ auto. }
  eapply sat_bind; [apply scan_compile_info_sat| |].
  2:{ intros w2 B. apply broke_off_stopped; [exact Hlock|].
      eapply tracked_broke_off; eassumption. }
  intros [[[inline_records ms'] count']|ms'] w2 H2; cbv beta iota in H2.
  2:{ simpl. apply abandoned_done; [exact Hlock|].
      eapply (tracked_abandoned _ _ _ (ms, count)); eassumption. }
  destruct H2 as [T2 Hres].
  pose proof (tracked_trans _ _ _ _ _ _ _ T1 T2) as T.
  destruct T as ([P (extra & E & B)] & Iids & Hc). simpl in *.
  destruct P as [PF PL PA PE PO PC PR (qs & PQ & PU & PN) PG]. simpl in *.
  assert (Hne : exists tl, ms' = r :: tl).
  { destruct T2 as ([_ (e2 & E2 & _)] & _). simpl in E2.
    rewrite E2, Hms. simpl. eauto. }
  destruct Hne as (tl & Hms').
  eapply sat_bind;
    [apply write_method_load_event_sat; [exact Hres|congruence]| |].
  - intros written w3 (-> & WL & WA & WE & WO & WB & WR & WQ & WC & WF).
    rewrite Hms' at 1. unfold ret, outcome_sat.
    destruct (release_all_fields (blocks_of ms') w3)
      as (H1 & H2 & H3 & H4 & H5 & H6 & H7 & H8 & H9).
    split; [congruence|]. split; [congruence|]. split; [congruence|].
    exists qs, (blocks_of ms').
    split; [unfold new_queries; congruence|].
    split; [eapply Forall_impl; [|exact PU]; unfold unlocked_query; simpl; congruence|].
    split; [congruence|].
    split.
    { unfold blocks_between in *. rewrite H6, WB. simpl in B. rewrite <- B.
      now rewrite E. }
    right. split; [exact PN|]. split; [congruence|].
    exists timestamp, ms'.
    split; [exact Hclock|].
    split; [apply Iids; intros i x Hx; destruct i; discriminate|].
    split; [exists r; rewrite Hms'; auto|].
    rewrite H1. rewrite PF in WF.
    replace count' with (Z.of_nat (List.length ms')) in WF by lia.
    exact WF.
  - intros w3 (WQ & WA & WR & WB & WC & WF & WN).
    split; [|right; split; congruence].
    exists qs. split; [unfold new_queries; congruence|].
    split; [|exact PN].
    eapply Forall_impl; [|exact PU]. unfold unlocked_query. simpl. congruence.
Qed.

End Event.

(** ** The agent at work *)

Example dynamic_code_example :
  option_map f_data
    (output_file
       (world_of (dynamicCodeGenerated (sample_host true)
                    (Some (bytes_of_string "stub")) 4096 16 sample_open)))
  = Some [68; 89; 78; 67;
          0; 0; 0; 0; 0; 0; 0; 5;  0; 0; 0; 0; 0; 0; 0; 7;
          0; 0; 0; 4;  115; 116; 117; 98;
          0; 0; 0; 0; 0; 0; 16; 0;
          0; 0; 0; 16;
          0; 1; 2; 3; 4; 5; 6; 7; 8; 9; 10; 11; 12; 13; 14; 15].
Proof. vm_compute. reflexivity. Qed.

Example dynamic_code_example_big_endian_host :
  option_map f_data
    (output_file
       (world_of (dynamicCodeGenerated (sample_host false)
                    (Some (bytes_of_string "stub")) 4096 16 sample_open)))
  = option_map f_data
      (output_file
         (world_of (dynamicCodeGenerated (sample_host true)
                      (Some (bytes_of_string "stub")) 4096 16 sample_open))).
Proof. vm_compute. reflexivity. Qed.

Example dynamic_code_example_no_code :
  exists w',
    dynamicCodeGenerated (sample_host true) (Some (bytes_of_string "stub"))
      4096 0 sample_open = Stop Abort w' /\
    stderr w' = ["Error: failed to write bytes: Input/output error"%string].
Proof. eexists. split; vm_compute; reflexivity. Qed.

Example compiled_method_load_example :
  option_map f_data
    (output_file
       (world_of (compiledMethodLoad (sample_host true) 1 4 4096
                    (sample_chain 1) sample_open)))
  = Some ([67; 77; 76; 84;
           0; 0; 0; 0; 0; 0; 0; 5;  0; 0; 0; 0; 0; 0; 0; 7;
           0; 0; 0; 0; 0; 0; 16; 0;  0; 0; 0; 4;  0; 1; 2; 3;
           77; 84; 72; 84;  0; 0; 0; 2] ++
          ([0; 0; 0; 5; 76; 70; 111; 111; 59;  0; 0; 0; 3; 114; 117; 110;
            0; 0; 0; 3; 40; 41; 86;  255; 255; 255; 255;  0; 0; 0; 0] ++
           [0; 0; 0; 5; 76; 70; 111; 111; 59;  0; 0; 0; 3; 114; 117; 110;
            0; 0; 0; 3; 40; 41; 86;  255; 255; 255; 255;  0; 0; 0; 0]) ++
          [68; 69; 66; 73;  0; 0; 0; 1;
           0; 0; 0; 0; 0; 0; 16; 4;  0; 0; 0; 2;
           0; 0; 0; 1;  0; 0; 0; 10;
           0; 0; 0; 0;  0; 0; 0; 11]).
Proof. vm_compute. reflexivity. Qed.

Example compiled_method_load_example_abandoned :
  world_of (compiledMethodLoad (sample_host true) 1 4 4096 (sample_chain 99)
              sample_open)
  = mkWorld (Some sample_file) false 0 [] [] 12 9
      [8; 1; 2; 3; 0; 5; 6; 7; 4]%nat
      [mkQuery (QGetMethodName 1) JVMTI_ERROR_NONE false;
       mkQuery (QGetMethodDeclaringClass 1) JVMTI_ERROR_NONE false;
       mkQuery (QGetClassSignature 1001) JVMTI_ERROR_NONE false;
       mkQuery (QGetSourceFileName 1001) JVMTI_ERROR_ABSENT_INFORMATION false;
       mkQuery (QGetLineNumberTable 1) JVMTI_ERROR_NATIVE_METHOD false;
       mkQuery (QGetMethodName 2) JVMTI_ERROR_NONE false;
       mkQuery (QGetMethodDeclaringClass 2) JVMTI_ERROR_NONE false;
       mkQuery (QGetClassSignature 1002) JVMTI_ERROR_NONE false;
       mkQuery (QGetSourceFileName 1002) JVMTI_ERROR_ABSENT_INFORMATION false;
       mkQuery (QGetLineNumberTable 2) JVMTI_ERROR_NATIVE_METHOD false;
       mkQuery (QGetMethodName 99) JVMTI_ERROR_WRONG_PHASE false]
      [].
Proof. vm_compute. reflexivity. Qed.

Example agent_unload_example :
  exists w',
    Agent_OnUnload (sample_host true) sample_open = Ok tt w' /\
    output_file w' = None /\ closed_files w' = [sample_file].
Proof. eexists. repeat split; vm_compute; reflexivity. Qed.

Example usage_example :
  exists w',
    Agent_OnLoad (sample_host true) (Some "-h"%string) sample_closed
      = Stop (Exit 1) w' /\
    output_file w' = None.
Proof. eexists. split; vm_compute; reflexivity. Qed.

(** A flush that fails goes unnoticed: the handler returns, and of the 28
    bytes of the record none is known to have reached the file. *)
Example unload_example_failed_flush :
  exists w' f',
    compiledMethodUnload faulty_host 7 4096 sample_open = Ok tt w' /\
    output_file w' = Some f' /\
    f_data f' = cmut_bytes (mkTimespec 5 7) 4096 /\ f_flushed f' = 0%nat /\
    stderr w' = [].
Proof.
  eexists _, _. split; [vm_compute; reflexivity|].
  split; [reflexivity|]. repeat split; vm_compute; reflexivity.
Qed.

(** A negative code size: the size is written as it is, the write of the
    code runs past the code and fails, and the process is ended with what
    the write left behind in the stream. *)
Example dynamic_code_example_negative_size :
  exists w' f',
    dynamicCodeGenerated faulty_host (Some (bytes_of_string "stub")) 4096 (-1)
      sample_open = Stop Abort w' /\
    output_file w' = Some f' /\
    f_data f' =
      [68; 89; 78; 67;
       0; 0; 0; 0; 0; 0; 0; 5;  0; 0; 0; 0; 0; 0; 0; 7;
       0; 0; 0; 4;  115; 116; 117; 98;
       0; 0; 0; 0; 0; 0; 16; 0;
       255; 255; 255; 255;
       170; 187] /\
    stderr w' = ["Error: failed to write bytes: Input/output error"%string] /\
    file_lock w' = true.
Proof.
  eexists _, _. split; [vm_compute; reflexivity|].
  split; [reflexivity|]. repeat split; vm_compute; reflexivity.
Qed.

(** A query the runtime refuses: the diagnostic names that query. *)
Example lookup_method_example_refused :
  exists w',
    lookup_method faulty_host 1 [] 0 sample_open = Stop Abort w' /\
    stderr w' = ["Error: GetClassSignature: JVMTI_ERROR_INTERNAL"%string] /\
    queries w' =
      [mkQuery (QGetMethodName 1) JVMTI_ERROR_NONE false;
       mkQuery (QGetMethodDeclaringClass 1) JVMTI_ERROR_NONE false;
       mkQuery (QGetClassSignature 1001) (JVMTI_ERROR_other 113) false].
Proof.
  eexists. split; [vm_compute; reflexivity|].
  split; vm_compute; reflexivity.
Qed.

(** * The specification, statement by statement *)

(** C6: for every 64-bit value, write_unsigned_jlong adds exactly the eight
    bytes of the value, most significant byte first, to the output file,
    whatever the byte order of the host; on a host that stores integers
    least significant byte first it does so as two writes of four bytes,
    the high word and then the low word. *)
Theorem write_unsigned_jlong_big_endian :
  forall (host : Host) (value : Z) (w : World) (f : FILE),
    io_ok host ->
    output_file w = Some f ->
    exists w' f',
      write_unsigned_jlong host value w = Ok tt w' /\
      output_file w' = Some f' /\
      f_data f' = f_data f ++ be_bytes 8 value /\
      List.length (be_bytes 8 value) = 8%nat /\
      be_value (be_bytes 8 value) = value mod 2 ^ 64 /\
      (little_endian host = true ->
       exists w1 f1,
         write_jint host (to_jint (Z.shiftr value 32)) w = Ok tt w1 /\
         output_file w1 = Some f1 /\
         f_data f1 = f_data f ++ be_bytes 4 (Z.shiftr value 32) /\
         write_jint host (to_jint value) w1 = Ok tt w' /\
         f_data f' = f_data f1 ++ be_bytes 4 value).
Proof.
  intros host value w f Hio Hf.
  assert (Hopen : output_file w <> None) by congruence.
  destruct (write_unsigned_jlong_runs host Hio value w Hopen) as ([] & w' & Hrun & Hw).
  destruct Hw as [(g & g' & G1 & G2 & G3 & G4) _ _ _ _ _ _ _ _].
  rewrite Hf in G1. injection G1 as <-.
  exists w', g'. split; [exact Hrun|]. split; [exact G2|]. split; [exact G4|].
  split; [apply be_bytes_length|]. split; [apply be_value_be_bytes|].
  intros Hle.
  destruct (write_jint_runs host Hio (to_jint (Z.shiftr value 32)) w Hopen)
    as ([] & w1 & Hrun1 & Hw1).
  destruct (write_jint_runs host Hio (to_jint value) w1 (wrote_open _ _ _ Hw1))
    as ([] & w2 & Hrun2 & Hw2).
  assert (w2 = w').
  { unfold write_unsigned_jlong in Hrun. rewrite htonl_1, Hle in Hrun.
    simpl in Hrun. unfold bind in Hrun. rewrite Hrun1, Hrun2 in Hrun. congruence. }
  subst w2.
  destruct Hw1 as [(h & h' & K1 & K2 & K3 & K4) _ _ _ _ _ _ _ _].
  destruct Hw2 as [(i & i' & I1 & I2 & I3 & I4) _ _ _ _ _ _ _ _].
  rewrite Hf in K1. injection K1 as <-. rewrite K2 in I1. injection I1 as <-.
  rewrite G2 in I2. injection I2 as <-.
  exists w1, h'. rewrite be_bytes4_to_jint in K4, I4. auto.
Qed.

Lemma write_unsigned_jlong_big_endian_witness :
  exists w' f',
    write_unsigned_jlong (sample_host true) (-2) sample_open = Ok tt w' /\
    output_file w' = Some f' /\
    f_data f' = f_data sample_file ++ be_bytes 8 (-2) /\
    List.length (be_bytes 8 (-2)) = 8%nat /\
    be_value (be_bytes 8 (-2)) = (-2) mod 2 ^ 64 /\
    (little_endian (sample_host true) = true ->
     exists w1 f1,
       write_jint (sample_host true) (to_jint (Z.shiftr (-2) 32)) sample_open
         = Ok tt w1 /\
       output_file w1 = Some f1 /\
       f_data f1 = f_data sample_file ++ be_bytes 4 (Z.shiftr (-2) 32) /\
       write_jint (sample_host true) (to_jint (-2)) w1 = Ok tt w' /\
       f_data f' = f_data f1 ++ be_bytes 4 (-2)).
Proof.
  apply (write_unsigned_jlong_big_endian (sample_host true) (-2) sample_open
           sample_file); [intro t; reflexivity | reflexivity].
Defined.

(** C7: write_string fails fatally, with a diagnostic on the standard
    error stream and before anything is written, when the string is NULL
    and when its length is greater than INT_MAX; otherwise it adds the
    length as four bytes, most significant first, and then the bytes of
    the string (none for the empty string) to the output file. *)
Theorem write_string_behaviour :
  forall (host : Host) (message : option string) (w : World),
    write_string host None message w =
      Stop Abort
        (add_stderr ("Error: Unexpected NULL string for " ++ dquote ++
                     match message with Some m => m | None => "(null)" end ++
                     dquote)%string w) /\
    (forall s : cstring,
       INT_MAX < strlen s ->
       write_string host (Some s) message w =
         Stop Abort (add_stderr "Error: String length is longer than an int" w)) /\
    (forall (s : cstring) (f : FILE),
       strlen s <= INT_MAX ->
       io_ok host ->
       output_file w = Some f ->
       exists w' f',
         write_string host (Some s) message w = Ok tt w' /\
         output_file w' = Some f' /\
         f_data f' = f_data f ++ be_bytes 4 (strlen s) ++ s /\
         (s = [] -> f_data f' = f_data f ++ [0; 0; 0; 0]) /\
         stderr w' = stderr w).
Proof.
  intros host message w. split; [reflexivity|]. split.
  - intros s Hs. unfold write_string, bind, ret.
    apply Z.ltb_lt in Hs. now rewrite Hs.
  - intros s f Hs Hio Hf.
    assert (Hopen : output_file w <> None) by congruence.
    destruct (write_string_runs host Hio s message w Hs Hopen) as ([] & w' & Hrun & Hw).
    destruct Hw as [(g & g' & G1 & G2 & G3 & G4) _ _ Herr _ _ _ _ _].
    rewrite Hf in G1. injection G1 as <-.
    exists w', g'. split; [exact Hrun|]. split; [exact G2|].
    split; [exact G4|]. split; [|exact Herr].
    intros ->. exact G4.
Qed.

Lemma write_string_behaviour_witness :
  write_string (sample_host true) None (Some "method_name"%string) sample_open =
    Stop Abort
      (add_stderr ("Error: Unexpected NULL string for " ++ dquote ++
                   "method_name" ++ dquote)%string sample_open) /\
  write_string (sample_host true)
    (Some (repeat 65 (Z.to_nat 2147483648))) (Some "method_name"%string)
    sample_open =
    Stop Abort
      (add_stderr "Error: String length is longer than an int" sample_open) /\
  exists w' f',
    write_string (sample_host true) (Some (bytes_of_string "run"))
      (Some "method_name"%string) sample_open = Ok tt w' /\
    output_file w' = Some f' /\
    f_data f' = f_data sample_file ++
                be_bytes 4 (strlen (bytes_of_string "run")) ++
                bytes_of_string "run" /\
    (bytes_of_string "run" = [] -> f_data f' = f_data sample_file ++ [0; 0; 0; 0]) /\
    stderr w' = stderr sample_open.
Proof.
  pose proof (write_string_behaviour (sample_host true)
                (Some "method_name"%string) sample_open) as (H1 & H2 & H3).
  split; [exact H1|]. split.
  - apply H2. unfold strlen. rewrite repeat_length, Z2Nat.id; [reflexivity|].
    discriminate.
  - apply (H3 (bytes_of_string "run") sample_file);
      [discriminate | intro t; reflexivity | reflexivity].
Defined.

Lemma be_bytes4_inj a b :
  0 <= a < 2 ^ 32 -> 0 <= b < 2 ^ 32 -> be_bytes 4 a = be_bytes 4 b -> a = b.
Proof.
  intros Ha Hb H. apply (f_equal be_value) in H.
  rewrite !be_value_be_bytes in H.
  change (256 ^ Z.of_nat 4) with (2 ^ 32) in H.
  rewrite !Z.mod_small in H by assumption. exact H.
Qed.

Lemma null_is_not_a_length s :
  strlen s <= INT_MAX ->
  firstn 4 (nullable_str (Some s)) <> firstn 4 (nullable_str None).
Proof.
  intros Hs. unfold nullable_str, len_str.
  rewrite firstn_app, be_bytes_length, Nat.sub_diag.
  rewrite firstn_O, app_nil_r.
  rewrite !firstn_all2 by (rewrite be_bytes_length; lia).
  intros H. pose proof (strlen_nonneg s) as Hn. unfold INT_MAX in Hs.
  assert (E : be_bytes 4 (-1) = be_bytes 4 (2 ^ 32 - 1)) by reflexivity.
  rewrite E in H. apply be_bytes4_inj in H; lia.
Qed.

(** C8: in the method table, a method without source file (a NULL
    [source_file]) has the four bytes of -1 where the source file goes and
    no bytes of data, and a method with an empty line number table has the
    count 0 and no entries; the four bytes of -1 are the length of no
    string, the empty string having the length 0, so the two are told
    apart by the first four bytes. *)
Theorem null_source_and_empty_table :
  forall (host : Host) (current : MethodData) (w : World) (f : FILE),
    io_ok host ->
    output_file w = Some f ->
    (exists s, pointee (class_signature current) = Some s /\ strlen s <= INT_MAX) ->
    (exists s, pointee (method_name current) = Some s /\ strlen s <= INT_MAX) ->
    (exists s, pointee (method_signature current) = Some s /\ strlen s <= INT_MAX) ->
    (forall s, pointee (source_file current) = Some s -> strlen s <= INT_MAX) ->
    0 <= line_number_table_count current
      <= Z.of_nat (List.length (table_of current)) ->
    exists w' f',
      write_method host current w = Ok tt w' /\
      output_file w' = Some f' /\
      f_data f' = f_data f ++
        (len_str (string_of (class_signature current)) ++
         len_str (string_of (method_name current)) ++
         len_str (string_of (method_signature current))) ++
        nullable_str (pointee (source_file current)) ++
        be_bytes 4 (line_number_table_count current) ++
        flat_map line_bytes
          (firstn (Z.to_nat (line_number_table_count current)) (table_of current)) /\
      (source_file current = None ->
       nullable_str (pointee (source_file current)) = [255; 255; 255; 255]) /\
      (line_number_table_count current = 0 ->
       be_bytes 4 (line_number_table_count current) ++
       flat_map line_bytes
         (firstn (Z.to_nat (line_number_table_count current)) (table_of current))
       = [0; 0; 0; 0]) /\
      nullable_str (Some []) = [0; 0; 0; 0] /\
      (forall s, strlen s <= INT_MAX ->
         firstn 4 (nullable_str (Some s)) <> firstn 4 (nullable_str None)).
Proof.
  intros host current w f Hio Hf Hcs Hmn Hms Hsrc Htab.
  assert (Hopen : output_file w <> None) by congruence.
  destruct (write_method_runs host Hio current w Hcs Hmn Hms Hsrc Htab Hopen)
    as ([] & w' & Hrun & Hw).
  destruct Hw as [(g & g' & G1 & G2 & G3 & G4) _ _ _ _ _ _ _ _].
  rewrite Hf in G1. injection G1 as <-.
  exists w', g'. split; [exact Hrun|]. split; [exact G2|].
  split; [rewrite G4; unfold method_bytes; now rewrite <- !app_assoc|].
  split; [now intros ->|]. split; [now intros ->|].
  split; [reflexivity|]. apply null_is_not_a_length.
Qed.

Lemma null_source_and_empty_table_witness :
  exists w' f',
    write_method (sample_host true) sample_method sample_open = Ok tt w' /\
    output_file w' = Some f' /\
    f_data f' = f_data sample_file ++
      (len_str (string_of (class_signature sample_method)) ++
       len_str (string_of (method_name sample_method)) ++
       len_str (string_of (method_signature sample_method))) ++
      nullable_str (pointee (source_file sample_method)) ++
      be_bytes 4 (line_number_table_count sample_method) ++
      flat_map line_bytes
        (firstn (Z.to_nat (line_number_table_count sample_method))
                (table_of sample_method)) /\
    (source_file sample_method = None ->
     nullable_str (pointee (source_file sample_method)) = [255; 255; 255; 255]) /\
    (line_number_table_count sample_method = 0 ->
     be_bytes 4 (line_number_table_count sample_method) ++
     flat_map line_bytes
       (firstn (Z.to_nat (line_number_table_count sample_method))
               (table_of sample_method))
     = [0; 0; 0; 0]) /\
    nullable_str (Some []) = [0; 0; 0; 0] /\
    (forall s, strlen s <= INT_MAX ->
       firstn 4 (nullable_str (Some s)) <> firstn 4 (nullable_str None)).
Proof.
  apply (null_source_and_empty_table (sample_host true) sample_method
           sample_open sample_file).
  - intro t; reflexivity.
  - reflexivity.
  - eexists; split; [reflexivity|discriminate].
  - eexists; split; [reflexivity|discriminate].
  - eexists; split; [reflexivity|discriminate].
  - discriminate.
  - simpl; lia.
Defined.

(** C5: a dynamic code event with a name of four characters and 16 bytes
    of code adds exactly 56 bytes to the open output file: the tag DYNC,
    the seconds and the nanoseconds of the timestamp in eight bytes each,
    the length 4 in four bytes and the four bytes of the name, the code
    address in eight bytes, the code size 16 in four bytes and the 16
    bytes of code, every integer most significant byte first. *)
Theorem dynamic_code_record_layout :
  forall (host : Host) (name : cstring) (code_addr : Z) (w : World)
         (f : FILE) (timestamp : timespec),
    io_ok host ->
    strlen name = 4 ->
    output_file w = Some f ->
    file_lock w = false ->
    clock_gettime host (now w) = Some timestamp ->
    exists w' f' record,
      dynamicCodeGenerated host (Some name) code_addr 16 w = Ok tt w' /\
      output_file w' = Some f' /\
      f_data f' = f_data f ++ record /\
      record =
        bytes_of_string "DYNC" ++
        be_bytes 8 (tv_sec timestamp) ++ be_bytes 8 (tv_nsec timestamp) ++
        [0; 0; 0; 4] ++ name ++
        be_bytes 8 code_addr ++
        [0; 0; 0; 16] ++ load host code_addr 16 /\
      List.length record = 56%nat /\
      file_lock w' = false.
Proof.
  intros host name code_addr w f timestamp Hio Hname Hf Hlock Hclock.
  assert (Hopen : output_file w <> None) by congruence.
  destruct (dynamicCodeGenerated_runs host Hio name code_addr 16 w timestamp)
    as ([] & w' & Hrun & Hl & _ & g & g' & G1 & G2 & G3 & G4);
    try assumption; try (unfold INT_MAX; lia).
  rewrite Hf in G1. injection G1 as <-.
  exists w', g', (dync_bytes timestamp name code_addr 16 (load host code_addr 16)).
  split; [exact Hrun|]. split; [exact G2|]. split; [exact G4|].
  split; [|split; [|exact Hl]].
  - unfold dync_bytes, len_str. rewrite Hname. reflexivity.
  - unfold dync_bytes, len_str. rewrite !length_app, !be_bytes_length.
    unfold load. rewrite length_map, length_seq.
    unfold strlen in Hname. simpl Z.to_nat. lia.
Qed.

Lemma dynamic_code_record_layout_witness :
  exists w' f' record,
    dynamicCodeGenerated (sample_host true) (Some (bytes_of_string "stub"))
      4096 16 sample_open = Ok tt w' /\
    output_file w' = Some f' /\
    f_data f' = f_data sample_file ++ record /\
    record =
      bytes_of_string "DYNC" ++
      be_bytes 8 (tv_sec (mkTimespec 5 7)) ++ be_bytes 8 (tv_nsec (mkTimespec 5 7)) ++
      [0; 0; 0; 4] ++ bytes_of_string "stub" ++
      be_bytes 8 4096 ++
      [0; 0; 0; 16] ++ load (sample_host true) 4096 16 /\
    List.length record = 56%nat /\
    file_lock w' = false.
Proof.
  apply (dynamic_code_record_layout (sample_host true) (bytes_of_string "stub")
           4096 sample_open sample_file (mkTimespec 5 7));
    [intro t; reflexivity | reflexivity | reflexivity | reflexivity | reflexivity].
Defined.

Lemma new_queries_unique w w' qs qs' :
  new_queries w w' qs -> new_queries w w' qs' -> qs = qs'.
Proof.
  unfold new_queries. intros H H'. rewrite H in H'. now apply app_inv_head in H'.
Qed.

Lemma shutdown_query_excluded qs :
  Exists shutdown_query qs -> Forall (fun q => ~ shutdown_query q) qs -> False.
Proof.
  intros HE HF. apply Exists_exists in HE. destruct HE as (q & Hin & Hq).
  rewrite Forall_forall in HF. exact (HF q Hin Hq).
Qed.

(** C2: when a metadata query of a compiled method load event meets the
    shutdown of the runtime (JVMTI_ERROR_WRONG_PHASE), the handler returns
    without having written to the output file, taken the lock or printed a
    diagnostic, and every block of storage handed out during the event was
    given back exactly once. *)
Theorem shutdown_abandons_the_event :
  forall (host : Host) (method' : jmethodID) (code_size code_addr : Z)
         (compile_info : list jvmtiCompiledMethodLoadRecordHeader)
         (w : World) (qs : list query_event),
    file_lock w = false ->
    new_queries w
      (world_of (compiledMethodLoad host method' code_size code_addr compile_info w))
      qs ->
    Exists shutdown_query qs ->
    exists w' given_back,
      compiledMethodLoad host method' code_size code_addr compile_info w = Ok tt w' /\
      output_file w' = output_file w /\
      stderr w' = stderr w /\
      acquired w' = acquired w /\
      file_lock w' = false /\
      released w' = released w ++ given_back /\
      Permutation given_back (blocks_between w w') /\
      NoDup given_back.
Proof.
  intros host method' code_size code_addr compile_info w qs Hlock Hqs HX.
  pose proof (compiledMethodLoad_sat host method' code_size code_addr
                compile_info w Hlock) as H.
  destruct (compiledMethodLoad host method' code_size code_addr compile_info w)
    as [[] w'|why w']; simpl in *.
  - destruct H as (HL & _ & HE & qs0 & gb & Q0 & _ & HR & HP & [Hab|Hwr]).
    + destruct Hab as (_ & HF & HA).
      exists w', gb. repeat split; auto.
      eapply Permutation_NoDup; [symmetry; exact HP|]. apply seq_NoDup.
    + destruct Hwr as (Hno & _).
      rewrite (new_queries_unique _ _ _ _ Hqs Q0) in HX.
      destruct (shutdown_query_excluded _ HX Hno).
  - destruct H as ((qs0 & Q0 & _ & Hno) & _).
    rewrite (new_queries_unique _ _ _ _ Hqs Q0) in HX.
    destruct (shutdown_query_excluded _ HX Hno).
Qed.

Lemma shutdown_abandons_the_event_witness :
  exists w' given_back,
    compiledMethodLoad (sample_host true) 1 4 4096 (sample_chain 99) sample_open
      = Ok tt w' /\
    output_file w' = output_file sample_open /\
    stderr w' = stderr sample_open /\
    acquired w' = acquired sample_open /\
    file_lock w' = false /\
    released w' = released sample_open ++ given_back /\
    Permutation given_back (blocks_between sample_open w') /\
    NoDup given_back.
Proof.
  eapply (shutdown_abandons_the_event (sample_host true) 1 4 4096
            (sample_chain 99) sample_open).
  - reflexivity.
  - vm_compute. reflexivity.
  - vm_compute. do 10 apply Exists_cons_tl. apply Exists_cons_hd. reflexivity.
Defined.

(** C3: no metadata query of a compiled method load event is made while
    the lock is held: every query the handler makes is made without the
    lock, and writing the record, which looks the methods of the frames up
    again under the lock, finds each of them and leaves the log of queries
    as it was. *)
Theorem no_query_under_the_lock :
  forall (host : Host) (method' : jmethodID) (code_size code_addr : Z)
         (compile_info : list jvmtiCompiledMethodLoadRecordHeader) (w : World),
    file_lock w = false ->
    (exists qs,
       new_queries w
         (world_of (compiledMethodLoad host method' code_size code_addr
                      compile_info w)) qs /\
       Forall (fun q => q_locked q = false) qs) /\
    (forall ms count w0 inline_records ms' count' w1 timestamp,
       scan_compile_info host compile_info ms count w0
         = Ok (inl (inline_records, ms', count')) w1 ->
       file_lock w1 = false ->
       queries (world_of (write_method_load_event host timestamp code_size
                            code_addr count' ms' inline_records w1))
       = queries w1).
Proof.
  intros host method' code_size code_addr compile_info w Hlock. split.
  - pose proof (compiledMethodLoad_sat host method' code_size code_addr
                  compile_info w Hlock) as H.
    destruct (compiledMethodLoad host method' code_size code_addr compile_info w)
      as [[] w'|why w']; simpl in *.
    + destruct H as (_ & _ & _ & qs & gb & Q & HU & _). eauto.
    + destruct H as ((qs & Q & HU & _) & _). eauto.
  - intros ms count w0 inline_records ms' count' w1 timestamp Hscan Hlock1.
    pose proof (scan_compile_info_sat host compile_info ms count w0) as H.
    rewrite Hscan in H. simpl in H. destruct H as [_ Hres].
    pose proof (write_method_load_event_sat host timestamp code_size code_addr
                  count' ms' inline_records w1 Hres Hlock1) as H.
    destruct (write_method_load_event host timestamp code_size code_addr count'
                ms' inline_records w1) as [x w2|why w2]; simpl in *.
    + now destruct H as (_ & _ & _ & _ & _ & _ & _ & Q & _).
    + now destruct H as (Q & _).
Qed.

Lemma no_query_under_the_lock_witness :
  (exists qs,
     new_queries sample_open
       (world_of (compiledMethodLoad (sample_host true) 1 4 4096
                    (sample_chain 1) sample_open)) qs /\
     Forall (fun q => q_locked q = false) qs) /\
  match sample_scanned with
  | Ok (inl (inline_records, ms', count')) w1 =>
      queries (world_of (write_method_load_event (sample_host true)
                           (mkTimespec 5 7) 4 4096 count' ms' inline_records w1))
      = queries w1
  | _ => False
  end.
Proof.
  pose proof (no_query_under_the_lock (sample_host true) 1 4 4096
                (sample_chain 1) sample_open eq_refl) as [H1 H2].
  split; [exact H1|].
  assert (E : exists inline_records ms' count' w1,
            sample_scanned = Ok (inl (inline_records, ms', count')) w1 /\
            file_lock w1 = false).
  { vm_compute. repeat eexists. }
  destruct E as (inline_records & ms' & count' & w1 & E & L). rewrite E.
  exact (H2 sample_resolved 1 sample_resolving inline_records ms' count' w1
            (mkTimespec 5 7) E L).
Defined.

Lemma compiledMethodUnload_closed host method' code_addr w :
  output_file w = None -> file_lock w = false ->
  compiledMethodUnload host method' code_addr w =
  match clock_gettime host (now w) with
  | Some _ =>
      Ok tt (set_file_lock false (count_acquired (set_file_lock true (advance w))))
  | None =>
      Stop Abort
        (add_stderr ("Error: Error while writing timestamp: clock_gettime "
                     ++ strerror host)%string (advance w))
  end.
Proof.
  intros Hf Hlock. unfold compiledMethodUnload.
  unfold bind at 1. rewrite get_timestamp_eq.
  destruct (clock_gettime host (now w)); [|reflexivity].
  unfold bind at 1. rewrite lock_output_file_eq. simpl file_lock. rewrite Hlock.
  unfold bind at 1, get. simpl output_file. rewrite Hf.
  unfold bind, ret. rewrite unlock_output_file_eq. reflexivity.
Qed.

Lemma dynamicCodeGenerated_closed host name code_addr code_size w :
  output_file w = None -> file_lock w = false ->
  dynamicCodeGenerated host name code_addr code_size w =
  match clock_gettime host (now w) with
  | Some _ =>
      Ok tt (set_file_lock false (count_acquired (set_file_lock true (advance w))))
  | None =>
      Stop Abort
        (add_stderr ("Error: Error while writing timestamp: clock_gettime "
                     ++ strerror host)%string (advance w))
  end.
Proof.
  intros Hf Hlock. unfold dynamicCodeGenerated.
  unfold bind at 1. rewrite get_timestamp_eq.
  destruct (clock_gettime host (now w)); [|reflexivity].
  unfold bind at 1. rewrite lock_output_file_eq. simpl file_lock. rewrite Hlock.
  unfold bind at 1, get. simpl output_file. rewrite Hf.
  unfold bind, ret. rewrite unlock_output_file_eq. reflexivity.
Qed.

(** Detaching closes the output file and leaves no output file behind. *)
Lemma Agent_OnUnload_closes host w f :
  output_file w = Some f -> file_lock w = false ->
  exists w',
    Agent_OnUnload host w = Ok tt w' /\
    output_file w' = None /\ file_lock w' = false /\
    closed_files w' = closed_files w ++ [f].
Proof.
  intros Hf Hlock. unfold Agent_OnUnload.
  unfold bind at 1. rewrite lock_output_file_eq, Hlock.
  unfold bind at 1, fclose. simpl output_file. rewrite Hf.
  unfold bind at 1, modify. unfold bind, ret.
  rewrite unlock_output_file_eq. simpl.
  eexists. split; [reflexivity|]. auto.
Qed.

(** C4: a handler that takes the lock when there is no output file (before
    the file is opened, after it is closed) returns without an error and
    with the lock given back; there is still no output file, nothing was
    printed and no stream was written to. *)
Theorem handlers_idle_without_output_file :
  forall (host : Host) (w : World),
    output_file w = None ->
    file_lock w = false ->
    (forall method' code_addr,
       acquired (world_of (compiledMethodUnload host method' code_addr w))
         <> acquired w ->
       exists w', compiledMethodUnload host method' code_addr w = Ok tt w' /\
                  idle w w') /\
    (forall name code_addr code_size,
       acquired (world_of (dynamicCodeGenerated host name code_addr code_size w))
         <> acquired w ->
       exists w', dynamicCodeGenerated host name code_addr code_size w = Ok tt w' /\
                  idle w w') /\
    (forall method' code_size code_addr compile_info,
       acquired (world_of (compiledMethodLoad host method' code_size code_addr
                             compile_info w)) <> acquired w ->
       exists w', compiledMethodLoad host method' code_size code_addr
                    compile_info w = Ok tt w' /\
                  idle w w').
Proof.
  intros host w Hf Hlock. split; [|split].
  - intros method' code_addr.
    rewrite (compiledMethodUnload_closed host method' code_addr w Hf Hlock).
    destruct (clock_gettime host (now w)); [|simpl; congruence].
    intros _. eexists. split; [reflexivity|]. repeat split; auto.
  - intros name code_addr code_size.
    rewrite (dynamicCodeGenerated_closed host name code_addr code_size w Hf Hlock).
    destruct (clock_gettime host (now w)); [|simpl; congruence].
    intros _. eexists. split; [reflexivity|]. repeat split; auto.
  - intros method' code_size code_addr compile_info Hacq.
    pose proof (compiledMethodLoad_sat host method' code_size code_addr
                  compile_info w Hlock) as H.
    destruct (compiledMethodLoad host method' code_size code_addr compile_info w)
      as [[] w'|why w']; simpl in *.
    + destruct H as (HL & HC & HE & qs & gb & _ & _ & _ & _ & [Hab|Hwr]).
      * destruct Hab as (_ & _ & HA). contradiction.
      * destruct Hwr as (_ & HA & ts & ms & _ & _ & _ & HF). rewrite Hf in HF.
        exists w'. split; [reflexivity|]. repeat split; auto.
    + destruct H as (_ & [HA|[_ HF]]); contradiction.
Qed.

Lemma handlers_idle_without_output_file_witness :
  (exists w', compiledMethodUnload (sample_host true) 1 4096 sample_closed
                = Ok tt w' /\
              idle sample_closed w') /\
  (exists w', dynamicCodeGenerated (sample_host true)
                (Some (bytes_of_string "stub")) 4096 16 sample_closed
                = Ok tt w' /\
              idle sample_closed w') /\
  (exists w', compiledMethodLoad (sample_host true) 1 4 4096 (sample_chain 1)
                sample_closed = Ok tt w' /\
              idle sample_closed w').
Proof.
  pose proof (handlers_idle_without_output_file (sample_host true) sample_closed
                eq_refl eq_refl) as (H1 & H2 & H3).
  split; [|split].
  - apply H1. vm_compute. discriminate.
  - apply H2. vm_compute. discriminate.
  - apply H3. vm_compute. discriminate.
Defined.

(** ** The chain of compile_info *)

Lemma bind_ext {A B : Type} (m : M A) (k1 k2 : A -> M B) (w : World) :
  (forall a w', k1 a w' = k2 a w') -> bind m k1 w = bind m k2 w.
Proof. intros H. unfold bind. destruct (m w); auto. Qed.

Lemma scan_compile_info_first host pre r post :
  Forall (fun h => is_inline_info (kind h) = false) pre ->
  is_inline_info (kind r) = true ->
  forall ms count w,
    scan_compile_info host (pre ++ r :: post) ms count w =
    scan_compile_info host [r] ms count w.
Proof.
  intros Hpre Hr. induction Hpre as [|h pre Hh Hpre IH]; intros ms count w.
  - cbn [app scan_compile_info]. now rewrite Hr.
  - cbn [app scan_compile_info]. rewrite Hh. apply IH.
Qed.

(** ** The name of the output file *)

Local Open Scope string_scope.

Lemma prefix_app needle : forall s,
  String.prefix needle s = true <-> exists rest, s = needle ++ rest.
Proof.
  induction needle as [|a needle IH]; intros s.
  - destruct s; simpl; split; eauto.
  - destruct s as [|b s]; simpl.
    + split; [discriminate|]. intros (rest & H). discriminate.
    + destruct (ascii_dec a b) as [->|Hne].
      * rewrite IH. split; intros (rest & H); exists rest; congruence.
      * split; [discriminate|]. intros (rest & H). congruence.
Qed.

Lemma append_assoc' a b c : (a ++ b) ++ c = a ++ (b ++ c).
Proof. induction a; simpl; congruence. Qed.

Lemma strstr_none s needle :
  ~ occurs_in needle s -> strstr s needle = None.
Proof.
  induction s as [|c s IH]; intros Hn; cbn [strstr].
  - destruct (String.prefix needle "") eqn:E; [|reflexivity].
    apply prefix_app in E. destruct E as (rest & E).
    destruct Hn. exists "", rest. exact E.
  - destruct (String.prefix needle (String c s)) eqn:E.
    + apply prefix_app in E. destruct E as (rest & E).
      destruct Hn. exists "", rest. exact E.
    + rewrite IH; [reflexivity|].
      intros (a & b & H). apply Hn. exists (String c a), b. simpl. congruence.
Qed.

Lemma strstr_complete needle : forall a b,
  strstr (a ++ needle ++ b) needle <> None.
Proof.
  induction a as [|c a IH]; intros b.
  - assert (E : String.prefix needle ("" ++ needle ++ b) = true)
      by (apply prefix_app; exists b; reflexivity).
    destruct ("" ++ needle ++ b); cbn [strstr]; rewrite E; discriminate.
  - change (String c a ++ needle ++ b) with (String c (a ++ needle ++ b)).
    cbn [strstr].
    destruct (String.prefix needle (String c (a ++ needle ++ b))); [discriminate|].
    specialize (IH b). destruct (strstr (a ++ needle ++ b) needle);
      [discriminate|contradiction].
Qed.

Lemma strstr_none_occurs s needle :
  strstr s needle = None -> ~ occurs_in needle s.
Proof.
  intros H (a & b & ->). exact (strstr_complete needle a b H).
Qed.

Lemma strstr_first pre post :
  ~ occurs_in "%p" (pre ++ "%") ->
  strstr (pre ++ "%p" ++ post) "%p" = Some (String.length pre).
Proof.
  induction pre as [|c pre IH]; intros Hn.
  - simpl. destruct post; reflexivity.
  - change (String c pre ++ "%p" ++ post) with (String c (pre ++ "%p" ++ post)).
    cbn [strstr String.length].
    destruct (String.prefix "%p" (String c (pre ++ "%p" ++ post))) eqn:E.
    + exfalso. apply prefix_app in E. destruct E as (rest & E).
      simpl in E. injection E as -> E.
      destruct pre as [|d pre]; simpl in E; [discriminate|].
      injection E as -> E. apply Hn. exists "", (pre ++ "%"). reflexivity.
    + rewrite IH; [reflexivity|].
      intros (a & b & H). apply Hn. exists (String c a), b.
      change (String c pre ++ "%") with (String c (pre ++ "%")).
      rewrite H. reflexivity.
Qed.

Lemma substring_prefix pre : forall rest,
  String.substring 0 (String.length pre) (pre ++ rest) = pre.
Proof.
  induction pre as [|c pre IH]; intros rest; simpl.
  - destruct rest; reflexivity.
  - now rewrite IH.
Qed.

Lemma substring_all s : forall n,
  (String.length s <= n)%nat -> String.substring 0 n s = s.
Proof.
  induction s as [|c s IH]; intros [|n] H; simpl in *; try reflexivity; try lia.
  rewrite IH; [reflexivity|lia].
Qed.

Lemma string_skip_prefix pre : forall rest,
  string_skip (String.length pre) (pre ++ rest) = rest.
Proof. induction pre as [|c pre IH]; intros rest; simpl; auto. Qed.

Lemma string_skip_placeholder pre post :
  string_skip (String.length pre + 2) (pre ++ "%p" ++ post) = post.
Proof.
  induction pre as [|c pre IH]; simpl; auto.
Qed.

Local Close Scope string_scope.

Lemma keeps_name_refl w : keeps_name w w.
Proof. reflexivity. Qed.

Lemma keeps_name_trans w1 w2 w3 :
  keeps_name w1 w2 -> keeps_name w2 w3 -> keeps_name w1 w3.
Proof. unfold keeps_name. congruence. Qed.

Lemma names_kept_ret {A : Type} (a : A) : names_kept (ret a).
Proof. intros w. apply keeps_name_refl. Qed.

Lemma names_kept_bind {A B : Type} (m : M A) (k : A -> M B) :
  names_kept m -> (forall a, names_kept (k a)) -> names_kept (bind m k).
Proof.
  intros Hm Hk w. eapply sat_bind; [apply Hm| |auto].
  intros a w1 H1. cbv beta in H1. eapply sat_weaken; [apply Hk| |];
    cbv beta; intros; eapply keeps_name_trans; eassumption.
Qed.

Lemma names_kept_quiet {A : Type} (m : M A) (Q : World -> A -> World -> Prop) :
  (forall w, outcome_sat (m w) (Q w) (quiet w)) ->
  (forall w a w', Q w a w' -> quiet w w') ->
  names_kept m.
Proof.
  intros Hm HQ w. eapply sat_weaken; [apply Hm| |].
  - intros a w' H. apply quiet_name. eapply HQ. exact H.
  - intros w' H. apply quiet_name. exact H.
Qed.

Lemma names_kept_world {A : Type} (m : M A) (w : World) :
  names_kept m -> keeps_name w (world_of (m w)).
Proof. intros H. specialize (H w). now destruct (m w). Qed.

Section Attach.

Variable host : Host.

Lemma names_kept_report_error {A : Type} (msg : string) :
  names_kept (report_error (A := A) msg).
Proof. intros w. reflexivity. Qed.

Lemma names_kept_write_or_fail data bytes : names_kept (write_or_fail host data bytes).
Proof.
  apply (names_kept_quiet _ (fun w _ w' => wrote data w w'));
    [apply write_or_fail_sat|intros; eapply wrote_quiet; eassumption].
Qed.

Lemma names_kept_write_jint value : names_kept (write_jint host value).
Proof.
  apply (names_kept_quiet _ (fun w _ w' => wrote (be_bytes 4 value) w w'));
    [apply write_jint_sat|intros; eapply wrote_quiet; eassumption].
Qed.

Lemma names_kept_write_unsigned_jlong value :
  names_kept (write_unsigned_jlong host value).
Proof.
  apply (names_kept_quiet _ (fun w _ w' => wrote (be_bytes 8 value) w w'));
    [apply write_unsigned_jlong_sat|intros; eapply wrote_quiet; eassumption].
Qed.

Lemma names_kept_write_string str message :
  names_kept (write_string host str message).
Proof.
  apply (names_kept_quiet _
           (fun w _ w' => exists s, str = Some s /\ strlen s <= INT_MAX /\
                                     wrote (len_str s) w w'));
    [apply write_string_sat|].
  intros w a w' (s & _ & _ & H). eapply wrote_quiet; eassumption.
Qed.

Lemma names_kept_write_timestamp ts : names_kept (write_timestamp host ts).
Proof.
  apply names_kept_bind; [apply names_kept_write_unsigned_jlong|].
  intros _. apply names_kept_write_unsigned_jlong.
Qed.

Lemma names_kept_get_timestamp : names_kept (get_timestamp host).
Proof.
  intros w. rewrite get_timestamp_eq.
  destruct (clock_gettime host (now w)); reflexivity.
Qed.

Lemma names_kept_fflush : names_kept (fflush host).
Proof.
  intros w. unfold fflush. destruct (output_file w) eqn:E; simpl;
    [destruct (fflush_ok host (now w)); simpl|];
    unfold keeps_name; simpl; now rewrite ?E.
Qed.

Lemma names_kept_unlock : names_kept (unlock_output_file host).
Proof.
  intros w. rewrite unlock_output_file_eq. destruct (file_lock w); reflexivity.
Qed.

Lemma names_kept_write_file_header : names_kept (write_file_header host).
Proof.
  unfold write_file_header.
  apply names_kept_bind; [apply names_kept_write_or_fail|intros _].
  apply names_kept_bind; [apply names_kept_write_jint|intros _].
  apply names_kept_bind; [apply names_kept_write_jint|intros _].
  apply names_kept_bind; [apply names_kept_write_string|intros _].
  apply names_kept_bind; [intros w; reflexivity|intros t].
  destruct (GetTime host t) as [error nanos].
  apply names_kept_bind.
  { destruct (negb (jvmtiError_eqb error JVMTI_ERROR_NONE));
      [apply names_kept_report_error|apply names_kept_ret]. }
  intros _.
  apply names_kept_bind; [apply names_kept_get_timestamp|intros ts].
  apply names_kept_bind; [apply names_kept_write_timestamp|intros _].
  apply names_kept_write_unsigned_jlong.
Qed.

Lemma jvmti_call_ok answer message w :
  (forall t, answer t = JVMTI_ERROR_NONE) ->
  jvmti_call host answer message w = Ok tt (advance w).
Proof.
  intros H. unfold jvmti_call, bind, tick. simpl. now rewrite H.
Qed.

(** The name [Agent_OnLoad] makes from its option string. *)
Lemma output_filename_eq options w :
  output_filename host options w =
  match strstr options "%p" with
  | Some k =>
      Ok (((String.substring 0 k options ++ snprintf_d 32 (getpid host)) ++
           string_skip (k + 2) options)%string, Some (next_block w))
         (take_block w)
  | None => Ok (options, None) w
  end.
Proof.
  unfold output_filename. destruct (strstr options "%p"); reflexivity.
Qed.

Lemma open_and_write_header_name filename name_block w :
  (forall t name, fopen_ok host t name = true) ->
  option_map f_name (output_file (world_of (open_and_write_header host filename name_block w)))
  = Some filename.
Proof.
  intros Hopen. unfold open_and_write_header.
  unfold bind at 1, fopen, bind at 1, tick. rewrite Hopen.
  unfold bind at 1, ret, modify.
  set (w1 := set_output_file _ _).
  change (Some filename) with (option_map f_name (output_file w1)).
  apply names_kept_world.
  apply names_kept_bind; [apply names_kept_ret|intros _].
  apply names_kept_bind;
    [destruct name_block; [intros w2; reflexivity|apply names_kept_ret]|intros _].
  apply names_kept_bind; [apply names_kept_write_file_header|intros _].
  apply names_kept_bind; [apply names_kept_fflush|intros _].
  apply names_kept_bind; [apply names_kept_unlock|intros _].
  apply names_kept_ret.
Qed.

Lemma Agent_OnLoad_eq options w :
  options <> "-h"%string -> options <> "--help"%string ->
  file_lock w = false ->
  (forall t, AddCapabilities host t = JVMTI_ERROR_NONE) ->
  (forall t, SetEventCallbacks host t = JVMTI_ERROR_NONE) ->
  (forall t, SetEventNotificationMode host t = JVMTI_ERROR_NONE) ->
  exists w1,
    Agent_OnLoad host (Some options) w =
    ('(filename, name_block) <- output_filename host options ;;
     open_and_write_header host filename name_block) w1.
Proof.
  intros Hh Hhelp Hlock Hcap Hcb Hmode.
  unfold Agent_OnLoad. unfold bind at 1, ret.
  apply String.eqb_neq in Hh, Hhelp. rewrite Hh, Hhelp. cbn [orb].
  unfold bind at 1, ret.
  unfold bind at 1. rewrite jvmti_call_ok by assumption.
  unfold bind at 1. rewrite lock_output_file_eq. simpl file_lock. rewrite Hlock.
  unfold bind at 1. rewrite jvmti_call_ok by assumption.
  unfold bind at 1. rewrite jvmti_call_ok by assumption.
  unfold bind at 1. rewrite jvmti_call_ok by assumption.
  unfold bind at 1. rewrite jvmti_call_ok by assumption.
  eexists. reflexivity.
Qed.

End Attach.

(** C9: the file Agent_OnLoad opens is named by the option string with
    its first "%p" replaced by the decimal process id, what follows the
    placeholder being kept as it is; an option string without "%p" is the
    name of the file. *)
Theorem output_file_name_placeholder :
  forall (host : Host) (options : string) (w : World),
    options <> "-h"%string -> options <> "--help"%string ->
    file_lock w = false ->
    (forall t, AddCapabilities host t = JVMTI_ERROR_NONE) ->
    (forall t, SetEventCallbacks host t = JVMTI_ERROR_NONE) ->
    (forall t, SetEventNotificationMode host t = JVMTI_ERROR_NONE) ->
    (forall t name, fopen_ok host t name = true) ->
    (String.length (decimal (getpid host)) <= 31)%nat ->
    exists f,
      output_file (world_of (Agent_OnLoad host (Some options) w)) = Some f /\
      (forall pre post,
         options = (pre ++ "%p" ++ post)%string ->
         ~ occurs_in "%p" (pre ++ "%") ->
         f_name f = (pre ++ decimal (getpid host) ++ post)%string) /\
      (~ occurs_in "%p" options -> f_name f = options).
Proof.
  intros host options w Hh Hhelp Hlock Hcap Hcb Hmode Hopen Hpid.
  destruct (Agent_OnLoad_eq host options w Hh Hhelp Hlock Hcap Hcb Hmode)
    as (w1 & ->).
  unfold bind at 1. rewrite output_filename_eq.
  assert (Hname : forall filename name_block w2,
            exists f,
              output_file (world_of
                (open_and_write_header host filename name_block w2)) = Some f /\
              f_name f = filename).
  { intros filename name_block w2.
    pose proof (open_and_write_header_name host filename name_block w2 Hopen) as H.
    destruct (output_file _) as [f|]; [|discriminate].
    exists f. split; [reflexivity|]. simpl in H. congruence. }
  destruct (strstr options "%p") as [k|] eqn:Ek.
  - destruct (Hname ((String.substring 0 k options ++ snprintf_d 32 (getpid host)) ++
                     string_skip (k + 2) options)%string
                    (Some (next_block w1)) (take_block w1)) as (f & Hf & Hn).
    exists f. split; [exact Hf|]. split.
    + intros pre post -> Hfirst. rewrite (strstr_first pre post Hfirst) in Ek.
      injection Ek as <-. rewrite Hn, append_assoc'.
      rewrite substring_prefix, string_skip_placeholder.
      unfold snprintf_d. fold (decimal (getpid host)).
      now rewrite substring_all by exact Hpid.
    + intros Hnone. rewrite (strstr_none _ _ Hnone) in Ek. discriminate.
  - destruct (Hname options None w1) as (f & Hf & Hn).
    exists f. split; [exact Hf|]. split; [|intros _; exact Hn].
    intros pre post -> Hfirst. rewrite (strstr_first pre post Hfirst) in Ek.
    discriminate.
Qed.

Lemma output_file_name_placeholder_witness :
  (exists f,
     output_file (world_of (Agent_OnLoad (sample_host true)
                              (Some "trace-%p-%p.bin"%string) sample_closed))
       = Some f /\
     f_name f = ("trace-" ++ decimal 4242 ++ "-%p.bin")%string) /\
  (exists f,
     output_file (world_of (Agent_OnLoad (sample_host true)
                              (Some "trace.bin"%string) sample_closed))
       = Some f /\
     f_name f = "trace.bin"%string).
Proof.
  split.
  - destruct (output_file_name_placeholder (sample_host true)
                "trace-%p-%p.bin" sample_closed) as (f & Hf & Hfirst & _);
      try discriminate; try reflexivity; [vm_compute; lia|].
    exists f. split; [exact Hf|].
    apply (Hfirst "trace-"%string "-%p.bin"%string); [reflexivity|].
    apply strstr_none_occurs. reflexivity.
  - destruct (output_file_name_placeholder (sample_host true)
                "trace.bin" sample_closed) as (f & Hf & _ & Hnone);
      try discriminate; try reflexivity; [vm_compute; lia|].
    exists f. split; [exact Hf|].
    apply Hnone. apply strstr_none_occurs. reflexivity.
Defined.

Example output_file_name_example :
  option_map f_name
    (output_file (world_of (Agent_OnLoad (sample_host true)
                              (Some "trace-%p-%p.bin"%string) sample_closed)))
  = Some "trace-4242-%p.bin"%string.
Proof. vm_compute. reflexivity. Qed.

(** * Further properties of the agent *)

(** ** The encoder *)

Lemma to_jint_range v : - 2 ^ 31 <= v < 2 ^ 31 -> to_jint v = v.
Proof.
  intros H. unfold to_jint. rewrite Z.mod_small; lia.
Qed.

Lemma to_jint_of_mod v : to_jint (v mod 2 ^ 32) = to_jint v.
Proof.
  unfold to_jint. f_equal. rewrite Zplus_mod_idemp_l. reflexivity.
Qed.

(** X1: write_jint adds four bytes to the output file on a host of either
    byte order, each a number below 256, and reading them back as a
    two's-complement integer, most significant byte first, gives the
    value written. *)
Theorem write_jint_round_trip :
  forall (host : Host) (value : Z) (w : World) (f : FILE),
    io_ok host ->
    output_file w = Some f ->
    - 2 ^ 31 <= value < 2 ^ 31 ->
    exists w' f' bs,
      write_jint host value w = Ok tt w' /\
      output_file w' = Some f' /\
      f_data f' = f_data f ++ bs /\
      List.length bs = 4%nat /\
      Forall is_byte bs /\
      to_jint (be_value bs) = value.
Proof.
  intros host value w f Hio Hf Hv.
  assert (Hopen : output_file w <> None) by congruence.
  destruct (write_jint_runs host Hio value w Hopen) as ([] & w' & Hrun & Hw).
  destruct Hw as [(g & g' & G1 & G2 & G3 & G4) _ _ _ _ _ _ _ _].
  rewrite Hf in G1. injection G1 as <-.
  exists w', g', (be_bytes 4 value).
  split; [exact Hrun|]. split; [exact G2|]. split; [exact G4|].
  split; [apply be_bytes_length|]. split; [apply be_bytes_range|].
  rewrite be_value_be_bytes. change (256 ^ Z.of_nat 4) with (2 ^ 32).
  rewrite to_jint_of_mod. now apply to_jint_range.
Qed.

Lemma write_jint_round_trip_witness :
  exists w' f' bs,
    write_jint (sample_host false) (-2) sample_open = Ok tt w' /\
    output_file w' = Some f' /\
    f_data f' = f_data sample_file ++ bs /\
    List.length bs = 4%nat /\
    Forall is_byte bs /\
    to_jint (be_value bs) = -2.
Proof.
  apply (write_jint_round_trip (sample_host false) (-2) sample_open sample_file);
    [intro t; reflexivity | reflexivity | lia].
Defined.

(** The bytes of a tag. *)
Lemma char_range a : 0 <= char a < 256.
Proof.
  unfold char. pose proof (nat_ascii_bounded a) as H. lia.
Qed.

Lemma land_255 t : Z.land t 255 = t mod 256.
Proof. change 255 with (Z.ones 8). now rewrite Z.land_ones by lia. Qed.

Lemma lor_low x d :
  0 <= d < 256 -> Z.lor (Z.shiftl x 8) d = x * 256 + d.
Proof.
  intros Hd. rewrite Z.shiftl_mul_pow2 by lia. change (2 ^ 8) with 256.
  rewrite <- Z.lxor_lor, <- Z.add_nocarry_lxor; try reflexivity.
  - apply Z.bits_inj'. intros n Hn. rewrite Z.land_spec, Z.bits_0.
    destruct (Z.lt_ge_cases n 8) as [Hlt|Hge].
    + change 256 with (2 ^ 8). rewrite Z.mul_pow2_bits_low by lia. reflexivity.
    + rewrite (Z.bits_above_log2 d n), andb_false_r; [reflexivity|lia|].
      destruct (Z.eq_dec d 0) as [->|Hne]; [simpl; lia|].
      apply Z.log2_lt_pow2; [lia|].
      apply Z.lt_le_trans with (2 ^ 8); [simpl; lia|].
      apply Z.pow_le_mono_r; lia.
  - apply Z.bits_inj'. intros n Hn. rewrite Z.land_spec, Z.bits_0.
    destruct (Z.lt_ge_cases n 8) as [Hlt|Hge].
    + change 256 with (2 ^ 8). rewrite Z.mul_pow2_bits_low by lia. reflexivity.
    + rewrite (Z.bits_above_log2 d n), andb_false_r; [reflexivity|lia|].
      destruct (Z.eq_dec d 0) as [->|Hne]; [simpl; lia|].
      apply Z.log2_lt_pow2; [lia|].
      apply Z.lt_le_trans with (2 ^ 8); [simpl; lia|].
      apply Z.pow_le_mono_r; lia.
Qed.

Lemma BUILD_TAG_value a b c d :
  BUILD_TAG a b c d =
  ((char a * 256 + char b) * 256 + char c) * 256 + char d.
Proof.
  pose proof (char_range a) as Ha. pose proof (char_range b) as Hb.
  pose proof (char_range c) as Hc. pose proof (char_range d) as Hd.
  unfold BUILD_TAG, TAG_VALUE. rewrite !land_255.
  rewrite !Z.mod_small by assumption.
  rewrite Z.shiftl_0_r.
  replace (Z.shiftl (char a) 24) with (Z.shiftl (Z.shiftl (char a) 8) 16)
    by (rewrite Z.shiftl_shiftl by lia; reflexivity).
  replace (Z.shiftl (char b) 16) with (Z.shiftl (Z.shiftl (char b) 8) 8)
    by (rewrite Z.shiftl_shiftl by lia; reflexivity).
  replace (Z.shiftl (Z.shiftl (char a) 8) 16)
    with (Z.shiftl (Z.shiftl (Z.shiftl (char a) 8) 8) 8)
    by (rewrite (Z.shiftl_shiftl _ 8 8) by lia; reflexivity).
  rewrite <- !Z.shiftl_lor.
  rewrite (lor_low _ (char b)) by assumption.
  rewrite (lor_low _ (char c)) by assumption.
  now rewrite (lor_low _ (char d)) by assumption.
Qed.

Lemma be_bytes4_of_digits a b c d :
  0 <= a < 256 -> 0 <= b < 256 -> 0 <= c < 256 -> 0 <= d < 256 ->
  be_bytes 4 (((a * 256 + b) * 256 + c) * 256 + d) = [a; b; c; d].
Proof.
  intros Ha Hb Hc Hd. unfold be_bytes.
  replace (((a * 256 + b) * 256 + c) * 256 + d) with (le_value [d; c; b; a])
    by (cbn [le_value]; lia).
  change 4%nat with (List.length [d; c; b; a]).
  rewrite le_bytes_le_value; [reflexivity|].
  repeat (constructor; [assumption|]). constructor.
Qed.

(** X2: a tag built by BUILD_TAG from four characters is written by
    write_jint as these four characters, in their order, on a host of
    either byte order. *)
Theorem tags_are_written_as_their_characters :
  forall (host : Host) (a b c d : ascii) (w : World) (f : FILE),
    io_ok host ->
    output_file w = Some f ->
    exists w' f',
      write_jint host (BUILD_TAG a b c d) w = Ok tt w' /\
      output_file w' = Some f' /\
      f_data f' = f_data f ++ [char a; char b; char c; char d].
Proof.
  intros host a b c d w f Hio Hf.
  assert (Hopen : output_file w <> None) by congruence.
  destruct (write_jint_runs host Hio (BUILD_TAG a b c d) w Hopen)
    as ([] & w' & Hrun & Hw).
  destruct Hw as [(g & g' & G1 & G2 & G3 & G4) _ _ _ _ _ _ _ _].
  rewrite Hf in G1. injection G1 as <-.
  exists w', g'. split; [exact Hrun|]. split; [exact G2|].
  rewrite G4, BUILD_TAG_value, be_bytes4_of_digits by apply char_range.
  reflexivity.
Qed.

Lemma tags_are_written_as_their_characters_witness :
  exists w' f',
    write_jint (sample_host true) (BUILD_TAG "M" "T" "H" "T") sample_open
      = Ok tt w' /\
    output_file w' = Some f' /\
    f_data f' = f_data sample_file ++ [char "M"; char "T"; char "H"; char "T"].
Proof.
  apply (tags_are_written_as_their_characters (sample_host true)
           "M" "T" "H" "T" sample_open sample_file);
    [intro t; reflexivity | reflexivity].
Defined.

(** ** Writing either succeeds or ends the process *)

Lemma aborted_after w w1 w' :
  quiet w w1 -> stderr w1 = stderr w -> aborted w1 w' -> aborted w w'.
Proof.
  intros Hq He [Hq' (line & Hl)]. split; [eapply quiet_trans; eassumption|].
  exists line. congruence.
Qed.

Lemma writes_or_aborts_ret {A : Type} (a : A) : writes_or_aborts (ret a).
Proof. intros w Hf. simpl. auto using quiet_refl. Qed.

Lemma writes_or_aborts_bind {A B : Type} (m : M A) (k : A -> M B) :
  writes_or_aborts m -> (forall a, writes_or_aborts (k a)) ->
  writes_or_aborts (bind m k).
Proof.
  intros Hm Hk w Hf. specialize (Hm w Hf). unfold bind.
  destruct (m w) as [a w1|why w1]; [|exact Hm].
  destruct Hm as (Hq & He & Hf1). specialize (Hk a w1 Hf1).
  destruct (k a w1) as [b w2|why w2].
  - destruct Hk as (Hq' & He' & Hf2).
    split; [eapply quiet_trans; eassumption|]. split; [congruence|assumption].
  - destruct Hk as (-> & Hab). split; [reflexivity|].
    eapply aborted_after; eassumption.
Qed.

Lemma writes_or_aborts_report_error {A : Type} (msg : string) :
  writes_or_aborts (report_error (A := A) msg).
Proof.
  intros w Hf. simpl. split; [reflexivity|]. split; [apply add_stderr_quiet|].
  eexists. reflexivity.
Qed.

Section Safety.

Variable host : Host.

Lemma writes_or_aborts_write_or_fail data bytes :
  writes_or_aborts (write_or_fail host data bytes).
Proof.
  intros w Hf. unfold write_or_fail, bind, fwrite.
  destruct (output_file w) as [f|] eqn:Ef; [|easy].
  destruct (bytes <? 0); simpl.
  { split; [reflexivity|]. split; [|eexists; reflexivity].
    constructor; simpl; auto. now rewrite Ef. }
  destruct ((0 <? bytes) && fwrite_ok host (now w)); simpl.
  - pose proof (wrote_fwrite data f w Ef) as Hw.
    split; [eapply wrote_quiet; exact Hw|]. split; [reflexivity|discriminate].
  - split; [reflexivity|]. split; [|eexists; reflexivity].
    constructor; simpl; auto.
Qed.

Lemma writes_or_aborts_write_jint value : writes_or_aborts (write_jint host value).
Proof. apply writes_or_aborts_write_or_fail. Qed.

Lemma writes_or_aborts_write_unsigned_jlong value :
  writes_or_aborts (write_unsigned_jlong host value).
Proof.
  unfold write_unsigned_jlong. destruct (negb (1 =? htonl host 1)).
  - apply writes_or_aborts_bind; [apply writes_or_aborts_write_jint|].
    intros _. apply writes_or_aborts_write_jint.
  - apply writes_or_aborts_write_or_fail.
Qed.

Lemma writes_or_aborts_write_timestamp ts :
  writes_or_aborts (write_timestamp host ts).
Proof.
  apply writes_or_aborts_bind; [apply writes_or_aborts_write_unsigned_jlong|].
  intros _. apply writes_or_aborts_write_unsigned_jlong.
Qed.

Lemma writes_or_aborts_write_string str message :
  writes_or_aborts (write_string host str message).
Proof.
  unfold write_string. apply writes_or_aborts_bind.
  { destruct str; [apply writes_or_aborts_ret|apply writes_or_aborts_report_error]. }
  intros s. apply writes_or_aborts_bind.
  { destruct (INT_MAX <? strlen s);
      [apply writes_or_aborts_report_error|apply writes_or_aborts_ret]. }
  intros _. apply writes_or_aborts_bind; [apply writes_or_aborts_write_jint|].
  intros _. destruct (0 <? to_jint (strlen s));
    [apply writes_or_aborts_write_or_fail|apply writes_or_aborts_ret].
Qed.

Lemma fflush_eq w :
  fflush host w =
  Ok tt match output_file w with
        | Some f =>
            if fflush_ok host (now w) then
              advance
                (set_output_file
                   (Some (mkFILE (f_name f) (f_data f) (List.length (f_data f))))
                   w)
            else advance w
        | None => w
        end.
Proof.
  unfold fflush. destruct (output_file w); [|reflexivity].
  destruct (fflush_ok host (now w)); reflexivity.
Qed.

Lemma fflush_flushed w w' :
  flush_ok host -> fflush host w = Ok tt w' -> flushed w'.
Proof.
  intros Hfl. rewrite fflush_eq. intros H. injection H as <-. unfold flushed.
  destruct (output_file w) as [f|] eqn:E; [|now rewrite E].
  rewrite Hfl. reflexivity.
Qed.

Lemma writes_or_aborts_fflush : writes_or_aborts (fflush host).
Proof.
  intros w Hf. pose proof (fflush_sat host w) as H.
  destruct (fflush host w) as [[] w'|]; simpl in H; [|easy].
  destruct H as (Hq & He & Hw). split; [exact Hq|]. split; [exact He|].
  eapply wrote_open. apply Hw. exact Hf.
Qed.

(** The part of [compiledMethodUnload] and of [dynamicCodeGenerated]
    between taking the lock and giving it back. *)
Lemma writes_or_aborts_unload timestamp code_addr :
  writes_or_aborts
    (write_jint host CompiledMethodUnloadTag ;;
     write_timestamp host timestamp ;;
     write_unsigned_jlong host code_addr ;;
     fflush host).
Proof.
  apply writes_or_aborts_bind; [apply writes_or_aborts_write_jint|intros _].
  apply writes_or_aborts_bind; [apply writes_or_aborts_write_timestamp|intros _].
  apply writes_or_aborts_bind;
    [apply writes_or_aborts_write_unsigned_jlong|intros _].
  apply writes_or_aborts_fflush.
Qed.

Lemma writes_or_aborts_dynamic timestamp name code_addr code_size :
  writes_or_aborts
    (write_jint host DynamicCodeTag ;;
     write_timestamp host timestamp ;;
     write_string host name (Some "dynamic code name"%string) ;;
     write_unsigned_jlong host code_addr ;;
     write_jint host code_size ;;
     write_or_fail host (load host code_addr code_size) code_size ;;
     fflush host).
Proof.
  apply writes_or_aborts_bind; [apply writes_or_aborts_write_jint|intros _].
  apply writes_or_aborts_bind; [apply writes_or_aborts_write_timestamp|intros _].
  apply writes_or_aborts_bind; [apply writes_or_aborts_write_string|intros _].
  apply writes_or_aborts_bind;
    [apply writes_or_aborts_write_unsigned_jlong|intros _].
  apply writes_or_aborts_bind; [apply writes_or_aborts_write_jint|intros _].
  apply writes_or_aborts_bind; [apply writes_or_aborts_write_or_fail|intros _].
  apply writes_or_aborts_fflush.
Qed.

(** A handler made of a timestamp, the lock, a record written to the open
    file, and the lock given back. *)
Lemma locked_writer_outcomes (body : timespec -> M unit) w :
  (forall timestamp, writes_or_aborts (body timestamp)) ->
  file_lock w = false ->
  match (timestamp <- get_timestamp host ;;
         lock_output_file host ;;
         f <- get output_file ;;
         match f with
         | Some _ => body timestamp
         | None => ret tt
         end ;;
         unlock_output_file host) w with
  | Ok _ w' =>
      file_lock w' = false /\ acquired w' = S (acquired w) /\
      stderr w' = stderr w /\ keeps_name w w' /\
      queries w' = queries w /\ next_block w' = next_block w /\
      released w' = released w /\ closed_files w' = closed_files w
  | Stop why w' =>
      why = Abort /\ exists line, stderr w' = stderr w ++ [line]
  end.
Proof.
  intros Hbody Hlock. unfold bind at 1. rewrite get_timestamp_eq.
  destruct (clock_gettime host (now w)) as [timestamp|];
    [|split; [reflexivity|eexists; reflexivity]].
  unfold bind at 1. rewrite lock_output_file_eq. simpl file_lock. rewrite Hlock.
  unfold bind at 1, get. simpl output_file.
  set (w1 := count_acquired (set_file_lock true (advance w))).
  destruct (output_file w) as [f|] eqn:Ef.
  - assert (Hf1 : output_file w1 <> None) by (unfold w1; simpl; congruence).
    pose proof (Hbody timestamp w1 Hf1) as H. unfold bind.
    destruct (body timestamp w1) as [[] w2|why w2].
    + destruct H as ([N L A O B R Q C] & He & Hf2).
      rewrite unlock_output_file_eq, L. simpl in *.
      unfold keeps_name. simpl. repeat split; auto.
    + destruct H as (-> & _ & line & Hl). split; [reflexivity|].
      exists line. exact Hl.
  - unfold bind, ret. rewrite unlock_output_file_eq. unfold keeps_name. simpl.
    repeat split; auto.
Qed.

Lemma locked_writer_flushed (body : timespec -> M unit) w w' :
  (forall timestamp w1 w2, body timestamp w1 = Ok tt w2 -> flushed w2) ->
  (timestamp <- get_timestamp host ;;
   lock_output_file host ;;
   f <- get output_file ;;
   match f with
   | Some _ => body timestamp
   | None => ret tt
   end ;;
   unlock_output_file host) w = Ok tt w' ->
  flushed w'.
Proof.
  intros Hbody H.
  apply bind_Ok in H. destruct H as (timestamp & w1 & _ & H).
  apply bind_Ok in H. destruct H as ([] & w2 & _ & H).
  apply bind_Ok in H. destruct H as (f & w3 & Hget & H).
  apply bind_Ok in H. destruct H as ([] & w4 & Hb & H).
  unfold get in Hget. injection Hget as <- <-.
  rewrite unlock_output_file_eq in H.
  destruct (file_lock w4); [|discriminate]. injection H as <-.
  unfold flushed. simpl.
  destruct (output_file w2) as [f|] eqn:Ef.
  - apply Hbody in Hb. exact Hb.
  - injection Hb as <-. now rewrite Ef.
Qed.

Lemma unload_body_flushed timestamp code_addr w1 w2 :
  flush_ok host ->
  (write_jint host CompiledMethodUnloadTag ;;
   write_timestamp host timestamp ;;
   write_unsigned_jlong host code_addr ;;
   fflush host) w1 = Ok tt w2 -> flushed w2.
Proof.
  intros Hfl H. repeat (apply bind_Ok in H; destruct H as (? & ? & _ & H)).
  now apply fflush_flushed in H.
Qed.

Lemma dynamic_body_flushed timestamp name code_addr code_size w1 w2 :
  flush_ok host ->
  (write_jint host DynamicCodeTag ;;
   write_timestamp host timestamp ;;
   write_string host name (Some "dynamic code name"%string) ;;
   write_unsigned_jlong host code_addr ;;
   write_jint host code_size ;;
   write_or_fail host (load host code_addr code_size) code_size ;;
   fflush host) w1 = Ok tt w2 -> flushed w2.
Proof.
  intros Hfl H. repeat (apply bind_Ok in H; destruct H as (? & ? & _ & H)).
  now apply fflush_flushed in H.
Qed.

End Safety.

Lemma compiledMethodUnload_outcomes host method' code_addr w :
  file_lock w = false ->
  match compiledMethodUnload host method' code_addr w with
  | Ok _ w' =>
      file_lock w' = false /\ acquired w' = S (acquired w) /\
      stderr w' = stderr w /\ keeps_name w w' /\
      queries w' = queries w /\ next_block w' = next_block w /\
      released w' = released w /\ closed_files w' = closed_files w
  | Stop why w' =>
      why = Abort /\ exists line, stderr w' = stderr w ++ [line]
  end.
Proof.
  intros Hlock.
  exact (locked_writer_outcomes host
           (fun timestamp =>
              write_jint host CompiledMethodUnloadTag ;;
              write_timestamp host timestamp ;;
              write_unsigned_jlong host code_addr ;;
              fflush host) w
           (fun ts => writes_or_aborts_unload host ts code_addr) Hlock).
Qed.

Lemma dynamicCodeGenerated_outcomes host name code_addr code_size w :
  file_lock w = false ->
  match dynamicCodeGenerated host name code_addr code_size w with
  | Ok _ w' =>
      file_lock w' = false /\ acquired w' = S (acquired w) /\
      stderr w' = stderr w /\ keeps_name w w' /\
      queries w' = queries w /\ next_block w' = next_block w /\
      released w' = released w /\ closed_files w' = closed_files w
  | Stop why w' =>
      why = Abort /\ exists line, stderr w' = stderr w ++ [line]
  end.
Proof.
  intros Hlock.
  exact (locked_writer_outcomes host
           (fun timestamp =>
              write_jint host DynamicCodeTag ;;
              write_timestamp host timestamp ;;
              write_string host name (Some "dynamic code name"%string) ;;
              write_unsigned_jlong host code_addr ;;
              write_jint host code_size ;;
              write_or_fail host (load host code_addr code_size) code_size ;;
              fflush host) w
           (fun ts => writes_or_aborts_dynamic host ts name code_addr code_size)
           Hlock).
Qed.

(** X3: compiledMethodUnload and dynamicCodeGenerated, entered with the
    lock free, end in one of two ways whatever their arguments (a NULL
    name, any code size, an open or a closed output file): they return
    with the lock given back and nothing printed, having made no metadata
    query and taken no storage, or the process is ended by report_error
    after exactly one diagnostic on the standard error stream.  They
    never wait for the lock, exit, or touch a NULL stream. *)
Theorem handlers_return_or_abort :
  forall (host : Host) (w : World),
    file_lock w = false ->
    (forall method' code_addr,
       match compiledMethodUnload host method' code_addr w with
       | Ok _ w' =>
           file_lock w' = false /\ stderr w' = stderr w /\
           queries w' = queries w /\ next_block w' = next_block w
       | Stop why w' =>
           why = Abort /\ exists line, stderr w' = stderr w ++ [line]
       end) /\
    (forall name code_addr code_size,
       match dynamicCodeGenerated host name code_addr code_size w with
       | Ok _ w' =>
           file_lock w' = false /\ stderr w' = stderr w /\
           queries w' = queries w /\ next_block w' = next_block w
       | Stop why w' =>
           why = Abort /\ exists line, stderr w' = stderr w ++ [line]
       end).
Proof.
  intros host w Hlock. split.
  - intros method' code_addr.
    pose proof (compiledMethodUnload_outcomes host method' code_addr w Hlock) as H.
    destruct (compiledMethodUnload host method' code_addr w); [|exact H].
    destruct H as (H1 & H2 & H3 & H4 & H5 & H6 & _). auto.
  - intros name code_addr code_size.
    pose proof (dynamicCodeGenerated_outcomes host name code_addr code_size w
                  Hlock) as H.
    destruct (dynamicCodeGenerated host name code_addr code_size w); [|exact H].
    destruct H as (H1 & H2 & H3 & H4 & H5 & H6 & _). auto.
Qed.

Lemma handlers_return_or_abort_witness :
  match dynamicCodeGenerated (sample_host true) None 4096 16 sample_open with
  | Ok _ w' =>
      file_lock w' = false /\ stderr w' = stderr sample_open /\
      queries w' = queries sample_open /\ next_block w' = next_block sample_open
  | Stop why w' =>
      why = Abort /\ exists line, stderr w' = stderr sample_open ++ [line]
  end.
Proof.
  exact (proj2 (handlers_return_or_abort (sample_host true) sample_open eq_refl)
           None 4096 16).
Defined.

(** ** The unload record *)

Lemma unload_tag_bytes :
  be_bytes 4 CompiledMethodUnloadTag = bytes_of_string "CMUT".
Proof. reflexivity. Qed.

Lemma cmut_bytes_length ts code_addr :
  List.length (cmut_bytes ts code_addr) = 28%nat.
Proof.
  unfold cmut_bytes. rewrite !length_app, !be_bytes_length. reflexivity.
Qed.

Lemma flushed_file w f :
  flushed w -> output_file w = Some f ->
  f = mkFILE (f_name f) (f_data f) (List.length (f_data f)).
Proof.
  unfold flushed. intros H E. rewrite E in H. destruct f as [n d fl].
  simpl in *. now subst.
Qed.

Lemma compiledMethodUnload_runs :
  forall (host : Host) (method' : jmethodID) (code_addr : Z) (w : World)
         (f : FILE) (ts : timespec),
    io_ok host ->
    flush_ok host ->
    output_file w = Some f ->
    file_lock w = false ->
    clock_gettime host (now w) = Some ts ->
    exists w',
      compiledMethodUnload host method' code_addr w = Ok tt w' /\
      output_file w' =
        Some (mkFILE (f_name f) (f_data f ++ cmut_bytes ts code_addr)
                (List.length (f_data f ++ cmut_bytes ts code_addr))) /\
      List.length (cmut_bytes ts code_addr) = 28%nat /\
      file_lock w' = false /\ stderr w' = stderr w /\
      queries w' = queries w.
Proof.
  intros host method' code_addr w f ts Hio Hflush Ef Hlock Hclock.
  assert (Hrun : exists w', compiledMethodUnload host method' code_addr w = Ok tt w' /\
            exists f', output_file w' = Some f' /\ f_name f' = f_name f /\
                       f_data f' = f_data f ++ cmut_bytes ts code_addr).
  { unfold compiledMethodUnload. unfold bind at 1.
    rewrite get_timestamp_eq, Hclock.
    unfold bind at 1. rewrite lock_output_file_eq. simpl file_lock. rewrite Hlock.
    unfold bind at 1, get at 1. simpl output_file.
    set (w1 := count_acquired (set_file_lock true (advance w))).
    assert (Hf1 : output_file w1 <> None) by (unfold w1; simpl; congruence).
    rewrite Ef.
    assert (Hbody : runs
      (write_jint host CompiledMethodUnloadTag ;;
       write_timestamp host ts ;;
       write_unsigned_jlong host code_addr ;;
       fflush host) w1
      (fun _ w' => wrote (cmut_bytes ts code_addr) w1 w')).
    { unfold cmut_bytes. rewrite <- unload_tag_bytes.
      eapply runs_bind; [apply write_jint_runs; assumption|].
      intros ? w2 H2. cbv beta in *.
      eapply runs_bind;
        [apply write_timestamp_runs; [assumption|eapply wrote_open; eassumption]|].
      intros ? w3 H3. cbv beta in *.
      eapply runs_bind;
        [apply write_unsigned_jlong_runs;
         [assumption|eapply wrote_open; eassumption]|].
      intros ? w4 H4. cbv beta in *.
      eapply runs_weaken; [apply fflush_runs; eapply wrote_open; eassumption|].
      intros ? w5 H5. cbv beta in *.
      pose proof (wrote_trans _ _ _ _ _ H2 (wrote_trans _ _ _ _ _ H3
        (wrote_trans _ _ _ _ _ H4 H5))) as Hw.
      rewrite <- ?app_assoc in Hw. rewrite app_nil_r in Hw. exact Hw. }
    destruct Hbody as ([] & w' & Hrun & Hw).
    unfold bind at 1. rewrite Hrun. rewrite unlock_output_file_eq.
    destruct Hw as [(g & g' & G1 & G2 & G3 & G4) Hl _ _ _ _ _ _ _].
    rewrite Hl. simpl. eexists. split; [reflexivity|].
    unfold w1 in G1. simpl in G1. rewrite Ef in G1. injection G1 as <-.
    exists g'. simpl. auto. }
  destruct Hrun as (w' & Hrun & f' & Ef' & Hn & Hd).
  exists w'. split; [exact Hrun|].
  pose proof (compiledMethodUnload_outcomes host method' code_addr w Hlock) as Ho.
  rewrite Hrun in Ho. destruct Ho as (H1 & _ & H3 & _ & H5 & _).
  assert (Hfl : flushed w').
  { eapply (locked_writer_flushed host
              (fun timestamp =>
                 write_jint host CompiledMethodUnloadTag ;;
                 write_timestamp host timestamp ;;
                 write_unsigned_jlong host code_addr ;;
                 fflush host)); [|exact Hrun].
    intros ? ? ?. now apply unload_body_flushed. }
  split.
  { rewrite Ef'. f_equal. rewrite (flushed_file w' f' Hfl Ef').
    simpl. now rewrite Hn, Hd. }
  split; [apply cmut_bytes_length|]. auto.
Qed.

(** X4: on an open output file, with the lock free, every write
    succeeding and every flush complete, compiledMethodUnload returns
    having added exactly 28 bytes: the characters CMUT, the seconds and
    nanoseconds of the wall clock read before the lock was taken, and the
    code address, each as 8 bytes most significant first.  The record does
    not depend on the method handle; all of the stream has then reached the
    file, the lock is given back, and no metadata query is made.  The
    handler does not look at what fflush returns: that the flush is
    complete is an assumption on the runtime here, not something the
    handler checks. *)
Theorem compiled_method_unload_record :
  forall (host : Host) (method' : jmethodID) (code_addr : Z) (w : World)
         (f : FILE) (ts : timespec),
    io_ok host ->
    flush_ok host ->
    output_file w = Some f ->
    file_lock w = false ->
    clock_gettime host (now w) = Some ts ->
    exists w',
      compiledMethodUnload host method' code_addr w = Ok tt w' /\
      output_file w' =
        Some (mkFILE (f_name f) (f_data f ++ cmut_bytes ts code_addr)
                (List.length (f_data f ++ cmut_bytes ts code_addr))) /\
      List.length (cmut_bytes ts code_addr) = 28%nat /\
      file_lock w' = false /\ stderr w' = stderr w /\
      queries w' = queries w.
Proof. exact compiledMethodUnload_runs. Qed.

Lemma compiled_method_unload_record_witness :
  exists w',
    compiledMethodUnload (sample_host true) 7 4096 sample_open = Ok tt w' /\
    output_file w' =
      Some (mkFILE (f_name sample_file)
              (f_data sample_file ++ cmut_bytes (mkTimespec 5 7) 4096)
              (List.length (f_data sample_file ++ cmut_bytes (mkTimespec 5 7) 4096))) /\
    List.length (cmut_bytes (mkTimespec 5 7) 4096) = 28%nat /\
    file_lock w' = false /\ stderr w' = stderr sample_open /\
    queries w' = queries sample_open.
Proof.
  apply (compiled_method_unload_record (sample_host true) 7 4096 sample_open
           sample_file (mkTimespec 5 7)).
  - intros t. reflexivity.
  - intros t. reflexivity.
  - reflexivity.
  - reflexivity.
  - reflexivity.
Defined.

(** ** Records that are broken off *)

Lemma stops_now {A B : Type} (m : M A) (k : A -> M B) w E :
  stops m w E -> stops (bind m k) w E.
Proof.
  intros (why & w' & H & HE). exists why, w'. unfold bind. now rewrite H.
Qed.

Lemma stops_after {A B : Type} (m : M A) (k : A -> M B) w P E :
  runs m w P -> (forall a w1, P a w1 -> stops (k a) w1 E) ->
  stops (bind m k) w E.
Proof.
  intros (a & w1 & H & HP) Hk. destruct (Hk a w1 HP) as (why & w' & H' & HE).
  exists why, w'. unfold bind. now rewrite H.
Qed.

Lemma write_or_fail_zero host data w :
  output_file w <> None ->
  write_or_fail host data 0 w =
  Stop Abort (add_stderr ("Error: failed to write bytes: " ++ strerror host)
                (advance w)).
Proof.
  intros Hf. unfold write_or_fail, bind, fwrite.
  destruct (output_file w); [reflexivity|easy].
Qed.

Lemma torn_after bs1 bs2 line w w1 why w' :
  wrote bs1 w w1 -> torn line bs2 w1 why w' -> torn line (bs1 ++ bs2) w why w'.
Proof.
  intros [(f & f1 & F1 & F2 & _ & F4) Hl _ He _ _ _ _ _]
         (-> & He' & Hl' & g & g' & G1 & G2 & G3).
  split; [reflexivity|]. split; [congruence|]. split; [congruence|].
  exists f, g'. rewrite F2 in G1. injection G1 as <-.
  repeat split; auto. now rewrite G3, F4, app_assoc.
Qed.

Lemma torn_locked (body : timespec -> M unit) host line bs w f ts :
  output_file w = Some f -> file_lock w = false ->
  clock_gettime host (now w) = Some ts ->
  (forall w1, output_file w1 <> None -> stops (body ts) w1 (torn line bs w1)) ->
  exists why w',
    (timestamp <- get_timestamp host ;;
     lock_output_file host ;;
     f <- get output_file ;;
     match f with
     | Some _ => body timestamp
     | None => ret tt
     end ;;
     unlock_output_file host) w = Stop why w' /\
    why = Abort /\ stderr w' = stderr w ++ [line] /\ file_lock w' = true /\
    exists f', output_file w' = Some f' /\ f_data f' = f_data f ++ bs.
Proof.
  intros Ef Hlock Hclock Hbody. unfold bind at 1.
  rewrite get_timestamp_eq, Hclock.
  unfold bind at 1. rewrite lock_output_file_eq. simpl file_lock. rewrite Hlock.
  unfold bind at 1, get at 1. simpl output_file. rewrite Ef.
  set (w1 := count_acquired (set_file_lock true (advance w))).
  assert (Hf1 : output_file w1 <> None) by (unfold w1; simpl; congruence).
  destruct (Hbody w1 Hf1) as (why & w' & Hrun & -> & He & Hl & g & g' & G1 & G2 & G3).
  exists Abort, w'. unfold bind. rewrite Hrun. split; [reflexivity|].
  split; [reflexivity|]. split; [exact He|]. split; [exact Hl|].
  exists g'. split; [exact G2|]. unfold w1 in G1. simpl in G1.
  rewrite Ef in G1. injection G1 as <-. exact G3.
Qed.

(** X5: dynamicCodeGenerated called with a code size of zero on an open
    file does not return.  The tag, the timestamp, the name, the address
    and the size 0 are written; the write of the code itself then reports
    failure (a write of no bytes writes no item), so the process is ended
    by report_error with the diagnostic on failed writes, the lock still
    held and the record begun but not completed. *)
Theorem dynamic_code_of_size_zero_aborts :
  forall (host : Host) (name : cstring) (code_addr : Z) (w : World)
         (f : FILE) (ts : timespec),
    io_ok host ->
    strlen name <= INT_MAX ->
    output_file w = Some f ->
    file_lock w = false ->
    clock_gettime host (now w) = Some ts ->
    exists why w',
      dynamicCodeGenerated host (Some name) code_addr 0 w = Stop why w' /\
      why = Abort /\
      stderr w' =
        stderr w ++ [("Error: failed to write bytes: " ++ strerror host)%string] /\
      file_lock w' = true /\
      exists f',
        output_file w' = Some f' /\
        f_data f' = f_data f ++ dync_bytes ts name code_addr 0 [].
Proof.
  intros host name code_addr w f ts Hio Hname Ef Hlock Hclock.
  apply (torn_locked
           (fun timestamp =>
              write_jint host DynamicCodeTag ;;
              write_timestamp host timestamp ;;
              write_string host (Some name) (Some "dynamic code name"%string) ;;
              write_unsigned_jlong host code_addr ;;
              write_jint host 0 ;;
              write_or_fail host (load host code_addr 0) 0 ;;
              fflush host)
           host _ _ w f ts Ef Hlock Hclock).
  intros w1 Hf1. unfold dync_bytes.
  eapply stops_after; [apply write_jint_runs; assumption|].
  intros ? w2 H2. cbv beta in *.
  eapply stops_after;
    [apply write_timestamp_runs; [assumption|eapply wrote_open; eassumption]|].
  intros ? w3 H3. cbv beta in *.
  eapply stops_after;
    [apply write_string_runs; [assumption..|eapply wrote_open; eassumption]|].
  intros ? w4 H4. cbv beta in *.
  eapply stops_after;
    [apply write_unsigned_jlong_runs; [assumption|eapply wrote_open; eassumption]|].
  intros ? w5 H5. cbv beta in *.
  eapply stops_after;
    [apply write_jint_runs; [assumption|eapply wrote_open; eassumption]|].
  intros ? w6 H6. cbv beta in *.
  apply stops_now.
  assert (Hf6 : output_file w6 <> None) by (eapply wrote_open; eassumption).
  exists Abort. eexists. split; [apply write_or_fail_zero; exact Hf6|].
  pose proof (wrote_trans _ _ _ _ _ H2 (wrote_trans _ _ _ _ _ H3
    (wrote_trans _ _ _ _ _ H4 (wrote_trans _ _ _ _ _ H5 H6)))) as Hw.
  rewrite <- ?app_assoc in Hw.
  eapply (torn_after _ []) in Hw.
  - rewrite <- ?app_assoc in Hw. exact Hw.
  - split; [reflexivity|]. simpl. split; [reflexivity|]. split; [reflexivity|].
    destruct (output_file w6) as [g|]; [|easy].
    exists g, g. now rewrite app_nil_r.
Qed.

Lemma dynamic_code_of_size_zero_aborts_witness :
  exists why w',
    dynamicCodeGenerated (sample_host true) (Some (bytes_of_string "stub")) 4096 0
      sample_open = Stop why w' /\
    why = Abort /\
    stderr w' =
      stderr sample_open ++
      [("Error: failed to write bytes: " ++ strerror (sample_host true))%string] /\
    file_lock w' = true /\
    exists f',
      output_file w' = Some f' /\
      f_data f' =
        f_data sample_file ++
        dync_bytes (mkTimespec 5 7) (bytes_of_string "stub") 4096 0 [].
Proof.
  apply (dynamic_code_of_size_zero_aborts (sample_host true)
           (bytes_of_string "stub") 4096 sample_open sample_file (mkTimespec 5 7)).
  - intros t. reflexivity.
  - vm_compute. discriminate.
  - reflexivity.
  - reflexivity.
  - reflexivity.
Defined.

(** ** Attaching the agent *)

Lemma wrote_advance bs w w' : wrote bs w w' -> wrote bs w (advance w').
Proof. intros [F L A E O B R Q C]. constructor; simpl; auto. Qed.

Section Header.

Variable host : Host.
Hypothesis Hio : io_ok host.
Hypothesis Hok : attach_ok host.
Hypothesis Hflush : flush_ok host.

Lemma write_file_header_runs w :
  output_file w <> None ->
  runs (write_file_header host) w
    (fun _ w' =>
       exists t1 t2 nanos ts,
         GetTime host t1 = (JVMTI_ERROR_NONE, nanos) /\
         clock_gettime host t2 = Some ts /\
         wrote (header_bytes (arch host) ts nanos) w w').
Proof.
  intros Hf. unfold write_file_header.
  eapply runs_bind; [apply write_or_fail_runs; [assumption|lia|assumption]|].
  intros ? w1 H1. cbv beta in *.
  eapply runs_bind;
    [apply write_jint_runs; [assumption|eapply wrote_open; eassumption]|].
  intros ? w2 H2. cbv beta in *.
  eapply runs_bind;
    [apply write_jint_runs; [assumption|eapply wrote_open; eassumption]|].
  intros ? w3 H3. cbv beta in *.
  eapply runs_bind;
    [apply write_string_runs;
     [assumption|apply (ok_arch host Hok)|eapply wrote_open; eassumption]|].
  intros ? w4 H4. cbv beta in *.
  eapply runs_bind with (P := fun t w5 => t = now w4 /\ w5 = advance w4);
    [exists (now w4), (advance w4); auto|].
  intros t w5 [-> ->].
  pose proof (ok_time host Hok (now w4)) as Htime.
  destruct (GetTime host (now w4)) as [error nanos] eqn:Eg. simpl in Htime.
  subst error. cbn [jvmtiError_eqb negb].
  eapply runs_bind with (P := fun _ w6 => w6 = advance w4);
    [exists tt, (advance w4); auto|].
  intros _ w6 ->.
  destruct (clock_gettime host (now (advance w4))) as [ts|] eqn:Ec;
    [|now apply (ok_clock host Hok) in Ec].
  eapply runs_bind with (P := fun t w7 => t = ts /\ w7 = advance (advance w4)).
  { exists ts, (advance (advance w4)). rewrite get_timestamp_eq, Ec. auto. }
  intros ? w7 [-> ->].
  assert (H5 : wrote [] w4 (advance (advance w4))).
  { apply wrote_advance, wrote_advance, wrote_nil. eapply wrote_open; eassumption. }
  eapply runs_bind;
    [apply write_timestamp_runs; [assumption|eapply wrote_open; exact H5]|].
  intros ? w8 H8. cbv beta in *.
  eapply runs_weaken;
    [apply write_unsigned_jlong_runs; [assumption|eapply wrote_open; eassumption]|].
  intros ? w9 H9. cbv beta in *.
  exists (now w4), (now (advance w4)), nanos, ts.
  split; [exact Eg|]. split; [exact Ec|].
  pose proof (wrote_trans _ _ _ _ _ H1 (wrote_trans _ _ _ _ _ H2
    (wrote_trans _ _ _ _ _ H3 (wrote_trans _ _ _ _ _ H4
      (wrote_trans _ _ _ _ _ H5 (wrote_trans _ _ _ _ _ H8 H9)))))) as Hw.
  cbn [app] in Hw. rewrite <- ?app_assoc in Hw. exact Hw.
Qed.

Lemma open_and_write_header_runs filename name_block w :
  file_lock w = true ->
  runs (open_and_write_header host filename name_block) w
    (fun r w' =>
       r = 0 /\ file_lock w' = false /\
       stderr w' = stderr w /\ stdout w' = stdout w /\
       queries w' = queries w /\ closed_files w' = closed_files w /\
       next_block w' = next_block w /\
       released w' = released w ++ match name_block with
                                   | Some b => [b]
                                   | None => []
                                   end /\
       exists t1 t2 nanos ts,
         GetTime host t1 = (JVMTI_ERROR_NONE, nanos) /\
         clock_gettime host t2 = Some ts /\
         output_file w' =
           Some (mkFILE filename (header_bytes (arch host) ts nanos)
                   (List.length (header_bytes (arch host) ts nanos)))).
Proof.
  intros Hlock. unfold open_and_write_header.
  unfold runs, bind at 1, fopen, bind at 1, tick.
  rewrite (ok_fopen host Hok).
  unfold bind at 1, ret, modify. unfold bind at 1.
  set (w1 := set_output_file _ _).
  assert (exists w2, match name_block with
                     | Some b => free b
                     | None => fun w => Ok tt w
                     end w1 = Ok tt w2 /\
                     output_file w2 = Some (mkFILE filename [] 0) /\
                     file_lock w2 = true /\ stderr w2 = stderr w /\
                     stdout w2 = stdout w /\ queries w2 = queries w /\
                     closed_files w2 = closed_files w /\ next_block w2 = next_block w /\
                     released w2 = released w ++ match name_block with
                                                 | Some b => [b]
                                                 | None => []
                                                 end) as (w2 & Hfree & F & L & E & O & Q & A & B & R).
  { destruct name_block as [b|].
    - eexists. split; [reflexivity|]. simpl. repeat split; auto.
    - eexists. split; [reflexivity|]. simpl. rewrite app_nil_r. repeat split; auto. }
  unfold bind at 1. rewrite Hfree.
  destruct (write_file_header_runs w2) as ([] & w3 & Hrun & t1 & t2 & nanos & ts & Ht & Hc & Hw);
    [congruence|].
  unfold bind at 1. rewrite Hrun.
  unfold bind at 1. rewrite fflush_eq.
  destruct Hw as [(g & g' & G1 & G2 & G3 & G4) Hl _ He Ho Hb Hr Hq Ha].
  rewrite G2, Hflush. unfold bind at 1. rewrite unlock_output_file_eq.
  simpl file_lock.
  rewrite Hl, L. eexists _, _. split; [reflexivity|]. simpl.
  repeat split; try congruence.
  exists t1, t2, nanos, ts. split; [exact Ht|]. split; [exact Hc|].
  rewrite F in G1. injection G1 as <-. simpl in *. rewrite G3, G4. reflexivity.
Qed.

Lemma Agent_OnLoad_prefix options w :
  options <> "-h"%string -> options <> "--help"%string ->
  file_lock w = false ->
  Agent_OnLoad host (Some options) w =
  ('(filename, name_block) <- output_filename host options ;;
   open_and_write_header host filename name_block)
    (advance (advance (advance (advance
       (count_acquired (set_file_lock true (advance w))))))).
Proof.
  intros Hh Hhelp Hlock.
  unfold Agent_OnLoad. unfold bind at 1, ret.
  apply String.eqb_neq in Hh, Hhelp. rewrite Hh, Hhelp. cbn [orb].
  unfold bind at 1, ret.
  unfold bind at 1. rewrite jvmti_call_ok by apply (ok_capabilities host Hok).
  unfold bind at 1. rewrite lock_output_file_eq. simpl file_lock. rewrite Hlock.
  unfold bind at 1. rewrite jvmti_call_ok by apply (ok_callbacks host Hok).
  unfold bind at 1. rewrite jvmti_call_ok by apply (ok_modes host Hok).
  unfold bind at 1. rewrite jvmti_call_ok by apply (ok_modes host Hok).
  unfold bind at 1. rewrite jvmti_call_ok by apply (ok_modes host Hok).
  reflexivity.
Qed.

End Header.

Lemma Agent_OnLoad_runs :
  forall (host : Host) (options : string) (w : World),
    io_ok host -> attach_ok host -> flush_ok host ->
    options <> "-h"%string -> options <> "--help"%string ->
    file_lock w = false ->
    exists w' name t1 t2 nanos ts,
      Agent_OnLoad host (Some options) w = Ok 0 w' /\
      GetTime host t1 = (JVMTI_ERROR_NONE, nanos) /\
      clock_gettime host t2 = Some ts /\
      output_file w' =
        Some (mkFILE name (header_bytes (arch host) ts nanos)
                (List.length (header_bytes (arch host) ts nanos))) /\
      file_lock w' = false /\
      stderr w' = stderr w /\ stdout w' = stdout w /\
      queries w' = queries w /\ closed_files w' = closed_files w /\
      released w' =
        released w ++ seq (next_block w) (next_block w' - next_block w).
Proof.
  intros host options w Hio Hok Hflush Hh Hhelp Hlock.
  rewrite (Agent_OnLoad_prefix host Hok options w Hh Hhelp Hlock).
  set (w1 := advance _).
  unfold bind at 1. rewrite output_filename_eq.
  destruct (strstr options "%p") as [k|].
  - destruct (open_and_write_header_runs host Hio Hok Hflush
                ((String.substring 0 k options ++ snprintf_d 32 (getpid host)) ++
                 string_skip (k + 2) options)%string
                (Some (next_block w1)) (take_block w1) eq_refl)
      as (r & w' & Hrun & -> & L & E & O & Q & C & B & R & t1 & t2 & nanos & ts & Ht & Hc & F).
    exists w'. eexists. exists t1, t2, nanos, ts.
    split; [exact Hrun|]. split; [exact Ht|]. split; [exact Hc|].
    split; [exact F|]. simpl in *.
    repeat split; auto. rewrite R, B.
    replace (S (next_block w) - next_block w)%nat with 1%nat by lia. reflexivity.
  - destruct (open_and_write_header_runs host Hio Hok Hflush options None w1 eq_refl)
      as (r & w' & Hrun & -> & L & E & O & Q & C & B & R & t1 & t2 & nanos & ts & Ht & Hc & F).
    exists w'. eexists. exists t1, t2, nanos, ts.
    split; [exact Hrun|]. split; [exact Ht|]. split; [exact Hc|].
    split; [exact F|]. simpl in *.
    repeat split; auto. rewrite R, B, Nat.sub_diag. reflexivity.
Qed.

(** X6: when the runtime grants the capabilities, the callbacks and the
    three event notifications, the file can be opened, the clocks can be
    read, every write succeeds and every flush is complete, Agent_OnLoad
    called with a file name returns 0 with the lock given back and nothing
    printed.  The output file then holds exactly the header: JVMTIASM, the
    versions 1 and 0, the architecture as a length-prefixed string, the
    wall clock as seconds and nanoseconds and the time of the runtime,
    every integer most significant byte first; all of it has reached the
    file, which rests on the assumption that the flush is complete, since
    Agent_OnLoad does not look at what fflush returns.  The storage taken
    for a name with a placeholder has been given back, and no metadata
    query was made. *)
Theorem agent_onload_writes_the_header :
  forall (host : Host) (options : string) (w : World),
    io_ok host -> attach_ok host -> flush_ok host ->
    options <> "-h"%string -> options <> "--help"%string ->
    file_lock w = false ->
    exists w' name t1 t2 nanos ts,
      Agent_OnLoad host (Some options) w = Ok 0 w' /\
      GetTime host t1 = (JVMTI_ERROR_NONE, nanos) /\
      clock_gettime host t2 = Some ts /\
      output_file w' =
        Some (mkFILE name (header_bytes (arch host) ts nanos)
                (List.length (header_bytes (arch host) ts nanos))) /\
      file_lock w' = false /\
      stderr w' = stderr w /\ stdout w' = stdout w /\
      queries w' = queries w /\ closed_files w' = closed_files w /\
      released w' =
        released w ++ seq (next_block w) (next_block w' - next_block w).
Proof. exact Agent_OnLoad_runs. Qed.

Lemma agent_onload_writes_the_header_witness :
  exists w' name t1 t2 nanos ts,
    Agent_OnLoad (sample_host true) (Some "trace-%p.bin"%string) sample_closed =
      Ok 0 w' /\
    GetTime (sample_host true) t1 = (JVMTI_ERROR_NONE, nanos) /\
    clock_gettime (sample_host true) t2 = Some ts /\
    output_file w' =
      Some (mkFILE name (header_bytes (arch (sample_host true)) ts nanos)
              (List.length (header_bytes (arch (sample_host true)) ts nanos))) /\
    file_lock w' = false /\
    stderr w' = stderr sample_closed /\ stdout w' = stdout sample_closed /\
    queries w' = queries sample_closed /\
    closed_files w' = closed_files sample_closed /\
    released w' =
      released sample_closed ++
      seq (next_block sample_closed) (next_block w' - next_block sample_closed).
Proof.
  apply (agent_onload_writes_the_header (sample_host true) "trace-%p.bin"
           sample_closed).
  - intros t. reflexivity.
  - constructor; intros; try reflexivity.
    + discriminate.
    + vm_compute. discriminate.
  - intros t. reflexivity.
  - discriminate.
  - discriminate.
  - reflexivity.
Defined.

(** ** Every outcome of attaching the agent *)

Lemma jvmtiError_eqb_none error :
  jvmtiError_eqb error JVMTI_ERROR_NONE = true -> error = JVMTI_ERROR_NONE.
Proof. destruct error; simpl; congruence. Qed.

Lemma writes_or_aborts_tick : writes_or_aborts tick.
Proof.
  intros w Hf. simpl. split; [constructor; reflexivity|]. split; [reflexivity|exact Hf].
Qed.

Section Outcomes.

Variable host : Host.

Lemma writes_or_aborts_get_timestamp : writes_or_aborts (get_timestamp host).
Proof.
  unfold get_timestamp. apply writes_or_aborts_bind; [apply writes_or_aborts_tick|].
  intros t. destruct (clock_gettime host t);
    [apply writes_or_aborts_ret|apply writes_or_aborts_report_error].
Qed.

Lemma writes_or_aborts_write_file_header :
  writes_or_aborts (write_file_header host).
Proof.
  unfold write_file_header.
  apply writes_or_aborts_bind; [apply writes_or_aborts_write_or_fail|intros _].
  apply writes_or_aborts_bind; [apply writes_or_aborts_write_jint|intros _].
  apply writes_or_aborts_bind; [apply writes_or_aborts_write_jint|intros _].
  apply writes_or_aborts_bind; [apply writes_or_aborts_write_string|intros _].
  apply writes_or_aborts_bind; [apply writes_or_aborts_tick|intros t].
  destruct (GetTime host t) as [error nanos].
  apply writes_or_aborts_bind.
  { destruct (negb (jvmtiError_eqb error JVMTI_ERROR_NONE));
      [apply writes_or_aborts_report_error|apply writes_or_aborts_ret]. }
  intros _.
  apply writes_or_aborts_bind; [apply writes_or_aborts_get_timestamp|intros ts].
  apply writes_or_aborts_bind; [apply writes_or_aborts_write_timestamp|intros _].
  apply writes_or_aborts_write_unsigned_jlong.
Qed.

Lemma write_file_header_sat w :
  outcome_sat (write_file_header host w)
    (fun _ w' =>
       exists t1 t2 nanos ts,
         GetTime host t1 = (JVMTI_ERROR_NONE, nanos) /\
         clock_gettime host t2 = Some ts /\
         wrote (header_bytes (arch host) ts nanos) w w')
    (fun _ => True).
Proof.
  unfold write_file_header.
  eapply sat_bind; [apply write_or_fail_sat| |auto].
  intros ? w1 H1. cbv beta in *.
  eapply sat_bind; [apply write_jint_sat| |auto].
  intros ? w2 H2. cbv beta in *.
  eapply sat_bind; [apply write_jint_sat| |auto].
  intros ? w3 H3. cbv beta in *.
  eapply sat_bind; [apply write_string_sat| |auto].
  intros ? w4 (s & Es & _ & H4). injection Es as <-.
  unfold bind at 1, tick.
  destruct (GetTime host (now w4)) as [error nanos] eqn:Eg.
  destruct (jvmtiError_eqb error JVMTI_ERROR_NONE) eqn:Ee; [|exact I].
  apply jvmtiError_eqb_none in Ee. subst error.
  cbn [negb]. unfold bind at 1, ret.
  unfold bind at 1. rewrite get_timestamp_eq.
  destruct (clock_gettime host (now (advance w4))) as [ts|] eqn:Ec; [|exact I].
  assert (H5 : wrote [] w4 (advance (advance w4))).
  { apply wrote_advance, wrote_advance, wrote_nil. eapply wrote_open; eassumption. }
  eapply sat_bind; [apply write_timestamp_sat| |auto].
  intros ? w8 H8. cbv beta in *.
  eapply sat_weaken; [apply write_unsigned_jlong_sat| |auto].
  intros ? w9 H9. cbv beta in *.
  exists (now w4), (now (advance w4)), nanos, ts.
  split; [exact Eg|]. split; [exact Ec|].
  pose proof (wrote_trans _ _ _ _ _ H1 (wrote_trans _ _ _ _ _ H2
    (wrote_trans _ _ _ _ _ H3 (wrote_trans _ _ _ _ _ H4
      (wrote_trans _ _ _ _ _ H5 (wrote_trans _ _ _ _ _ H8 H9)))))) as Hw.
  cbn [app] in Hw. rewrite <- ?app_assoc in Hw. exact Hw.
Qed.

Lemma jvmti_call_eq answer message w :
  jvmti_call host answer message w =
  if jvmtiError_eqb (answer (now w)) JVMTI_ERROR_NONE then Ok tt (advance w)
  else Stop Abort
         (add_stderr ("Error: " ++ message ++ ": " ++
                      GetErrorName host (answer (now w)))%string (advance w)).
Proof.
  unfold jvmti_call, bind, tick.
  destruct (jvmtiError_eqb (answer (now w)) JVMTI_ERROR_NONE); reflexivity.
Qed.

Lemma open_and_write_header_outcomes filename name_block w :
  file_lock w = true ->
  match open_and_write_header host filename name_block w with
  | Ok r w' =>
      r = 0 /\ file_lock w' = false /\
      stderr w' = stderr w /\ stdout w' = stdout w /\
      closed_files w' = closed_files w /\
      exists t1 t2 nanos ts f,
        GetTime host t1 = (JVMTI_ERROR_NONE, nanos) /\
        clock_gettime host t2 = Some ts /\
        output_file w' = Some f /\ f_name f = filename /\
        holds host f (header_bytes (arch host) ts nanos)
  | Stop why w' =>
      why = Abort /\ stdout w' = stdout w /\
      exists line, stderr w' = stderr w ++ [line]
  end.
Proof.
  intros Hlock. unfold open_and_write_header.
  unfold bind at 1, fopen, bind at 1, tick.
  destruct (fopen_ok host (now w) filename);
    [|simpl; split; [reflexivity|split; [reflexivity|eexists; reflexivity]]].
  unfold bind at 1, ret, modify. unfold bind at 1.
  set (w1 := set_output_file _ _).
  assert (exists w2, match name_block with
                     | Some b => free b
                     | None => fun w => Ok tt w
                     end w1 = Ok tt w2 /\
                     output_file w2 = Some (mkFILE filename [] 0) /\
                     file_lock w2 = true /\ stderr w2 = stderr w /\
                     stdout w2 = stdout w /\
                     closed_files w2 = closed_files w) as (w2 & Hfree & F & L & E & O & C).
  { destruct name_block as [b|]; eexists; (split; [reflexivity|]); simpl; auto. }
  unfold bind at 1. rewrite Hfree.
  assert (Hf2 : output_file w2 <> None) by congruence.
  pose proof (writes_or_aborts_write_file_header w2 Hf2) as Ha.
  pose proof (write_file_header_sat w2) as Hs.
  unfold bind at 1.
  destruct (write_file_header host w2) as [[] w3|why w3].
  - destruct Hs as (t1 & t2 & nanos & ts & Ht & Hc & Hw).
    unfold bind at 1. rewrite fflush_eq.
    destruct Hw as [(g & g' & G1 & G2 & G3 & G4) Hl _ He Ho _ _ _ Hcl].
    rewrite G2. unfold bind at 1. rewrite unlock_output_file_eq.
    rewrite F in G1. injection G1 as <-. simpl in G3, G4.
    destruct (fflush_ok host (now w3)) eqn:Efl; simpl file_lock;
      rewrite Hl, L; unfold ret; simpl;
      (split; [reflexivity|]); (split; [reflexivity|]); (split; [congruence|]);
      (split; [congruence|]); (split; [congruence|]);
      exists t1, t2, nanos, ts.
    + exists (mkFILE (f_name g') (f_data g') (List.length (f_data g'))).
      unfold holds. cbn [f_name f_data f_flushed]. rewrite G4.
      repeat split; auto.
    + exists g'. unfold holds. repeat split; auto.
      intros Hflush. rewrite Hflush in Efl. discriminate.
  - destruct Ha as (-> & [_ _ _ Ho _ _ _ _] & line & Hl).
    split; [reflexivity|]. split; [congruence|]. exists line. congruence.
Qed.

Lemma Agent_OnLoad_named options w :
  String.eqb options "-h" = false -> String.eqb options "--help" = false ->
  file_lock w = false ->
  match Agent_OnLoad host (Some options) w with
  | Ok r w' =>
      r = 0 /\ file_lock w' = false /\
      stderr w' = stderr w /\ stdout w' = stdout w /\
      closed_files w' = closed_files w /\
      exists t1 t2 nanos ts f,
        GetTime host t1 = (JVMTI_ERROR_NONE, nanos) /\
        clock_gettime host t2 = Some ts /\
        output_file w' = Some f /\
        holds host f (header_bytes (arch host) ts nanos)
  | Stop why w' =>
      why = Abort /\ stdout w' = stdout w /\
      exists line, stderr w' = stderr w ++ [line]
  end.
Proof.
  intros Hh Hhelp Hlock.
  unfold Agent_OnLoad. unfold bind at 1, ret.
  rewrite Hh, Hhelp. cbn [orb]. unfold bind at 1, ret.
  unfold bind at 1. rewrite jvmti_call_eq.
  destruct (jvmtiError_eqb _ _);
    [|simpl; split; [reflexivity|split; [reflexivity|eexists; reflexivity]]].
  unfold bind at 1. rewrite lock_output_file_eq. simpl file_lock. rewrite Hlock.
  do 4 (unfold bind at 1; rewrite jvmti_call_eq;
        destruct (jvmtiError_eqb _ _);
        [|simpl; split; [reflexivity|split; [reflexivity|eexists; reflexivity]]]).
  set (w1 := advance _).
  unfold bind at 1. rewrite output_filename_eq.
  destruct (strstr options "%p") as [k|].
  - pose proof (open_and_write_header_outcomes
                  ((String.substring 0 k options ++ snprintf_d 32 (getpid host)) ++
                   string_skip (k + 2) options)%string
                  (Some (next_block w1)) (take_block w1) eq_refl) as H.
    match goal with
    | |- match ?o with Ok _ _ => _ | Stop _ _ => _ end =>
        change o with
          (open_and_write_header host
             ((String.substring 0 k options ++ snprintf_d 32 (getpid host)) ++
              string_skip (k + 2) options)%string
             (Some (next_block w1)) (take_block w1))
    end.
    destruct (open_and_write_header _ _ _ _) as [r w'|why w'].
    + destruct H as (-> & L & E & O & C & t1 & t2 & nanos & ts & f & Ht & Hc & F & _ & H).
      split; [reflexivity|]. split; [exact L|]. split; [exact E|].
      split; [exact O|]. split; [exact C|].
      exists t1, t2, nanos, ts, f. auto.
    + exact H.
  - pose proof (open_and_write_header_outcomes options None w1 eq_refl) as H.
    match goal with
    | |- match ?o with Ok _ _ => _ | Stop _ _ => _ end =>
        change o with (open_and_write_header host options None w1)
    end.
    destruct (open_and_write_header _ _ _ _) as [r w'|why w'].
    + destruct H as (-> & L & E & O & C & t1 & t2 & nanos & ts & f & Ht & Hc & F & _ & H).
      split; [reflexivity|]. split; [exact L|]. split; [exact E|].
      split; [exact O|]. split; [exact C|].
      exists t1, t2, nanos, ts, f. auto.
    + exact H.
Qed.

End Outcomes.

Lemma Agent_OnLoad_outcomes :
  forall (host : Host) (options : option string) (w : World),
    file_lock w = false ->
    let named := exists o, options = Some o /\ o <> "-h"%string /\ o <> "--help"%string in
    match Agent_OnLoad host options w with
    | Ok r w' =>
        named /\ r = 0 /\ file_lock w' = false /\
        stderr w' = stderr w /\ stdout w' = stdout w /\
        closed_files w' = closed_files w /\
        exists t1 t2 nanos ts f,
          GetTime host t1 = (JVMTI_ERROR_NONE, nanos) /\
          clock_gettime host t2 = Some ts /\
          output_file w' = Some f /\
          holds host f (header_bytes (arch host) ts nanos)
    | Stop why w' =>
        (why = Exit 1 /\ ~ named /\
         stdout w' =
           stdout w ++
           match options with
           | None => ["Error: Must specify an output file name"%string]
           | Some _ => []
           end ++ [usage_message] /\
         stderr w' = stderr w /\ file_lock w' = false /\
         output_file w' = output_file w /\ now w' = now w) \/
        (why = Abort /\ named /\ stdout w' = stdout w /\
         exists line, stderr w' = stderr w ++ [line])
    end.
Proof.
  intros host options w Hlock named. subst named.
  destruct options as [o|].
  - destruct (String.eqb o "-h") eqn:Hh.
    { apply String.eqb_eq in Hh. subst o. simpl. left.
      split; [reflexivity|]. split; [intros (o & E & H & _); congruence|].
      auto. }
    destruct (String.eqb o "--help") eqn:Hhelp.
    { apply String.eqb_eq in Hhelp. subst o. simpl. left.
      split; [reflexivity|]. split; [intros (o & E & _ & H); congruence|].
      auto. }
    pose proof (Agent_OnLoad_named host o w Hh Hhelp Hlock) as H.
    apply String.eqb_neq in Hh, Hhelp.
    assert (Hn : exists o', Some o = Some o' /\ o' <> "-h"%string /\ o' <> "--help"%string)
      by (exists o; auto).
    destruct (Agent_OnLoad host (Some o) w) as [r w'|why w'].
    + destruct H as (-> & H). split; [exact Hn|]. split; [reflexivity|exact H].
    + right. destruct H as (-> & H1 & H2). auto.
  - simpl. left. split; [reflexivity|].
    split; [intros (o & E & _); discriminate|].
    rewrite <- app_assoc. auto.
Qed.

Lemma Agent_OnLoad_usage :
  forall (host : Host) (options : option string) (w : World),
    file_lock w = false ->
    let named := exists o, options = Some o /\ o <> "-h"%string /\ o <> "--help"%string in
    (~ named -> exists w', Agent_OnLoad host options w = Stop (Exit 1) w') /\
    match Agent_OnLoad host options w with
    | Ok r w' =>
        named /\ r = 0 /\ file_lock w' = false /\
        stderr w' = stderr w /\ stdout w' = stdout w /\
        closed_files w' = closed_files w /\
        exists t1 t2 nanos ts f,
          GetTime host t1 = (JVMTI_ERROR_NONE, nanos) /\
          clock_gettime host t2 = Some ts /\
          output_file w' = Some f /\
          holds host f (header_bytes (arch host) ts nanos)
    | Stop (Exit status) w' =>
        status = 1 /\ ~ named /\
        stdout w' =
          stdout w ++
          match options with
          | None => ["Error: Must specify an output file name"%string]
          | Some _ => []
          end ++ [usage_message] /\
        stderr w' = stderr w /\ file_lock w' = false /\
        output_file w' = output_file w /\ now w' = now w /\
        queries w' = queries w
    | Stop _ _ => True
    end.
Proof.
  intros host options w Hlock named. split.
  - intros Hn. destruct options as [o|]; [|eexists; reflexivity].
    destruct (String.eqb o "-h") eqn:Hh.
    { apply String.eqb_eq in Hh. subst o. eexists. reflexivity. }
    destruct (String.eqb o "--help") eqn:Hhelp.
    { apply String.eqb_eq in Hhelp. subst o. eexists. reflexivity. }
    apply String.eqb_neq in Hh, Hhelp. elim Hn. exists o. auto.
  - pose proof (Agent_OnLoad_outcomes host options w Hlock) as H.
    cbv zeta in H. fold named in H.
    destruct (Agent_OnLoad host options w) as [r w'|why w'] eqn:E; [exact H|].
    destruct why as [|status| |]; try exact I.
    destruct H as [(Hs & Hn & H)|(Hs & _)]; [|discriminate].
    injection Hs as ->. split; [reflexivity|]. split; [exact Hn|].
    destruct H as (H1 & H2 & H3 & H4 & H5).
    repeat (split; [assumption|]).
    destruct options as [o|].
    + destruct (String.eqb o "-h") eqn:Hh.
      { apply String.eqb_eq in Hh. subst o. now injection E as <-. }
      destruct (String.eqb o "--help") eqn:Hhelp.
      { apply String.eqb_eq in Hhelp. subst o. now injection E as <-. }
      apply String.eqb_neq in Hh, Hhelp. elim Hn. exists o. auto.
    + now injection E as <-.
Qed.

(** X7: how Agent_OnLoad, entered with the lock free, returns or leaves
    through usage, the environment of the runtime taken to be at hand:
    the call of GetEnv in line 471, whose result the function does not
    look at, is not modelled, and nothing is said here of a runtime that
    does not hand its environment out.  When the option string is NULL,
    "-h" or "--help", which is decided before GetEnv is called, the
    function leaves through usage, and it leaves through usage only then:
    the exit status is 1, the usage text has been printed on the standard
    output, after the line on the missing file name when the string is
    NULL, and nothing else has happened, no call to the runtime, no lock
    taken, no file opened.  When it returns, the option string was a file
    name, the result is 0, the lock has been given back, nothing was
    printed, and the opened stream holds exactly the header.  Nothing is
    claimed of the other ways the function can end. *)
Theorem agent_onload_outcomes :
  forall (host : Host) (options : option string) (w : World),
    file_lock w = false ->
    let named := exists o, options = Some o /\ o <> "-h"%string /\ o <> "--help"%string in
    (~ named -> exists w', Agent_OnLoad host options w = Stop (Exit 1) w') /\
    match Agent_OnLoad host options w with
    | Ok r w' =>
        named /\ r = 0 /\ file_lock w' = false /\
        stderr w' = stderr w /\ stdout w' = stdout w /\
        closed_files w' = closed_files w /\
        exists t1 t2 nanos ts f,
          GetTime host t1 = (JVMTI_ERROR_NONE, nanos) /\
          clock_gettime host t2 = Some ts /\
          output_file w' = Some f /\
          holds host f (header_bytes (arch host) ts nanos)
    | Stop (Exit status) w' =>
        status = 1 /\ ~ named /\
        stdout w' =
          stdout w ++
          match options with
          | None => ["Error: Must specify an output file name"%string]
          | Some _ => []
          end ++ [usage_message] /\
        stderr w' = stderr w /\ file_lock w' = false /\
        output_file w' = output_file w /\ now w' = now w /\
        queries w' = queries w
    | Stop _ _ => True
    end.
Proof. exact Agent_OnLoad_usage. Qed.

Lemma agent_onload_outcomes_witness :
  match Agent_OnLoad (sample_host true) (Some "--help"%string) sample_closed with
  | Stop (Exit status) w' =>
      status = 1 /\ stdout w' = stdout sample_closed ++ [usage_message] /\
      now w' = now sample_closed
  | _ => False
  end.
Proof.
  pose proof (agent_onload_outcomes (sample_host true) (Some "--help"%string)
                sample_closed eq_refl) as H.
  cbv zeta in H. destruct H as (Hu & H).
  destruct Hu as (w1 & E).
  { intros (o & Eo & _ & Hhelp). injection Eo as <-. now apply Hhelp. }
  rewrite E in H |- *. destruct H as (H1 & _ & H2 & _ & _ & _ & H3 & _). auto.
Defined.

(** ** The list of method records as a cache *)

Lemma lookup_method_scan_snoc method' ms r : forall last,
  ~ In method' (map method ms) -> method r = method' ->
  fst (lookup_method_scan method' (ms ++ [r]) last) = Some r.
Proof.
  induction ms as [|c ms IH]; intros last Hn Hm; simpl in *.
  - apply Z.eqb_eq in Hm. now rewrite Hm.
  - destruct (method c =? method') eqn:E.
    + apply Z.eqb_eq in E. tauto.
    + apply IH; tauto.
Qed.

Lemma handle_dec (method' : jmethodID) (ms : list MethodData) :
  {In method' (map method ms)} + {~ In method' (map method ms)}.
Proof. apply in_dec, Z.eq_dec. Qed.

Section Cache.

Variable host : Host.

Lemma lookup_method_found method' ms count w r ms' count' w' :
  lookup_method host method' ms count w = Ok (Some r, ms', count') w' ->
  method r = method' /\
  (In method' (map method ms) /\ ms' = ms /\ count' = count /\ w' = w \/
   ~ In method' (map method ms) /\ ms' = ms ++ [r] /\ count' = count + 1).
Proof.
  intros H. pose proof (lookup_method_sat host method' ms count w) as Hs.
  rewrite H in Hs. simpl in Hs. destruct Hs as (_ & Hin & Hm & Hms & _ & Hc).
  split; [exact Hm|].
  destruct (handle_dec method' ms) as [Hy|Hn].
  - left. destruct (lookup_method_hit host method' ms count Hy) as (r0 & _ & _ & E).
    rewrite E in H. injection H as <- <- <- <-. auto.
  - right. split; [exact Hn|]. destruct Hms as [->| ->].
    + elim Hn. rewrite <- Hm. now apply in_map.
    + split; [reflexivity|]. rewrite length_app in Hc. cbn [List.length] in Hc. lia.
Qed.

Lemma lookup_method_again method' ms count w :
  fst (lookup_method_scan method' ms None) <> None ->
  lookup_method host method' ms count w =
  Ok (fst (lookup_method_scan method' ms None), ms, count) w.
Proof.
  unfold lookup_method.
  destruct (lookup_method_scan method' ms None) as [[r|] last]; simpl; [reflexivity|easy].
Qed.

Lemma lookup_method_kept method' ms count w :
  table_kept ms count ->
  outcome_sat (lookup_method host method' ms count w)
    (fun '(_, ms', count') _ =>
       table_kept ms' count' /\ exists extra, ms' = ms ++ extra)
    (fun _ => True).
Proof.
  intros [Hd Hc].
  pose proof (lookup_method_sat host method' ms count w) as Hs.
  destruct (lookup_method host method' ms count w) as [[[found ms'] count'] w'|]
    eqn:E; simpl; [|exact I].
  destruct found as [r|].
  - destruct (lookup_method_found _ _ _ _ _ _ _ _ E)
      as (Hm & [(_ & -> & -> & _)|(Hn & -> & ->)]).
    + split; [split; assumption|]. exists []. now rewrite app_nil_r.
    + split; [|eauto]. split.
      * rewrite map_app. simpl. rewrite Hm.
        apply NoDup_app; [exact Hd|repeat constructor; easy|].
        intros x Hx [<-|[]]. exact (Hn Hx).
      * rewrite length_app. cbn [List.length]. lia.
  - simpl in Hs. destruct Hs as (_ & -> & ->).
    split; [split; assumption|]. exists []. now rewrite app_nil_r.
Qed.

Lemma kept_trans (ms ms1 ms2 : list MethodData) :
  (exists extra, ms1 = ms ++ extra) -> (exists extra, ms2 = ms1 ++ extra) ->
  exists extra, ms2 = ms ++ extra.
Proof. intros [e1 ->] [e2 ->]. exists (e1 ++ e2). now rewrite app_assoc. Qed.

Lemma collect_frame_kept info j st w :
  table_kept (fst st) (snd st) ->
  outcome_sat (collect_frame host info j st w)
    (fun r _ =>
       match r with
       | inl st' => table_kept (fst st') (snd st') /\
                    exists extra, fst st' = fst st ++ extra
       | inr _ => True
       end)
    (fun _ => True).
Proof.
  destruct st as [ms count]. intros Hk. unfold collect_frame.
  eapply sat_bind; [apply index_sat| |easy].
  intros handle w1 _. cbv beta.
  eapply sat_bind; [apply lookup_method_kept; exact Hk| |auto].
  intros [[found ms'] count'] w2 H. destruct found; simpl; auto.
Qed.

Lemma collect_pc_kept inline_records i st w :
  table_kept (fst st) (snd st) ->
  outcome_sat (collect_pc host inline_records i st w)
    (fun r _ =>
       match r with
       | inl st' => table_kept (fst st') (snd st') /\
                    exists extra, fst st' = fst st ++ extra
       | inr _ => True
       end)
    (fun _ => True).
Proof.
  intros Hk. unfold collect_pc.
  eapply sat_bind; [apply index_sat| |easy].
  intros info w1 _. cbv beta. unfold for_.
  pose proof (for_from_sat (collect_frame host info)
    (fun _ st' _ => table_kept (fst st') (snd st') /\
                    exists extra, fst st' = fst st ++ extra)
    (fun _ _ => True) (fun _ => True)
    (Z.to_nat (numstackframes info)) 0) as Hloop.
  eapply sat_weaken; [apply Hloop| |auto].
  - intros k s0 w0 _ [K P].
    eapply sat_weaken; [apply collect_frame_kept; exact K| |auto].
    intros [st'|] w' H; cbv beta iota in *; [|exact I].
    destruct H as [K' P']. split; [exact K'|]. eapply kept_trans; eassumption.
  - split; [exact Hk|]. exists []. now rewrite app_nil_r.
  - intros [st'|] w' H; exact H.
Qed.

Lemma scan_compile_info_kept header : forall ms count w,
  table_kept ms count ->
  outcome_sat (scan_compile_info host header ms count w)
    (fun r _ =>
       match r with
       | inl (_, ms', count') =>
           table_kept ms' count' /\ exists extra, ms' = ms ++ extra
       | inr _ => True
       end)
    (fun _ => True).
Proof.
  induction header as [|h next IH]; intros ms count w Hk.
  - simpl. split; [exact Hk|]. exists []. now rewrite app_nil_r.
  - cbn [scan_compile_info]. destruct (is_inline_info (kind h)); [|now apply IH].
    unfold for_.
    pose proof (for_from_sat (collect_pc host (as_inline_record h))
      (fun _ st' _ => table_kept (fst st') (snd st') /\
                      exists extra, fst st' = ms ++ extra)
      (fun _ _ => True) (fun _ => True)
      (Z.to_nat (numpcs (as_inline_record h))) 0) as Hloop.
    eapply sat_bind; [apply Hloop| |auto].
    + intros k s0 w0 _ [K P].
      eapply sat_weaken; [apply collect_pc_kept; exact K| |auto].
      intros [st'|] w' H; cbv beta iota in *; [|exact I].
      destruct H as [K' P']. split; [exact K'|]. eapply kept_trans; eassumption.
    + split; [exact Hk|]. exists []. now rewrite app_nil_r.
    + intros [[ms' count']|] w' H; simpl in *; auto.
Qed.

End Cache.

(** X8: lookup_method is a cache.  A handle that has a record is answered
    from the list: the first record for it is returned and nothing else
    happens, no query, no storage taken, the list and the count as they
    were.  After any call that returned a record, the handle has one: the
    same call on the list and count it left returns the same record and
    leaves everything as it is. *)
Theorem lookup_method_is_a_cache :
  forall (host : Host) (method' : jmethodID) (ms : list MethodData) (count : Z),
    (In method' (map method ms) ->
     exists r, In r ms /\ method r = method' /\
               forall w, lookup_method host method' ms count w =
                         Ok (Some r, ms, count) w) /\
    (forall w r ms' count' w',
       lookup_method host method' ms count w = Ok (Some r, ms', count') w' ->
       In method' (map method ms') /\
       forall w2, lookup_method host method' ms' count' w2 =
                  Ok (Some r, ms', count') w2).
Proof.
  intros host method' ms count. split; [apply lookup_method_hit|].
  intros w r ms' count' w' H.
  destruct (lookup_method_found host _ _ _ _ _ _ _ _ H)
    as (Hm & [(Hy & -> & -> & ->)|(Hn & -> & ->)]).
  - split; [exact Hy|]. intros w2.
    destruct (lookup_method_hit host method' ms count Hy) as (r0 & _ & _ & E).
    rewrite E in H. injection H as <-. apply E.
  - split; [rewrite map_app; apply in_or_app; right; simpl; auto|].
    intros w2. rewrite lookup_method_again;
      rewrite (lookup_method_scan_snoc method' ms r None Hn Hm); [reflexivity|easy].
Qed.

(** X9: the list of records and its count stay a table through the
    resolution of an event.  When no handle has two records and the count
    is the length of the list, this is so again after lookup_method and
    after the scan of the compile_info chain, whenever they return, and
    the records there were are still the first of the list, in their
    order: a method is resolved at most once per event. *)
Theorem method_table_is_kept :
  forall (host : Host) (ms : list MethodData) (count : Z) (w : World),
    table_kept ms count ->
    (forall method' found ms' count' w',
       lookup_method host method' ms count w = Ok (found, ms', count') w' ->
       table_kept ms' count' /\ exists extra, ms' = ms ++ extra) /\
    (forall compile_info inline_records ms' count' w',
       scan_compile_info host compile_info ms count w =
         Ok (inl (inline_records, ms', count')) w' ->
       table_kept ms' count' /\ exists extra, ms' = ms ++ extra).
Proof.
  intros host ms count w Hk. split.
  - intros method' found ms' count' w' H.
    pose proof (lookup_method_kept host method' ms count w Hk) as Hs.
    rewrite H in Hs. exact Hs.
  - intros compile_info inline_records ms' count' w' H.
    pose proof (scan_compile_info_kept host compile_info ms count w Hk) as Hs.
    rewrite H in Hs. exact Hs.
Qed.

Lemma method_table_is_kept_witness :
  (forall method' found ms' count' w',
     lookup_method (sample_host true) method' sample_resolved 1 sample_open =
       Ok (found, ms', count') w' ->
     table_kept ms' count' /\ exists extra, ms' = sample_resolved ++ extra) /\
  (forall compile_info inline_records ms' count' w',
     scan_compile_info (sample_host true) compile_info sample_resolved 1
       sample_open = Ok (inl (inline_records, ms', count')) w' ->
     table_kept ms' count' /\ exists extra, ms' = sample_resolved ++ extra).
Proof.
  apply (method_table_is_kept (sample_host true) sample_resolved 1 sample_open).
  split; [|reflexivity]. simpl. constructor; [simpl; tauto|constructor].
Defined.

(** ** What every handler leaves behind *)

Lemma flushed_same w w' :
  output_file w' = output_file w -> flushed w -> flushed w'.
Proof. unfold flushed. now intros ->. Qed.

Section Handlers.

Variable host : Host.
Hypothesis Hflush : flush_ok host.

Lemma write_method_load_event_flushed timestamp code_size code_addr count ms
    inline_records w written w' :
  write_method_load_event host timestamp code_size code_addr count ms
    inline_records w = Ok written w' ->
  flushed w'.
Proof.
  intros H. unfold write_method_load_event in H.
  apply bind_Ok in H. destruct H as ([] & w1 & Hl & H).
  rewrite lock_output_file_eq in Hl.
  destruct (file_lock w); [discriminate|]. injection Hl as <-.
  apply bind_Ok in H. destruct H as (f & w2 & Hg & H).
  unfold get in Hg. injection Hg as <- <-.
  apply bind_Ok in H. destruct H as (ms1 & w3 & Hb & H).
  apply bind_Ok in H. destruct H as ([] & w4 & Hu & H).
  injection H as _ <-.
  rewrite unlock_output_file_eq in Hu.
  destruct (file_lock w3); [|discriminate]. injection Hu as <-.
  apply (flushed_same w3); [reflexivity|].
  cbn [output_file count_acquired set_file_lock] in Hb.
  destruct (output_file w) as [f|] eqn:Ef.
  - repeat (apply bind_Ok in Hb; destruct Hb as (? & ? & ? & Hb)).
    injection Hb as _ <-.
    match goal with
    | Hf : fflush host _ = Ok ?u _ |- _ => destruct u; now apply (fflush_flushed host _ _ Hflush) in Hf
    end.
  - injection Hb as _ <-. unfold flushed. simpl. now rewrite Ef.
Qed.

Lemma compiledMethodLoad_flushed method' code_size code_addr compile_info w w' :
  flushed w ->
  compiledMethodLoad host method' code_size code_addr compile_info w = Ok tt w' ->
  flushed w'.
Proof.
  intros Hfl H. unfold compiledMethodLoad in H.
  apply bind_Ok in H. destruct H as (timestamp & w1 & Ht & H).
  rewrite get_timestamp_eq in Ht.
  destruct (clock_gettime host (now w)); [|discriminate]. injection Ht as _ <-.
  apply bind_Ok in H. destruct H as ([[found ms] count] & w2 & Hlook & H).
  apply bind_Ok in H. destruct H as (methods & w3 & Hbody & H).
  rewrite release_methods_eq in H. injection H as <-.
  apply (flushed_same w3);
    [apply (release_all_fields (blocks_of methods) w3)|].
  assert (F2 : flushed w2).
  { pose proof (lookup_method_sat host method' [] 0 (advance w)) as Hs.
    rewrite Hlook in Hs. simpl in Hs.
    destruct found as [r|].
    - destruct Hs as ([[PF _ _ _ _ _ _ _ _] _] & _).
      apply (flushed_same (advance w)); [exact PF|exact Hfl].
    - destruct Hs as ([AF _ _ _ _ _ _ _ _] & _).
      apply (flushed_same (advance w)); [exact AF|exact Hfl]. }
  destruct found as [r|]; [|now injection Hbody as _ <-].
  apply bind_Ok in Hbody. destruct Hbody as (res & w4 & Hscan & Hbody).
  assert (F4 : flushed w4).
  { pose proof (scan_compile_info_sat host compile_info ms count w2) as Hs.
    rewrite Hscan in Hs. simpl in Hs.
    destruct res as [[[inline_records ms'] count']|ms'].
    - destruct Hs as (([[PF _ _ _ _ _ _ _ _] _] & _) & _).
      apply (flushed_same w2); [exact PF|exact F2].
    - destruct Hs as [AF _ _ _ _ _ _ _ _].
      apply (flushed_same w2); [exact AF|exact F2]. }
  destruct res as [[[inline_records ms'] count']|ms'];
    [|now injection Hbody as _ <-].
  apply bind_Ok in Hbody. destruct Hbody as (written & w5 & Hw & Hbody).
  injection Hbody as _ <-.
  eapply write_method_load_event_flushed; eassumption.
Qed.

End Handlers.

Lemma handlers_flushed_aux :
  forall (host : Host) (w : World),
    flush_ok host ->
    flushed w ->
    (forall method' code_addr w',
       compiledMethodUnload host method' code_addr w = Ok tt w' -> flushed w') /\
    (forall name code_addr code_size w',
       dynamicCodeGenerated host name code_addr code_size w = Ok tt w' ->
       flushed w') /\
    (forall method' code_size code_addr compile_info w',
       compiledMethodLoad host method' code_size code_addr compile_info w =
         Ok tt w' ->
       flushed w').
Proof.
  intros host w Hflush Hfl. split; [|split].
  - intros method' code_addr w' H.
    eapply (locked_writer_flushed host
              (fun timestamp =>
                 write_jint host CompiledMethodUnloadTag ;;
                 write_timestamp host timestamp ;;
                 write_unsigned_jlong host code_addr ;;
                 fflush host)); [|exact H].
    intros ? ? ?. now apply unload_body_flushed.
  - intros name code_addr code_size w' H.
    eapply (locked_writer_flushed host
              (fun timestamp =>
                 write_jint host DynamicCodeTag ;;
                 write_timestamp host timestamp ;;
                 write_string host name (Some "dynamic code name"%string) ;;
                 write_unsigned_jlong host code_addr ;;
                 write_jint host code_size ;;
                 write_or_fail host (load host code_addr code_size) code_size ;;
                 fflush host)); [|exact H].
    intros ? ? ?. now apply dynamic_body_flushed.
  - intros method' code_size code_addr compile_info w' H.
    eapply compiledMethodLoad_flushed; eassumption.
Qed.

(** X10: every path of a handler that writes ends in a flush.  On a
    runtime whose every flush is complete, when all that was written to
    the output file had reached the file before a handler is entered, it
    has again when compiledMethodUnload, dynamicCodeGenerated or
    compiledMethodLoad returns, whether the handler wrote a record, found
    no output file or abandoned the event.  The handlers do not look at
    what fflush returns, so of a runtime whose flush can fail nothing of
    the kind is known. *)
Theorem handlers_leave_the_file_flushed :
  forall (host : Host) (w : World),
    flush_ok host ->
    flushed w ->
    (forall method' code_addr w',
       compiledMethodUnload host method' code_addr w = Ok tt w' -> flushed w') /\
    (forall name code_addr code_size w',
       dynamicCodeGenerated host name code_addr code_size w = Ok tt w' ->
       flushed w') /\
    (forall method' code_size code_addr compile_info w',
       compiledMethodLoad host method' code_size code_addr compile_info w =
         Ok tt w' ->
       flushed w').
Proof. exact handlers_flushed_aux. Qed.

Lemma handlers_leave_the_file_flushed_witness :
  (forall method' code_addr w',
     compiledMethodUnload (sample_host true) method' code_addr sample_open =
       Ok tt w' -> flushed w') /\
  (forall name code_addr code_size w',
     dynamicCodeGenerated (sample_host true) name code_addr code_size sample_open =
       Ok tt w' -> flushed w') /\
  (forall method' code_size code_addr compile_info w',
     compiledMethodLoad (sample_host true) method' code_size code_addr
       compile_info sample_open = Ok tt w' -> flushed w').
Proof.
  apply (handlers_leave_the_file_flushed (sample_host true) sample_open).
  - intros t. reflexivity.
  - reflexivity.
Defined.

(** X11: a handler that returns has given back exactly the storage it
    took.  compiledMethodUnload and dynamicCodeGenerated take none and
    give none back; when compiledMethodLoad returns, whether it wrote the
    record or abandoned the event, the blocks given back since it was
    entered are the blocks handed out since, each of them once: no record
    or string of the method table outlives the event, and none is given
    back twice. *)
Theorem handlers_give_back_their_storage :
  forall (host : Host) (w : World),
    file_lock w = false ->
    (forall method' code_addr w',
       compiledMethodUnload host method' code_addr w = Ok tt w' ->
       released w' = released w /\ next_block w' = next_block w) /\
    (forall name code_addr code_size w',
       dynamicCodeGenerated host name code_addr code_size w = Ok tt w' ->
       released w' = released w /\ next_block w' = next_block w) /\
    (forall method' code_size code_addr compile_info w',
       compiledMethodLoad host method' code_size code_addr compile_info w =
         Ok tt w' ->
       exists given_back,
         released w' = released w ++ given_back /\
         Permutation given_back (blocks_between w w') /\
         NoDup given_back).
Proof.
  intros host w Hlock. split; [|split].
  - intros method' code_addr w' H.
    pose proof (compiledMethodUnload_outcomes host method' code_addr w Hlock) as Ho.
    rewrite H in Ho. tauto.
  - intros name code_addr code_size w' H.
    pose proof (dynamicCodeGenerated_outcomes host name code_addr code_size w
                  Hlock) as Ho.
    rewrite H in Ho. tauto.
  - intros method' code_size code_addr compile_info w' H.
    pose proof (compiledMethodLoad_sat host method' code_size code_addr
                  compile_info w Hlock) as Hs.
    rewrite H in Hs. simpl in Hs.
    destruct Hs as (_ & _ & _ & qs & gb & _ & _ & HR & HP & _).
    exists gb. split; [exact HR|]. split; [exact HP|].
    eapply Permutation_NoDup; [symmetry; exact HP|]. apply seq_NoDup.
Qed.

Lemma handlers_give_back_their_storage_witness :
  (forall method' code_addr w',
     compiledMethodUnload (sample_host true) method' code_addr sample_open =
       Ok tt w' ->
     released w' = released sample_open /\
     next_block w' = next_block sample_open) /\
  (forall name code_addr code_size w',
     dynamicCodeGenerated (sample_host true) name code_addr code_size sample_open =
       Ok tt w' ->
     released w' = released sample_open /\
     next_block w' = next_block sample_open) /\
  (forall method' code_size code_addr compile_info w',
     compiledMethodLoad (sample_host true) method' code_size code_addr
       compile_info sample_open = Ok tt w' ->
     exists given_back,
       released w' = released sample_open ++ given_back /\
       Permutation given_back (blocks_between sample_open w') /\
       NoDup given_back).
Proof.
  apply (handlers_give_back_their_storage (sample_host true) sample_open).
  reflexivity.
Defined.

(** ** A session from attach to detach *)

Section Session.

Variable host : Host.
Hypothesis Hio : io_ok host.
Hypothesis Hflush : flush_ok host.
Hypothesis Hclock : forall t, clock_gettime host t <> None.

Lemma dynamicCodeGenerated_appends name code_addr code_size w f ts :
  strlen name <= INT_MAX -> 0 < code_size ->
  output_file w = Some f -> file_lock w = false ->
  clock_gettime host (now w) = Some ts ->
  exists w',
    dynamicCodeGenerated host (Some name) code_addr code_size w = Ok tt w' /\
    output_file w' =
      Some (mkFILE (f_name f)
              (f_data f ++ dync_bytes ts name code_addr code_size
                             (load host code_addr code_size))
              (List.length
                 (f_data f ++ dync_bytes ts name code_addr code_size
                                (load host code_addr code_size)))).
Proof.
  intros Hname Hsize Ef Hlock Hc.
  assert (Hf : output_file w <> None) by congruence.
  destruct (dynamicCodeGenerated_runs host Hio name code_addr code_size w ts
              Hname Hsize Hf Hlock Hc)
    as ([] & w' & Hrun & _ & _ & g & g' & G1 & G2 & G3 & G4).
  exists w'. split; [exact Hrun|].
  assert (Hfl : flushed w').
  { eapply (locked_writer_flushed host
              (fun timestamp =>
                 write_jint host DynamicCodeTag ;;
                 write_timestamp host timestamp ;;
                 write_string host (Some name) (Some "dynamic code name"%string) ;;
                 write_unsigned_jlong host code_addr ;;
                 write_jint host code_size ;;
                 write_or_fail host (load host code_addr code_size) code_size ;;
                 fflush host)); [|exact Hrun].
    intros ? ? ?. now apply dynamic_body_flushed. }
  rewrite Ef in G1. injection G1 as <-.
  rewrite G2. f_equal. rewrite (flushed_file w' g' Hfl G2). simpl.
  now rewrite G3, G4.
Qed.

Lemma deliver_runs e w f :
  plain e -> output_file w = Some f -> file_lock w = false ->
  exists w' bs,
    deliver host e w = Ok tt w' /\ record_of host e bs /\
    output_file w' =
      Some (mkFILE (f_name f) (f_data f ++ bs) (List.length (f_data f ++ bs))) /\
    file_lock w' = false /\ stderr w' = stderr w /\
    closed_files w' = closed_files w.
Proof.
  intros Hok Ef Hlock.
  destruct (clock_gettime host (now w)) as [ts|] eqn:Hc; [|now apply Hclock in Hc].
  destruct e as [method' code_size code_addr compile_info|method' code_addr
                 |name code_addr code_size]; simpl in *; [easy| |].
  - destruct (compiledMethodUnload_runs host method' code_addr w f ts Hio Hflush Ef Hlock Hc)
      as (w' & Hrun & F & _ & L & E & _).
    pose proof (compiledMethodUnload_outcomes host method' code_addr w Hlock) as Ho.
    rewrite Hrun in Ho.
    exists w', (cmut_bytes ts code_addr). split; [exact Hrun|].
    split; [exists (now w), ts; simpl; auto|]. tauto.
  - destruct Hok as [(name' & -> & Hname) Hsize]. rename name' into name.
    destruct (dynamicCodeGenerated_appends name code_addr code_size w f ts
                Hname Hsize Ef Hlock Hc) as (w' & Hrun & F).
    pose proof (dynamicCodeGenerated_outcomes host (Some name) code_addr code_size
                  w Hlock) as Ho.
    rewrite Hrun in Ho.
    exists w', (dync_bytes ts name code_addr code_size (load host code_addr code_size)).
    split; [exact Hrun|]. split; [exists (now w), ts; simpl; eauto|]. tauto.
Qed.

Lemma deliver_all_runs es : forall w f,
  Forall plain es -> output_file w = Some f -> flushed w ->
  file_lock w = false ->
  exists w' chunks,
    deliver_all host es w = Ok tt w' /\ Forall2 (record_of host) es chunks /\
    output_file w' =
      Some (mkFILE (f_name f) (f_data f ++ List.concat chunks)
              (List.length (f_data f ++ List.concat chunks))) /\
    file_lock w' = false /\ stderr w' = stderr w /\
    closed_files w' = closed_files w.
Proof.
  induction es as [|e es IH]; intros w f Hok Ef Hfl Hlock.
  - exists w, []. simpl. rewrite app_nil_r. repeat split; auto.
    rewrite Ef. f_equal. exact (flushed_file w f Hfl Ef).
  - inversion Hok as [|? ? He Hes]; subst.
    destruct (deliver_runs e w f He Ef Hlock)
      as (w1 & bs & Hrun & Hrec & F1 & L1 & E1 & C1).
    destruct (IH w1 _ Hes F1) as (w' & chunks & Hrest & Hrecs & F & L & E & C);
      [unfold flushed; rewrite F1; reflexivity|exact L1|].
    exists w', (bs :: chunks). cbn [deliver_all]. unfold bind. rewrite Hrun.
    split; [exact Hrest|]. split; [constructor; assumption|].
    simpl in F. cbn [List.concat]. rewrite app_assoc.
    split; [exact F|]. split; [exact L|]. split; congruence.
Qed.

End Session.

Lemma Agent_OnUnload_runs host w f :
  output_file w = Some f -> file_lock w = false ->
  exists w',
    Agent_OnUnload host w = Ok tt w' /\
    output_file w' = None /\ file_lock w' = false /\
    closed_files w' = closed_files w ++ [f] /\ stderr w' = stderr w.
Proof.
  intros Hf Hlock. unfold Agent_OnUnload.
  unfold bind at 1. rewrite lock_output_file_eq, Hlock.
  unfold bind at 1, fclose. simpl output_file. rewrite Hf.
  unfold bind at 1, modify. unfold bind, ret.
  rewrite unlock_output_file_eq. simpl.
  eexists. split; [reflexivity|]. auto.
Qed.

Lemma session_runs :
  forall (host : Host) (options : string) (es : list event) (w : World),
    io_ok host -> attach_ok host -> flush_ok host ->
    options <> "-h"%string -> options <> "--help"%string ->
    file_lock w = false ->
    Forall plain es ->
    exists w' name t1 t2 nanos ts chunks,
      session host (Some options) es w = Ok tt w' /\
      GetTime host t1 = (JVMTI_ERROR_NONE, nanos) /\
      clock_gettime host t2 = Some ts /\
      Forall2 (record_of host) es chunks /\
      output_file w' = None /\ file_lock w' = false /\
      stderr w' = stderr w /\
      closed_files w' =
        closed_files w ++
        [mkFILE name (header_bytes (arch host) ts nanos ++ List.concat chunks)
           (List.length
              (header_bytes (arch host) ts nanos ++ List.concat chunks))].
Proof.
  intros host options es w Hio Hok Hflush Hh Hhelp Hlock Hes.
  destruct (Agent_OnLoad_runs host options w Hio Hok Hflush Hh Hhelp Hlock)
    as (w1 & name & t1 & t2 & nanos & ts & Hload & Ht & Hc & F1 & L1 & E1 & _ & _ & C1 & _).
  destruct (deliver_all_runs host Hio Hflush (ok_clock host Hok) es w1 _ Hes F1)
    as (w2 & chunks & Hev & Hrecs & F2 & L2 & E2 & C2);
    [unfold flushed; rewrite F1; reflexivity|exact L1|].
  destruct (Agent_OnUnload_runs host w2 _ F2 L2) as (w3 & Hun & F3 & L3 & C3 & E3).
  exists w3, name, t1, t2, nanos, ts, chunks.
  unfold session, bind. rewrite Hload, Hev.
  split; [exact Hun|]. split; [exact Ht|]. split; [exact Hc|].
  split; [exact Hrecs|]. split; [exact F3|]. split; [exact L3|].
  split; [congruence|]. rewrite C3. simpl. congruence.
Qed.

(** X12: a whole session.  On a runtime that grants what Agent_OnLoad
    asks for, with a file that can be opened, clocks that can be read,
    writes that succeed and flushes that are complete, loading the agent,
    delivering any sequence of compiled method unload events and dynamic
    code events (with names that fit a jint and positive code sizes) one
    after the other, and unloading the agent returns without a
    diagnostic.  The file that was closed holds the header followed by
    one record per event, in the order of the events and with nothing
    between them; all of it has reached the file, which rests on the
    assumption on the flushes, since the agent never looks at what fflush
    returns.  After Agent_OnUnload there is no output file and the lock
    is free. *)
Theorem session_writes_header_and_records :
  forall (host : Host) (options : string) (es : list event) (w : World),
    io_ok host -> attach_ok host -> flush_ok host ->
    options <> "-h"%string -> options <> "--help"%string ->
    file_lock w = false ->
    Forall plain es ->
    exists w' name t1 t2 nanos ts chunks,
      session host (Some options) es w = Ok tt w' /\
      GetTime host t1 = (JVMTI_ERROR_NONE, nanos) /\
      clock_gettime host t2 = Some ts /\
      Forall2 (record_of host) es chunks /\
      output_file w' = None /\ file_lock w' = false /\
      stderr w' = stderr w /\
      closed_files w' =
        closed_files w ++
        [mkFILE name (header_bytes (arch host) ts nanos ++ List.concat chunks)
           (List.length
              (header_bytes (arch host) ts nanos ++ List.concat chunks))].
Proof. exact session_runs. Qed.

Lemma session_writes_header_and_records_witness :
  exists w' name t1 t2 nanos ts chunks,
    session (sample_host true) (Some "trace.bin"%string)
      [DynamicCodeGenerated (Some (bytes_of_string "stub")) 4096 16;
       CompiledMethodUnload 7 4096]
      sample_closed = Ok tt w' /\
    GetTime (sample_host true) t1 = (JVMTI_ERROR_NONE, nanos) /\
    clock_gettime (sample_host true) t2 = Some ts /\
    Forall2 (record_of (sample_host true))
      [DynamicCodeGenerated (Some (bytes_of_string "stub")) 4096 16;
       CompiledMethodUnload 7 4096] chunks /\
    output_file w' = None /\ file_lock w' = false /\
    stderr w' = stderr sample_closed /\
    closed_files w' =
      closed_files sample_closed ++
      [mkFILE name
         (header_bytes (arch (sample_host true)) ts nanos ++ List.concat chunks)
         (List.length
            (header_bytes (arch (sample_host true)) ts nanos ++ List.concat chunks))].
Proof.
  apply (session_writes_header_and_records (sample_host true) "trace.bin"
           [DynamicCodeGenerated (Some (bytes_of_string "stub")) 4096 16;
       CompiledMethodUnload 7 4096]
           sample_closed).
  - intros t. reflexivity.
  - constructor; intros; try reflexivity.
    + discriminate.
    + vm_compute. discriminate.
  - intros t. reflexivity.
  - discriminate.
  - discriminate.
  - reflexivity.
  - repeat constructor. simpl. eexists. split; [reflexivity|].
    vm_compute. discriminate.
Defined.

(** ** The output file only grows *)

Lemma kept_file_refl w : kept_file w w.
Proof.
  unfold kept_file. destruct (output_file w); [|exact I].
  split; [reflexivity|]. exists []. now rewrite app_nil_r.
Qed.

Lemma kept_file_same w w' : output_file w' = output_file w -> kept_file w w'.
Proof.
  intros E. unfold kept_file. rewrite E. destruct (output_file w); [|exact I].
  split; [reflexivity|]. exists []. now rewrite app_nil_r.
Qed.

Lemma kept_file_trans w1 w2 w3 :
  kept_file w1 w2 -> kept_file w2 w3 -> kept_file w1 w3.
Proof.
  unfold kept_file.
  destruct (output_file w1) as [f1|], (output_file w2) as [f2|],
    (output_file w3) as [f3|]; try easy.
  intros [N1 (b1 & D1)] [N2 (b2 & D2)]. split; [congruence|].
  exists (b1 ++ b2). now rewrite D2, D1, app_assoc.
Qed.

Lemma wrote_kept bs w w' : wrote bs w w' -> kept_file w w'.
Proof.
  intros [(f & f' & F1 & F2 & F3 & F4) _ _ _ _ _ _ _ _].
  unfold kept_file. rewrite F1, F2. eauto.
Qed.

Lemma appends_ret {A : Type} (a : A) : appends (ret a).
Proof. intros w. apply kept_file_refl. Qed.

Lemma appends_bind {A B : Type} (m : M A) (k : A -> M B) :
  appends m -> (forall a, appends (k a)) -> appends (bind m k).
Proof.
  intros Hm Hk w. specialize (Hm w). unfold bind, outcome_sat in *.
  destruct (m w) as [a w1|]; [|exact I].
  specialize (Hk a w1). unfold outcome_sat in Hk.
  destruct (k a w1) as [b w2|]; [|exact I].
  eapply kept_file_trans; eassumption.
Qed.

Lemma appends_sat {A : Type} (m : M A) (bs : World -> A -> list byte) :
  (forall w, outcome_sat (m w) (fun a w' => wrote (bs w a) w w') (quiet w)) ->
  appends m.
Proof.
  intros H w. eapply sat_weaken; [apply H| |auto].
  intros a w' Hw. eapply wrote_kept; exact Hw.
Qed.

Section Growth.

Variable host : Host.

Lemma appends_write_jint value : appends (write_jint host value).
Proof.
  apply (appends_sat _ (fun _ _ => be_bytes 4 value)), write_jint_sat.
Qed.

Lemma appends_write_unsigned_jlong value :
  appends (write_unsigned_jlong host value).
Proof.
  apply (appends_sat _ (fun _ _ => be_bytes 8 value)), write_unsigned_jlong_sat.
Qed.

Lemma appends_write_timestamp ts : appends (write_timestamp host ts).
Proof.
  apply (appends_sat _ (fun _ _ => be_bytes 8 (tv_sec ts) ++ be_bytes 8 (tv_nsec ts))),
    write_timestamp_sat.
Qed.

Lemma appends_write_or_fail data bytes : appends (write_or_fail host data bytes).
Proof. apply (appends_sat _ (fun _ _ => data)), write_or_fail_sat. Qed.

Lemma appends_write_string str message : appends (write_string host str message).
Proof.
  intros w. eapply sat_weaken; [apply write_string_sat| |auto].
  intros a w' (s & _ & _ & Hw). eapply wrote_kept; exact Hw.
Qed.

Lemma appends_fflush : appends (fflush host).
Proof.
  intros w. rewrite fflush_eq. simpl. unfold kept_file.
  destruct (output_file w) as [f|] eqn:E; simpl; [|now rewrite E].
  destruct (fflush_ok host (now w)); simpl; rewrite ?E;
    (split; [reflexivity|]); exists []; now rewrite app_nil_r.
Qed.

Lemma locked_writer_kept (body : timespec -> M unit) w w' :
  (forall timestamp, appends (body timestamp)) ->
  (timestamp <- get_timestamp host ;;
   lock_output_file host ;;
   f <- get output_file ;;
   match f with
   | Some _ => body timestamp
   | None => ret tt
   end ;;
   unlock_output_file host) w = Ok tt w' ->
  kept_file w w'.
Proof.
  intros Hbody H.
  apply bind_Ok in H. destruct H as (timestamp & w1 & Ht & H).
  rewrite get_timestamp_eq in Ht.
  destruct (clock_gettime host (now w)); [|discriminate]. injection Ht as -> <-.
  apply bind_Ok in H. destruct H as ([] & w2 & Hl & H).
  rewrite lock_output_file_eq in Hl.
  destruct (file_lock (advance w)); [discriminate|]. injection Hl as <-.
  apply bind_Ok in H. destruct H as (f & w3 & Hget & H).
  unfold get in Hget. injection Hget as <- <-.
  apply bind_Ok in H. destruct H as ([] & w4 & Hb & H).
  rewrite unlock_output_file_eq in H.
  destruct (file_lock w4); [|discriminate]. injection H as <-.
  apply (kept_file_trans _ w4); [|now apply kept_file_same].
  apply (kept_file_trans _ (count_acquired (set_file_lock true (advance w))));
    [now apply kept_file_same|].
  destruct (output_file _).
  - pose proof (Hbody timestamp (count_acquired (set_file_lock true (advance w))))
      as Hs.
    rewrite Hb in Hs. exact Hs.
  - injection Hb as <-. apply kept_file_refl.
Qed.

Lemma compiledMethodUnload_kept method' code_addr w w' :
  compiledMethodUnload host method' code_addr w = Ok tt w' -> kept_file w w'.
Proof.
  apply (locked_writer_kept
           (fun timestamp =>
              write_jint host CompiledMethodUnloadTag ;;
              write_timestamp host timestamp ;;
              write_unsigned_jlong host code_addr ;;
              fflush host)).
  intros timestamp.
  apply appends_bind; [apply appends_write_jint|intros _].
  apply appends_bind; [apply appends_write_timestamp|intros _].
  apply appends_bind; [apply appends_write_unsigned_jlong|intros _].
  apply appends_fflush.
Qed.

Lemma dynamicCodeGenerated_kept name code_addr code_size w w' :
  dynamicCodeGenerated host name code_addr code_size w = Ok tt w' ->
  kept_file w w'.
Proof.
  apply (locked_writer_kept
           (fun timestamp =>
              write_jint host DynamicCodeTag ;;
              write_timestamp host timestamp ;;
              write_string host name (Some "dynamic code name"%string) ;;
              write_unsigned_jlong host code_addr ;;
              write_jint host code_size ;;
              write_or_fail host (load host code_addr code_size) code_size ;;
              fflush host)).
  intros timestamp.
  apply appends_bind; [apply appends_write_jint|intros _].
  apply appends_bind; [apply appends_write_timestamp|intros _].
  apply appends_bind; [apply appends_write_string|intros _].
  apply appends_bind; [apply appends_write_unsigned_jlong|intros _].
  apply appends_bind; [apply appends_write_jint|intros _].
  apply appends_bind; [apply appends_write_or_fail|intros _].
  apply appends_fflush.
Qed.

Lemma deliver_kept e w w' :
  file_lock w = false -> deliver host e w = Ok tt w' ->
  kept_file w w' /\ file_lock w' = false /\
  closed_files w' = closed_files w /\ stderr w' = stderr w /\
  (flush_ok host -> flushed w -> flushed w').
Proof.
  intros Hlock H.
  destruct e as [method' code_size code_addr compile_info|method' code_addr
                 |name code_addr code_size]; simpl in H.
  - pose proof (compiledMethodLoad_sat host method' code_size code_addr
                  compile_info w Hlock) as Hs.
    rewrite H in Hs. simpl in Hs.
    destruct Hs as (L & C & E & qs & gb & _ & _ & _ & _ & Hd).
    split; [|split; [exact L|split; [exact C|split; [exact E|]]]].
    + destruct Hd as [(_ & F & _)|(_ & _ & ts & ms & _ & _ & _ & F)].
      * now apply kept_file_same.
      * unfold kept_file. destruct (output_file w) as [f|].
        -- destruct F as (f' & n & gs & F1 & F2 & _ & F3). rewrite F1. eauto.
        -- now rewrite F.
    + intros Hflush Hfl. eapply compiledMethodLoad_flushed; eassumption.
  - pose proof (compiledMethodUnload_outcomes host method' code_addr w Hlock) as Ho.
    rewrite H in Ho. destruct Ho as (L & _ & E & _ & _ & _ & _ & C).
    split; [eapply compiledMethodUnload_kept; exact H|].
    split; [exact L|]. split; [exact C|]. split; [exact E|].
    intros Hflush Hfl.
    exact (proj1 (handlers_flushed_aux host w Hflush Hfl) method' code_addr w' H).
  - pose proof (dynamicCodeGenerated_outcomes host name code_addr code_size w
                  Hlock) as Ho.
    rewrite H in Ho. destruct Ho as (L & _ & E & _ & _ & _ & _ & C).
    split; [eapply dynamicCodeGenerated_kept; exact H|].
    split; [exact L|]. split; [exact C|]. split; [exact E|].
    intros Hflush Hfl.
    exact (proj1 (proj2 (handlers_flushed_aux host w Hflush Hfl))
             name code_addr code_size w' H).
Qed.

Lemma deliver_all_kept es : forall w w',
  file_lock w = false -> deliver_all host es w = Ok tt w' ->
  kept_file w w' /\ file_lock w' = false /\
  closed_files w' = closed_files w /\ stderr w' = stderr w /\
  (flush_ok host -> flushed w -> flushed w').
Proof.
  induction es as [|e es IH]; intros w w' Hlock H.
  - injection H as <-. split; [apply kept_file_refl|]. auto.
  - cbn [deliver_all] in H. apply bind_Ok in H. destruct H as ([] & w1 & He & H).
    destruct (deliver_kept e w w1 Hlock He) as (K1 & L1 & C1 & E1 & F1).
    destruct (IH w1 w' L1 H) as (K2 & L2 & C2 & E2 & F2).
    split; [eapply kept_file_trans; eassumption|].
    split; [exact L2|]. split; [congruence|]. split; [congruence|auto].
Qed.

End Growth.

(** X13: the handlers only add to the output file.  When an event is
    delivered with the lock free and its handler returns, whatever the
    event and whatever the runtime answered, the output file has the name
    it had and what it held is the beginning of what it holds; there is an
    output file afterwards exactly when there was one before.  The lock is
    free again, no stream was closed, and nothing was printed. *)
Theorem handlers_only_append :
  forall (host : Host) (e : event) (w w' : World),
    file_lock w = false ->
    deliver host e w = Ok tt w' ->
    match output_file w with
    | Some f =>
        exists f' bs,
          output_file w' = Some f' /\ f_name f' = f_name f /\
          f_data f' = f_data f ++ bs
    | None => output_file w' = None
    end /\
    file_lock w' = false /\ closed_files w' = closed_files w /\
    stderr w' = stderr w.
Proof.
  intros host e w w' Hlock H.
  destruct (deliver_kept host e w w' Hlock H) as (K & L & C & E & _).
  split; [|auto]. unfold kept_file in K.
  destruct (output_file w) as [f|], (output_file w') as [f'|]; try easy.
  destruct K as [N (bs & D)]. eauto.
Qed.

Lemma handlers_only_append_witness :
  exists f' bs,
    output_file
      (world_of (deliver (sample_host true)
                   (CompiledMethodLoad 1 16 4096 (sample_chain 2)) sample_open))
      = Some f' /\
    f_name f' = f_name sample_file /\ f_data f' = f_data sample_file ++ bs.
Proof.
  apply (handlers_only_append (sample_host true)
           (CompiledMethodLoad 1 16 4096 (sample_chain 2)) sample_open
           (world_of (deliver (sample_host true)
                        (CompiledMethodLoad 1 16 4096 (sample_chain 2))
                        sample_open))).
  - reflexivity.
  - vm_compute. reflexivity.
Defined.

Lemma session_kept :
  forall (host : Host) (options : option string) (es : list event)
         (w w' : World),
    file_lock w = false ->
    session host options es w = Ok tt w' ->
    exists t1 t2 nanos ts rest f,
      GetTime host t1 = (JVMTI_ERROR_NONE, nanos) /\
      clock_gettime host t2 = Some ts /\
      closed_files w' = closed_files w ++ [f] /\
      holds host f (header_bytes (arch host) ts nanos ++ rest) /\
      output_file w' = None /\ file_lock w' = false /\
      stderr w' = stderr w.
Proof.
  intros host options es w w' Hlock H. unfold session in H.
  apply bind_Ok in H. destruct H as (r & w1 & Hload & H).
  apply bind_Ok in H. destruct H as ([] & w2 & Hev & H).
  pose proof (Agent_OnLoad_outcomes host options w Hlock) as Ho.
  cbv zeta in Ho. rewrite Hload in Ho.
  destruct Ho as (_ & _ & L1 & E1 & _ & C1 & t1 & t2 & nanos & ts & f1 & Ht & Hc & F1 & D1 & Fl1).
  destruct (deliver_all_kept host es w1 w2 L1 Hev) as (K & L2 & C2 & E2 & Fl).
  unfold kept_file in K. rewrite F1 in K.
  destruct (output_file w2) as [f2|] eqn:F2; [|easy].
  destruct K as [N (rest & D)].
  destruct (Agent_OnUnload_runs host w2 f2 F2 L2) as (w3 & Hun & F3 & L3 & C3 & E3).
  rewrite Hun in H. injection H as <-.
  exists t1, t2, nanos, ts, rest, f2.
  split; [exact Ht|]. split; [exact Hc|].
  split; [congruence|].
  split; [|split; [exact F3|split; [exact L3|congruence]]].
  split; [now rewrite D, D1|].
  intros Hflush.
  assert (Hfl : flushed w2).
  { apply Fl; [exact Hflush|]. unfold flushed. rewrite F1, D1. now apply Fl1. }
  unfold flushed in Hfl. rewrite F2 in Hfl. now rewrite Hfl, D, D1.
Qed.

(** X14: every session that comes to its end.  Whatever the runtime
    answers and whatever events it delivers between Agent_OnLoad and
    Agent_OnUnload, compiled method load events with their debug
    information among them, when all of them return the one stream that
    was closed is the stream Agent_OnLoad opened: it begins with the
    header Agent_OnLoad wrote, and Agent_OnUnload found a stream to
    close.  Afterwards there is no output file, the lock is free, and no
    diagnostic was printed.  That all of the stream had reached the file
    before it was closed is known only of a runtime whose every flush is
    complete: the agent never looks at what fflush returns. *)
Theorem session_closes_the_file_it_opened :
  forall (host : Host) (options : option string) (es : list event)
         (w w' : World),
    file_lock w = false ->
    session host options es w = Ok tt w' ->
    exists t1 t2 nanos ts rest f,
      GetTime host t1 = (JVMTI_ERROR_NONE, nanos) /\
      clock_gettime host t2 = Some ts /\
      closed_files w' = closed_files w ++ [f] /\
      holds host f (header_bytes (arch host) ts nanos ++ rest) /\
      output_file w' = None /\ file_lock w' = false /\
      stderr w' = stderr w.
Proof. exact session_kept. Qed.

Lemma session_closes_the_file_it_opened_witness :
  let es := [CompiledMethodLoad 1 16 4096 (sample_chain 2);
             DynamicCodeGenerated (Some (bytes_of_string "stub")) 4096 16;
             CompiledMethodLoad 99 16 4096 [];
             CompiledMethodUnload 1 4096] in
  let w' := world_of (session (sample_host true) (Some "trace-%p.bin"%string) es
                        sample_closed) in
  exists t1 t2 nanos ts rest f,
    GetTime (sample_host true) t1 = (JVMTI_ERROR_NONE, nanos) /\
    clock_gettime (sample_host true) t2 = Some ts /\
    closed_files w' = closed_files sample_closed ++ [f] /\
    holds (sample_host true) f
      (header_bytes (arch (sample_host true)) ts nanos ++ rest) /\
    output_file w' = None /\ file_lock w' = false /\
    stderr w' = stderr sample_closed.
Proof.
  intros es w'.
  apply (session_closes_the_file_it_opened (sample_host true)
           (Some "trace-%p.bin"%string) es sample_closed w').
  - reflexivity.
  - vm_compute. reflexivity.
Defined.

(** ** A compiled method load event on a runtime that knows its methods *)

Lemma for_from_runs {S R : Type} (body : Z -> S -> M (S + R))
    (Inv : Z -> S -> World -> Prop) :
  forall n i0,
    (forall k s w, (k < n)%nat -> Inv (i0 + Z.of_nat k) s w ->
       runs (body (i0 + Z.of_nat k) s) w
         (fun r w' => exists s', r = inl s' /\
                                 Inv (i0 + Z.of_nat (Datatypes.S k)) s' w')) ->
    forall s w, Inv i0 s w ->
      runs (for_from n i0 body s) w
        (fun r w' => exists s', r = inl s' /\ Inv (i0 + Z.of_nat n) s' w').
Proof.
  induction n as [|n IH]; intros i0 Hbody s w Hinv.
  - exists (inl s), w. split; [reflexivity|]. exists s.
    now rewrite Z.add_0_r.
  - cbn [for_from]. eapply runs_bind.
    + replace i0 with (i0 + Z.of_nat 0) at 1 by (simpl; lia).
      apply Hbody; [lia|]. now replace (i0 + Z.of_nat 0) with i0 by (simpl; lia).
    + intros r w1 (s' & -> & H1).
      replace (i0 + Z.of_nat (Datatypes.S n)) with (i0 + 1 + Z.of_nat n) by lia.
      apply IH.
      * intros k s0 w0 Hk Hi.
        replace (i0 + 1 + Z.of_nat k) with (i0 + Z.of_nat (Datatypes.S k)) in * by lia.
        replace (i0 + 1 + Z.of_nat (Datatypes.S k))
          with (i0 + Z.of_nat (Datatypes.S (Datatypes.S k))) by lia.
        apply Hbody; [lia|assumption].
      * now replace (i0 + 1) with (i0 + Z.of_nat 1) by (simpl; lia).
Qed.

Lemma loop_from_runs {S : Type} (body : Z -> S -> M S)
    (Inv : Z -> S -> World -> Prop) :
  forall n i0,
    (forall k s w, (k < n)%nat -> Inv (i0 + Z.of_nat k) s w ->
       runs (body (i0 + Z.of_nat k) s) w
         (fun s' w' => Inv (i0 + Z.of_nat (Datatypes.S k)) s' w')) ->
    forall s w, Inv i0 s w ->
      runs (loop_from n i0 body s) w
        (fun s' w' => Inv (i0 + Z.of_nat n) s' w').
Proof.
  induction n as [|n IH]; intros i0 Hbody s w Hinv.
  - exists s, w. split; [reflexivity|]. now rewrite Z.add_0_r.
  - cbn [loop_from]. eapply runs_bind.
    + replace i0 with (i0 + Z.of_nat 0) at 1 by (simpl; lia).
      apply Hbody; [lia|]. now replace (i0 + Z.of_nat 0) with i0 by (simpl; lia).
    + intros s' w1 H1. cbv beta in H1.
      replace (i0 + Z.of_nat (Datatypes.S n)) with (i0 + 1 + Z.of_nat n) by lia.
      apply IH.
      * intros k s0 w0 Hk Hi.
        replace (i0 + 1 + Z.of_nat k) with (i0 + Z.of_nat (Datatypes.S k)) in * by lia.
        replace (i0 + 1 + Z.of_nat (Datatypes.S k))
          with (i0 + Z.of_nat (Datatypes.S (Datatypes.S k))) by lia.
        apply Hbody; [lia|assumption].
      * now replace (i0 + 1) with (i0 + Z.of_nat 1) by (simpl; lia).
Qed.

Lemma index_runs {A : Type} (array : list A) (i : Z) (w : World) :
  0 <= i -> (Z.to_nat i < List.length array)%nat ->
  runs (index array i) w
    (fun a w' => w' = w /\ nth_error array (Z.to_nat i) = Some a).
Proof.
  intros Hi Hl. unfold index.
  destruct (nth_error array (Z.to_nat i)) as [a|] eqn:E.
  - apply Z.leb_le in Hi. rewrite Hi. exists a, w. auto.
  - apply nth_error_None in E. lia.
Qed.

Section Resolve.

Variable host : Host.

Lemma check_tolerated message result current w :
  tolerated result = true ->
  check_method_error host message result current w = Ok false w.
Proof.
  intros H. rewrite check_method_error_eq. destruct result; try reflexivity;
    discriminate.
Qed.

Lemma jvmti_GetMethodName_runs method' w :
  fst (GetMethodName host (now w) method') = JVMTI_ERROR_NONE ->
  runs (jvmti_GetMethodName host method') w
    (fun '(result, name, signature) _ =>
       result = JVMTI_ERROR_NONE /\
       pointee name = Some (fst (snd (GetMethodName host (now w) method'))) /\
       pointee signature = Some (snd (snd (GetMethodName host (now w) method')))).
Proof.
  intros H. unfold jvmti_GetMethodName, runs, bind at 1, tick.
  destruct (GetMethodName host (now w) method') as [r [n s]]. simpl in H. subst r.
  eexists _, _. split; [reflexivity|]. simpl. auto.
Qed.

Lemma jvmti_GetMethodDeclaringClass_runs method' w :
  runs (jvmti_GetMethodDeclaringClass host method') w
    (fun '(result, class) _ =>
       result = fst (GetMethodDeclaringClass host (now w) method') /\
       class = snd (GetMethodDeclaringClass host (now w) method')).
Proof.
  unfold jvmti_GetMethodDeclaringClass, runs, bind at 1, tick.
  destruct (GetMethodDeclaringClass host (now w) method') as [r c].
  eexists _, _. split; [reflexivity|]. simpl. auto.
Qed.

Lemma jvmti_GetClassSignature_runs class w :
  fst (GetClassSignature host (now w) class) = JVMTI_ERROR_NONE ->
  runs (jvmti_GetClassSignature host class) w
    (fun '(result, signature) _ =>
       result = JVMTI_ERROR_NONE /\
       pointee signature = Some (snd (GetClassSignature host (now w) class))).
Proof.
  intros H. unfold jvmti_GetClassSignature, runs, bind at 1, tick.
  destruct (GetClassSignature host (now w) class) as [r s]. simpl in H. subst r.
  eexists _, _. split; [reflexivity|]. simpl. auto.
Qed.

Lemma jvmti_GetSourceFileName_runs class w :
  runs (jvmti_GetSourceFileName host class) w
    (fun '(result, name) _ =>
       result = fst (GetSourceFileName host (now w) class) /\
       forall s, pointee name = Some s ->
                 s = snd (GetSourceFileName host (now w) class)).
Proof.
  unfold jvmti_GetSourceFileName, runs, bind at 1, tick.
  destruct (GetSourceFileName host (now w) class) as [r s].
  destruct r; (eexists _, _; split; [reflexivity|]); simpl;
    (split; [reflexivity|]); intros s0 E; congruence.
Qed.

Lemma jvmti_GetLineNumberTable_runs method' w :
  runs (jvmti_GetLineNumberTable host method') w
    (fun '(result, count, table) _ =>
       result = fst (GetLineNumberTable host (now w) method') /\
       0 <= count <= Z.of_nat (List.length match table with
                                          | Some t => value t
                                          | None => []
                                          end)).
Proof.
  unfold jvmti_GetLineNumberTable, runs, bind at 1, tick.
  destruct (GetLineNumberTable host (now w) method') as [r t].
  destruct r; (eexists _, _; split; [reflexivity|]); simpl;
    (split; [reflexivity|]); lia.
Qed.

Lemma writable_set_id v m : writable m -> writable (set_id v m).
Proof. exact (fun H => H). Qed.

Lemma lookup_method_runs method' ms count w :
  known host method' -> Forall writable ms ->
  runs (lookup_method host method' ms count) w
    (fun '(found, ms', _) _ => found <> None /\ Forall writable ms').
Proof.
  intros Hk Hms. unfold lookup_method.
  destruct (lookup_method_scan method' ms None) as [[r|] last] eqn:Escan.
  { eexists _, _. split; [reflexivity|]. simpl. split; [discriminate|exact Hms]. }
  destruct (lookup_method_scan_miss _ _ _ _ Escan) as [_ Hlast].
  eapply runs_bind with (P := fun _ _ => True);
    [eexists _, _; split; [reflexivity|exact I]|].
  intros b w0 _.
  (* GetMethodName *)
  destruct (Hk (now w0)) as (K1 & K2 & K3 & _).
  eapply runs_bind; [apply jvmti_GetMethodName_runs; exact K1|].
  intros [[r1 name] sig] w1 (-> & Hn & Hs). cbv beta iota.
  eapply runs_bind with (P := fun stop _ => stop = false);
    [eexists _, _; split; [apply check_tolerated; reflexivity|reflexivity]|].
  intros ? w1' ->.
  (* GetMethodDeclaringClass *)
  destruct (Hk (now w1')) as (_ & _ & _ & K4 & _ & K6).
  eapply runs_bind; [apply jvmti_GetMethodDeclaringClass_runs|].
  intros [r2 class] w2 (-> & ->). cbv beta iota.
  eapply runs_bind with (P := fun stop _ => stop = false);
    [eexists _, _; split; [apply check_tolerated; now rewrite K4|reflexivity]|].
  intros ? w2' ->.
  (* GetClassSignature *)
  destruct (K6 (now w2')) as (C1 & C2 & _).
  eapply runs_bind; [apply jvmti_GetClassSignature_runs; exact C1|].
  intros [r3 csig] w3 (-> & Hc). cbv beta iota.
  eapply runs_bind with (P := fun stop _ => stop = false);
    [eexists _, _; split; [apply check_tolerated; reflexivity|reflexivity]|].
  intros ? w3' ->.
  (* GetSourceFileName *)
  destruct (K6 (now w3')) as (_ & _ & S1 & S2).
  eapply runs_bind; [apply jvmti_GetSourceFileName_runs|].
  intros [r4 src] w4 (-> & Hsrc). cbv beta iota.
  eapply runs_bind with (P := fun stop _ => stop = false);
    [eexists _, _; split; [apply check_tolerated; exact S1|reflexivity]|].
  intros ? w4' ->.
  (* GetLineNumberTable *)
  destruct (Hk (now w4')) as (_ & _ & _ & _ & K5 & _).
  eapply runs_bind; [apply jvmti_GetLineNumberTable_runs|].
  intros [[r5 cnt] table] w5 (-> & Hcnt). cbv beta iota.
  eapply runs_bind with (P := fun stop _ => stop = false);
    [eexists _, _; split; [apply check_tolerated; exact K5|reflexivity]|].
  intros ? w5' ->.
  set (current := set_line_number_table cnt table _).
  assert (Hw : writable current).
  { unfold writable, current. simpl.
    split; [eexists; split; [exact Hc|exact C2]|].
    split; [eexists; split; [exact Hn|exact K2]|].
    split; [eexists; split; [exact Hs|exact K3]|].
    split; [intros s E; rewrite (Hsrc s E); exact S2|].
    exact Hcnt. }
  destruct ms as [|m0 ms0].
  - eexists _, _. split; [reflexivity|]. simpl.
    split; [discriminate|]. constructor; [exact Hw|constructor].
  - destruct last as [last|].
    2:{ exfalso. destruct (rev (m0 :: ms0)) eqn:Er; [|discriminate].
        apply (f_equal (@List.length _)) in Er. rewrite length_rev in Er.
        discriminate. }
    eexists _, _. split; [reflexivity|]. simpl.
    split; [discriminate|]. constructor; [exact (proj1 (proj1 (Forall_cons_iff _ _ _) Hms))|].
    apply Forall_app. split; [exact (proj2 (proj1 (Forall_cons_iff _ _ _) Hms))|].
    constructor; [apply writable_set_id; exact Hw|constructor].
Qed.

End Resolve.

Section Collecting.

Variable host : Host.

Lemma collect_frame_runs info j st w :
  frames_ok host info ->
  0 <= j -> (Z.to_nat j < Z.to_nat (numstackframes info))%nat ->
  Forall writable (fst st) ->
  runs (collect_frame host info j st) w
    (fun r _ => exists st', r = inl st' /\ Forall writable (fst st')).
Proof.
  intros (Hm & _ & Hk) Hj Hlt Hms. destruct st as [ms count].
  unfold collect_frame.
  eapply runs_bind; [apply index_runs; [exact Hj|lia]|].
  intros handle w1 (-> & Hn). cbv beta.
  assert (Hknown : known host handle).
  { rewrite Forall_forall in Hk. apply Hk. eapply nth_error_In; exact Hn. }
  eapply runs_bind; [apply lookup_method_runs; [exact Hknown|exact Hms]|].
  intros [[found ms'] count'] w2 (Hf & Hw). cbv beta iota.
  destruct found as [r|]; [|easy].
  eexists _, _. split; [reflexivity|]. eexists. split; [reflexivity|exact Hw].
Qed.

Lemma collect_pc_runs inline_records i st w :
  debug_ok host inline_records ->
  0 <= i -> (Z.to_nat i < Z.to_nat (numpcs inline_records))%nat ->
  Forall writable (fst st) ->
  runs (collect_pc host inline_records i st) w
    (fun r _ => exists st', r = inl st' /\ Forall writable (fst st')).
Proof.
  intros (Hn & Hinfos) Hi Hlt Hms. unfold collect_pc.
  eapply runs_bind; [apply index_runs; [exact Hi|lia]|].
  intros info w1 (-> & Hinfo). cbv beta.
  assert (Hok : frames_ok host info).
  { rewrite Forall_forall in Hinfos. apply Hinfos. eapply nth_error_In; exact Hinfo. }
  unfold for_.
  eapply runs_weaken;
    [apply (for_from_runs (collect_frame host info)
              (fun _ st' _ => Forall writable (fst st'))
              (Z.to_nat (numstackframes info)) 0)|].
  - intros k s0 w0 Hk H0. rewrite Z.add_0_l.
    apply collect_frame_runs; [exact Hok|lia|rewrite Nat2Z.id; exact Hk|exact H0].
  - exact Hms.
  - intros r w' H. exact H.
Qed.

Lemma collect_pcs_runs inline_records st w :
  debug_ok host inline_records ->
  Forall writable (fst st) ->
  runs (for_ (numpcs inline_records) (collect_pc host inline_records) st) w
    (fun r _ => exists st', r = inl st' /\ Forall writable (fst st')).
Proof.
  intros Hok Hms. unfold for_.
  eapply runs_weaken;
    [apply (for_from_runs (collect_pc host inline_records)
              (fun _ st' _ => Forall writable (fst st'))
              (Z.to_nat (numpcs inline_records)) 0)|].
  - intros k s0 w0 Hk H0. rewrite Z.add_0_l.
    apply collect_pc_runs; [exact Hok|lia|rewrite Nat2Z.id; exact Hk|exact H0].
  - exact Hms.
  - intros r w' H. exact H.
Qed.

Lemma scan_compile_info_runs header : forall ms count w,
  chain_ok host header -> Forall writable ms ->
  runs (scan_compile_info host header ms count) w
    (fun r _ =>
       exists inline_records ms' count',
         r = inl (inline_records, ms', count') /\ Forall writable ms' /\
         forall rec, inline_records = Some rec -> debug_ok host rec).
Proof.
  induction header as [|h next IH]; intros ms count w Hok Hms.
  - eexists _, _. split; [reflexivity|]. exists None, ms, count.
    split; [reflexivity|]. split; [exact Hms|discriminate].
  - cbn [scan_compile_info]. unfold chain_ok, first_inline in Hok.
    cbn [find] in Hok.
    destruct (is_inline_info (kind h)) eqn:Ek; [|now apply IH].
    specialize (Hok _ eq_refl).
    eapply runs_bind; [apply (collect_pcs_runs _ (ms, count)); assumption|].
    intros r w1 ([ms' count'] & -> & Hw). simpl in *.
    eexists _, _. split; [reflexivity|].
    exists (Some (as_inline_record h)), ms', count'.
    split; [reflexivity|]. split; [exact Hw|].
    intros rec E. now injection E as <-.
Qed.

End Collecting.

Section Writing.

Variable host : Host.
Hypothesis Hio : io_ok host.

Lemma write_methods_runs ms : forall w,
  Forall writable ms -> output_file w <> None ->
  runs (write_methods host ms) w
    (fun _ w' => wrote (flat_map method_bytes ms) w w').
Proof.
  induction ms as [|m ms IH]; intros w Hms Hf.
  - exists tt, w. split; [reflexivity|]. now apply wrote_nil.
  - inversion Hms as [|? ? (H1 & H2 & H3 & H4 & H5) Hrest]; subst.
    cbn [write_methods flat_map].
    eapply runs_bind; [apply (write_method_runs host Hio); assumption|].
    intros ? w1 Hw1. cbv beta in Hw1.
    eapply runs_weaken; [apply IH; [exact Hrest|eapply wrote_open; eassumption]|].
    intros ? w2 Hw2. exact (wrote_trans _ _ _ _ _ Hw1 Hw2).
Qed.

Lemma wrote_steady bs w w' : wrote bs w w' -> steady w w'.
Proof.
  intros H. split; [eapply wrote_open; exact H|apply (wrote_lock _ _ _ H)].
Qed.

Lemma steady_wrote bs w0 w w' : steady w0 w -> wrote bs w w' -> steady w0 w'.
Proof.
  intros [_ L] H. split; [eapply wrote_open; exact H|].
  rewrite (wrote_lock _ _ _ H). exact L.
Qed.

Lemma write_frame_runs w0 info j ms count w :
  frames_ok host info ->
  0 <= j -> (Z.to_nat j < Z.to_nat (numstackframes info))%nat ->
  (forall handle,
     nth_error (info_methods info) (Z.to_nat j) = Some handle ->
     In handle (map method ms)) ->
  steady w0 w ->
  runs (write_frame host info j (ms, count)) w
    (fun st w' => st = (ms, count) /\ steady w0 w').
Proof.
  intros (Hm & Hb & _) Hj Hlt Hres Hs. unfold write_frame.
  eapply runs_bind; [apply index_runs; [exact Hj|lia]|].
  intros handle w1 (-> & Hn). cbv beta.
  destruct (lookup_method_hit host handle ms count (Hres _ Hn))
    as (r & _ & _ & Hhit).
  eapply runs_bind with (P := fun a w1 => a = (Some r, ms, count) /\ w1 = w);
    [eexists _, _; split; [apply Hhit|split; reflexivity]|].
  intros ? ? [-> ->]. cbv beta iota.
  eapply runs_bind; [apply write_jint_runs; [exact Hio|exact (proj1 Hs)]|].
  intros ? w2 H2. cbv beta in H2.
  eapply runs_bind; [apply index_runs; [exact Hj|lia]|].
  intros bci w3 (-> & _). cbv beta.
  eapply runs_bind;
    [apply write_jint_runs; [exact Hio|eapply wrote_open; exact H2]|].
  intros ? w4 H4. cbv beta in H4.
  eexists _, _. split; [reflexivity|]. split; [reflexivity|].
  eapply steady_wrote; [|exact H4]. eapply steady_wrote; eassumption.
Qed.

Lemma write_pc_runs w0 inline_records i ms count w :
  debug_ok host inline_records ->
  0 <= i -> (Z.to_nat i < Z.to_nat (numpcs inline_records))%nat ->
  resolved ms inline_records ->
  steady w0 w ->
  runs (write_pc host inline_records i (ms, count)) w
    (fun st w' => st = (ms, count) /\ steady w0 w').
Proof.
  intros (Hn & Hinfos) Hi Hlt Hres Hs. unfold write_pc.
  eapply runs_bind; [apply index_runs; [exact Hi|lia]|].
  intros info w1 (-> & Hinfo). cbv beta.
  assert (Hok : frames_ok host info).
  { rewrite Forall_forall in Hinfos. apply Hinfos. eapply nth_error_In; exact Hinfo. }
  eapply runs_bind; [apply write_unsigned_jlong_runs; [exact Hio|exact (proj1 Hs)]|].
  intros ? w2 H2. cbv beta in H2.
  eapply runs_bind;
    [apply write_jint_runs; [exact Hio|eapply wrote_open; exact H2]|].
  intros ? w3 H3. cbv beta in H3. unfold loop_.
  eapply runs_weaken;
    [apply (loop_from_runs (write_frame host info)
              (fun _ st w' => st = (ms, count) /\ steady w0 w')
              (Z.to_nat (numstackframes info)) 0)|].
  - intros k s0 w4 Hk [-> H4]. rewrite Z.add_0_l.
    apply write_frame_runs;
      [exact Hok|lia|rewrite Nat2Z.id; exact Hk| |exact H4].
    intros handle Hh. rewrite Nat2Z.id in Hh.
    apply (Hres i info (Z.of_nat k) handle); [lia|exact Hinfo|lia|].
    now rewrite Nat2Z.id.
  - split; [reflexivity|].
    eapply steady_wrote; [|exact H3]. eapply steady_wrote; eassumption.
  - intros st w' H. exact H.
Qed.

Lemma write_pcs_runs w0 inline_records ms count w :
  debug_ok host inline_records ->
  resolved ms inline_records ->
  steady w0 w ->
  runs (loop_ (numpcs inline_records) (write_pc host inline_records) (ms, count)) w
    (fun st w' => st = (ms, count) /\ steady w0 w').
Proof.
  intros Hok Hres Hs. unfold loop_.
  eapply runs_weaken;
    [apply (loop_from_runs (write_pc host inline_records)
              (fun _ st w' => st = (ms, count) /\ steady w0 w')
              (Z.to_nat (numpcs inline_records)) 0)|].
  - intros k s0 w4 Hk [-> H4]. rewrite Z.add_0_l.
    apply write_pc_runs; [exact Hok|lia|rewrite Nat2Z.id; exact Hk|exact Hres|exact H4].
  - split; [reflexivity|exact Hs].
  - intros st w' H. exact H.
Qed.

Lemma write_method_load_event_runs timestamp code_size code_addr count ms
    inline_records w :
  0 < code_size ->
  Forall writable ms ->
  (forall rec, inline_records = Some rec ->
               debug_ok host rec /\ resolved ms rec) ->
  output_file w <> None -> file_lock w = false ->
  runs (write_method_load_event host timestamp code_size code_addr count ms
          inline_records) w
    (fun _ _ => True).
Proof.
  intros Hsize Hms Hrec Hf Hlock. unfold write_method_load_event.
  eapply runs_bind with
    (P := fun _ w1 => w1 = count_acquired (set_file_lock true w));
    [eexists _, _; split; [rewrite lock_output_file_eq, Hlock; reflexivity
                          |reflexivity]|].
  intros ? w1 ->.
  set (w1 := count_acquired (set_file_lock true w)).
  assert (Hs1 : steady w1 w1) by (split; [exact Hf|reflexivity]).
  eapply runs_bind with (P := fun f w2 => f = output_file w /\ w2 = w1);
    [eexists _, _; split; [reflexivity|split; reflexivity]|].
  intros ? ? [-> ->].
  destruct (output_file w) as [f|] eqn:Ef; [|easy].
  eapply runs_bind with (P := fun _ w' => steady w1 w').
  - eapply runs_bind; [apply write_jint_runs; [exact Hio|exact (proj1 Hs1)]|].
    intros ? w2 H2. cbv beta in H2.
    eapply runs_bind;
      [apply write_timestamp_runs; [exact Hio|eapply wrote_open; exact H2]|].
    intros ? w3 H3. cbv beta in H3.
    eapply runs_bind;
      [apply write_unsigned_jlong_runs; [exact Hio|eapply wrote_open; exact H3]|].
    intros ? w4 H4. cbv beta in H4.
    eapply runs_bind;
      [apply write_jint_runs; [exact Hio|eapply wrote_open; exact H4]|].
    intros ? w5 H5. cbv beta in H5.
    eapply runs_bind;
      [apply write_or_fail_runs; [exact Hio|exact Hsize|eapply wrote_open; exact H5]|].
    intros ? w6 H6. cbv beta in H6.
    eapply runs_bind;
      [apply write_jint_runs; [exact Hio|eapply wrote_open; exact H6]|].
    intros ? w7 H7. cbv beta in H7.
    eapply runs_bind;
      [apply write_jint_runs; [exact Hio|eapply wrote_open; exact H7]|].
    intros ? w8 H8. cbv beta in H8.
    eapply runs_bind;
      [apply write_methods_runs; [exact Hms|eapply wrote_open; exact H8]|].
    intros ? w9 H9. cbv beta in H9.
    eapply runs_bind;
      [apply write_jint_runs; [exact Hio|eapply wrote_open; exact H9]|].
    intros ? w10 H10. cbv beta in H10.
    pose proof (wrote_trans _ _ _ _ _ H2 (wrote_trans _ _ _ _ _ H3
      (wrote_trans _ _ _ _ _ H4 (wrote_trans _ _ _ _ _ H5
        (wrote_trans _ _ _ _ _ H6 (wrote_trans _ _ _ _ _ H7
          (wrote_trans _ _ _ _ _ H8 (wrote_trans _ _ _ _ _ H9 H10)))))))) as Hw.
    apply wrote_steady in Hw.
    eapply runs_bind with (P := fun _ w' => steady w1 w').
    + destruct inline_records as [rec|].
      * destruct (Hrec rec eq_refl) as [Hok Hres].
        eapply runs_bind;
          [apply write_jint_runs; [exact Hio|exact (proj1 Hw)]|].
        intros ? w11 H11. cbv beta in H11.
        eapply runs_bind;
          [apply (write_pcs_runs w1); [exact Hok|exact Hres|]|].
        { eapply steady_wrote; eassumption. }
        intros st w12 [-> H12].
        eexists _, _. split; [reflexivity|exact H12].
      * eapply runs_bind;
          [apply write_jint_runs; [exact Hio|exact (proj1 Hw)]|].
        intros ? w11 H11. cbv beta in H11.
        eexists _, _. split; [reflexivity|].
        eapply steady_wrote; eassumption.
    + intros ms' w11 H11.
      eapply runs_bind; [apply fflush_runs; exact (proj1 H11)|].
      intros ? w12 H12. cbv beta in H12.
      eexists _, _. split; [reflexivity|]. eapply steady_wrote; eassumption.
  - intros ms' w2 [_ L2].
    eapply runs_bind with (P := fun _ _ => True);
      [eexists _, _; split; [rewrite unlock_output_file_eq, L2; reflexivity|exact I]|].
    intros ? w3 _. eexists _, _. split; [reflexivity|exact I].
Qed.

End Writing.

Section Total.

Variable host : Host.
Hypothesis Hio : io_ok host.

Lemma compiledMethodLoad_runs method' code_size code_addr compile_info w ts :
  clock_gettime host (now w) = Some ts ->
  known host method' -> chain_ok host compile_info -> 0 < code_size ->
  output_file w <> None -> file_lock w = false ->
  runs (compiledMethodLoad host method' code_size code_addr compile_info) w
    (fun _ w' => acquired w' = S (acquired w)).
Proof.
  intros Hclock Hknown Hchain Hsize Hf Hlock. unfold compiledMethodLoad.
  eapply runs_bind with (P := fun t w1 => t = ts /\ w1 = advance w);
    [eexists _, _; split; [rewrite get_timestamp_eq, Hclock; reflexivity
                          |split; reflexivity]|].
  intros ? ? [-> ->].
  eapply runs_bind;
    [eapply runs_sat;
     [apply lookup_method_runs; [exact Hknown|constructor]
     |apply lookup_method_sat]|].
  intros [[found ms] count] w1 [[Hfound Hw] Hs]. cbv beta iota in *.
  destruct found as [r|]; [|easy].
  destruct Hs as ([[PF PL PA _ _ _ _ _ _] _] & _). simpl in PF, PL, PA.
  eapply runs_bind with (P := fun _ w' => acquired w' = S (acquired w)).
  2:{ intros methods w2 H2. cbv beta in H2.
      eexists _, _. split; [apply release_methods_eq|].
      destruct (release_all_fields (blocks_of methods) w2) as (_ & _ & A & _).
      congruence. }
  eapply runs_bind;
    [eapply runs_sat;
     [apply scan_compile_info_runs; [exact Hchain|exact Hw]
     |apply scan_compile_info_sat]|].
  intros res w2 [(inline_records & ms' & count' & -> & Hw' & Hdbg) Hs2].
  cbv beta iota in Hs2.
  destruct Hs2 as [([[QF QL QA _ _ _ _ _ _] _] & _) Hres].
  eapply runs_bind;
    [eapply runs_sat;
     [apply write_method_load_event_runs;
      [exact Hio|exact Hsize|exact Hw'| |congruence|congruence]
     |apply write_method_load_event_sat; [exact Hres|congruence]]|].
  { intros rec E. split; [exact (Hdbg rec E)|exact (Hres rec E)]. }
  intros written w3 [_ (-> & _ & WA & _)].
  eexists _, _. split; [reflexivity|]. congruence.
Qed.

End Total.

Lemma sample_host_knows (m : jmethodID) :
  m <> 99 -> known (sample_host true) m.
Proof.
  intros Hm t. apply Z.eqb_neq in Hm. simpl. rewrite Hm. simpl.
  repeat split; try reflexivity; try (vm_compute; discriminate).
Defined.

(** ** The answers of the runtime decide the outcome of a lookup *)

Section Steps.

Variable host : Host.

Lemma jvmti_GetMethodName_step method' w :
  exists name signature w',
    jvmti_GetMethodName host method' w =
      Ok (fst (GetMethodName host (now w) method'), name, signature) w' /\
    pointee name =
      granted (fst (GetMethodName host (now w) method'))
        (fst (snd (GetMethodName host (now w) method'))) /\
    pointee signature =
      granted (fst (GetMethodName host (now w) method'))
        (snd (snd (GetMethodName host (now w) method'))) /\
    query_step w w' (QGetMethodName method')
      (fst (GetMethodName host (now w) method')).
Proof.
  unfold jvmti_GetMethodName, bind, tick, query_step.
  destruct (GetMethodName host (now w) method') as [result [name signature]].
  destruct result; simpl; eexists _, _, _; (split; [reflexivity|]);
    simpl; auto 10.
Qed.

Lemma jvmti_GetMethodDeclaringClass_step method' w :
  exists w',
    jvmti_GetMethodDeclaringClass host method' w =
      Ok (GetMethodDeclaringClass host (now w) method') w' /\
    query_step w w' (QGetMethodDeclaringClass method')
      (fst (GetMethodDeclaringClass host (now w) method')).
Proof.
  unfold jvmti_GetMethodDeclaringClass, bind, tick, query_step.
  destruct (GetMethodDeclaringClass host (now w) method') as [result class].
  simpl. eexists. split; [reflexivity|]. simpl. auto 10.
Qed.

Lemma jvmti_GetClassSignature_step class w :
  exists signature w',
    jvmti_GetClassSignature host class w =
      Ok (fst (GetClassSignature host (now w) class), signature) w' /\
    pointee signature =
      granted (fst (GetClassSignature host (now w) class))
        (snd (GetClassSignature host (now w) class)) /\
    query_step w w' (QGetClassSignature class)
      (fst (GetClassSignature host (now w) class)).
Proof.
  unfold jvmti_GetClassSignature, bind, tick, query_step.
  destruct (GetClassSignature host (now w) class) as [result signature].
  destruct result; simpl; eexists _, _; (split; [reflexivity|]);
    simpl; auto 10.
Qed.

Lemma jvmti_GetSourceFileName_step class w :
  exists name w',
    jvmti_GetSourceFileName host class w =
      Ok (fst (GetSourceFileName host (now w) class), name) w' /\
    pointee name =
      granted (fst (GetSourceFileName host (now w) class))
        (snd (GetSourceFileName host (now w) class)) /\
    query_step w w' (QGetSourceFileName class)
      (fst (GetSourceFileName host (now w) class)).
Proof.
  unfold jvmti_GetSourceFileName, bind, tick, query_step.
  destruct (GetSourceFileName host (now w) class) as [result name].
  destruct result; simpl; eexists _, _; (split; [reflexivity|]);
    simpl; auto 10.
Qed.

Lemma jvmti_GetLineNumberTable_step method' w :
  exists count table w',
    jvmti_GetLineNumberTable host method' w =
      Ok (fst (GetLineNumberTable host (now w) method'), count, table) w' /\
    pointee table =
      granted (fst (GetLineNumberTable host (now w) method'))
        (snd (GetLineNumberTable host (now w) method')) /\
    count =
      match fst (GetLineNumberTable host (now w) method') with
      | JVMTI_ERROR_NONE =>
          Z.of_nat (List.length (snd (GetLineNumberTable host (now w) method')))
      | _ => 0
      end /\
    query_step w w' (QGetLineNumberTable method')
      (fst (GetLineNumberTable host (now w) method')).
Proof.
  unfold jvmti_GetLineNumberTable, bind, tick, query_step.
  destruct (GetLineNumberTable host (now w) method') as [result table].
  destruct result; simpl; eexists _, _, _; (split; [reflexivity|]);
    simpl; auto 10.
Qed.

(** The log after one more query of a lookup. *)
Lemma asked_step w0 h n w w' q result :
  asked w0 (firstn n (lookup_log host (now w0) h (file_lock w0))) w ->
  nth_error (lookup_log host (now w0) h (file_lock w0)) n =
    Some (mkQuery q result (file_lock w0)) ->
  query_step w w' q result ->
  asked w0 (firstn (S n) (lookup_log host (now w0) h (file_lock w0))) w'.
Proof.
  intros (F & L & A & E & R & Q) Hn (_ & F' & L' & A' & E' & R' & Q').
  unfold asked. repeat (split; [congruence|]).
  rewrite Q', Q, L, <- app_assoc. now rewrite (firstn_snoc _ _ _ Hn).
Qed.

Lemma tolerated_not_shutdown result :
  tolerated result = true -> result <> JVMTI_ERROR_WRONG_PHASE.
Proof. intros H E. subst. discriminate. Qed.

(** A check of [lookup_method] after its query, the [n]-th of the log. *)
Lemma check_made w0 h n w q message current ms count
    (rest : M (option MethodData * list MethodData * Z))
    (Q : option MethodData * list MethodData * Z -> World -> Prop) :
  let log := lookup_log host (now w0) h (file_lock w0) in
  asked w0 (firstn (S n) log) w ->
  nth_error log n = Some q ->
  message = query_name (q_query q) ->
  Forall (fun q => tolerated (q_result q) = true) (firstn n log) ->
  (forall ms' count' w', Q (None, ms', count') w' <->
     answered w0 None w' /\ exists k, made host h k w0 w') ->
  (tolerated (q_result q) = true -> outcome_is (rest w) Q
     (fun why w' => refused host w0 why w' /\ exists k, made host h k w0 w')) ->
  outcome_is
    ((stop <- check_method_error host message (q_result q) current ;;
      if stop : bool then ret (None, ms, count) else rest) w)
    Q
    (fun why w' => refused host w0 why w' /\ exists k, made host h k w0 w').
Proof.
  intros log (F & L & A & E & R & Qs) Hn -> Hqs HQ Hrest.
  unfold bind. rewrite check_method_error_eq.
  pose proof (firstn_snoc _ _ _ Hn) as Hsnoc. fold log in Hsnoc.
  destruct (q_result q) eqn:Hq; try (apply Hrest; reflexivity).
  - destruct (release_all_fields (method_blocks current) w)
      as (_ & _ & _ & E' & _ & _ & Q' & _).
    simpl. apply HQ. split.
    + split; [congruence|]. exists (firstn (S n) log).
      split; [congruence|]. exists (firstn n log), q. auto.
    + exists (S n). unfold made. fold log. congruence.
  - simpl. split.
    + split; [reflexivity|]. repeat (split; [assumption|]).
      exists (firstn n log), q. rewrite <- Hsnoc.
      split; [exact Qs|]. split; [exact Hqs|]. rewrite Hq.
      split; [reflexivity|]. unfold add_stderr. simpl. now rewrite E.
    + exists (S n). unfold made. exact Qs.
Qed.

Lemma query_step_now w w' q result : query_step w w' q result -> now w' = S (now w).
Proof. now intros (H & _). Qed.

Lemma lookup_method_answers method' ms count w :
  outcome_is (lookup_method host method' ms count w)
    (fun '(found, _, _) w' =>
       answered w found w' /\
       exists n, made host method' n w w' /\
         (found <> None ->
          n = if existsb (Z.eqb method') (map method ms) then 0%nat else 5%nat))
    (fun why w' => refused host w why w' /\ exists n, made host method' n w w').
Proof.
  unfold lookup_method.
  destruct (lookup_method_scan method' ms None) as [[r|] last] eqn:Escan.
  { simpl. split.
    - split; [reflexivity|]. exists []. now rewrite app_nil_r.
    - exists 0%nat. split; [unfold made; simpl; now rewrite app_nil_r|].
      intros _. destruct (lookup_method_scan_hit _ _ _ _ _ Escan) as (Hin & _).
      assert (Hx : existsb (Z.eqb method') (map method ms) = true).
      { apply existsb_exists. exists method'. split; [|apply Z.eqb_refl].
        rewrite <- (proj2 (lookup_method_scan_hit _ _ _ _ _ Escan)).
        now apply in_map. }
      now rewrite Hx. }
  destruct (lookup_method_scan_miss _ _ _ _ Escan) as [Hmiss Hlast].
  assert (Hx : existsb (Z.eqb method') (map method ms) = false).
  { destruct (existsb _ _) eqn:Ex; [|reflexivity].
    apply existsb_exists in Ex. destruct Ex as (x & Hin & Hxe).
    apply Z.eqb_eq in Hxe. subst x. contradiction. }
  rewrite Hx.
  set (log := lookup_log host (now w) method' (file_lock w)).
  set (Q := fun '((found, _, _) : option MethodData * list MethodData * Z)
                (w' : World) =>
              answered w found w' /\
              exists n, made host method' n w w' /\ (found <> None -> n = 5%nat)).
  assert (HQ : forall ms' count' w', Q (None, ms', count') w' <->
                 answered w None w' /\ exists k, made host method' k w w').
  { intros ms' count' w'. unfold Q. split.
    - intros (H1 & n & H2 & _). split; [exact H1|]. now exists n.
    - intros (H1 & n & H2). split; [exact H1|]. exists n. split; [exact H2|].
      intros H. now elim H. }
  match goal with
  | |- outcome_is ?o _ ?E => change (outcome_is o Q E)
  end.
  unfold bind at 1, calloc at 1.
  assert (H0 : asked w (firstn 0 log) (take_block w)).
  { unfold asked. simpl. now rewrite app_nil_r. }
  assert (N0 : now (take_block w) = now w) by reflexivity.
  (* GetMethodName *)
  destruct (jvmti_GetMethodName_step method' (take_block w))
    as (name & sig & w1 & E1 & _ & _ & S1).
  unfold bind at 1. rewrite E1. cbv beta iota.
  pose proof (query_step_now _ _ _ _ S1) as N1. rewrite N0 in N1.
  assert (A1 : asked w (firstn 1 log) w1).
  { eapply asked_step; [exact H0| |exact S1]. rewrite N0. reflexivity. }
  apply (check_made w method' 0 w1
           (mkQuery (QGetMethodName method')
              (fst (GetMethodName host (now (take_block w)) method'))
              (file_lock w)));
    [exact A1|rewrite N0; reflexivity|reflexivity|constructor|exact HQ|].
  cbn [q_result]. rewrite N0. intros T1.
  (* GetMethodDeclaringClass *)
  destruct (jvmti_GetMethodDeclaringClass_step method' w1) as (w2 & E2 & S2).
  unfold bind at 1. rewrite E2.
  pose proof (query_step_now _ _ _ _ S2) as N2. rewrite N1 in N2.
  destruct (GetMethodDeclaringClass host (now w1) method') as [r2 class] eqn:G2.
  cbv beta iota. cbn [fst] in S2.
  assert (G2' : GetMethodDeclaringClass host (now w + 1) method' = (r2, class)).
  { rewrite Nat.add_1_r, <- N1. exact G2. }
  assert (A2 : asked w (firstn 2 log) w2).
  { eapply asked_step; [exact A1| |].
    - unfold log, lookup_log. cbn [nth_error]. rewrite G2'. reflexivity.
    - exact S2. }
  apply (check_made w method' 1 w2
           (mkQuery (QGetMethodDeclaringClass method') r2 (file_lock w)));
    [exact A2|unfold lookup_log; cbn [nth_error]; now rewrite G2'|reflexivity
    |repeat constructor; exact T1|exact HQ|].
  cbn [q_result]. intros T2.
  (* GetClassSignature *)
  destruct (jvmti_GetClassSignature_step class w2) as (csig & w3 & E3 & _ & S3).
  unfold bind at 1. rewrite E3. cbv beta iota.
  pose proof (query_step_now _ _ _ _ S3) as N3. rewrite N2 in N3.
  assert (T3' : now w2 = (now w + 2)%nat) by (rewrite N2; lia).
  rewrite T3' in S3 |- *.
  assert (A3 : asked w (firstn 3 log) w3).
  { eapply asked_step; [exact A2| |].
    - unfold log, lookup_log. cbn [nth_error]. rewrite G2'. reflexivity.
    - exact S3. }
  apply (check_made w method' 2 w3
           (mkQuery (QGetClassSignature class)
              (fst (GetClassSignature host (now w + 2) class)) (file_lock w)));
    [exact A3|unfold lookup_log; cbn [nth_error]; now rewrite G2'|reflexivity
    |unfold lookup_log; cbn [firstn]; rewrite ?G2'; repeat constructor; assumption
    |exact HQ|].
  cbn [q_result]. intros T3.
  (* GetSourceFileName *)
  destruct (jvmti_GetSourceFileName_step class w3) as (src & w4 & E4 & _ & S4).
  unfold bind at 1. rewrite E4. cbv beta iota.
  pose proof (query_step_now _ _ _ _ S4) as N4. rewrite N3 in N4.
  assert (T4' : now w3 = (now w + 3)%nat) by (rewrite N3; lia).
  rewrite T4' in S4 |- *.
  assert (A4 : asked w (firstn 4 log) w4).
  { eapply asked_step; [exact A3| |].
    - unfold log, lookup_log. cbn [nth_error]. rewrite G2'. reflexivity.
    - exact S4. }
  apply (check_made w method' 3 w4
           (mkQuery (QGetSourceFileName class)
              (fst (GetSourceFileName host (now w + 3) class)) (file_lock w)));
    [exact A4|unfold lookup_log; cbn [nth_error]; now rewrite G2'|reflexivity
    |unfold lookup_log; cbn [firstn]; rewrite ?G2'; repeat constructor; assumption
    |exact HQ|].
  cbn [q_result]. intros T4.
  (* GetLineNumberTable *)
  destruct (jvmti_GetLineNumberTable_step method' w4)
    as (cnt & table & w5 & E5 & _ & _ & S5).
  unfold bind at 1. rewrite E5. cbv beta iota.
  assert (T5' : now w4 = (now w + 4)%nat) by (rewrite N4; lia).
  rewrite T5' in S5 |- *.
  assert (A5 : asked w (firstn 5 log) w5).
  { eapply asked_step; [exact A4| |].
    - unfold log, lookup_log. cbn [nth_error]. reflexivity.
    - exact S5. }
  apply (check_made w method' 4 w5
           (mkQuery (QGetLineNumberTable method')
              (fst (GetLineNumberTable host (now w + 4) method')) (file_lock w)));
    [exact A5|unfold lookup_log; cbn [nth_error]; reflexivity|reflexivity
    |unfold lookup_log; cbn [firstn]; rewrite ?G2'; repeat constructor; assumption
    |exact HQ|].
  cbn [q_result]. intros T5.
  assert (Hall : forall x a b, Q (Some x, a, b) w5).
  { intros x a b. unfold Q. destruct A5 as (_ & _ & _ & E & _ & Qs). split.
    - split; [exact E|]. eexists. split; [exact Qs|].
      unfold log, lookup_log. cbn [firstn]. rewrite G2'.
      repeat constructor; assumption.
    - exists 5%nat. split; [exact Qs|reflexivity]. }
  destruct ms as [|m0 ms0]; [exact (Hall _ _ _)|].
  destruct last as [last|]; [exact (Hall _ _ _)|].
  exfalso. destruct (rev (m0 :: ms0)) eqn:Er; [|discriminate].
  apply (f_equal (@List.length _)) in Er. rewrite length_rev in Er. discriminate.
Qed.

End Steps.

(** X16: the answers of the runtime decide how lookup_method ends.  The
    queries it makes are the first of the five of a lookup, asked in the
    order of the source (the name of the method, its declaring class,
    the signature and the source file of that class, the line numbers of
    the method) and entered in the log with what the runtime answered:
    none for a handle that has a record, all five when a new record is
    returned.  It returns a record only when every query it made was
    answered with success, absent information or native method; it
    returns NULL only when the last query it made met the shutdown of the
    runtime (JVMTI_ERROR_WRONG_PHASE) and those before it were tolerated;
    nothing is printed in either case.  It does not return only when a
    query was answered with another error after tolerated ones: the
    process is then ended by jvmti_report_error with one diagnostic,
    which names the query that was refused, the last of the log, and the
    error it was answered with; the lock and the output file are as they
    were and nothing was given back. *)
Theorem lookup_method_follows_the_answers :
  forall (host : Host) (method' : jmethodID) (ms : list MethodData)
         (count : Z) (w : World),
    outcome_is (lookup_method host method' ms count w)
      (fun '(found, _, _) w' =>
         answered w found w' /\
         exists n, made host method' n w w' /\
           (found <> None ->
            n = if existsb (Z.eqb method') (map method ms) then 0%nat else 5%nat))
      (fun why w' => refused host w why w' /\ exists n, made host method' n w w').
Proof. exact lookup_method_answers. Qed.

(** ** The clock comes first *)

(** X17: each handler reads the wall clock before it does anything else.
    When clock_gettime fails as a handler is entered, the process is
    ended by report_error with the diagnostic on the timestamp, and
    nothing else has happened: the lock was not taken, no query was made,
    no storage was taken and the output file was not touched. *)
Theorem handlers_read_the_clock_first :
  forall (host : Host) (w : World),
    clock_gettime host (now w) = None ->
    let w' :=
      add_stderr ("Error: Error while writing timestamp: clock_gettime "
                  ++ strerror host)%string (advance w) in
    (forall method' code_addr,
       compiledMethodUnload host method' code_addr w = Stop Abort w') /\
    (forall name code_addr code_size,
       dynamicCodeGenerated host name code_addr code_size w = Stop Abort w') /\
    (forall method' code_size code_addr compile_info,
       compiledMethodLoad host method' code_size code_addr compile_info w =
         Stop Abort w').
Proof.
  intros host w Hc w'. split; [|split]; intros.
  - unfold compiledMethodUnload, bind at 1. now rewrite get_timestamp_eq, Hc.
  - unfold dynamicCodeGenerated, bind at 1. now rewrite get_timestamp_eq, Hc.
  - unfold compiledMethodLoad, bind at 1. now rewrite get_timestamp_eq, Hc.
Qed.

Lemma handlers_read_the_clock_first_witness :
  let w' :=
    add_stderr ("Error: Error while writing timestamp: clock_gettime "
                ++ strerror clockless_host)%string (advance sample_open) in
  (forall method' code_addr,
     compiledMethodUnload clockless_host method' code_addr sample_open =
       Stop Abort w') /\
  (forall name code_addr code_size,
     dynamicCodeGenerated clockless_host name code_addr code_size sample_open =
       Stop Abort w') /\
  (forall method' code_size code_addr compile_info,
     compiledMethodLoad clockless_host method' code_size code_addr compile_info
       sample_open = Stop Abort w').
Proof.
  exact (handlers_read_the_clock_first clockless_host sample_open eq_refl).
Defined.

(** ** Detaching the agent *)

(** X18: Agent_OnUnload entered with the lock free closes the output file
    when there is one: the stream is closed as it is, output_file is set
    to NULL, the lock is given back and nothing is printed.  Unlike the
    handlers it does not test output_file: when there is none it passes
    NULL to fclose, which the C standard leaves undefined, with the lock
    held. *)
Theorem agent_onunload_outcomes :
  forall (host : Host) (w : World),
    file_lock w = false ->
    match Agent_OnUnload host w with
    | Ok _ w' =>
        exists f,
          output_file w = Some f /\
          closed_files w' = closed_files w ++ [f] /\
          output_file w' = None /\ file_lock w' = false /\
          stderr w' = stderr w
    | Stop why w' =>
        why = Undefined /\ output_file w = None /\
        file_lock w' = true /\ closed_files w' = closed_files w
    end.
Proof.
  intros host w Hlock. unfold Agent_OnUnload.
  unfold bind at 1. rewrite lock_output_file_eq, Hlock.
  unfold bind at 1, fclose. simpl output_file.
  destruct (output_file w) as [f|] eqn:Ef.
  - unfold bind at 1, modify. unfold bind, ret.
    rewrite unlock_output_file_eq. simpl. exists f. auto.
  - simpl. auto.
Qed.

Lemma agent_onunload_outcomes_witness :
  match Agent_OnUnload (sample_host true) sample_open with
  | Ok _ w' =>
      exists f,
        output_file sample_open = Some f /\
        closed_files w' = closed_files sample_open ++ [f] /\
        output_file w' = None /\ file_lock w' = false /\
        stderr w' = stderr sample_open
  | Stop why w' =>
      why = Undefined /\ output_file sample_open = None /\
      file_lock w' = true /\ closed_files w' = closed_files sample_open
  end.
Proof.
  exact (agent_onunload_outcomes (sample_host true) sample_open eq_refl).
Defined.

(** ** The content of a CMLT record *)

Lemma existsb_handle h hs : existsb (Z.eqb h) hs = true <-> In h hs.
Proof.
  rewrite existsb_exists. split.
  - intros (x & Hin & E). apply Z.eqb_eq in E. now subst.
  - intros Hin. exists h. split; [exact Hin|apply Z.eqb_refl].
Qed.

Lemma remember_known h hs : In h hs -> remember hs h = hs.
Proof.
  intros H. unfold remember. apply existsb_handle in H. now rewrite H.
Qed.

Lemma remember_new h hs : ~ In h hs -> remember hs h = hs ++ [h].
Proof.
  intros H. unfold remember.
  destruct (existsb (Z.eqb h) hs) eqn:E; [|reflexivity].
  apply existsb_handle in E. contradiction.
Qed.

Lemma position_nonneg h hs : 0 <= position h hs.
Proof.
  induction hs as [|x hs IH]; cbn [position]; [lia|]. destruct (x =? h); lia.
Qed.

Lemma lookup_method_scan_position method' ms : forall last r l,
  lookup_method_scan method' ms last = (Some r, l) ->
  nth_error ms (Z.to_nat (position method' (map method ms))) = Some r.
Proof.
  induction ms as [|c ms IH]; intros last r l H; simpl in H; [discriminate|].
  cbn [map position]. destruct (method c =? method') eqn:E.
  - injection H as <- _. reflexivity.
  - pose proof (position_nonneg method' (map method ms)).
    replace (Z.to_nat (1 + position method' (map method ms)))
      with (S (Z.to_nat (position method' (map method ms)))) by lia.
    simpl. eapply IH. exact H.
Qed.

Lemma combine_firstn_snoc {A B : Type} (l : list A) (l' : list B) :
  forall k a b,
    nth_error l k = Some a -> nth_error l' k = Some b ->
    combine (firstn (S k) l) (firstn (S k) l') =
    combine (firstn k l) (firstn k l') ++ [(a, b)].
Proof.
  revert l'. induction l as [|x l IH]; intros l' k a b Ha Hb.
  - destruct k; discriminate.
  - destruct l' as [|y l']; [destruct k; discriminate|].
    destruct k as [|k]; simpl in *.
    + injection Ha as ->. injection Hb as ->. reflexivity.
    + f_equal. now apply IH.
Qed.

Section Content.

Variable host : Host.

Lemma lookup_method_hit_position method' ms count :
  ids_in_order ms -> In method' (map method ms) ->
  exists r,
    id r = position method' (map method ms) /\
    forall w, lookup_method host method' ms count w = Ok (Some r, ms, count) w.
Proof.
  intros Hids Hin.
  destruct (lookup_method_scan_found method' ms None Hin) as (r & l & E).
  exists r. split.
  - rewrite (Hids _ _ (lookup_method_scan_position _ _ _ _ _ E)).
    pose proof (position_nonneg method' (map method ms)). lia.
  - intros w. unfold lookup_method. now rewrite E.
Qed.

Lemma write_frame_exact info j ms count w :
  ids_in_order ms ->
  (forall handle,
     nth_error (info_methods info) (Z.to_nat j) = Some handle ->
     In handle (map method ms)) ->
  outcome_sat (write_frame host info j (ms, count) w)
    (fun st w' =>
       st = (ms, count) /\
       exists handle bci,
         nth_error (info_methods info) (Z.to_nat j) = Some handle /\
         nth_error (info_bcis info) (Z.to_nat j) = Some bci /\
         wrote (frame_bytes (mkFrame (position handle (map method ms)) bci))
           w w')
    (quiet w).
Proof.
  intros Hids Hres. unfold write_frame.
  eapply sat_bind; [apply index_sat| |].
  2:{ intros w1 ->. apply quiet_refl. }
  intros handle w1 (-> & Hj & Hn). cbv beta.
  destruct (lookup_method_hit_position handle ms count Hids (Hres _ Hn))
    as (r & Hid & Hhit).
  unfold bind at 1. rewrite Hhit.
  eapply sat_bind; [apply write_jint_sat| |auto].
  intros a w1 Hacc. cbv beta in Hacc.
  eapply sat_bind; [apply index_sat| |].
  2:{ intros w2 ->. eapply wrote_quiet; eassumption. }
  intros bci w2 (-> & _ & Hb). cbv beta.
  eapply sat_bind; [apply write_jint_sat| |].
  - intros a1 w2 H. cbv beta in H. simpl. split; [reflexivity|].
    exists handle, bci. split; [exact Hn|]. split; [exact Hb|].
    unfold frame_bytes. simpl. rewrite <- Hid.
    exact (wrote_trans _ _ _ _ _ Hacc H).
  - intros w2 H. exact (quiet_trans _ _ _ (wrote_quiet _ _ _ Hacc) H).
Qed.

Lemma write_pc_exact inline_records i ms count w :
  ids_in_order ms ->
  (forall info,
     nth_error (pcinfo inline_records) (Z.to_nat i) = Some info ->
     frames_resolved ms info (numstackframes info)) ->
  outcome_sat (write_pc host inline_records i (ms, count) w)
    (fun st w' =>
       st = (ms, count) /\
       exists info,
         nth_error (pcinfo inline_records) (Z.to_nat i) = Some info /\
         wrote (group_bytes (debug_group (map method ms) info)) w w')
    (quiet w).
Proof.
  intros Hids Hres. unfold write_pc.
  eapply sat_bind; [apply index_sat| |].
  2:{ intros w1 ->. apply quiet_refl. }
  intros info w1 (-> & Hi & Hn). cbv beta.
  specialize (Hres info Hn).
  eapply sat_bind; [apply write_unsigned_jlong_sat| |auto].
  intros a w1 Hacc. cbv beta in Hacc.
  wstep write_jint_sat Hacc.
  unfold loop_.
  eapply sat_weaken;
    [apply (loop_from_sat (write_frame host info)
              (fun (k : Z) st w' =>
                 st = (ms, count) /\
                 wrote (flat_map frame_bytes
                          (map (fun p => mkFrame (position (fst p) (map method ms))
                                           (snd p))
                             (combine (firstn (Z.to_nat k) (info_methods info))
                                      (firstn (Z.to_nat k) (info_bcis info)))))
                   w0 w')
              (quiet w0))| |].
  - intros k st w2 Hk (-> & Hw). rewrite Z.add_0_l in *.
    eapply sat_weaken; [apply write_frame_exact; [exact Hids|]| |].
    + intros h Hh. apply (Hres (Z.of_nat k)); [lia|exact Hh].
    + intros st' w3 (-> & h & bci & Hh & Hb & H). split; [reflexivity|].
      rewrite ?Z.add_0_l, ?Nat2Z.id in *.
      rewrite (combine_firstn_snoc _ _ _ _ _ Hh Hb), map_app, flat_map_app.
      cbn [map flat_map fst snd]. rewrite app_nil_r.
      exact (wrote_trans _ _ _ _ _ Hw H).
    + intros w3 H. exact (quiet_trans _ _ _ (wrote_quiet _ _ _ Hw) H).
  - split; [reflexivity|]. simpl. apply wrote_nil. eapply wrote_open; eassumption.
  - intros st w2 (-> & Hw). split; [reflexivity|].
    exists info. split; [exact Hn|].
    pose proof (wrote_trans _ _ _ _ _ Hacc Hw) as H.
    unfold group_bytes, debug_group, debug_frames, frame_handles, frame_bcis.
    simpl. rewrite Z.add_0_l, Nat2Z.id in H. now rewrite <- app_assoc in H.
  - intros w2 H. exact (quiet_trans _ _ _ (wrote_quiet _ _ _ Hacc) H).
Qed.

Lemma write_pcs_exact inline_records ms count w :
  ids_in_order ms ->
  resolved ms inline_records -> output_file w <> None ->
  outcome_sat
    (loop_ (numpcs inline_records) (write_pc host inline_records) (ms, count) w)
    (fun st w' =>
       st = (ms, count) /\
       wrote (flat_map group_bytes
                (map (debug_group (map method ms)) (visited_pcs inline_records)))
         w w')
    (quiet w).
Proof.
  intros Hids Hres Hf. unfold loop_.
  eapply sat_weaken;
    [apply (loop_from_sat (write_pc host inline_records)
              (fun (k : Z) st w' =>
                 st = (ms, count) /\
                 wrote (flat_map group_bytes
                          (map (debug_group (map method ms))
                             (firstn (Z.to_nat k) (pcinfo inline_records))))
                   w w')
              (quiet w))| |auto].
  - intros k st w2 Hk (-> & Hw). rewrite Z.add_0_l in *.
    eapply sat_weaken; [apply write_pc_exact; [exact Hids|]| |].
    + intros info Hn j h Hj Hh.
      apply (Hres (Z.of_nat k) info j h); [lia|exact Hn|exact Hj|exact Hh].
    + intros st' w3 (-> & info & Hn & H). split; [reflexivity|].
      rewrite ?Z.add_0_l, ?Nat2Z.id in *.
      rewrite (firstn_snoc _ _ _ Hn), map_app, flat_map_app.
      cbn [map flat_map]. rewrite app_nil_r.
      exact (wrote_trans _ _ _ _ _ Hw H).
    + intros w3 H. exact (quiet_trans _ _ _ (wrote_quiet _ _ _ Hw) H).
  - split; [reflexivity|]. simpl. now apply wrote_nil.
  - intros st w2 (-> & Hw). split; [reflexivity|].
    unfold visited_pcs. now rewrite Z.add_0_l, Nat2Z.id in Hw.
Qed.

Lemma write_record_exact timestamp code_size code_addr count ms inline_records w :
  ids_in_order ms ->
  (forall r, inline_records = Some r -> resolved ms r) ->
  output_file w <> None ->
  outcome_sat
    ((write_jint host CompiledMethodLoadTag ;;
      write_timestamp host timestamp ;;
      write_unsigned_jlong host code_addr ;;
      write_jint host code_size ;;
      write_or_fail host (load host code_addr code_size) code_size ;;
      write_jint host MethodsTag ;;
      write_jint host count ;;
      write_methods host ms ;;
      write_jint host DebugInfoTag ;;
      methods <-
        match inline_records with
        | Some inline_records =>
            write_jint host (numpcs inline_records) ;;
            st <- loop_ (numpcs inline_records) (write_pc host inline_records)
                    (ms, count) ;;
            ret (fst st)
        | None =>
            write_jint host 0 ;;
            ret ms
        end ;;
      fflush host ;;
      ret methods) w)
    (fun ms' w' =>
       ms' = ms /\
       wrote (cmlt_bytes timestamp code_addr code_size
                (load host code_addr code_size) count ms
                (debug_count inline_records)
                (debug_groups (map method ms) inline_records)) w w')
    (quiet w).
Proof.
  intros Hids Hres Hf. unfold cmlt_bytes.
  eapply sat_bind; [apply write_jint_sat| |auto].
  intros a w1 Hacc. cbv beta in Hacc.
  wstep write_timestamp_sat Hacc.
  wstep write_unsigned_jlong_sat Hacc.
  wstep write_jint_sat Hacc.
  wstep write_or_fail_sat Hacc.
  wstep write_jint_sat Hacc.
  wstep write_jint_sat Hacc.
  eapply sat_bind;
    [apply write_methods_sat; eapply wrote_open; eassumption| |
     intros w' H; exact (quiet_trans _ _ _ (wrote_quiet _ _ _ Hacc) H)].
  intros a6 w7 H. cbv beta in H.
  generalize (wrote_trans _ _ _ _ _ Hacc H); clear Hacc H; intro Hacc.
  wstep write_jint_sat Hacc.
  eapply sat_bind with
    (P := fun ms' w' => ms' = ms /\
            wrote (be_bytes 4 (debug_count inline_records) ++
                   flat_map group_bytes
                     (debug_groups (map method ms) inline_records)) w8 w')
    (E1 := quiet w8).
  - destruct inline_records as [r|].
    + eapply sat_bind; [apply write_jint_sat| |auto].
      intros a8 w9 H9. cbv beta in H9.
      eapply sat_bind;
        [apply write_pcs_exact;
         [exact Hids|now apply Hres|eapply wrote_open; eassumption]| |
         intros w' H; exact (quiet_trans _ _ _ (wrote_quiet _ _ _ H9) H)].
      intros st w10 (-> & Hw). simpl. split; [reflexivity|].
      exact (wrote_trans _ _ _ _ _ H9 Hw).
    + eapply sat_bind; [apply write_jint_sat| |auto].
      intros a8 w9 H9. cbv beta in H9. unfold ret, outcome_sat.
      split; [reflexivity|]. cbn [debug_count debug_groups flat_map].
      now rewrite app_nil_r.
  - intros ms' w9 (-> & H9).
    generalize (wrote_trans _ _ _ _ _ Hacc H9); clear Hacc H9; intro Hacc.
    eapply sat_bind; [apply fflush_sat| |easy].
    intros a9 w10 (_ & _ & H10). simpl. split; [reflexivity|].
    specialize (H10 (wrote_open _ _ _ Hacc)).
    pose proof (wrote_trans _ _ _ _ _ Hacc H10) as Hw.
    rewrite app_nil_r in Hw. now rewrite <- !app_assoc in Hw.
  - intros w9 H. exact (quiet_trans _ _ _ (wrote_quiet _ _ _ Hacc) H).
Qed.

Lemma write_method_load_event_exact timestamp code_size code_addr count ms
    inline_records w :
  ids_in_order ms ->
  (forall r, inline_records = Some r -> resolved ms r) ->
  file_lock w = false ->
  outcome_sat
    (write_method_load_event host timestamp code_size code_addr count ms
       inline_records w)
    (fun ms' w' =>
       match output_file w with
       | None => output_file w' = None
       | Some f =>
           exists f',
             output_file w' = Some f' /\ f_name f' = f_name f /\
             f_data f' = f_data f ++
               cmlt_bytes timestamp code_addr code_size
                 (load host code_addr code_size) count ms
                 (debug_count inline_records)
                 (debug_groups (map method ms) inline_records)
       end)
    (fun _ => True).
Proof.
  intros Hids Hres Hlock. unfold write_method_load_event.
  unfold bind at 1. rewrite lock_output_file_eq, Hlock.
  set (w1 := count_acquired (set_file_lock true w)).
  unfold bind at 1, get at 1.
  change (output_file w1) with (output_file w).
  destruct (output_file w) as [f|] eqn:Ef.
  - eapply sat_bind;
      [apply (write_record_exact timestamp code_size code_addr count ms
                inline_records w1 Hids Hres); unfold w1; simpl; congruence| |auto].
    intros ms' w2 (-> & Hw).
    destruct Hw as [(g & g' & G1 & G2 & G3 & G4) L _ _ _ _ _ _ _].
    cbv beta. unfold bind. rewrite unlock_output_file_eq, L. simpl.
    unfold w1 in G1. simpl in G1. rewrite Ef in G1. injection G1 as <-.
    exists g'. auto.
  - unfold bind, ret. rewrite unlock_output_file_eq. simpl. exact Ef.
Qed.

(** *** The handles of the table *)

Lemma lookup_method_handles method' ms count w r ms' count' w' :
  lookup_method host method' ms count w = Ok (Some r, ms', count') w' ->
  map method ms' = remember (map method ms) method'.
Proof.
  intros H.
  destruct (lookup_method_found host _ _ _ _ _ _ _ _ H)
    as (Hm & [(Hy & -> & _)|(Hn & -> & _)]).
  - now rewrite remember_known.
  - rewrite remember_new by exact Hn. rewrite map_app. simpl. now rewrite Hm.
Qed.

Lemma collect_frame_handles info j st w :
  outcome_sat (collect_frame host info j st w)
    (fun r _ =>
       match r with
       | inl st' =>
           exists handle,
             nth_error (info_methods info) (Z.to_nat j) = Some handle /\
             map method (fst st') = remember (map method (fst st)) handle
       | inr _ => True
       end)
    (fun _ => True).
Proof.
  destruct st as [ms count]. unfold collect_frame.
  eapply sat_bind; [apply index_sat| |easy].
  intros handle w1 (-> & _ & Hn). cbv beta.
  unfold bind.
  destruct (lookup_method host handle ms count w)
    as [[[found ms'] count'] w'|] eqn:E; [|exact I].
  destruct found as [r|]; simpl; [|exact I].
  exists handle. split; [exact Hn|]. eapply lookup_method_handles; exact E.
Qed.

Lemma fold_left_snoc {A B : Type} (f : A -> B -> A) (l : list B) (b : B) (a : A) :
  fold_left f (l ++ [b]) a = f (fold_left f l a) b.
Proof. now rewrite fold_left_app. Qed.

Lemma collect_pc_handles inline_records i st w :
  outcome_sat (collect_pc host inline_records i st w)
    (fun r _ =>
       match r with
       | inl st' =>
           exists info,
             nth_error (pcinfo inline_records) (Z.to_nat i) = Some info /\
             map method (fst st') =
               fold_left remember (frame_handles info) (map method (fst st))
       | inr _ => True
       end)
    (fun _ => True).
Proof.
  unfold collect_pc.
  eapply sat_bind; [apply index_sat| |easy].
  intros info w1 (-> & _ & Hn). cbv beta. unfold for_.
  pose proof (for_from_sat (collect_frame host info)
    (fun k st' _ =>
       map method (fst st') =
         fold_left remember (firstn (Z.to_nat k) (info_methods info))
           (map method (fst st)))
    (fun _ _ => True) (fun _ => True)
    (Z.to_nat (numstackframes info)) 0) as Hloop.
  eapply sat_weaken; [apply Hloop| |auto].
  - intros k s0 w0 _ H0. rewrite ?Z.add_0_l, ?Nat2Z.id in *.
    eapply sat_weaken; [apply collect_frame_handles| |auto].
    intros [st'|] w' H; cbv beta iota in *; [|exact I].
    destruct H as (h & Hh & Hm). rewrite Nat2Z.id in Hh.
    rewrite (firstn_snoc _ _ _ Hh), fold_left_snoc, <- H0. exact Hm.
  - reflexivity.
  - intros [st'|] w' H; cbv beta iota in *; [|exact I].
    exists info. split; [exact Hn|].
    unfold frame_handles. now rewrite Z.add_0_l, Nat2Z.id in H.
Qed.

Lemma collect_pcs_handles inline_records st w :
  outcome_sat
    (for_ (numpcs inline_records) (collect_pc host inline_records) st w)
    (fun r _ =>
       match r with
       | inl st' =>
           map method (fst st') =
             fold_left remember (debug_handles (Some inline_records))
               (map method (fst st))
       | inr _ => True
       end)
    (fun _ => True).
Proof.
  unfold for_.
  pose proof (for_from_sat (collect_pc host inline_records)
    (fun k st' _ =>
       map method (fst st') =
         fold_left remember
           (flat_map frame_handles
              (firstn (Z.to_nat k) (pcinfo inline_records)))
           (map method (fst st)))
    (fun _ _ => True) (fun _ => True)
    (Z.to_nat (numpcs inline_records)) 0) as Hloop.
  eapply sat_weaken; [apply Hloop| |auto].
  - intros k s0 w0 _ H0. rewrite ?Z.add_0_l, ?Nat2Z.id in *.
    eapply sat_weaken; [apply collect_pc_handles| |auto].
    intros [st'|] w' H; cbv beta iota in *; [|exact I].
    destruct H as (info & Hn & Hm). rewrite Nat2Z.id in Hn.
    rewrite (firstn_snoc _ _ _ Hn), flat_map_app, fold_left_app, <- H0.
    cbn [flat_map]. rewrite app_nil_r. exact Hm.
  - reflexivity.
  - intros [st'|] w' H; cbv beta iota in *; [|exact I].
    unfold debug_handles, visited_pcs. now rewrite Z.add_0_l, Nat2Z.id in H.
Qed.

Lemma scan_compile_info_handles header : forall ms count w,
  outcome_sat (scan_compile_info host header ms count w)
    (fun r _ =>
       match r with
       | inl (inline_records, ms', _) =>
           inline_records = first_inline header /\
           map method ms' =
             fold_left remember (debug_handles inline_records) (map method ms)
       | inr _ => True
       end)
    (fun _ => True).
Proof.
  induction header as [|h next IH]; intros ms count w.
  - simpl. auto.
  - cbn [scan_compile_info]. unfold first_inline. cbn [find].
    destruct (is_inline_info (kind h)); [|apply IH].
    eapply sat_bind; [apply (collect_pcs_handles _ (ms, count))| |auto].
    intros [[ms' count']|] w' H; simpl in *; auto.
Qed.

End Content.

(** ** The method table of a record *)

(** *** Handles in the order in which they are first met *)

Lemma position_index h hs :
  In h hs ->
  0 <= position h hs < Z.of_nat (List.length hs) /\
  nth_error hs (Z.to_nat (position h hs)) = Some h.
Proof.
  induction hs as [|x hs IH]; intros Hin; [destruct Hin|].
  cbn [position]. destruct (x =? h) eqn:E.
  - apply Z.eqb_eq in E. subst x. cbn [List.length]. split; [lia|reflexivity].
  - apply Z.eqb_neq in E. destruct Hin as [Hx|Hin]; [contradiction|].
    destruct (IH Hin) as (Hp & Hn). cbn [List.length]. split; [lia|].
    replace (Z.to_nat (1 + position h hs)) with (S (Z.to_nat (position h hs)))
      by lia.
    exact Hn.
Qed.

Lemma remember_extends hs h : exists extra, remember hs h = hs ++ extra.
Proof.
  unfold remember. destruct (existsb (Z.eqb h) hs).
  - exists []. now rewrite app_nil_r.
  - now exists [h].
Qed.

Lemma remember_in hs h : In h (remember hs h).
Proof.
  unfold remember. destruct (existsb (Z.eqb h) hs) eqn:E.
  - now apply existsb_handle.
  - apply in_or_app. right. now left.
Qed.

Lemma remember_NoDup hs h : NoDup hs -> NoDup (remember hs h).
Proof.
  intros Hnd. unfold remember. destruct (existsb (Z.eqb h) hs) eqn:E; [exact Hnd|].
  assert (Hn : ~ In h hs).
  { intros Hin. apply existsb_handle in Hin. congruence. }
  apply NoDup_rev in Hnd. rewrite <- (rev_involutive (hs ++ [h])).
  apply NoDup_rev. rewrite rev_app_distr. simpl. constructor; [|exact Hnd].
  now rewrite <- in_rev.
Qed.

Lemma fold_left_remember_extends l : forall hs,
  exists extra, fold_left remember l hs = hs ++ extra.
Proof.
  induction l as [|h l IH]; intros hs; simpl.
  - exists []. now rewrite app_nil_r.
  - destruct (remember_extends hs h) as (e1 & E1).
    destruct (IH (remember hs h)) as (e2 & E2).
    exists (e1 ++ e2). now rewrite E2, E1, app_assoc.
Qed.

Lemma fold_left_remember_in l : forall hs h,
  In h l -> In h (fold_left remember l hs).
Proof.
  induction l as [|x l IH]; intros hs h Hin; [destruct Hin|].
  simpl. destruct Hin as [->|Hin]; [|now apply IH].
  destruct (fold_left_remember_extends l (remember hs h)) as (extra & ->).
  apply in_or_app. left. apply remember_in.
Qed.

Lemma fold_left_remember_NoDup l : forall hs,
  NoDup hs -> NoDup (fold_left remember l hs).
Proof.
  induction l as [|x l IH]; intros hs Hnd; simpl; [exact Hnd|].
  apply IH, remember_NoDup, Hnd.
Qed.

Lemma table_handles_NoDup method' compile_info :
  NoDup (table_handles method' compile_info).
Proof.
  apply fold_left_remember_NoDup. constructor; [intros []|constructor].
Qed.

Lemma table_handles_first method' compile_info :
  nth_error (table_handles method' compile_info) 0 = Some method'.
Proof.
  unfold table_handles.
  destruct (fold_left_remember_extends
              (debug_handles (first_inline compile_info)) [method'])
    as (extra & ->).
  reflexivity.
Qed.

Lemma nth_error_method table k h :
  nth_error (map method table) k = Some h ->
  exists r, nth_error table k = Some r /\ method r = h.
Proof.
  rewrite nth_error_map. destruct (nth_error table k) as [r|]; [|discriminate].
  intros E. injection E as <-. now exists r.
Qed.

Lemma table_refers table h :
  ids_in_order table -> In h (map method table) ->
  refers table (position h (map method table)) h.
Proof.
  intros Hids Hin. destruct (position_index _ _ Hin) as (Hp & Hn).
  rewrite length_map in Hp. split; [exact Hp|].
  destruct (nth_error_method _ _ _ Hn) as (r & Hr & Hm).
  exists r. split; [exact Hr|]. split; [exact Hm|].
  rewrite (Hids _ _ Hr). lia.
Qed.

Lemma debug_frames_in hs info fr :
  In fr (debug_frames hs info) ->
  exists h, In h (frame_handles info) /\ frame_id fr = position h hs.
Proof.
  unfold debug_frames. intros Hin. apply in_map_iff in Hin.
  destruct Hin as ([h bci] & <- & Hin). exists h. split; [|reflexivity].
  eapply in_combine_l. exact Hin.
Qed.

Lemma debug_groups_in hs inline_records g fr :
  In g (debug_groups hs inline_records) -> In fr (group_frames g) ->
  exists h, In h (debug_handles inline_records) /\ frame_id fr = position h hs.
Proof.
  destruct inline_records as [r|]; simpl; [|intros []].
  intros Hg Hfr. apply in_map_iff in Hg. destruct Hg as (info & <- & Hinfo).
  simpl in Hfr. destruct (debug_frames_in _ _ _ Hfr) as (h & Hh & E).
  exists h. split; [|exact E]. apply in_flat_map. now exists info.
Qed.

(** *** What the records of the table say *)

Section Describing.

Variable host : Host.

Lemma check_passes message result current ms count
    (rest : M (option MethodData * list MethodData * Z)) w r ms' count' w' :
  (stop <- check_method_error host message result current ;;
   if stop : bool then ret (None, ms, count) else rest) w =
    Ok (Some r, ms', count') w' ->
  rest w = Ok (Some r, ms', count') w'.
Proof.
  unfold bind. rewrite check_method_error_eq.
  destruct result; simpl; intros H; try discriminate; exact H.
Qed.

Lemma lookup_method_describes method' ms count w r ms' count' w' :
  lookup_method host method' ms count w = Ok (Some r, ms', count') w' ->
  ~ In method' (map method ms) ->
  describes_at host (now w) r.
Proof.
  intros H Hmiss. unfold lookup_method in H.
  destruct (lookup_method_scan method' ms None) as [[r0|] last] eqn:Escan.
  { destruct (lookup_method_scan_hit _ _ _ _ _ Escan) as (Hin & Hm).
    elim Hmiss. rewrite <- Hm. now apply in_map. }
  unfold bind at 1, calloc at 1 in H.
  destruct (jvmti_GetMethodName_step host method' (take_block w))
    as (name & sig & w1 & E1 & P1 & P2 & S1).
  unfold bind at 1 in H. rewrite E1 in H. cbv beta iota in H.
  apply check_passes in H.
  pose proof (query_step_now _ _ _ _ S1) as N1.
  change (now (take_block w)) with (now w) in *.
  destruct (jvmti_GetMethodDeclaringClass_step host method' w1) as (w2 & E2 & S2).
  unfold bind at 1 in H. rewrite E2 in H.
  pose proof (query_step_now _ _ _ _ S2) as N2.
  destruct (GetMethodDeclaringClass host (now w1) method') as [r2 class] eqn:G2.
  cbv beta iota in H. apply check_passes in H.
  destruct (jvmti_GetClassSignature_step host class w2)
    as (csig & w3 & E3 & P3 & S3).
  unfold bind at 1 in H. rewrite E3 in H. cbv beta iota in H.
  apply check_passes in H.
  pose proof (query_step_now _ _ _ _ S3) as N3.
  destruct (jvmti_GetSourceFileName_step host class w3)
    as (src & w4 & E4 & P4 & S4).
  unfold bind at 1 in H. rewrite E4 in H. cbv beta iota in H.
  apply check_passes in H.
  pose proof (query_step_now _ _ _ _ S4) as N4.
  destruct (jvmti_GetLineNumberTable_step host method' w4)
    as (cnt & table & w5 & E5 & P5 & P6 & S5).
  unfold bind at 1 in H. rewrite E5 in H. cbv beta iota in H.
  apply check_passes in H.
  assert (T1 : (now w + 1)%nat = now w1) by lia.
  assert (T2 : (now w + 2)%nat = now w2) by lia.
  assert (T3 : (now w + 3)%nat = now w3) by lia.
  assert (T4 : (now w + 4)%nat = now w4) by lia.
  assert (Hd : forall v,
            describes_at host (now w)
              (set_id v
                 (set_line_number_table cnt table
                    (set_source_file src
                       (set_class_signature csig
                          (set_names name sig
                             (mkMethodData (next_block w) 0 method' None None
                                None None 0 None))))))).
  { intros v. unfold describes_at. cbn [method method_name method_signature
      class_signature source_file line_number_table line_number_table_count
      set_id set_line_number_table set_source_file set_class_signature
      set_names].
    rewrite T1, T2, T3, T4, G2. cbn [snd]. auto 10. }
  destruct ms as [|m0 ms0].
  - injection H as <- _ _ _. exact (Hd 0).
  - destruct last as [last|]; [|discriminate].
    injection H as <- _ _ _. apply Hd.
Qed.

Lemma lookup_method_described method' ms count w r ms' count' w' :
  lookup_method host method' ms count w = Ok (Some r, ms', count') w' ->
  Forall (describes host) ms -> Forall (describes host) ms'.
Proof.
  intros H Hd.
  destruct (lookup_method_found host _ _ _ _ _ _ _ _ H)
    as (_ & [(_ & -> & _)|(Hn & -> & _)]); [exact Hd|].
  apply Forall_app. split; [exact Hd|]. constructor; [|constructor].
  exists (now w). eapply lookup_method_describes; eassumption.
Qed.

Lemma collect_frame_described info j st w :
  outcome_sat (collect_frame host info j st w)
    (fun r _ =>
       match r with
       | inl st' =>
           Forall (describes host) (fst st) -> Forall (describes host) (fst st')
       | inr _ => True
       end)
    (fun _ => True).
Proof.
  destruct st as [ms count]. unfold collect_frame.
  eapply sat_bind; [apply index_sat| |easy].
  intros handle w1 (-> & _ & Hn). cbv beta.
  unfold bind.
  destruct (lookup_method host handle ms count w)
    as [[[found ms'] count'] w'|] eqn:E; [|exact I].
  destruct found as [r|]; simpl; [|exact I].
  eapply lookup_method_described; exact E.
Qed.

Lemma collect_pc_described inline_records i st w :
  outcome_sat (collect_pc host inline_records i st w)
    (fun r _ =>
       match r with
       | inl st' =>
           Forall (describes host) (fst st) -> Forall (describes host) (fst st')
       | inr _ => True
       end)
    (fun _ => True).
Proof.
  unfold collect_pc.
  eapply sat_bind; [apply index_sat| |easy].
  intros info w1 (-> & _ & Hn). cbv beta. unfold for_.
  pose proof (for_from_sat (collect_frame host info)
    (fun _ st' _ =>
       Forall (describes host) (fst st) -> Forall (describes host) (fst st'))
    (fun _ _ => True) (fun _ => True)
    (Z.to_nat (numstackframes info)) 0) as Hloop.
  eapply sat_weaken; [apply Hloop| |auto].
  - intros k s0 w0 _ H0.
    eapply sat_weaken; [apply collect_frame_described| |auto].
    intros [st'|] w' H; cbv beta iota in *; [|exact I]. auto.
  - auto.
  - intros [st'|] w' H; cbv beta iota in *; [exact H|exact I].
Qed.

Lemma collect_pcs_described inline_records st w :
  outcome_sat
    (for_ (numpcs inline_records) (collect_pc host inline_records) st w)
    (fun r _ =>
       match r with
       | inl st' =>
           Forall (describes host) (fst st) -> Forall (describes host) (fst st')
       | inr _ => True
       end)
    (fun _ => True).
Proof.
  unfold for_.
  pose proof (for_from_sat (collect_pc host inline_records)
    (fun _ st' _ =>
       Forall (describes host) (fst st) -> Forall (describes host) (fst st'))
    (fun _ _ => True) (fun _ => True)
    (Z.to_nat (numpcs inline_records)) 0) as Hloop.
  eapply sat_weaken; [apply Hloop| |auto].
  - intros k s0 w0 _ H0.
    eapply sat_weaken; [apply collect_pc_described| |auto].
    intros [st'|] w' H; cbv beta iota in *; [|exact I]. auto.
  - auto.
  - intros [st'|] w' H; cbv beta iota in *; [exact H|exact I].
Qed.

Lemma scan_compile_info_described header : forall ms count w,
  outcome_sat (scan_compile_info host header ms count w)
    (fun r _ =>
       match r with
       | inl (_, ms', _) =>
           Forall (describes host) ms -> Forall (describes host) ms'
       | inr _ => True
       end)
    (fun _ => True).
Proof.
  induction header as [|h next IH]; intros ms count w.
  - simpl. auto.
  - cbn [scan_compile_info].
    destruct (is_inline_info (kind h)); [|apply IH].
    eapply sat_bind; [apply (collect_pcs_described _ (ms, count))| |auto].
    intros [[ms' count']|] w' H; simpl in *; auto.
Qed.

End Describing.

(** *** The record of an event that was not abandoned *)

Lemma compiledMethodLoad_content :
  forall (host : Host) (method' : jmethodID) (code_size code_addr : Z)
         (compile_info : list jvmtiCompiledMethodLoadRecordHeader)
         (w w' : World) (f : FILE),
    file_lock w = false ->
    output_file w = Some f ->
    compiledMethodLoad host method' code_size code_addr compile_info w = Ok tt w' ->
    acquired w' <> acquired w ->
    exists timestamp table f',
      clock_gettime host (now w) = Some timestamp /\
      map method table = table_handles method' compile_info /\
      Forall (describes host) table /\
      (forall i r, nth_error table i = Some r -> id r = Z.of_nat i) /\
      output_file w' = Some f' /\ f_name f' = f_name f /\
      holds host f'
        (f_data f ++
         cmlt_bytes timestamp code_addr code_size (load host code_addr code_size)
           (Z.of_nat (List.length table)) table
           (debug_count (first_inline compile_info))
           (debug_groups (table_handles method' compile_info)
              (first_inline compile_info))).
Proof.
  intros host method' code_size code_addr compile_info w w' f Hlock Ef H Hacq.
  unfold compiledMethodLoad in H.
  apply bind_Ok in H. destruct H as (timestamp & w1 & Ht & H).
  rewrite get_timestamp_eq in Ht.
  destruct (clock_gettime host (now w)) as [ts|] eqn:Hclock; [|discriminate].
  injection Ht as -> <-.
  apply bind_Ok in H. destruct H as ([[found ms] count] & w2 & Hlook & H).
  apply bind_Ok in H. destruct H as (methods & w3 & Hbody & H).
  rewrite release_methods_eq in H. injection H as <-.
  destruct (release_all_fields (blocks_of methods) w3) as (RF & _ & RA & _).
  rewrite RA in Hacq.
  pose proof (lookup_method_sat host method' [] 0 (advance w)) as Hs.
  rewrite Hlook in Hs. simpl in Hs.
  destruct found as [r|].
  2:{ destruct Hs as ([_ _ A _ _ _ _ _ _] & _). injection Hbody as _ <-.
      elim Hacq. exact A. }
  destruct Hs as ([[PF PL PA _ _ _ _ _ _] _] & _ & _ & _ & Hids & Hcount).
  simpl in PF, PL, PA.
  pose proof (lookup_method_handles host _ _ _ _ _ _ _ _ Hlook) as Hh.
  pose proof (lookup_method_described host _ _ _ _ _ _ _ _ Hlook
                (Forall_nil _)) as Hd.
  cbn [map] in Hh. rewrite remember_new in Hh by (intros []).
  apply bind_Ok in Hbody. destruct Hbody as (res & w4 & Hscan & Hbody).
  pose proof (scan_compile_info_sat host compile_info ms count w2) as Hs.
  pose proof (scan_compile_info_handles host compile_info ms count w2) as Hs'.
  pose proof (scan_compile_info_described host compile_info ms count w2) as Hs''.
  rewrite Hscan in Hs, Hs', Hs''. simpl in Hs, Hs', Hs''.
  destruct res as [[[inline_records ms'] count']|ms'].
  2:{ destruct Hs as [_ _ A _ _ _ _ _ _]. injection Hbody as _ <-.
      elim Hacq. congruence. }
  destruct Hs as [([[QF QL QA _ _ _ _ _ _] _] & Hids' & Hcount') Hres].
  simpl in Hids', Hcount'.
  destruct Hs' as [-> Hh'].
  apply bind_Ok in Hbody. destruct Hbody as (written & w5 & Hw & Hbody).
  injection Hbody as _ <-.
  assert (Hids0 : ids_in_order ms').
  { apply Hids', Hids. intros i x Hx. destruct i; discriminate. }
  pose proof (write_method_load_event_exact host timestamp code_size code_addr count'
                ms' (first_inline compile_info) w4 Hids0 Hres
                ltac:(congruence)) as Hx.
  rewrite Hw in Hx. simpl in Hx.
  rewrite QF, PF in Hx. simpl in Hx. rewrite Ef in Hx.
  destruct Hx as (f' & F1 & F2 & F3).
  exists timestamp, ms', f'. split; [reflexivity|].
  assert (Hhs : map method ms' = table_handles method' compile_info).
  { unfold table_handles. rewrite Hh', Hh. reflexivity. }
  split; [exact Hhs|]. split; [exact (Hs'' Hd)|]. split; [exact Hids0|].
  split; [rewrite RF; exact F1|]. split; [exact F2|].
  assert (Hdata : f_data f' =
            f_data f ++
            cmlt_bytes timestamp code_addr code_size (load host code_addr code_size)
              (Z.of_nat (List.length ms')) ms'
              (debug_count (first_inline compile_info))
              (debug_groups (table_handles method' compile_info)
                 (first_inline compile_info))).
  { rewrite F3, <- Hhs.
    replace count' with (Z.of_nat (List.length ms')) by (simpl in Hcount; lia).
    reflexivity. }
  split; [exact Hdata|].
  intros Hflush.
  pose proof (write_method_load_event_flushed host Hflush _ _ _ _ _ _ _ _ _ Hw)
    as Hfl.
  unfold flushed in Hfl. rewrite F1 in Hfl. now rewrite Hfl, Hdata.
Qed.

(** The ids of the frames of a table whose records are in the order of
    their ids. *)
Lemma table_frames method' compile_info table :
  map method table = table_handles method' compile_info ->
  ids_in_order table ->
  (exists r, nth_error table 0 = Some r /\ method r = method') /\
  (forall h,
     In h (debug_handles (first_inline compile_info)) ->
     refers table (position h (table_handles method' compile_info)) h) /\
  Forall (fun g =>
            Forall (fun fr => 0 <= frame_id fr < Z.of_nat (List.length table))
                   (group_frames g))
    (debug_groups (table_handles method' compile_info)
       (first_inline compile_info)).
Proof.
  intros Hhs Hids.
  assert (Hall : forall h,
            In h (debug_handles (first_inline compile_info)) ->
            refers table (position h (table_handles method' compile_info)) h).
  { intros h Hin. rewrite <- Hhs. apply table_refers; [exact Hids|].
    rewrite Hhs. unfold table_handles. now apply fold_left_remember_in. }
  split; [|split; [exact Hall|]].
  - apply nth_error_method. rewrite Hhs. apply table_handles_first.
  - apply Forall_forall. intros g Hg. apply Forall_forall. intros fr Hfr.
    destruct (debug_groups_in _ _ _ _ Hg Hfr) as (h & Hh & ->).
    exact (proj1 (Hall h Hh)).
Qed.

(** ** The CMLT record of a compiled method load event *)

Lemma written_event_ids :
  forall (host : Host) (method' : jmethodID) (code_size code_addr : Z)
         (compile_info : list jvmtiCompiledMethodLoadRecordHeader)
         (w w' : World) (f : FILE) (qs : list query_event),
    file_lock w = false ->
    output_file w = Some f ->
    compiledMethodLoad host method' code_size code_addr compile_info w = Ok tt w' ->
    new_queries w w' qs ->
    Forall (fun q => ~ shutdown_query q) qs ->
    let handles := table_handles method' compile_info in
    let inline_records := first_inline compile_info in
    let groups := debug_groups handles inline_records in
    exists f' timestamp table,
      clock_gettime host (now w) = Some timestamp /\
      output_file w' = Some f' /\ f_name f' = f_name f /\
      holds host f'
        (f_data f ++
         cmlt_bytes timestamp code_addr code_size (load host code_addr code_size)
           (Z.of_nat (List.length table)) table
           (debug_count inline_records) groups) /\
      map method table = handles /\
      NoDup handles /\
      Forall (describes host) table /\
      (forall i r, nth_error table i = Some r -> id r = Z.of_nat i) /\
      (exists r, nth_error table 0 = Some r /\ method r = method') /\
      (forall h,
         In h (debug_handles inline_records) ->
         refers table (position h handles) h) /\
      Forall (fun g =>
                Forall (fun fr => 0 <= frame_id fr < Z.of_nat (List.length table))
                       (group_frames g)) groups.
Proof.
  intros host method' code_size code_addr compile_info w w' f qs
         Hlock Hf Hrun Hqs Hno handles inline_records groups.
  pose proof (compiledMethodLoad_sat host method' code_size code_addr
                compile_info w Hlock) as H.
  rewrite Hrun in H. simpl in H.
  destruct H as (_ & _ & _ & qs0 & gb & Q0 & _ & _ & _ & [Hab|Hwr]).
  { destruct Hab as (HX & _). rewrite (new_queries_unique _ _ _ _ Hqs Q0) in Hno.
    destruct (shutdown_query_excluded _ HX Hno). }
  destruct Hwr as (_ & Hacq & _).
  destruct (compiledMethodLoad_content host method' code_size code_addr
              compile_info w w' f Hlock Hf Hrun ltac:(lia))
    as (timestamp & table & f' & Hc & Hhs & Hd & Hids & F1 & F2 & F3).
  destruct (table_frames method' compile_info table Hhs Hids)
    as (Hfirst & Hrefers & Hvalid).
  exists f', timestamp, table.
  split; [exact Hc|]. split; [exact F1|]. split; [exact F2|].
  split; [exact F3|]. split; [exact Hhs|].
  split; [apply table_handles_NoDup|]. split; [exact Hd|].
  split; [exact Hids|]. split; [exact Hfirst|]. split; [exact Hrefers|].
  exact Hvalid.
Qed.

(** C1: a compiled method load event that returns with none of its
    queries having met the shutdown of the runtime adds one CMLT record
    to the open output file, and these are its bytes.  The method table
    lists one entry for each method of the event, the compiled method
    first and then the methods of the frames of the debug information in
    the order in which the loops first meet them, each method once; the
    count written before the table is the number of its entries; entry i
    has id i, and it holds what the runtime answered about its own
    method.  The debug information gives for every frame the place of the
    method of that frame in the table: every method id written there is
    the index of an entry of the table, and of the entry of that
    method.  (That all of the record has reached the file is known only
    of a runtime whose every flush is complete.) *)
Theorem method_ids_index_the_method_table :
  forall (host : Host) (method' : jmethodID) (code_size code_addr : Z)
         (compile_info : list jvmtiCompiledMethodLoadRecordHeader)
         (w w' : World) (f : FILE) (qs : list query_event),
    file_lock w = false ->
    output_file w = Some f ->
    compiledMethodLoad host method' code_size code_addr compile_info w = Ok tt w' ->
    new_queries w w' qs ->
    Forall (fun q => ~ shutdown_query q) qs ->
    let handles := table_handles method' compile_info in
    let inline_records := first_inline compile_info in
    let groups := debug_groups handles inline_records in
    exists f' timestamp table,
      clock_gettime host (now w) = Some timestamp /\
      output_file w' = Some f' /\ f_name f' = f_name f /\
      holds host f'
        (f_data f ++
         cmlt_bytes timestamp code_addr code_size (load host code_addr code_size)
           (Z.of_nat (List.length table)) table
           (debug_count inline_records) groups) /\
      map method table = handles /\
      NoDup handles /\
      Forall (describes host) table /\
      (forall i r, nth_error table i = Some r -> id r = Z.of_nat i) /\
      (exists r, nth_error table 0 = Some r /\ method r = method') /\
      (forall h,
         In h (debug_handles inline_records) ->
         refers table (position h handles) h) /\
      Forall (fun g =>
                Forall (fun fr => 0 <= frame_id fr < Z.of_nat (List.length table))
                       (group_frames g)) groups.
Proof. exact written_event_ids. Qed.

Lemma method_ids_index_the_method_table_witness :
  let w' := world_of (compiledMethodLoad (sample_host true) 1 4 4096
                        (sample_chain 2) sample_open) in
  let handles := table_handles 1 (sample_chain 2) in
  let inline_records := first_inline (sample_chain 2) in
  let groups := debug_groups handles inline_records in
  exists f' timestamp table,
    clock_gettime (sample_host true) (now sample_open) = Some timestamp /\
    output_file w' = Some f' /\ f_name f' = f_name sample_file /\
    holds (sample_host true) f'
      (f_data sample_file ++
       cmlt_bytes timestamp 4096 4 (load (sample_host true) 4096 4)
         (Z.of_nat (List.length table)) table
         (debug_count inline_records) groups) /\
    map method table = handles /\
    NoDup handles /\
    Forall (describes (sample_host true)) table /\
    (forall i r, nth_error table i = Some r -> id r = Z.of_nat i) /\
    (exists r, nth_error table 0 = Some r /\ method r = 1) /\
    (forall h,
       In h (debug_handles inline_records) ->
       refers table (position h handles) h) /\
    Forall (fun g =>
              Forall (fun fr => 0 <= frame_id fr < Z.of_nat (List.length table))
                     (group_frames g)) groups.
Proof.
  intros w'.
  eapply (method_ids_index_the_method_table (sample_host true) 1 4 4096
            (sample_chain 2) sample_open w' sample_file).
  - reflexivity.
  - reflexivity.
  - vm_compute. reflexivity.
  - vm_compute. reflexivity.
  - vm_compute. repeat constructor; discriminate.
Defined.

(** X19: what the CMLT record of an event says.  When compiledMethodLoad,
    entered with the lock free on an open output file, returns having
    taken the lock (the event was not abandoned), the stream has gained
    one CMLT record stamped with the time read at entry, and holds
    nothing else that is new.  Its method table lists one entry per
    method, for the compiled method first and then for the methods of
    the frames of the first inline record in the order in which the loops
    first meet them, entry i with id i; each entry holds what the runtime
    answered when it was asked about the method of that entry: the
    signature of its class, its name and its signature, the source file
    and the line numbers when the runtime handed them out.  Its debug
    information gives, for each program counter the loops visit and in
    their order, the pc, the number of frames, and for each frame the
    place in the table of the method of the frame and the bytecode index
    of the frame; without an inline record it gives the count 0 and
    nothing else.  That the record has reached the file is known only of
    a runtime whose every flush is complete, since the handler does not
    look at what fflush returns. *)
Theorem compiled_method_load_record_content :
  forall (host : Host) (method' : jmethodID) (code_size code_addr : Z)
         (compile_info : list jvmtiCompiledMethodLoadRecordHeader)
         (w w' : World) (f : FILE),
    file_lock w = false ->
    output_file w = Some f ->
    compiledMethodLoad host method' code_size code_addr compile_info w = Ok tt w' ->
    acquired w' <> acquired w ->
    exists timestamp table f',
      clock_gettime host (now w) = Some timestamp /\
      map method table = table_handles method' compile_info /\
      Forall (describes host) table /\
      (forall i r, nth_error table i = Some r -> id r = Z.of_nat i) /\
      output_file w' = Some f' /\ f_name f' = f_name f /\
      holds host f'
        (f_data f ++
         cmlt_bytes timestamp code_addr code_size (load host code_addr code_size)
           (Z.of_nat (List.length table)) table
           (debug_count (first_inline compile_info))
           (debug_groups (table_handles method' compile_info)
              (first_inline compile_info))).
Proof. exact compiledMethodLoad_content. Qed.

Lemma compiled_method_load_record_content_witness :
  let w' := world_of (compiledMethodLoad (sample_host true) 1 16 4096
                        (sample_chain 2) sample_open) in
  exists timestamp table f',
    clock_gettime (sample_host true) (now sample_open) = Some timestamp /\
    map method table = table_handles 1 (sample_chain 2) /\
    Forall (describes (sample_host true)) table /\
    (forall i r, nth_error table i = Some r -> id r = Z.of_nat i) /\
    output_file w' = Some f' /\ f_name f' = f_name sample_file /\
    holds (sample_host true) f'
      (f_data sample_file ++
       cmlt_bytes timestamp 4096 16 (load (sample_host true) 4096 16)
         (Z.of_nat (List.length table)) table
         (debug_count (first_inline (sample_chain 2)))
         (debug_groups (table_handles 1 (sample_chain 2))
            (first_inline (sample_chain 2)))).
Proof.
  intros w'.
  apply (compiled_method_load_record_content (sample_host true) 1 16 4096
           (sample_chain 2) sample_open w' sample_file).
  - reflexivity.
  - reflexivity.
  - vm_compute. reflexivity.
  - vm_compute. discriminate.
Defined.

(** ** The chain of compile_info *)

Lemma first_inline_first pre r post :
  Forall (fun h => is_inline_info (kind h) = false) pre ->
  is_inline_info (kind r) = true ->
  first_inline (pre ++ r :: post) = Some (as_inline_record r).
Proof.
  intros Hpre Hr. unfold first_inline.
  induction Hpre as [|h pre Hh Hpre IH]; cbn [app find].
  - now rewrite Hr.
  - rewrite Hh. exact IH.
Qed.

Lemma first_inline_used :
  forall (host : Host) (method' : jmethodID) (code_size code_addr : Z)
         (pre post : list jvmtiCompiledMethodLoadRecordHeader)
         (r : jvmtiCompiledMethodLoadRecordHeader),
    Forall (fun h => is_inline_info (kind h) = false) pre ->
    is_inline_info (kind r) = true ->
    let inline_records := as_inline_record r in
    let frames := flat_map frame_handles (visited_pcs inline_records) in
    let handles := fold_left remember frames [method'] in
    (forall w,
       compiledMethodLoad host method' code_size code_addr (pre ++ r :: post) w =
       compiledMethodLoad host method' code_size code_addr [r] w) /\
    (forall w w' f,
       file_lock w = false ->
       output_file w = Some f ->
       compiledMethodLoad host method' code_size code_addr (pre ++ r :: post) w =
         Ok tt w' ->
       acquired w' <> acquired w ->
       exists timestamp table f',
         clock_gettime host (now w) = Some timestamp /\
         map method table = handles /\
         Forall (describes host) table /\
         (forall h, In h frames -> refers table (position h handles) h) /\
         output_file w' = Some f' /\ f_name f' = f_name f /\
         holds host f'
           (f_data f ++
            cmlt_bytes timestamp code_addr code_size
              (load host code_addr code_size)
              (Z.of_nat (List.length table)) table
              (numpcs inline_records)
              (map (debug_group handles) (visited_pcs inline_records)))).
Proof.
  intros host method' code_size code_addr pre post r Hpre Hr
         inline_records frames handles.
  split.
  - intros w. unfold compiledMethodLoad.
    apply bind_ext. intros timestamp w1.
    apply bind_ext. intros [[found ms] count] w2.
    destruct found as [x|]; [|reflexivity].
    unfold bind. now rewrite (scan_compile_info_first host pre r post Hpre Hr).
  - intros w w' f Hlock Hf Hrun Hacq.
    destruct (compiledMethodLoad_content host method' code_size code_addr
                (pre ++ r :: post) w w' f Hlock Hf Hrun Hacq)
      as (timestamp & table & f' & Hc & Hhs & Hd & Hids & F1 & F2 & F3).
    destruct (table_frames method' (pre ++ r :: post) table Hhs Hids)
      as (_ & Hrefers & _).
    unfold table_handles in Hhs, Hrefers, F3.
    rewrite (first_inline_first pre r post Hpre Hr) in Hhs, Hrefers, F3.
    exists timestamp, table, f'.
    split; [exact Hc|]. split; [exact Hhs|]. split; [exact Hd|].
    split; [exact Hrefers|]. split; [exact F1|]. split; [exact F2|].
    exact F3.
Qed.

(** C10: of the chain of compile_info the handler uses the first record of
    kind JVMTI_CMLR_INLINE_INFO and nothing else.  The records before it
    and every record after it, inline records included, change nothing of
    what the handler does: the run is the run on the chain that holds
    that record alone.  When the event is written, the methods resolved
    for the method table are the compiled method and the methods of the
    frames of that first inline record, in the order in which its frames
    are first met, each entry holding what the runtime answered about
    its method; and the debug information that is serialized is that of
    this record: the count of its program counters and, for each of them,
    its frames, each referring to the entry of its method in the
    table. *)
Theorem first_inline_record_only :
  forall (host : Host) (method' : jmethodID) (code_size code_addr : Z)
         (pre post : list jvmtiCompiledMethodLoadRecordHeader)
         (r : jvmtiCompiledMethodLoadRecordHeader),
    Forall (fun h => is_inline_info (kind h) = false) pre ->
    is_inline_info (kind r) = true ->
    let inline_records := as_inline_record r in
    let frames := flat_map frame_handles (visited_pcs inline_records) in
    let handles := fold_left remember frames [method'] in
    (forall w,
       compiledMethodLoad host method' code_size code_addr (pre ++ r :: post) w =
       compiledMethodLoad host method' code_size code_addr [r] w) /\
    (forall w w' f,
       file_lock w = false ->
       output_file w = Some f ->
       compiledMethodLoad host method' code_size code_addr (pre ++ r :: post) w =
         Ok tt w' ->
       acquired w' <> acquired w ->
       exists timestamp table f',
         clock_gettime host (now w) = Some timestamp /\
         map method table = handles /\
         Forall (describes host) table /\
         (forall h, In h frames -> refers table (position h handles) h) /\
         output_file w' = Some f' /\ f_name f' = f_name f /\
         holds host f'
           (f_data f ++
            cmlt_bytes timestamp code_addr code_size
              (load host code_addr code_size)
              (Z.of_nat (List.length table)) table
              (numpcs inline_records)
              (map (debug_group handles) (visited_pcs inline_records)))).
Proof. exact first_inline_used. Qed.

Lemma first_inline_record_only_witness :
  let pre := [mkHeader JVMTI_CMLR_DUMMY (mkInlineRecord 5 [])] in
  let r := mkHeader JVMTI_CMLR_INLINE_INFO
             (mkInlineRecord 1 [mkPCStackInfo 4100 2 [2; 1] [10; 11]]) in
  let post := [mkHeader JVMTI_CMLR_INLINE_INFO
                 (mkInlineRecord 1 [mkPCStackInfo 4200 1 [3] [12]])] in
  let w' := world_of (compiledMethodLoad (sample_host true) 1 4 4096
                        (pre ++ r :: post) sample_open) in
  (forall w,
     compiledMethodLoad (sample_host true) 1 4 4096 (pre ++ r :: post) w =
     compiledMethodLoad (sample_host true) 1 4 4096 [r] w) /\
  exists timestamp table f',
    clock_gettime (sample_host true) (now sample_open) = Some timestamp /\
    map method table = [1; 2] /\
    Forall (describes (sample_host true)) table /\
    (forall h, In h [2; 1] -> refers table (position h [1; 2]) h) /\
    output_file w' = Some f' /\ f_name f' = f_name sample_file /\
    holds (sample_host true) f'
      (f_data sample_file ++
       cmlt_bytes timestamp 4096 4 (load (sample_host true) 4096 4)
         (Z.of_nat (List.length table)) table 1
         [mkGroup 4100 2 [mkFrame 1 10; mkFrame 0 11]]).
Proof.
  intros pre r post w'.
  destruct (first_inline_record_only (sample_host true) 1 4 4096 pre post r)
    as (Hsame & Hwritten).
  - repeat constructor.
  - reflexivity.
  - split; [exact Hsame|].
    apply (Hwritten sample_open w' sample_file).
    + reflexivity.
    + reflexivity.
    + vm_compute. reflexivity.
    + vm_compute. discriminate.
Defined.

(** ** An event on a runtime that knows its methods *)

Lemma compiledMethodLoad_written :
  forall (host : Host) (method' : jmethodID) (code_size code_addr : Z)
         (compile_info : list jvmtiCompiledMethodLoadRecordHeader)
         (w : World) (f : FILE) (timestamp : timespec),
    io_ok host ->
    flush_ok host ->
    known host method' ->
    chain_ok host compile_info ->
    0 < code_size ->
    output_file w = Some f ->
    file_lock w = false ->
    clock_gettime host (now w) = Some timestamp ->
    exists w' table,
      compiledMethodLoad host method' code_size code_addr compile_info w =
        Ok tt w' /\
      map method table = table_handles method' compile_info /\
      Forall (describes host) table /\
      (forall i r, nth_error table i = Some r -> id r = Z.of_nat i) /\
      (let data :=
         f_data f ++
         cmlt_bytes timestamp code_addr code_size (load host code_addr code_size)
           (Z.of_nat (List.length table)) table
           (debug_count (first_inline compile_info))
           (debug_groups (table_handles method' compile_info)
              (first_inline compile_info)) in
       output_file w' = Some (mkFILE (f_name f) data (List.length data))) /\
      file_lock w' = false /\ stderr w' = stderr w /\
      acquired w' = S (acquired w) /\
      Forall (fun q => ~ shutdown_query q /\ q_locked q = false)
        (skipn (List.length (queries w)) (queries w')).
Proof.
  intros host method' code_size code_addr compile_info w f timestamp
         Hio Hflush Hknown Hchain Hsize Ef Hlock Hclock.
  assert (Hf : output_file w <> None) by congruence.
  destruct (compiledMethodLoad_runs host Hio method' code_size code_addr
              compile_info w timestamp Hclock Hknown Hchain Hsize Hf Hlock)
    as ([] & w' & Hrun & Hacq).
  pose proof (compiledMethodLoad_sat host method' code_size code_addr
                compile_info w Hlock) as Hs.
  rewrite Hrun in Hs. simpl in Hs.
  destruct Hs as (L & _ & E & qs & gb & Q & QU & _ & _ & [(_ & _ & A)|Hwr]);
    [rewrite A in Hacq; lia|].
  destruct Hwr as (QN & _).
  destruct (compiledMethodLoad_content host method' code_size code_addr
              compile_info w w' f Hlock Ef Hrun ltac:(lia))
    as (ts' & table & f' & Hc' & Hhs & Hd & Hids & F1 & F2 & F3 & F4).
  rewrite Hclock in Hc'. injection Hc' as <-.
  exists w', table. split; [exact Hrun|]. split; [exact Hhs|].
  split; [exact Hd|]. split; [exact Hids|].
  split.
  { cbv zeta. rewrite F1. f_equal. destruct f' as [n d fl]. simpl in *.
    now rewrite F2, F3, (F4 Hflush). }
  split; [exact L|]. split; [exact E|]. split; [exact Hacq|].
  unfold new_queries in Q. rewrite Q, skipn_app, Nat.sub_diag, skipn_all. simpl.
  rewrite Forall_forall in *. intros q Hq. split; [apply QN|apply QU]; exact Hq.
Qed.

(** X15: a compiled method load event on a runtime that knows its methods
    is written.  When the runtime answers the queries about the compiled
    method and about the method of every frame of the debug information
    (the source file and the line numbers may be missing), the arrays of
    the first inline record of the chain are as long as their counts say,
    the code size is positive, the wall clock can be read, every write
    succeeds and every flush is complete, compiledMethodLoad called with
    the lock free on an open output file returns: no diagnostic is
    printed, the lock was taken once and is free again, no query was made
    under the lock or met a shutdown, and the file has gained exactly one
    CMLT record, stamped with the time read at entry.  The table of the
    record lists the compiled method and then the methods of the frames
    in the order in which they are first met, entry i with id i and with
    what the runtime answered about its method; the debug information is
    that of the first inline record, each frame with the place of its
    method in the table.  All of the record has reached the file, which
    rests on the assumption on the flushes: the handler does not look at
    what fflush returns. *)
Theorem compiled_method_load_is_written :
  forall (host : Host) (method' : jmethodID) (code_size code_addr : Z)
         (compile_info : list jvmtiCompiledMethodLoadRecordHeader)
         (w : World) (f : FILE) (timestamp : timespec),
    io_ok host ->
    flush_ok host ->
    known host method' ->
    chain_ok host compile_info ->
    0 < code_size ->
    output_file w = Some f ->
    file_lock w = false ->
    clock_gettime host (now w) = Some timestamp ->
    exists w' table,
      compiledMethodLoad host method' code_size code_addr compile_info w =
        Ok tt w' /\
      map method table = table_handles method' compile_info /\
      Forall (describes host) table /\
      (forall i r, nth_error table i = Some r -> id r = Z.of_nat i) /\
      (let data :=
         f_data f ++
         cmlt_bytes timestamp code_addr code_size (load host code_addr code_size)
           (Z.of_nat (List.length table)) table
           (debug_count (first_inline compile_info))
           (debug_groups (table_handles method' compile_info)
              (first_inline compile_info)) in
       output_file w' = Some (mkFILE (f_name f) data (List.length data))) /\
      file_lock w' = false /\ stderr w' = stderr w /\
      acquired w' = S (acquired w) /\
      Forall (fun q => ~ shutdown_query q /\ q_locked q = false)
        (skipn (List.length (queries w)) (queries w')).
Proof. exact compiledMethodLoad_written. Qed.

Lemma compiled_method_load_is_written_witness :
  exists w' table,
    compiledMethodLoad (sample_host true) 1 16 4096 (sample_chain 2) sample_open =
      Ok tt w' /\
    map method table = table_handles 1 (sample_chain 2) /\
    Forall (describes (sample_host true)) table /\
    (forall i r, nth_error table i = Some r -> id r = Z.of_nat i) /\
    (let data :=
       f_data sample_file ++
       cmlt_bytes (mkTimespec 5 7) 4096 16 (load (sample_host true) 4096 16)
         (Z.of_nat (List.length table)) table
         (debug_count (first_inline (sample_chain 2)))
         (debug_groups (table_handles 1 (sample_chain 2))
            (first_inline (sample_chain 2))) in
     output_file w' = Some (mkFILE (f_name sample_file) data (List.length data))) /\
    file_lock w' = false /\ stderr w' = stderr sample_open /\
    acquired w' = S (acquired sample_open) /\
    Forall (fun q => ~ shutdown_query q /\ q_locked q = false)
      (skipn (List.length (queries sample_open)) (queries w')).
Proof.
  apply (compiled_method_load_is_written (sample_host true) 1 16 4096
           (sample_chain 2) sample_open sample_file (mkTimespec 5 7)).
  - intros t. reflexivity.
  - intros t. reflexivity.
  - apply sample_host_knows. discriminate.
  - intros r E. injection E as <-.
    split; [simpl; lia|]. constructor; [|constructor].
    split; [simpl; lia|]. split; [simpl; lia|].
    constructor; [apply sample_host_knows; discriminate|].
    constructor; [apply sample_host_knows; discriminate|constructor].
  - lia.
  - reflexivity.
  - reflexivity.
  - reflexivity.
Defined.
